(** * FileOrganizer: classification, alias normalisation, collision-safe
      moves and the iterative directory walk.

    A shallow embedding of [extensions.cpp], [filesystem_utils.cpp] and
    [organizer.cpp].  Strings are byte strings, [std::filesystem::path] is a
    string with the lexical operations of the POSIX flavour of the standard
    library, the file system is a tree of named nodes, and a function that
    can throw [std::filesystem::filesystem_error] returns a [result]. *)

From Stdlib Require Import String Ascii List Bool Arith Lia.
From Stdlib Require Import DecimalString DecimalNat Finite.
From stdpp Require Import gmap strings.
Import ListNotations.

Local Open Scope string_scope.
Local Open Scope list_scope.

(* ================================================================== *)
(** ** Bytes and strings *)
(* ================================================================== *)

(** [::tolower] in the "C" locale: only 'A'..'Z' change. *)
Definition tolower (c : ascii) : ascii :=
  let n := nat_of_ascii c in
  if ((65 <=? n) && (n <=? 90))%nat then ascii_of_nat (n + 32) else c.

(** [std::transform(s.begin(), s.end(), s.begin(), ::tolower)]. *)
Fixpoint to_lower (s : string) : string :=
  match s with
  | EmptyString => EmptyString
  | String c t => String (tolower c) (to_lower t)
  end.

(** Membership of a byte in a string. *)
Fixpoint has_char (c : ascii) (s : string) : bool :=
  match s with
  | EmptyString => false
  | String a t => Ascii.eqb a c || has_char c t
  end.

(** [s.rfind(c)]: the text before and after the LAST occurrence of [c]. *)
Fixpoint rsplit (c : ascii) (s : string) : option (string * string) :=
  match s with
  | EmptyString => None
  | String a t =>
      match rsplit c t with
      | Some (u, v) => Some (String a u, v)
      | None => if Ascii.eqb a c then Some (EmptyString, t) else None
      end
  end.

(** Drop every trailing [c]. *)
Fixpoint rstrip (c : ascii) (s : string) : string :=
  match s with
  | EmptyString => EmptyString
  | String a t =>
      match rstrip c t with
      | EmptyString => if Ascii.eqb a c then EmptyString else String a EmptyString
      | t' => String a t'
      end
  end.

Definition ends_with (c : ascii) (s : string) : bool :=
  match rsplit c s with
  | Some (_, EmptyString) => true
  | _ => false
  end.

Definition starts_with (c : ascii) (s : string) : bool :=
  match s with
  | String a _ => Ascii.eqb a c
  | EmptyString => false
  end.

(** [s.erase(0, 1)]. *)
Definition erase_first (s : string) : string :=
  match s with
  | String _ t => t
  | EmptyString => EmptyString
  end.

(** [std::to_string] of a non-negative counter. *)
Definition to_string (n : nat) : string :=
  NilEmpty.string_of_uint (Nat.to_uint n).

(* ================================================================== *)
(** ** [std::filesystem::path], lexically *)
(* ================================================================== *)

Definition sep : ascii := "/"%char.
Definition dot : ascii := "."%char.

(** [p.filename()]: what follows the last separator. *)
Definition path_filename (p : string) : string :=
  match rsplit sep p with
  | Some (_, f) => f
  | None => p
  end.

(** [p.extension()]: from the last dot of the filename, unless the filename
    is "." or "..", has no dot, or has its only dot in front. *)
Definition path_extension (p : string) : string :=
  let f := path_filename p in
  if String.eqb f "." || String.eqb f ".." then ""
  else match rsplit dot f with
       | Some (EmptyString, _) => ""
       | Some (_, e) => String dot e
       | None => ""
       end.

(** [p.stem()]: the filename without its extension. *)
Definition path_stem (p : string) : string :=
  let f := path_filename p in
  if String.eqb f "." || String.eqb f ".." then f
  else match rsplit dot f with
       | Some (EmptyString, _) => f
       | Some (s, _) => s
       | None => f
       end.

(** [p.parent_path()]: the path up to the end of the component before the
    last one; the root directory is its own parent. *)
Definition path_parent_path (p : string) : string :=
  match rsplit sep p with
  | None => ""
  | Some (d, _) =>
      match rstrip sep d with
      | EmptyString => "/"
      | d' => d'
      end
  end.

(** [p / q]. *)
Definition path_append (p q : string) : string :=
  if starts_with sep q then q
  else match p with
       | EmptyString => q
       | _ => if ends_with sep p then p +:+ q else p +:+ "/" +:+ q
       end.

(** The components of a path between separators. *)
Fixpoint segments_aux (s : string) : string * list string :=
  match s with
  | EmptyString => (EmptyString, [])
  | String a t =>
      let (h, r) := segments_aux t in
      if Ascii.eqb a sep then (EmptyString, h :: r) else (String a h, r)
  end.

Definition segments (s : string) : list string :=
  let (h, r) := segments_aux s in h :: r.

Definition is_proper_segment (s : string) : bool :=
  negb (String.eqb s "") && negb (String.eqb s ".").

(** The node a path denotes is found by walking its components from the
    root; empty components and "." do not move.  The working directory is
    the root, and dot-dot is not interpreted (no entry bears that name). *)
Definition resolve (p : string) : list string :=
  List.filter is_proper_segment (segments p).

(* ================================================================== *)
(** ** [std::map] and [std::set] keyed by strings *)
(* ================================================================== *)

(** A [std::map<std::string, V>] is kept as the list of its pairs in
    iteration order, that is by increasing key (bytes compared unsigned). *)
Fixpoint map_find {V : Type} (k : string) (m : list (string * V)) : option V :=
  match m with
  | [] => None
  | (k', v) :: r => if String.eqb k k' then Some v else map_find k r
  end.

(** [m.insert({k, v})]: an equal key already present stays as it is. *)
Fixpoint map_insert {V : Type} (k : string) (v : V) (m : list (string * V))
  : list (string * V) :=
  match m with
  | [] => [(k, v)]
  | (k', v') :: r =>
      match String.compare k k' with
      | Lt => (k, v) :: m
      | Eq => m
      | Gt => (k', v') :: map_insert k v r
      end
  end.

(** Construction from an initializer list. *)
Definition std_map {V : Type} (init : list (string * V)) : list (string * V) :=
  fold_left (fun m kv => map_insert (fst kv) (snd kv) m) init [].

Definition std_set (init : list string) : list string :=
  List.map fst (std_map (List.map (fun x => (x, tt)) init)).

(* ================================================================== *)
(** ** extensions.cpp: the classification catalog *)
(* ================================================================== *)

Definition CATEGORY_EXTENSION_MAP_init : list (string * list string) :=
  [
    ("Image Files",
      [ "jpg"; "jpeg"; "png"; "gif"; "bmp"; "webp"; "tiff"; "svg"; "ico"; "heic" ]);
    ("Video Files",
      [ "mp4"; "mkv"; "avi"; "mov"; "wmv"; "flv"; "webm"; "mpeg"; "mpg"; "3gp"; "m4v" ]);
    ("Audio Files",
      [ "mp3"; "wav"; "aac"; "flac"; "ogg"; "m4a"; "wma"; "opus"; "aiff" ]);
    ("Text Files",
      [ "txt"; "md"; "log"; "rtf"; "nfo" ]);
    ("PDF Files",
      [ "pdf" ]);
    ("Word Files",
      [ "doc"; "docx" ]);
    ("Excel Files",
      [ "xls"; "xlsx" ]);
    ("PowerPoint Files",
      [ "ppt"; "pptx" ]);
    ("C Files",
      [ "c" ]);
    ("C++ Files",
      [ "cpp"; "cc"; "cxx" ]);
    ("Header Files",
      [ "h"; "hpp"; "hh"; "hxx" ]);
    ("Java Files",
      [ "java" ]);
    ("Python Files",
      [ "py" ]);
    ("JavaScript Files",
      [ "js" ]);
    ("TypeScript Files",
      [ "ts" ]);
    ("Web Files",
      [ "html"; "css"; "scss" ]);
    ("Shell Scripts",
      [ "sh" ]);
    ("Go Files",
      [ "go" ]);
    ("Rust Files",
      [ "rs" ]);
    ("PHP Files",
      [ "php" ]);
    ("Data Files",
      [ "csv"; "json"; "xml"; "yaml"; "yml" ]);
    ("Database Files",
      [ "sql"; "db"; "sqlite"; "sqlite3"; "mdb" ]);
    ("Archive Files",
      [ "zip"; "rar"; "7z"; "tar"; "gz"; "bz2"; "xz"; "tgz" ]);
    ("Executable Files",
      [ "exe"; "msi"; "bin"; "app"; "apk" ]);
    ("Library Files",
      [ "dll"; "so"; "dylib"; "a"; "lib" ]);
    ("Config Files",
      [ "ini"; "conf"; "cfg"; "env" ])
  ].

Definition CATEGORY_EXTENSION_MAP : list (string * list string) :=
  std_map (List.map (fun kv => (fst kv, std_set (snd kv))) CATEGORY_EXTENSION_MAP_init).

(** The lambda that fills [CANONICAL_NAMES] with the keys of the map. *)
Definition CANONICAL_NAMES : gset string :=
  fold_left (fun canonical_names_holder it => canonical_names_holder ∪ {[ fst it ]})
            CATEGORY_EXTENSION_MAP ∅.

(** The lambda shared by [EXTENSION_LOOKUP] and [ALIAS_LOOKUP]:
    [lookup[member] = category.first] for every member of every category,
    so a member listed under two categories keeps the later one. *)
Definition invert (m : list (string * list string)) : gmap string string :=
  fold_left (fun lookup category =>
               fold_left (fun lookup member => <[ member := fst category ]> lookup)
                         (snd category) lookup)
            m ∅.

Definition EXTENSION_LOOKUP : gmap string string := invert CATEGORY_EXTENSION_MAP.

Definition classify_file_by_extension (file_path : string) : string :=
  let extension := path_extension file_path in
  if String.eqb extension "" then "Others"
  else
    let extension := to_lower (erase_first extension) in
    match EXTENSION_LOOKUP !! extension with
    | Some category => category
    | None => "Others"
    end.

(* ================================================================== *)
(** ** filesystem_utils.cpp: the alias catalog *)
(* ================================================================== *)

Definition CATEGORY_ALIAS_MAP_init : list (string * list string) :=
  [
    ("Image Files",
      [ "img"; "imgs"; "image"; "images"; "pic"; "pics"; "picture"; "pictures"; "photo";
        "photos"; "photography"; "camera"; "camera roll"; "gallery"; "photo gallery";
        "screenshots"; "wallpapers"; "backgrounds"; "portraits"; "landscapes"; "selfies";
        "family photos"; "vacation photos"; "travel photos"; "event photos";
        "wedding photos"; "birthday photos"; "nature photos"; "street photos";
        "raw images"; "edited photos"; "final images"; "scans"; "prints"; "artwork";
        "illustrations"; "graphics"; "icons"; "logos"; "thumbnails"; "references";
        "inspiration"; "concept art" ]);
    ("Video Files",
      [ "video"; "videos"; "vid"; "vids"; "movie"; "movies"; "films"; "clips";
        "recordings"; "lectures"; "screen captures"; "tutorial videos"; "courses";
        "vlogs"; "reels"; "shorts"; "vacation videos"; "travel videos"; "family videos";
        "event videos"; "wedding videos"; "gameplay"; "walkthroughs"; "streams";
        "webinars"; "meetings recordings"; "interviews"; "trailers"; "screen recordings";
        "edits"; "final cuts"; "raw footage"; "b roll"; "montage"; "highlights";
        "dashcam"; "timelapse"; "slow motion"; "drone footage" ]);
    ("Audio Files",
      [ "audio"; "audios"; "music"; "songs"; "tracks"; "albums"; "playlist"; "playlists";
        "podcast"; "audiobooks"; "voice notes"; "voice recordings"; "lectures audio";
        "interviews audio"; "sfx"; "meetings audio"; "sound effects"; "background music";
        "instrumentals"; "beats"; "loops"; "samples"; "recordings"; "live recordings";
        "concerts"; "practice"; "rehearsals"; "demos"; "draft mixes"; "final mixes";
        "masters"; "exports"; "ringtones"; "notifications"; "alarms"; "ambient sounds";
        "nature sounds"; "podcasts" ]);
    ("Text Files",
      [ "text"; "texts"; "text files"; "txt files"; "notes"; "plain text"; "logs";
        "markdown"; "readme"; "documentation"; "draft notes" ]);
    ("PDF Files",
      [ "pdf"; "pdfs"; "pdf files"; "documents pdf"; "manuals pdf"; "ebooks";
        "reports pdf"; "invoices pdf"; "statements pdf"; "scanned pdfs" ]);
    ("Word Files",
      [ "word"; "word files"; "documents word"; "doc files"; "docx files"; "letters";
        "reports word"; "essays"; "assignments"; "resumes"; "cover letters" ]);
    ("Excel Files",
      [ "excel"; "excel files"; "spreadsheets"; "sheets"; "financial sheets"; "budgets";
        "expenses"; "accounts"; "tracking sheets"; "reports excel"; "tables" ]);
    ("PowerPoint Files",
      [ "powerpoint"; "powerpoint files"; "presentations"; "slides"; "ppt files";
        "pptx files"; "pitch decks"; "lecture slides"; "meeting slides" ]);
    ("C Files",
      [ "c"; "c files"; "c source"; "c language"; "c programs" ]);
    ("C++ Files",
      [ "cpp"; "c++"; "cplusplus"; "cpp files"; "c++ source"; "c++ programs" ]);
    ("Java Files",
      [ "java"; "java files"; "java source"; "java programs" ]);
    ("Python Files",
      [ "python"; "python files"; "python source"; "py scripts"; "python programs";
        "python scripts" ]);
    ("JavaScript Files",
      [ "javascript"; "javascript files"; "js files"; "js source" ]);
    ("TypeScript Files",
      [ "typescript"; "typescript files"; "ts files"; "ts source" ]);
    ("Web Files",
      [ "web"; "web files"; "html files"; "css files"; "frontend"; "frontend files" ]);
    ("Shell Scripts",
      [ "shell"; "shell scripts"; "bash scripts"; "terminal scripts" ]);
    ("Go Files",
      [ "go"; "golang"; "go files"; "go source"; "go programs" ]);
    ("Rust Files",
      [ "rust"; "rust files"; "rust source"; "rs files"; "rust programs" ]);
    ("PHP Files",
      [ "php"; "php files"; "php source"; "php scripts" ]);
    ("Database Files",
      [ "database"; "databases"; "db"; "db files"; "sqlite"; "sql files" ]);
    ("Archive Files",
      [ "archive"; "archives"; "compressed"; "compressed files"; "zip files";
        "rar files"; "backups"; "backup archives" ]);
    ("Executable Files",
      [ "executables"; "binaries"; "apps"; "applications"; "programs"; "installers" ]);
    ("Library Files",
      [ "libraries"; "libs"; "shared libraries"; "static libraries" ]);
    ("Config Files",
      [ "config"; "configs"; "configuration"; "settings"; "env files";
        "environment config" ])
  ].

Definition CATEGORY_ALIAS_MAP : list (string * list string) :=
  std_map (List.map (fun kv => (fst kv, std_set (snd kv))) CATEGORY_ALIAS_MAP_init).

Definition ALIAS_LOOKUP : gmap string string := invert CATEGORY_ALIAS_MAP.

(* ================================================================== *)
(** ** The file system and [std::filesystem] *)
(* ================================================================== *)

(** The error codes of [std::errc] that the operations below raise. *)
Module errc.
Inductive t :=
| permission_denied
| cross_device_link
| no_such_file_or_directory
| not_a_directory
| is_a_directory
| directory_not_empty
| file_exists
| invalid_argument
| io_error
| filename_too_long
| device_or_resource_busy.

Definition eqb (a b : t) : bool :=
  match a, b with
  | permission_denied, permission_denied
  | cross_device_link, cross_device_link
  | no_such_file_or_directory, no_such_file_or_directory
  | not_a_directory, not_a_directory
  | is_a_directory, is_a_directory
  | directory_not_empty, directory_not_empty
  | file_exists, file_exists
  | invalid_argument, invalid_argument
  | io_error, io_error
  | filename_too_long, filename_too_long
  | device_or_resource_busy, device_or_resource_busy => true
  | _, _ => false
  end.
End errc.

(** What the operating system answers for a directory: the error (if any)
    of opening it for enumeration, the error (if any) of adding or removing
    one of its entries, and the storage volume it lives on. *)
Record dir_attr := {
  d_open : option errc.t;
  d_write : option errc.t;
  d_dev : nat
}.

#[local] Set Warnings "-register-all".

(** A regular file carries the error (if any) of reading it and its bytes;
    a directory carries its entries in enumeration order. *)
Inductive node :=
| File (f_read : option errc.t) (data : string)
| Dir (attr : dir_attr) (entries : list (string * node)).

(** Entries of one directory. *)
Fixpoint assoc_put {V : Type} (k : string) (v : V) (es : list (string * V))
  : list (string * V) :=
  match es with
  | [] => [(k, v)]
  | (k', v') :: r =>
      if String.eqb k k' then (k, v) :: r else (k', v') :: assoc_put k v r
  end.

Definition assoc_del {V : Type} (k : string) (es : list (string * V))
  : list (string * V) :=
  List.filter (fun e => negb (String.eqb k (fst e))) es.

Fixpoint assoc_update {V : Type} (k : string) (f : V -> V) (es : list (string * V))
  : list (string * V) :=
  match es with
  | [] => []
  | (k', v') :: r =>
      if String.eqb k k' then (k', f v') :: r else (k', v') :: assoc_update k f r
  end.

(** The node reached from [n] along the components [p]. *)
Fixpoint walk (p : list string) (n : node) : option node :=
  match p with
  | [] => Some n
  | c :: q =>
      match n with
      | Dir _ es =>
          match map_find c es with
          | Some m => walk q m
          | None => None
          end
      | File _ _ => None
      end
  end.

(** Rewrite the entries of the directory reached along [p]. *)
Fixpoint update_dir (p : list string)
         (f : list (string * node) -> list (string * node)) (n : node) : node :=
  match n with
  | File _ _ => n
  | Dir a es =>
      match p with
      | [] => Dir a (f es)
      | c :: q => Dir a (assoc_update c (update_dir q f) es)
      end
  end.

Definition split_last (l : list string) : option (list string * string) :=
  match rev l with
  | [] => None
  | x :: r => Some (rev r, x)
  end.

(** A computation over the file system returns a value, throws a
    [filesystem_error], or is cut off when its loop budget is spent. *)
Inductive result (A : Type) :=
| Ok (a : A) (fs : node)
| Throw (e : errc.t) (fs : node)
| OutOfFuel.
Arguments Ok {A} a fs.
Arguments Throw {A} e fs.
Arguments OutOfFuel {A}.

Definition M (A : Type) : Type := node -> result A.

Definition ret {A : Type} (a : A) : M A := fun fs => Ok a fs.

Definition bind {A B : Type} (m : M A) (k : A -> M B) : M B :=
  fun fs =>
    match m fs with
    | Ok a fs' => k a fs'
    | Throw e fs' => Throw e fs'
    | OutOfFuel => OutOfFuel
    end.

Notation "x <- m ;; k" := (bind m (fun x => k))
  (at level 100, m at next level, right associativity).

(** [try { m } catch (const filesystem_error& e) { h e }]. *)
Definition try_catch {A : Type} (m : M A) (h : errc.t -> M A) : M A :=
  fun fs =>
    match m fs with
    | Ok a fs' => Ok a fs'
    | Throw e fs' => h e fs'
    | OutOfFuel => OutOfFuel
    end.

(** [std::filesystem::status]: the node at a path, if any. *)
Definition fs_status (p : string) (fs : node) : option node :=
  walk (resolve p) fs.

Definition fs_exists (p : string) (fs : node) : bool :=
  match fs_status p fs with
  | Some _ => true
  | None => false
  end.

Definition fs_is_directory (p : string) (fs : node) : bool :=
  match fs_status p fs with
  | Some (Dir _ _) => true
  | _ => false
  end.

Definition fs_is_regular_file (p : string) (fs : node) : bool :=
  match fs_status p fs with
  | Some (File _ _) => true
  | _ => false
  end.

(** [directory_iterator(p)] run to its end: the names of the entries. *)
Definition fs_list (p : string) : M (list string) :=
  fun fs =>
    match fs_status p fs with
    | None => Throw errc.no_such_file_or_directory fs
    | Some (File _ _) => Throw errc.not_a_directory fs
    | Some (Dir a es) =>
        match d_open a with
        | Some e => Throw e fs
        | None => Ok (List.map fst es) fs
        end
    end.

(** A directory on another volume than the directory that lists it: the
    root of a mounted volume. *)
Definition is_mount_point (parent : dir_attr) (n : node) : bool :=
  match n with
  | Dir a _ => negb (Nat.eqb (d_dev a) (d_dev parent))
  | File _ _ => false
  end.

(** [std::filesystem::rename(old_p, new_p)], after rename(2). *)
Definition fs_rename (old_p new_p : string) : M unit :=
  fun fs =>
    match split_last (resolve old_p), split_last (resolve new_p) with
    | Some (od, on), Some (nd, nn) =>
        match walk od fs, walk nd fs with
        | Some (Dir oa oes), Some (Dir na nes) =>
            match map_find on oes with
            | None => Throw errc.no_such_file_or_directory fs
            | Some src =>
                if bool_decide (resolve old_p = resolve new_p) then Ok tt fs
                else if bool_decide (resolve old_p `prefix_of` resolve new_p)
                then Throw errc.invalid_argument fs
                else
                  match d_write oa, d_write na with
                  | Some e, _ => Throw e fs
                  | None, Some e => Throw e fs
                  | None, None =>
                      if negb (Nat.eqb (d_dev oa) (d_dev na))
                      then Throw errc.cross_device_link fs
                      else if is_mount_point oa src
                              || match map_find nn nes with
                                 | Some tgt => is_mount_point na tgt
                                 | None => false
                                 end
                      then Throw errc.device_or_resource_busy fs
                      else
                        match src, map_find nn nes with
                        | Dir _ _, Some (File _ _) => Throw errc.not_a_directory fs
                        | Dir _ _, Some (Dir _ (_ :: _)) =>
                            Throw errc.directory_not_empty fs
                        | File _ _, Some (Dir _ _) => Throw errc.is_a_directory fs
                        | _, _ =>
                            Ok tt (update_dir nd (assoc_put nn src)
                                     (update_dir od (assoc_del on) fs))
                        end
                  end
            end
        | _, _ => Throw errc.no_such_file_or_directory fs
        end
    | _, _ => Throw errc.invalid_argument fs
    end.

(** [std::filesystem::create_directory(p)]: [false] when the directory is
    already there; the new directory is on its parent's volume. *)
Definition fs_create_directory (p : string) : M bool :=
  fun fs =>
    match split_last (resolve p) with
    | None => Ok false fs
    | Some (d, n) =>
        match walk d fs with
        | Some (Dir a es) =>
            match map_find n es with
            | Some (Dir _ _) => Ok false fs
            | Some (File _ _) => Throw errc.file_exists fs
            | None =>
                match d_write a with
                | Some e => Throw e fs
                | None =>
                    let fresh := Dir {| d_open := None; d_write := None;
                                        d_dev := d_dev a |} [] in
                    Ok true (update_dir d (assoc_put n fresh) fs)
                end
            end
        | Some (File _ _) => Throw errc.not_a_directory fs
        | None => Throw errc.no_such_file_or_directory fs
        end
    end.

(** [std::filesystem::copy_file(from, to, copy_options::overwrite_existing)]. *)
Definition fs_copy_file (from to : string) : M bool :=
  fun fs =>
    match fs_status from fs with
    | Some (File (Some e) _) => Throw e fs
    | Some (File None data) =>
        match split_last (resolve to) with
        | None => Throw errc.is_a_directory fs
        | Some (d, n) =>
            match walk d fs with
            | Some (Dir a es) =>
                match map_find n es with
                | Some (Dir _ _) => Throw errc.is_a_directory fs
                | Some (File _ _) =>
                    if bool_decide (resolve from = resolve to)
                    then Throw errc.file_exists fs
                    else Ok true (update_dir d (assoc_put n (File None data)) fs)
                | None =>
                    match d_write a with
                    | Some e => Throw e fs
                    | None => Ok true (update_dir d (assoc_put n (File None data)) fs)
                    end
                end
            | Some (File _ _) => Throw errc.not_a_directory fs
            | None => Throw errc.no_such_file_or_directory fs
            end
        end
    | Some (Dir _ _) => Throw errc.invalid_argument fs
    | None => Throw errc.no_such_file_or_directory fs
    end.

(** [std::filesystem::remove(p)]: [false] when there is nothing to remove. *)
Definition fs_remove (p : string) : M bool :=
  fun fs =>
    match split_last (resolve p) with
    | None => Throw errc.invalid_argument fs
    | Some (d, n) =>
        match walk d fs with
        | Some (Dir a es) =>
            match map_find n es with
            | None => Ok false fs
            | Some (Dir _ (_ :: _)) => Throw errc.directory_not_empty fs
            | Some _ =>
                match d_write a with
                | Some e => Throw e fs
                | None => Ok true (update_dir d (assoc_del n) fs)
                end
            end
        | _ => Ok false fs
        end
    end.

(* ================================================================== *)
(** ** filesystem_utils.cpp *)
(* ================================================================== *)

Module path_status.
Inductive t := ok | not_found | not_directory | permission_denied | unknown_path_error.
End path_status.

Module create_directory_status.
Inductive t :=
| already_exists | successful_creation | permission_denied_failure | unknown_failure.
End create_directory_status.

Module file_move_status.
Inductive t :=
| successful_transfer | permission_denied | cross_device_error | unknown_failure.
End file_move_status.

(** The [try] block of [validate_path]: [accessible] becomes [false] only
    in the handler, and only for [permission_denied]. *)
Definition probe_accessible (root_path : string) (fs : node) : bool :=
  match fs_list root_path fs with
  | Throw e _ => negb (errc.eqb e errc.permission_denied)
  | _ => true
  end.

Definition validate_path (root_path : string) (fs : node) : path_status.t :=
  if negb (fs_exists root_path fs) then path_status.not_found
  else if negb (fs_is_directory root_path fs) then path_status.not_directory
  else
    let accessible := probe_accessible root_path fs in
    if negb accessible then path_status.permission_denied
    else if fs_exists root_path fs && fs_is_directory root_path fs && accessible
         then path_status.ok
         else path_status.unknown_path_error.

Definition get_parent_folder_name (current_directory_level_path : string) : string :=
  path_filename current_directory_level_path.

(** The body of the first loop of [normalize_category_folder], for the
    entry called [name]. *)
Definition scan_entry (fs : node) (current_directory_level_path : string)
           (canonical_folder_map : list (string * string)) (name : string)
  : list (string * string) :=
  let entry_path := path_append current_directory_level_path name in
  if negb (fs_is_directory entry_path fs) then canonical_folder_map
  else
    let folder_entry_name := path_filename entry_path in
    if bool_decide (folder_entry_name ∈ CANONICAL_NAMES) then canonical_folder_map
    else
      match ALIAS_LOOKUP !! to_lower folder_entry_name with
      | Some canonical_name =>
          match map_find canonical_name canonical_folder_map with
          | None => map_insert canonical_name entry_path canonical_folder_map
          | Some _ => canonical_folder_map
          end
      | None => canonical_folder_map
      end.

(** The body of the second loop: [catch (...)] swallows whatever the
    rename throws. *)
Definition rename_to_canonical (it : string * string) : M unit :=
  let canonical_folder_name := fst it in
  let old_path := snd it in
  let new_path := path_append (path_parent_path old_path) canonical_folder_name in
  if negb (String.eqb (path_filename old_path) canonical_folder_name)
  then try_catch (fs_rename old_path new_path) (fun _ => ret tt)
  else ret tt.

Fixpoint for_each {A : Type} (body : A -> M unit) (l : list A) : M unit :=
  match l with
  | [] => ret tt
  | x :: r => _ <- body x ;; for_each body r
  end.

Definition normalize_category_folder (current_directory_level_path : string) : M unit :=
  names <- fs_list current_directory_level_path ;;
  fun fs =>
    let canonical_folder_map :=
      fold_left (scan_entry fs current_directory_level_path) names [] in
    for_each rename_to_canonical canonical_folder_map fs.

Definition create_directory (target_directory_path : string)
  : M create_directory_status.t :=
  fun fs =>
    if negb (fs_exists target_directory_path fs) then
      try_catch
        (_ <- fs_create_directory target_directory_path ;;
         ret create_directory_status.successful_creation)
        (fun e =>
           if errc.eqb e errc.permission_denied
           then ret create_directory_status.permission_denied_failure
           else ret create_directory_status.unknown_failure)
        fs
    else Ok create_directory_status.already_exists fs.

(** "stem(counter)extension". *)
Definition new_filename (stem extension : string) (counter : nat) : string :=
  stem +:+ "(" +:+ to_string counter +:+ ")" +:+ extension.

(** The [do ... while] of [get_unique_path], run at most [fuel] times. *)
Fixpoint probe_free (fuel : nat) (fs : node) (destination_dir stem extension : string)
         (counter : nat) : option string :=
  match fuel with
  | O => None
  | S fuel' =>
      let target_path :=
        path_append destination_dir (new_filename stem extension counter) in
      if fs_exists target_path fs
      then probe_free fuel' fs destination_dir stem extension (S counter)
      else Some target_path
  end.

Definition entry_count (p : string) (fs : node) : nat :=
  match fs_status p fs with
  | Some (Dir _ es) => length es
  | _ => 0
  end.

(** The loop is given one round more than the destination has entries. *)
Definition get_unique_path (destination_dir filename : string) : M string :=
  fun fs =>
    let target_path := path_append destination_dir filename in
    if negb (fs_exists target_path fs) then Ok target_path fs
    else
      let stem := path_stem filename in
      let extension := path_extension filename in
      match probe_free (S (entry_count destination_dir fs)) fs
                       destination_dir stem extension 1 with
      | Some target_path => Ok target_path fs
      | None => OutOfFuel
      end.

Definition atomic_file_transfer (source_path destination_dir_path : string)
  : M file_move_status.t :=
  try_catch
    (new_unique_destination <-
       get_unique_path destination_dir_path (path_filename source_path) ;;
     _ <- fs_rename source_path new_unique_destination ;;
     ret file_move_status.successful_transfer)
    (fun e =>
       if errc.eqb e errc.permission_denied then ret file_move_status.permission_denied
       else if errc.eqb e errc.cross_device_link
            then ret file_move_status.cross_device_error
            else ret file_move_status.unknown_failure).

Definition fallback_transfer (source_path destination_dir_path : string)
  : M file_move_status.t :=
  try_catch
    (new_unique_destination <-
       get_unique_path destination_dir_path (path_filename source_path) ;;
     _ <- fs_copy_file source_path new_unique_destination ;;
     _ <- fs_remove source_path ;;
     ret file_move_status.successful_transfer)
    (fun e =>
       if errc.eqb e errc.permission_denied then ret file_move_status.permission_denied
       else ret file_move_status.unknown_failure).

(* ================================================================== *)
(** ** organizer.cpp *)
(* ================================================================== *)

Module organize_status.
Inductive t :=
| success
| path_not_found
| not_a_directory
| permission_denied
| directory_creation_failed
| already_in_correct_location
| atomic_transfer_failed
| fallback_transfer_failed
| unknown_error.

Definition eqb (a b : t) : bool :=
  match a, b with
  | success, success
  | path_not_found, path_not_found
  | not_a_directory, not_a_directory
  | permission_denied, permission_denied
  | directory_creation_failed, directory_creation_failed
  | already_in_correct_location, already_in_correct_location
  | atomic_transfer_failed, atomic_transfer_failed
  | fallback_transfer_failed, fallback_transfer_failed
  | unknown_error, unknown_error => true
  | _, _ => false
  end.
End organize_status.

Module transfer_mode.
Inductive t := atomic_transfer_mode | fallback_transfer_mode.
End transfer_mode.

Definition process_path_validation (root_path : string) (fs : node) : organize_status.t :=
  match validate_path root_path fs with
  | path_status.ok => organize_status.success
  | path_status.not_found => organize_status.path_not_found
  | path_status.not_directory => organize_status.not_a_directory
  | path_status.permission_denied => organize_status.permission_denied
  | path_status.unknown_path_error => organize_status.unknown_error
  end.

(** [ALIAS_LOOKUP.find(name) != end() && ALIAS_LOOKUP.at(name) == category]
    and its sibling with [!=]. *)
Definition alias_of_category (name category : string) : bool :=
  match ALIAS_LOOKUP !! name with
  | Some c => String.eqb c category
  | None => false
  end.

Definition alias_of_other_category (name category : string) : bool :=
  match ALIAS_LOOKUP !! name with
  | Some c => negb (String.eqb c category)
  | None => false
  end.

(** The directory under which [handle_file] puts the category folder. *)
Definition base_location (current_directory_level_path category_name : string) : string :=
  let parent_folder_name := get_parent_folder_name current_directory_level_path in
  if bool_decide (parent_folder_name ∈ CANONICAL_NAMES)
     && negb (String.eqb category_name parent_folder_name)
  then path_parent_path current_directory_level_path
  else if alias_of_other_category parent_folder_name category_name
       then path_parent_path current_directory_level_path
       else current_directory_level_path.

(** The status [handle_file] makes of the two outcomes, per mode. *)
Definition combine_atomic (creation_result : create_directory_status.t)
           (atomic_transfer_result : file_move_status.t) : organize_status.t :=
  match creation_result, atomic_transfer_result with
  | (create_directory_status.successful_creation | create_directory_status.already_exists),
    file_move_status.successful_transfer => organize_status.success
  | create_directory_status.permission_denied_failure, _ => organize_status.permission_denied
  | _, file_move_status.permission_denied => organize_status.permission_denied
  | _, file_move_status.cross_device_error => organize_status.atomic_transfer_failed
  | create_directory_status.unknown_failure, _ => organize_status.directory_creation_failed
  | _, _ => organize_status.unknown_error
  end.

Definition combine_fallback (creation_result : create_directory_status.t)
           (fallback_transfer_result : file_move_status.t) : organize_status.t :=
  match creation_result, fallback_transfer_result with
  | (create_directory_status.successful_creation | create_directory_status.already_exists),
    file_move_status.successful_transfer => organize_status.success
  | create_directory_status.permission_denied_failure, _ => organize_status.permission_denied
  | _, file_move_status.permission_denied => organize_status.permission_denied
  | create_directory_status.unknown_failure, _ => organize_status.directory_creation_failed
  | _, _ => organize_status.fallback_transfer_failed
  end.

Definition handle_file (current_directory_level_path entry_path : string)
           (t_mode : transfer_mode.t) : M organize_status.t :=
  let category_name := classify_file_by_extension entry_path in
  let parent_folder_name := get_parent_folder_name current_directory_level_path in
  if String.eqb category_name parent_folder_name
  then ret organize_status.already_in_correct_location
  else if alias_of_category parent_folder_name category_name
  then ret organize_status.already_in_correct_location
  else
    let destination_dir_path :=
      path_append (base_location current_directory_level_path category_name)
                  category_name in
    creation_result <- create_directory destination_dir_path ;;
    match t_mode with
    | transfer_mode.atomic_transfer_mode =>
        atomic_transfer_result <- atomic_file_transfer entry_path destination_dir_path ;;
        ret (combine_atomic creation_result atomic_transfer_result)
    | transfer_mode.fallback_transfer_mode =>
        fallback_transfer_result <- fallback_transfer entry_path destination_dir_path ;;
        ret (combine_fallback creation_result fallback_transfer_result)
    end.

(** The state of the [for] loop of [organize_directory]: the stack of
    directories (its back is the head of the list) and, as an observation
    only, the statuses [handle_file] returned so far. *)
Record walk_state := {
  directories : list string;
  handled : list organize_status.t
}.

(** The loop over the entries of one level: [Some s] is [return s]. *)
Fixpoint for_entries (current_directory_level_path : string) (t_mode : transfer_mode.t)
         (names : list string) (st : walk_state)
  : M (option organize_status.t * walk_state) :=
  match names with
  | [] => ret (None, st)
  | name :: rest =>
      let entry_path := path_append current_directory_level_path name in
      fun fs =>
        if fs_is_regular_file entry_path fs then
          (s <- handle_file current_directory_level_path entry_path t_mode ;;
           let st' := {| directories := directories st;
                         handled := handled st ++ [s] |} in
           if organize_status.eqb s organize_status.already_in_correct_location
           then for_entries current_directory_level_path t_mode rest st'
           else if negb (organize_status.eqb s organize_status.success)
                then ret (Some s, st')
                else for_entries current_directory_level_path t_mode rest st') fs
        else if fs_is_directory entry_path fs then
          let name := path_filename entry_path in
          if negb (String.eqb name "") && negb (starts_with dot name)
          then for_entries current_directory_level_path t_mode rest
                 {| directories := entry_path :: directories st;
                    handled := handled st |} fs
          else for_entries current_directory_level_path t_mode rest st fs
        else for_entries current_directory_level_path t_mode rest st fs
  end.

(** The [while] loop, run at most [fuel] times. *)
Fixpoint organize_loop (fuel : nat) (t_mode : transfer_mode.t) (st : walk_state)
  : M (organize_status.t * list organize_status.t) :=
  match fuel with
  | O => fun _ => OutOfFuel
  | S fuel' =>
      match directories st with
      | [] => ret (organize_status.success, handled st)
      | current_directory_level_path :: rest =>
          _ <- normalize_category_folder current_directory_level_path ;;
          names <- fs_list current_directory_level_path ;;
          r <- for_entries current_directory_level_path t_mode names
                 {| directories := rest; handled := handled st |} ;;
          match r with
          | (Some s, st') => ret (s, handled st')
          | (None, st') => organize_loop fuel' t_mode st'
          end
      end
  end.

Definition organize_directory (fuel : nat) (root_path : string) (t_mode : transfer_mode.t)
  : M (organize_status.t * list organize_status.t) :=
  fun fs =>
    let root_path_state := process_path_validation root_path fs in
    if negb (organize_status.eqb root_path_state organize_status.success)
    then Ok (root_path_state, []) fs
    else organize_loop fuel t_mode {| directories := [root_path]; handled := [] |} fs.

(* ================================================================== *)
(** ** Checks and sample file systems used in the statements below *)
(* ================================================================== *)

(** A check of every (category, member) pair of a catalog. *)
Definition all_members (P : string -> string -> bool) (m : list (string * list string))
  : bool :=
  forallb (fun kv => forallb (P (fst kv)) (snd kv)) m.

(** The categories of a catalog that list [x]. *)
Definition owners (m : list (string * list string)) (x : string) : list string :=
  List.map fst (List.filter (fun kv => existsb (String.eqb x) (snd kv)) m).

(** [f] leaves the entry called [c] alone. *)
Definition keeps (f : list (string * node) -> list (string * node)) (c : string) : Prop :=
  forall es, map_find c (f es) = map_find c es.

(** A string of separators only. *)
Fixpoint only_seps (s : string) : bool :=
  match s with
  | EmptyString => true
  | String a t => Ascii.eqb a sep && only_seps t
  end.

(** A name a directory entry can bear, as far as paths go. *)
Definition good_name (n : string) : bool :=
  negb (has_char sep n) && is_proper_segment n && negb (String.eqb n "..").

(** The entry [name] of the level is a directory that
    [normalize_category_folder] takes for an alias of [category]. *)
Definition alias_folder (fs : node) (current_directory_level_path category name : string)
  : bool :=
  let entry_path := path_append current_directory_level_path name in
  fs_is_directory entry_path fs
  && negb (bool_decide (path_filename entry_path ∈ CANONICAL_NAMES))
  && match ALIAS_LOOKUP !! to_lower (path_filename entry_path) with
     | Some c => String.eqb c category
     | None => false
     end.

(** [f] changes at most the entry called [k]. *)
Definition touches_only (f : list (string * node) -> list (string * node)) (k : string)
  : Prop :=
  forall c, k <> c -> keeps f c.

(** An ordinary directory on volume 0. *)
Definition plain : dir_attr := {| d_open := None; d_write := None; d_dev := 0 |}.

(** A directory that cannot be opened for enumeration, because of [e]. *)
Definition closed_by (e : errc.t) : dir_attr :=
  {| d_open := Some e; d_write := None; d_dev := 0 |}.

(** root/ holding a directory whose enumeration fails with an I/O error. *)
Definition fs_io_error : node :=
  Dir plain [("root", Dir plain [("broken", Dir (closed_by errc.io_error) [])])].

(** root/ holding an unreadable subdirectory. *)
Definition fs_unreadable_child : node :=
  Dir plain [("root", Dir plain [("secret", Dir (closed_by errc.permission_denied) [])])].

(** root/Pics/a.png next to a populated root/Image Files/. *)
Definition fs_capital_alias : node :=
  Dir plain
    [("root", Dir plain
        [("Pics", Dir plain [("a.png", File None "a")]);
         ("Image Files", Dir plain [("b.png", File None "b")])])].

(** root/Image Files/report.docx (scenario D). *)
Definition fs_misplaced : node :=
  Dir plain [("root", Dir plain [("Image Files", Dir plain [("report.docx", File None "r")])])].

(** root/a.png, to be moved into root/Image Files/, where a.png and
    a(1).png are taken. *)
Definition fs_collision : node :=
  Dir plain
    [("root", Dir plain
        [("a.png", File None "new");
         ("Image Files", Dir plain [("a.png", File None "old");
                                    ("a(1).png", File None "older")])])].

(** The file system a computation leaves behind ([fs] itself if it is cut off). *)
Definition final_fs {A : Type} (m : M A) (fs : node) : node :=
  match m fs with
  | Ok _ fs' => fs'
  | Throw _ fs' => fs'
  | OutOfFuel => fs
  end.

(** root/ with two alias folders of "Image Files", pics before photos. *)
Definition fs_two_aliases : node :=
  Dir plain
    [("root", Dir plain
        [("pics", Dir plain [("shot.png", File None "s")]);
         ("photos", Dir plain [("beach.png", File None "b")])])].

(* ------------------------------------------------------------------ *)
(** *** What the walk of [organize_directory] sees of the tree *)

(** The kind of a node: a regular file, or a directory with its attributes. *)
Inductive nkind :=
| KFile
| KDir (a : dir_attr).

Definition kind (n : node) : nkind :=
  match n with
  | File _ _ => KFile
  | Dir a _ => KDir a
  end.

Definition look (q : list string) (fs : node) : option nkind :=
  option_map kind (walk q fs).

(** The test under which [organize_directory] pushes a directory. *)
Definition visible (name : string) : bool :=
  negb (String.eqb name "") && negb (starts_with dot name).

(** The two tests under which [handle_file] leaves the file [f] alone in a
    folder called [folder]. *)
Definition placed (folder f : string) : bool :=
  String.eqb (classify_file_by_extension f) folder
  || alias_of_category folder (classify_file_by_extension f).

(** Every directory lists each name once, and the names are good. *)
Definition wf (fs : node) : Prop :=
  forall q a es, walk q fs = Some (Dir a es) ->
                 List.NoDup (List.map fst es) /\
                 forall n, In n (List.map fst es) -> good_name n = true.

(** The name [handle_file] sees for the level reached from [root_path]
    through the entries [ns]. *)
Definition folder_of (root_path : string) (ns : list string) : string :=
  List.last ns (path_filename root_path).

(** The level can be enumerated and each regular file in it is placed. *)
Definition level_ok (fs : node) (root_path : string) (ns : list string) : Prop :=
  forall a, look (resolve root_path ++ ns) fs = Some (KDir a) ->
            d_open a = None /\
            forall f, look (resolve root_path ++ ns ++ [f]) fs = Some KFile ->
                      placed (folder_of root_path ns) f = true.

(** Names of directories the walk descends into. *)
Definition walkable (ns : list string) : Prop :=
  Forall (fun n => good_name n = true /\ visible n = true) ns.

(** Every level the walk can reach is in order. *)
Definition Settled (root_path : string) (fs : node) : Prop :=
  forall ns, walkable ns -> level_ok fs root_path ns.

(** The path string the walk holds for the level [ns] below the root. *)
Inductive at_path (root_path : string) : list string -> string -> Prop :=
| at_root : at_path root_path [] root_path
| at_child ns s n :
    at_path root_path ns s -> good_name n = true -> visible n = true ->
    at_path root_path (ns ++ [n]) (path_append s n).

(** The number of directories in a tree. *)
Fixpoint tsize (n : node) : nat :=
  match n with
  | File _ _ => 0
  | Dir _ es =>
      S ((fix sum (l : list (string * node)) : nat :=
            match l with
            | [] => 0
            | e :: r => tsize (snd e) + sum r
            end) es)
  end.

Definition tsize_at (q : list string) (fs : node) : nat :=
  match walk q fs with
  | Some n => tsize n
  | None => 0
  end.

(** From [fs] to [fs']: directories stay, with their attributes; a
    directory that was not there can be enumerated; a regular file that was
    not there, below the root, is placed. *)
Definition refines (root_path : string) (fs fs' : node) : Prop :=
  (forall q a, look q fs = Some (KDir a) -> look q fs' = Some (KDir a)) /\
  (forall q a, look q fs' = Some (KDir a) ->
               look q fs = Some (KDir a) \/
               ((forall a', look q fs <> Some (KDir a')) /\ d_open a = None)) /\
  (forall ms f, look (resolve root_path ++ ms ++ [f]) fs' = Some KFile ->
                look (resolve root_path ++ ms ++ [f]) fs = Some KFile \/
                placed (folder_of root_path ms) f = true).

(* ------------------------------------------------------------------ *)
(** *** More sample file systems *)


(** A directory that refuses to have entries added or removed. *)
Definition read_only : dir_attr :=
  {| d_open := None; d_write := Some errc.permission_denied; d_dev := 0 |}.



(** root/ with the alias folder pics/ next to a populated Image Files/. *)
Definition fs_alias_beside_canonical : node :=
  Dir plain
    [("root", Dir plain
        [("pics", Dir plain [("shot.png", File None "s")]);
         ("Image Files", Dir plain [("old.png", File None "o")])])].

(* ------------------------------------------------------------------ *)
(** *** A level of regular files while [organize_directory] sorts it *)

(** The names [classify_file_by_extension] can return. *)
Definition category_name (c : string) : Prop := c = "Others" \/ c ∈ CANONICAL_NAMES.

(** [es] are the entries the level had (regular files), [names_done] the
    ones the loop has handled, [names_todo] the ones it has not, and
    [es_cur] the entries the level has now: a file not yet handled is where
    it was; a handled file is where it was if the folder bears its category,
    and otherwise in the folder of its category, a directory of the level
    that holds handled files only. *)
Definition sorting (folder : string) (a : dir_attr) (es : list (string * node))
           (names_done names_todo : list string) (es_cur : list (string * node)) : Prop :=
  (forall n, In n names_todo -> map_find n es_cur = map_find n es) /\
  (forall n r x, In n names_done -> map_find n es = Some (File r x) ->
     if String.eqb (classify_file_by_extension n) folder
     then map_find n es_cur = Some (File r x)
     else map_find n es_cur = None /\
          exists a' ces,
            map_find (classify_file_by_extension n) es_cur = Some (Dir a' ces) /\
            map_find n ces = Some (File r x)) /\
  (forall c, category_name c ->
     map_find c es_cur = None \/
     exists a' ces,
       map_find c es_cur = Some (Dir a' ces) /\
       d_write a' = None /\ d_dev a' = d_dev a /\
       forall k, map_find k ces <> None -> In k names_done).

(** root/ with three regular files. *)
Definition fs_flat : node :=
  Dir plain
    [("root", Dir plain [("a.png", File None "a");
                         ("notes.txt", File None "n");
                         ("b.jpg", File None "b")])].

(* ------------------------------------------------------------------ *)
(** *** Changes of the tree, one entry at a time *)

(** [(d, k, Some v)] puts [v] under the name [k] into the directory [d];
    [(d, k, None)] removes the entry [k] of [d]. *)
Definition edit : Type := list string * string * option node.

Definition apply_edit (fs : node) (e : edit) : node :=
  match e with
  | (d, k, Some v) => update_dir d (assoc_put k v) fs
  | (d, k, None) => update_dir d (assoc_del k) fs
  end.

(** The edit leaves alone what is at [q] and below. *)
Definition edit_misses (q : list string) (e : edit) : Prop :=
  match e with
  | (d, k, _) => ~ q `prefix_of` d /\ ~ (d ++ [k]) `prefix_of` q
  end.

(** The edit keeps a tree well formed. *)
Definition edit_wf (e : edit) : Prop :=
  match e with
  | (_, k, Some v) => good_name k = true /\ wf v
  | (_, _, None) => True
  end.

(** root/ with a hidden folder, a regular file and an alias folder. *)
Definition fs_with_hidden : node :=
  Dir plain
    [("root", Dir plain
        [(".git", Dir plain [("config", File None "c"); ("a.png", File None "g")]);
         ("a.png", File None "a");
         ("pics", Dir plain [("notes.txt", File None "n")])])].

(** A check of [wf] that can be run. *)
Fixpoint nodupb (l : list string) : bool :=
  match l with
  | [] => true
  | x :: r => negb (existsb (String.eqb x) r) && nodupb r
  end.

Fixpoint wfb (n : node) : bool :=
  match n with
  | File _ _ => true
  | Dir _ es =>
      nodupb (List.map fst es) && forallb good_name (List.map fst es)
      && (fix all (l : list (string * node)) : bool :=
            match l with
            | [] => true
            | e :: r => wfb (snd e) && all r
            end) es
  end.

(** The stack of [organize_directory] holds levels below the root. *)
Definition below_root (root_path : string) (p : string) : Prop :=
  exists ns, at_path root_path ns p.

(* ------------------------------------------------------------------ *)
(** *** The contents of the regular files of a tree *)

(** The number of regular files of the tree whose bytes are [x]. *)
Fixpoint count_data (x : string) (n : node) : nat :=
  match n with
  | File _ data => if String.eqb data x then 1 else 0
  | Dir _ es =>
      (fix sum (l : list (string * node)) : nat :=
         match l with
         | [] => 0
         | e :: r => count_data x (snd e) + sum r
         end) es
  end.

Fixpoint count_entries (x : string) (es : list (string * node)) : nat :=
  match es with
  | [] => 0
  | e :: r => count_data x (snd e) + count_entries x r
  end.


(** None of the folders the scan of [normalize_category_folder] collected
    is a regular file in [fs1]. *)
Definition sources_not_files (cur : string) (m : list (string * string)) (fs1 : node)
  : Prop :=
  forall c v n0,
    In (c, v) m -> v = path_append cur n0 -> good_name n0 = true ->
    forall r x, walk (resolve cur ++ [n0]) fs1 <> Some (File r x).

(** root/ with a file in an alias folder that belongs elsewhere, and the
    same bytes twice. *)
Definition fs_mixed : node :=
  Dir plain
    [("root", Dir plain
        [("pics", Dir plain [("notes.txt", File None "same");
                             ("shot.png", File None "s")]);
         ("copy.txt", File None "same");
         ("Text Files", Dir plain [("notes.txt", File None "old")])])].

(* ------------------------------------------------------------------ *)
(** *** The measure of the walk of [organize_directory] *)

(** The directories below the entries of a level. *)
Fixpoint esum (es : list (string * node)) : nat :=
  match es with
  | [] => 0
  | e :: r => tsize (snd e) + esum r
  end.

(** The directories below the levels that wait on the stack. *)
Fixpoint stack_size (fs : node) (stack : list (list string)) : nat :=
  match stack with
  | [] => 0
  | p :: r => tsize_at p fs + stack_size fs r
  end.

(** Neither path leads through the other. *)
Definition apart (p q : list string) : Prop := ~ p `prefix_of` q /\ ~ q `prefix_of` p.

Fixpoint all_apart (l : list (list string)) : Prop :=
  match l with
  | [] => True
  | p :: r => Forall (apart p) r /\ all_apart r
  end.

(** The levels on the stack are directories, none inside another. *)
Definition stack_ok (fs : node) (stack : list (list string)) : Prop :=
  all_apart stack /\
  Forall (fun p => exists a, look p fs = Some (KDir a)) stack.

(** From [fs] to [fs'], what is at [q] keeps its kind and the number of
    directories below it. *)
Definition stays (q : list string) (fs fs' : node) : Prop :=
  look q fs' = look q fs /\ tsize_at q fs' = tsize_at q fs.

(** A level that waits while the level [C] is read: an entry of [C] whose
    name is no longer in [todo], or a level apart from [C]. *)
Definition side (C : list string) (todo : list string) (p : list string) : Prop :=
  (exists n, p = C ++ [n] /\ ~ In n todo) \/ apart C p.

(** Every directory can be opened for enumeration. *)
Definition listable (fs : node) : Prop :=
  forall q a es, walk q fs = Some (Dir a es) -> d_open a = None.

Fixpoint listableb (n : node) : bool :=
  match n with
  | File _ _ => true
  | Dir a es =>
      match d_open a with
      | Some _ => false
      | None =>
          (fix all (l : list (string * node)) : bool :=
             match l with
             | [] => true
             | e :: r => listableb (snd e) && all r
             end) es
      end
  end.

(** root/Pics/report.docx next to a populated root/Image Files/. *)
Definition fs_capital_misplaced : node :=
  Dir plain
    [("root", Dir plain
        [("Pics", Dir plain [("report.docx", File None "r")]);
         ("Image Files", Dir plain [("b.png", File None "b")])])].

(** root/Image Files/videos/report.docx: an alias folder inside a category
    folder. *)
Definition fs_alias_in_category : node :=
  Dir plain
    [("root", Dir plain
        [("Image Files", Dir plain
            [("videos", Dir plain [("report.docx", File None "r")])])])].

(* ------------------------------------------------------------------ *)
(** *** Status queries that fail *)

(** [exists], [is_directory] and [is_regular_file] are called in the
    overload that throws: when stat(2) fails with an error other than a
    missing file (a name longer than the file system allows, a directory
    that may not be searched, too many links) the call throws
    [filesystem_error] and gives no answer.  The functions above are those
    of a file system where stat(2) never fails so.  The ones below take
    [stat_error], the error (if any) that stat(2) has for a path, and are
    the same functions on any file system; they also give the counter of
    [get_unique_path] its type, [int]. *)
Definition fs_exists_stat (stat_error : string -> option errc.t) (p : string) : M bool :=
  fun fs =>
    match stat_error p with
    | Some e => Throw e fs
    | None => Ok (fs_exists p fs) fs
    end.

(** The greatest [int]. *)
Definition INT_MAX : N := 2147483647%N.

(** The [do ... while] of [get_unique_path]: the name is built, the counter
    incremented (beyond [INT_MAX] this has no defined result) and the name
    probed. *)
Fixpoint probe_free_stat (stat_error : string -> option errc.t) (fuel : nat)
         (destination_dir stem extension : string) (counter : nat) : M string :=
  match fuel with
  | O => fun _ => OutOfFuel
  | S fuel' =>
      let target_path :=
        path_append destination_dir (new_filename stem extension counter) in
      if N.leb INT_MAX (N.of_nat counter) then fun _ => OutOfFuel
      else
        taken <- fs_exists_stat stat_error target_path ;;
        if taken
        then probe_free_stat stat_error fuel' destination_dir stem extension (S counter)
        else ret target_path
  end.

Definition get_unique_path_stat (stat_error : string -> option errc.t)
           (destination_dir filename : string) : M string :=
  let target_path := path_append destination_dir filename in
  taken <- fs_exists_stat stat_error target_path ;;
  if negb taken then ret target_path
  else
    fun fs =>
      probe_free_stat stat_error (S (entry_count destination_dir fs)) destination_dir
                      (path_stem filename) (path_extension filename) 1 fs.

Definition atomic_file_transfer_stat (stat_error : string -> option errc.t)
           (source_path destination_dir_path : string) : M file_move_status.t :=
  try_catch
    (new_unique_destination <-
       get_unique_path_stat stat_error destination_dir_path (path_filename source_path) ;;
     _ <- fs_rename source_path new_unique_destination ;;
     ret file_move_status.successful_transfer)
    (fun e =>
       if errc.eqb e errc.permission_denied then ret file_move_status.permission_denied
       else if errc.eqb e errc.cross_device_link
            then ret file_move_status.cross_device_error
            else ret file_move_status.unknown_failure).

Definition fallback_transfer_stat (stat_error : string -> option errc.t)
           (source_path destination_dir_path : string) : M file_move_status.t :=
  try_catch
    (new_unique_destination <-
       get_unique_path_stat stat_error destination_dir_path (path_filename source_path) ;;
     _ <- fs_copy_file source_path new_unique_destination ;;
     _ <- fs_remove source_path ;;
     ret file_move_status.successful_transfer)
    (fun e =>
       if errc.eqb e errc.permission_denied then ret file_move_status.permission_denied
       else ret file_move_status.unknown_failure).

Definition create_directory_stat (stat_error : string -> option errc.t)
           (target_directory_path : string) : M create_directory_status.t :=
  there <- fs_exists_stat stat_error target_directory_path ;;
  if negb there then
    try_catch
      (_ <- fs_create_directory target_directory_path ;;
       ret create_directory_status.successful_creation)
      (fun e =>
         if errc.eqb e errc.permission_denied
         then ret create_directory_status.permission_denied_failure
         else ret create_directory_status.unknown_failure)
  else ret create_directory_status.already_exists.

Definition handle_file_stat (stat_error : string -> option errc.t)
           (current_directory_level_path entry_path : string)
           (t_mode : transfer_mode.t) : M organize_status.t :=
  let category_name := classify_file_by_extension entry_path in
  let parent_folder_name := get_parent_folder_name current_directory_level_path in
  if String.eqb category_name parent_folder_name
  then ret organize_status.already_in_correct_location
  else if alias_of_category parent_folder_name category_name
  then ret organize_status.already_in_correct_location
  else
    let destination_dir_path :=
      path_append (base_location current_directory_level_path category_name)
                  category_name in
    creation_result <- create_directory_stat stat_error destination_dir_path ;;
    match t_mode with
    | transfer_mode.atomic_transfer_mode =>
        atomic_transfer_result <-
          atomic_file_transfer_stat stat_error entry_path destination_dir_path ;;
        ret (combine_atomic creation_result atomic_transfer_result)
    | transfer_mode.fallback_transfer_mode =>
        fallback_transfer_result <-
          fallback_transfer_stat stat_error entry_path destination_dir_path ;;
        ret (combine_fallback creation_result fallback_transfer_result)
    end.

(** stat(2) where a name has at most [NAME_MAX] bytes. *)
Definition NAME_MAX : nat := 255.

Definition name_limit (p : string) : option errc.t :=
  if existsb (fun n => Nat.ltb NAME_MAX (String.length n)) (segments p)
  then Some errc.filename_too_long
  else None.

(** A name of 254 bytes. *)
Definition long_name : string :=
  String.concat "" (List.repeat "a" 250) +:+ ".png".

(** root/ and root/Image Files/ each hold a file of that name. *)
Definition fs_long_name : node :=
  Dir plain
    [("root", Dir plain
        [(long_name, File None "new");
         ("Image Files", Dir plain [(long_name, File None "old")])])].

(** root/ with a file that can be moved and a folder that refuses changes. *)
Definition fs_locked_folder : node :=
  Dir plain
    [("root", Dir plain
        [("a.png", File None "a");
         ("locked", Dir read_only [("b.txt", File None "b")])])].
(* ------------------------------------------------------------------ *)
(** *** The walk under a live directory iterator *)

(** The names a directory has (none for what is not a directory). *)
Definition level_names (p : string) (fs : node) : list string :=
  match fs_status p fs with
  | Some (Dir _ es) => List.map fst es
  | _ => []
  end.

(** What is at [p] in [fs'] is an entry that was not there in [fs]: the
    name was free, or held a node of the other kind. *)
Definition appeared (p : string) (fs fs' : node) : bool :=
  match fs_status p fs, fs_status p fs' with
  | Some (File _ _), Some (File _ _) => false
  | Some (Dir _ _), Some (Dir _ _) => false
  | _, None => false
  | _, Some _ => true
  end.

(** [organize_directory] reads each level through a
    [std::filesystem::directory_iterator] while [handle_file] creates
    category folders in that very level; whether the iterator reports an
    entry added after it was created is unspecified.  [for_entries] above
    is the loop over the entries the level had when the iterator was
    created.  Here the iterator goes on with the entries that have appeared
    meanwhile, those of them that it reports ([reported], by path), until it
    reports none; [rounds] bounds the number of times it goes on. *)
Fixpoint for_entries_live (reported : string -> bool) (rounds : nat)
         (current_directory_level_path : string) (t_mode : transfer_mode.t)
         (names : list string) (st : walk_state)
  : M (option organize_status.t * walk_state) :=
  fun fs =>
    match for_entries current_directory_level_path t_mode names st fs with
    | Ok (None, st') fs' =>
        match List.filter
                (fun n =>
                   reported (path_append current_directory_level_path n)
                   && appeared (path_append current_directory_level_path n) fs fs')
                (level_names current_directory_level_path fs') with
        | [] => Ok (None, st') fs'
        | added =>
            match rounds with
            | O => OutOfFuel
            | S rounds' =>
                for_entries_live reported rounds' current_directory_level_path t_mode
                                 added st' fs'
            end
        end
    | r => r
    end.

(** The [while] loop over such iterators, run at most [fuel] times. *)
Fixpoint organize_loop_live (reported : string -> bool) (fuel : nat)
         (t_mode : transfer_mode.t) (st : walk_state)
  : M (organize_status.t * list organize_status.t) :=
  match fuel with
  | O => fun _ => OutOfFuel
  | S fuel' =>
      match directories st with
      | [] => ret (organize_status.success, handled st)
      | current_directory_level_path :: rest =>
          _ <- normalize_category_folder current_directory_level_path ;;
          names <- fs_list current_directory_level_path ;;
          r <- for_entries_live reported fuel' current_directory_level_path t_mode names
                 {| directories := rest; handled := handled st |} ;;
          match r with
          | (Some s, st') => ret (s, handled st')
          | (None, st') => organize_loop_live reported fuel' t_mode st'
          end
      end
  end.

(** [organize_directory] with iterators that report what [reported] says;
    with [fun _ => false] it is [organize_directory] above. *)
Definition organize_directory_live (reported : string -> bool) (fuel : nat)
           (root_path : string) (t_mode : transfer_mode.t)
  : M (organize_status.t * list organize_status.t) :=
  fun fs =>
    let root_path_state := process_path_validation root_path fs in
    if negb (organize_status.eqb root_path_state organize_status.success)
    then Ok (root_path_state, []) fs
    else organize_loop_live reported fuel t_mode
           {| directories := [root_path]; handled := [] |} fs.

(** Every level the walk can reach without passing through a level of
    [stack] is in order. *)
Definition settled_but (root_path : string) (stack : list string) (fs : node) : Prop :=
  forall ms, walkable ms ->
             (forall s, In s stack -> ~ resolve s `prefix_of` (resolve root_path ++ ms)) ->
             level_ok fs root_path ms.

(* ================================================================== *)
(** * Properties *)
(* ================================================================== *)

(** ** Strings *)

#[local] Arguments String.append !s1 s2 : simpl nomatch.

(** The catalogs are tables of several hundred entries: they are looked up
    by computation only, never unfolded by simplification. *)
#[local] Opaque CATEGORY_EXTENSION_MAP CANONICAL_NAMES EXTENSION_LOOKUP
  CATEGORY_ALIAS_MAP ALIAS_LOOKUP.

Lemma app_empty_r (s : string) : s +:+ "" = s.
Proof. induction s as [|a s IH]; simpl; [reflexivity | now rewrite IH]. Qed.

Lemma app_assoc_s (a b c : string) : (a +:+ b) +:+ c = a +:+ (b +:+ c).
Proof. induction a as [|x a IH]; simpl; [reflexivity | now rewrite IH]. Qed.

Lemma has_char_app (c : ascii) (u v : string) :
  has_char c (u +:+ v) = has_char c u || has_char c v.
Proof.
  induction u as [|a u IH]; simpl; [reflexivity |].
  rewrite IH. now rewrite orb_assoc.
Qed.

Lemma rsplit_none (c : ascii) (s : string) :
  has_char c s = false -> rsplit c s = None.
Proof.
  induction s as [|a s IH]; simpl; [reflexivity |].
  intros H. apply orb_false_iff in H as [Ha Hs].
  rewrite (IH Hs), Ha. reflexivity.
Qed.

Lemma rsplit_some_has (c : ascii) (s u v : string) :
  rsplit c s = Some (u, v) ->
  s = u +:+ String c v /\ has_char c v = false.
Proof.
  revert u v. induction s as [|a s IH]; simpl; intros u v H; [discriminate |].
  destruct (rsplit c s) as [[u' v']|] eqn:E.
  - injection H as <- <-. destruct (IH _ _ eq_refl) as [-> Hv].
    split; [reflexivity | exact Hv].
  - destruct (Ascii.eqb_spec a c) as [->|]; [|discriminate].
    injection H as <- <-. split; [reflexivity |].
    clear IH. induction s as [|b s IHs]; [reflexivity |].
    simpl in E |- *. destruct (rsplit c s) as [[? ?]|]; [discriminate |].
    destruct (Ascii.eqb b c); [discriminate |]. now apply IHs.
Qed.

(** A separator-free tail does not move the last separator. *)
Lemma rsplit_app_clean (c : ascii) (u v : string) :
  has_char c v = false ->
  rsplit c (u +:+ v) =
  match rsplit c u with
  | Some (a, b) => Some (a, b +:+ v)
  | None => None
  end.
Proof.
  intros Hv. induction u as [|a u IH]; simpl.
  - now apply rsplit_none.
  - rewrite IH. destruct (rsplit c u) as [[x y]|]; [reflexivity |].
    destruct (Ascii.eqb a c); reflexivity.
Qed.

Lemma rsplit_last (c : ascii) (u v : string) :
  has_char c v = false -> rsplit c (u +:+ String c v) = Some (u, v).
Proof.
  intros Hv. induction u as [|a u IH]; simpl.
  - rewrite (rsplit_none _ _ Hv), Ascii.eqb_refl. reflexivity.
  - now rewrite IH.
Qed.

Lemma tolower_keeps_dot (a : ascii) : Ascii.eqb (tolower a) dot = Ascii.eqb a dot.
Proof. destruct a as [[] [] [] [] [] [] [] []]; reflexivity. Qed.

Lemma tolower_keeps_sep (a : ascii) : Ascii.eqb (tolower a) sep = Ascii.eqb a sep.
Proof. destruct a as [[] [] [] [] [] [] [] []]; reflexivity. Qed.

Lemma to_lower_has_dot (s : string) : has_char dot (to_lower s) = has_char dot s.
Proof.
  induction s as [|a s IH]; simpl; [reflexivity |].
  now rewrite tolower_keeps_dot, IH.
Qed.

Lemma to_lower_has_sep (s : string) : has_char sep (to_lower s) = has_char sep s.
Proof.
  induction s as [|a s IH]; simpl; [reflexivity |].
  now rewrite tolower_keeps_sep, IH.
Qed.

Lemma to_lower_empty (s : string) : to_lower s = "" -> s = "".
Proof. destruct s; [reflexivity | discriminate]. Qed.

(** ** Paths *)

Lemma path_filename_app_clean (q w : string) :
  has_char sep w = false -> path_filename (q +:+ w) = path_filename q +:+ w.
Proof.
  intros Hw. unfold path_filename. rewrite (rsplit_app_clean _ _ _ Hw).
  destruct (rsplit sep q) as [[a b]|]; reflexivity.
Qed.

Lemma path_filename_clean (w : string) :
  has_char sep w = false -> path_filename w = w.
Proof. intros Hw. unfold path_filename. now rewrite (rsplit_none _ _ Hw). Qed.

(** The extension of [stem.ext] for a non-empty stem and a dot-free [ext]. *)
Lemma path_extension_of_name (q e : string) :
  path_filename q <> "" ->
  e <> "" ->
  has_char dot e = false ->
  has_char sep e = false ->
  path_extension (q +:+ String dot e) = String dot e.
Proof.
  intros Hq He Hd Hs. unfold path_extension.
  rewrite path_filename_app_clean by (simpl; exact Hs).
  destruct (path_filename q) as [|a f] eqn:Ef; [congruence |].
  assert (Hne1 : String.eqb (String a f +:+ String dot e) "." = false).
  { apply String.eqb_neq. destruct f; simpl; discriminate. }
  assert (Hne2 : String.eqb (String a f +:+ String dot e) ".." = false).
  { apply String.eqb_neq. destruct f as [|b f]; simpl.
    - destruct e; [congruence | discriminate].
    - destruct f; discriminate. }
  rewrite Hne1, Hne2. simpl orb. cbv iota.
  rewrite (rsplit_last dot (String a f) e Hd). reflexivity.
Qed.

(** ** The catalogs *)

Lemma all_members_sound P m :
  all_members P m = true ->
  forall cat members x, In (cat, members) m -> In x members -> P cat x = true.
Proof.
  unfold all_members. intros H cat members x Hin Hx.
  rewrite forallb_forall in H. specialize (H _ Hin). simpl in H.
  rewrite forallb_forall in H. now apply H.
Qed.

(** Every listed extension resolves to the category that lists it, and is a
    non-empty string free of dots and separators. *)
Lemma extension_lookup_owner cat exts e :
  In (cat, exts) CATEGORY_EXTENSION_MAP -> In e exts ->
  EXTENSION_LOOKUP !! e = Some cat /\ e <> "" /\
  has_char dot e = false /\ has_char sep e = false.
Proof.
  intros Hin He.
  pose (P := fun cat e : string =>
               match EXTENSION_LOOKUP !! e with
               | Some c => String.eqb c cat
               | None => false
               end && negb (String.eqb e "")
               && negb (has_char dot e) && negb (has_char sep e)).
  assert (H : all_members P CATEGORY_EXTENSION_MAP = true) by (vm_compute; reflexivity).
  pose proof (all_members_sound _ _ H _ _ _ Hin He) as HP. unfold P in HP.
  apply andb_true_iff in HP as [HP H4]. apply andb_true_iff in HP as [HP H3].
  apply andb_true_iff in HP as [H1 H2].
  destruct (EXTENSION_LOOKUP !! e) as [c|]; [|discriminate].
  apply String.eqb_eq in H1 as ->.
  repeat split.
  - apply negb_true_iff, String.eqb_neq in H2. exact H2.
  - now apply negb_true_iff in H3.
  - now apply negb_true_iff in H4.
Qed.

(** Membership in a concrete list, by computation. *)
Ltac in_list :=
  apply list_elem_of_In; apply (bool_decide_unpack _); vm_compute; exact I.

Lemma extensions_one_category c1 c2 e1 e2 e :
  In (c1, e1) CATEGORY_EXTENSION_MAP -> In e e1 ->
  In (c2, e2) CATEGORY_EXTENSION_MAP -> In e e2 -> c1 = c2.
Proof.
  intros H1 He1 H2 He2.
  destruct (extension_lookup_owner _ _ _ H1 He1) as [L1 _].
  destruct (extension_lookup_owner _ _ _ H2 He2) as [L2 _].
  congruence.
Qed.

(** No alias is spelled like a canonical category name. *)
Lemma aliases_are_not_canonical cat aliases a :
  In (cat, aliases) CATEGORY_ALIAS_MAP -> In a aliases -> a ∉ CANONICAL_NAMES.
Proof.
  intros Hin Ha.
  pose (P := fun (_ a : string) => negb (bool_decide (a ∈ CANONICAL_NAMES))).
  assert (H : all_members P CATEGORY_ALIAS_MAP = true) by (vm_compute; reflexivity).
  pose proof (all_members_sound _ _ H _ _ _ Hin Ha) as HP. unfold P in HP.
  apply negb_true_iff, bool_decide_eq_false in HP. exact HP.
Qed.

(** Apart from "recordings", an alias is listed under one category only. *)
Lemma aliases_one_category_but_recordings cat aliases a :
  In (cat, aliases) CATEGORY_ALIAS_MAP -> In a aliases -> a <> "recordings" ->
  owners CATEGORY_ALIAS_MAP a = [cat].
Proof.
  intros Hin Ha Hne.
  pose (P := fun cat a : string =>
               String.eqb a "recordings"
               || match owners CATEGORY_ALIAS_MAP a with
                  | [c] => String.eqb c cat
                  | _ => false
                  end).
  assert (H : all_members P CATEGORY_ALIAS_MAP = true) by (vm_compute; reflexivity).
  pose proof (all_members_sound _ _ H _ _ _ Hin Ha) as HP. unfold P in HP.
  apply orb_true_iff in HP as [HP|HP].
  - apply String.eqb_eq in HP. exact (False_ind _ (Hne HP)).
  - clear H Hin Ha Hne.
    destruct (owners CATEGORY_ALIAS_MAP a) as [|c [|? ?]]; try discriminate HP.
    apply String.eqb_eq in HP. rewrite HP. reflexivity.
Qed.

(** C4: the alias "recordings" is listed under two canonical categories,
    "Audio Files" and "Video Files"; the reverse table keeps the one
    inserted last.  So not every alias belongs to exactly one category. *)
Theorem alias_recordings_has_two_categories :
  owners CATEGORY_ALIAS_MAP "recordings" = ["Audio Files"; "Video Files"] /\
  ALIAS_LOOKUP !! "recordings" = Some "Video Files".
Proof. split; vm_compute; reflexivity. Qed.

(** C5, as stated, fails: ".jpg" ends in "." followed by a catalogued
    extension, yet a leading dot starts a hidden name, not an extension. *)
Lemma classify_leading_dot_counterexample :
  ~ (forall cat exts e e' q,
        In (cat, exts) CATEGORY_EXTENSION_MAP -> In e exts -> to_lower e' = e ->
        classify_file_by_extension (q +:+ String dot e') = cat).
Proof.
  intros H.
  specialize (H "Image Files"
                ["bmp"; "gif"; "heic"; "ico"; "jpeg"; "jpg"; "png"; "svg"; "tiff"; "webp"]
                "jpg" "jpg" "").
  assert (E : classify_file_by_extension ("" +:+ String dot "jpg") = "Others")
    by (vm_compute; reflexivity).
  rewrite E in H.
  assert (X : "Others" = "Image Files" -> False) by discriminate.
  apply X, H.
  - in_list.
  - in_list.
  - reflexivity.
Qed.

(** C5, amended: [classify_file_by_extension] is a total function; a path
    whose last component is a non-empty stem, a dot and a catalogued
    extension in any letter case gets the category listing that extension;
    a path with no extension, or one the catalog does not have, gets
    "Others". *)
Theorem classify_file_by_extension_spec (p : string) :
  (forall cat exts e e' q,
      In (cat, exts) CATEGORY_EXTENSION_MAP -> In e exts -> to_lower e' = e ->
      path_filename q <> "" -> p = q +:+ String dot e' ->
      classify_file_by_extension p = cat) /\
  (path_extension p = "" \/
   EXTENSION_LOOKUP !! to_lower (erase_first (path_extension p)) = None ->
   classify_file_by_extension p = "Others").
Proof.
  split.
  - intros cat exts e e' q Hin He Hlow Hq ->.
    destruct (extension_lookup_owner _ _ _ Hin He) as (Hl & Hne & Hd & Hs).
    subst e. rewrite to_lower_has_dot in Hd. rewrite to_lower_has_sep in Hs.
    assert (He' : e' <> "") by (intros ->; now apply Hne).
    unfold classify_file_by_extension.
    rewrite (path_extension_of_name q e' Hq He' Hd Hs).
    simpl String.eqb. cbv iota. simpl erase_first. rewrite Hl. reflexivity.
  - unfold classify_file_by_extension. intros [-> | ->].
    + reflexivity.
    + destruct (String.eqb _ _); reflexivity.
Qed.

Lemma classify_file_by_extension_spec_witness :
  classify_file_by_extension "dir/x.PDF" = "PDF Files" /\
  classify_file_by_extension "dir/README" = "Others".
Proof.
  split.
  - apply (proj1 (classify_file_by_extension_spec "dir/x.PDF")
             "PDF Files" ["pdf"] "pdf" "PDF" "dir/x").
    + in_list.
    + in_list.
    + reflexivity.
    + vm_compute. discriminate.
    + reflexivity.
  - apply (proj2 (classify_file_by_extension_spec "dir/README")).
    left. reflexivity.
Defined.

(** ** [validate_path] *)

Lemma validate_path_not_found root_path fs :
  fs_exists root_path fs = false -> validate_path root_path fs = path_status.not_found.
Proof. unfold validate_path. now intros ->. Qed.

Lemma validate_path_not_directory root_path fs :
  fs_exists root_path fs = true -> fs_is_directory root_path fs = false ->
  validate_path root_path fs = path_status.not_directory.
Proof. unfold validate_path. now intros -> ->. Qed.

Lemma validate_path_permission_denied root_path fs fs' :
  fs_is_directory root_path fs = true ->
  fs_list root_path fs = Throw errc.permission_denied fs' ->
  validate_path root_path fs = path_status.permission_denied.
Proof.
  unfold validate_path, probe_accessible, fs_is_directory, fs_exists.
  intros Hd Hl. destruct (fs_status root_path fs) as [[|]|]; try discriminate.
  simpl. now rewrite Hl.
Qed.

(** The last branch of [validate_path] is never taken. *)
Lemma validate_path_never_unknown root_path fs :
  validate_path root_path fs <> path_status.unknown_path_error.
Proof.
  unfold validate_path.
  destruct (fs_exists root_path fs); simpl; [|discriminate].
  destruct (fs_is_directory root_path fs); simpl; [|discriminate].
  destruct (probe_accessible root_path fs); simpl; discriminate.
Qed.

(** C7: a directory whose enumeration fails with an error other than
    permission_denied (here an I/O error) is reported as [ok], not as
    [unknown_path_error]: the handler leaves [accessible] set. *)
Theorem validate_path_other_failure_is_ok :
  fs_list "root/broken" fs_io_error = Throw errc.io_error fs_io_error /\
  validate_path "root/broken" fs_io_error = path_status.ok.
Proof. split; vm_compute; reflexivity. Qed.

(** ** The alias test of [handle_file] *)

(** C6: root/Pics holds a.png; "pics" is an alias of "Image Files", the
    category of a.png, but [handle_file] looks up "Pics" as it is spelled,
    finds no alias, and moves the file to root/Pics/Image Files/a.png
    instead of answering [already_in_correct_location]. *)
Theorem handle_file_capital_alias_moves :
  ALIAS_LOOKUP !! to_lower (get_parent_folder_name "root/Pics") = Some "Image Files" /\
  classify_file_by_extension "root/Pics/a.png" = "Image Files" /\
  exists fs',
    handle_file "root/Pics" "root/Pics/a.png" transfer_mode.atomic_transfer_mode
                fs_capital_alias = Ok organize_status.success fs' /\
    fs_status "root/Pics/a.png" fs' = None /\
    fs_status "root/Pics/Image Files/a.png" fs' = Some (File None "a").
Proof.
  split; [vm_compute; reflexivity |].
  split; [vm_compute; reflexivity |].
  eexists. split; [vm_compute; reflexivity |].
  split; vm_compute; reflexivity.
Qed.

(** ** Errors of [normalize_category_folder] *)

(** A primitive operation either returns or throws with the file system
    as it found it. *)
Ltac split_matches :=
  repeat match goal with
         | |- context [match ?x with _ => _ end] => destruct x
         end.

Lemma fs_rename_result old_p new_p fs :
  (exists fs', fs_rename old_p new_p fs = Ok tt fs') \/
  (exists e, fs_rename old_p new_p fs = Throw e fs).
Proof. unfold fs_rename. split_matches; eauto. Qed.

(** The second loop never throws: a failed rename is swallowed, and the
    file system is then as it was before the attempt. *)
Lemma rename_to_canonical_returns it fs :
  exists fs', rename_to_canonical it fs = Ok tt fs' /\
    (forall e fs'', fs_rename (snd it)
                      (path_append (path_parent_path (snd it)) (fst it)) fs
                    = Throw e fs'' -> fs' = fs).
Proof.
  unfold rename_to_canonical, try_catch, ret.
  destruct (negb _); [|eexists; split; [reflexivity | intros; reflexivity]].
  destruct (fs_rename_result
              (snd it) (path_append (path_parent_path (snd it)) (fst it)) fs)
    as [[fs' E] | [e E]]; rewrite E.
  - exists fs'. split; [reflexivity | intros; congruence].
  - exists fs. split; reflexivity.
Qed.

Lemma for_each_rename_returns m fs :
  exists fs', for_each rename_to_canonical m fs = Ok tt fs'.
Proof.
  revert fs. induction m as [|it m IH]; intros fs; simpl.
  - eexists. reflexivity.
  - unfold bind. destruct (rename_to_canonical_returns it fs) as (fs1 & -> & _).
    apply IH.
Qed.

(** When the level can be enumerated, normalisation returns normally. *)
Lemma normalize_returns_when_listed cur fs names :
  fs_list cur fs = Ok names fs ->
  exists fs', normalize_category_folder cur fs = Ok tt fs'.
Proof.
  intros Hl. unfold normalize_category_folder, bind. rewrite Hl.
  apply for_each_rename_returns.
Qed.

(** C9: root/secret cannot be opened for enumeration.  The first loop of
    [normalize_category_folder] builds its [directory_iterator] outside any
    [try], so the error reaches the caller, and [organize_directory], which
    found the root valid, is aborted by it. *)
Theorem normalize_throws_on_unreadable_level :
  normalize_category_folder "root/secret" fs_unreadable_child
  = Throw errc.permission_denied fs_unreadable_child /\
  validate_path "root" fs_unreadable_child = path_status.ok /\
  forall fuel t_mode,
    organize_directory (S (S fuel)) "root" t_mode fs_unreadable_child
    = Throw errc.permission_denied fs_unreadable_child.
Proof.
  split; [vm_compute; reflexivity |].
  split; [vm_compute; reflexivity |].
  intros fuel t_mode. destruct t_mode; vm_compute; reflexivity.
Qed.

(** ** Entries of a directory *)

Section Assoc.
Context {V : Type}.
Implicit Types (es : list (string * V)) (k : string) (v : V).

Lemma map_find_put_same k v es : map_find k (assoc_put k v es) = Some v.
Proof.
  induction es as [|[k' v'] es IH]; simpl.
  - now rewrite String.eqb_refl.
  - destruct (String.eqb k k') eqn:E; simpl.
    + now rewrite String.eqb_refl.
    + now rewrite E.
Qed.

Lemma map_find_put_other k k' v es :
  k <> k' -> map_find k' (assoc_put k v es) = map_find k' es.
Proof.
  intros Hne. induction es as [|[k0 v0] es IH]; simpl.
  - apply String.eqb_neq in Hne. now rewrite String.eqb_sym, Hne.
  - destruct (String.eqb_spec k k0) as [->|Hk]; simpl.
    + assert (E : String.eqb k' k0 = false) by (apply String.eqb_neq; congruence).
      now rewrite E.
    + now rewrite IH.
Qed.

Lemma map_find_del_same k es : map_find k (assoc_del k es) = None.
Proof.
  unfold assoc_del. induction es as [|[k' v'] es IH]; simpl; [reflexivity |].
  destruct (String.eqb k k') eqn:E; simpl; [exact IH |].
  now rewrite E.
Qed.

Lemma map_find_del_other k k' es :
  k <> k' -> map_find k' (assoc_del k es) = map_find k' es.
Proof.
  intros Hne. unfold assoc_del.
  induction es as [|[k0 v0] es IH]; simpl; [reflexivity |].
  destruct (String.eqb_spec k k0) as [->|Hk]; simpl.
  - assert (E : String.eqb k' k0 = false) by (apply String.eqb_neq; congruence).
    now rewrite E.
  - now rewrite IH.
Qed.

Lemma map_find_update k k' (f : V -> V) es :
  map_find k' (assoc_update k f es) =
  if String.eqb k k' then option_map f (map_find k' es) else map_find k' es.
Proof.
  induction es as [|[k0 v0] es IH]; simpl.
  - now destruct (String.eqb k k').
  - destruct (String.eqb_spec k k0) as [->|Hk]; simpl.
    + destruct (String.eqb_spec k' k0) as [->|Hk'].
      * now rewrite String.eqb_refl.
      * assert (E : String.eqb k0 k' = false) by (apply String.eqb_neq; congruence).
        now rewrite E.
    + rewrite IH. destruct (String.eqb_spec k' k0) as [->|Hk']; [|reflexivity].
      assert (E : String.eqb k k0 = false) by (now apply String.eqb_neq).
      now rewrite E.
Qed.

Lemma map_find_some_in k v es : map_find k es = Some v -> In k (List.map fst es).
Proof.
  induction es as [|[k' v'] es IH]; simpl; [discriminate |].
  destruct (String.eqb_spec k k') as [->|Hk]; [now left | intros H; right; auto].
Qed.

Lemma map_find_none_notin k es : map_find k es = None -> ~ In k (List.map fst es).
Proof.
  induction es as [|[k' v'] es IH]; simpl; [tauto |].
  destruct (String.eqb_spec k k') as [->|Hk]; [discriminate |].
  intros H [E|E]; [congruence | now apply IH].
Qed.
End Assoc.

(** ** Walking an updated tree *)

Lemma keeps_put k v c : k <> c -> keeps (assoc_put k v) c.
Proof. intros H es. now apply map_find_put_other. Qed.

Lemma keeps_del k c : k <> c -> keeps (assoc_del k) c.
Proof. intros H es. now apply map_find_del_other. Qed.

Lemma walk_app p q n :
  walk (p ++ q) n = match walk p n with Some m => walk q m | None => None end.
Proof.
  revert n. induction p as [|c p IH]; intros n; simpl; [reflexivity |].
  destruct n as [|a es]; [reflexivity |].
  destruct (map_find c es); [apply IH | reflexivity].
Qed.

Lemma walk_file_nil p r x m : walk p (File r x) = Some m -> p = [] /\ m = File r x.
Proof. destruct p; simpl; [intros [= <-]; auto | discriminate]. Qed.

(** The updated directory itself, and what lies below it. *)
Lemma walk_update_below p r f n :
  walk (p ++ r) (update_dir p f n) =
  match walk p n with
  | Some m => walk r (update_dir [] f m)
  | None => None
  end.
Proof.
  revert n. induction p as [|c p IH]; intros n; simpl.
  - destruct n; reflexivity.
  - destruct n as [|a es]; simpl; [reflexivity |].
    rewrite map_find_update, String.eqb_refl.
    destruct (map_find c es) as [m|]; simpl; [apply IH | reflexivity].
Qed.

(** An ancestor of the updated directory. *)
Lemma walk_update_above q r f n :
  walk q (update_dir (q ++ r) f n) = option_map (update_dir r f) (walk q n).
Proof.
  revert n. induction q as [|c q IH]; intros n; simpl.
  - destruct n; reflexivity.
  - destruct n as [|a es]; simpl; [reflexivity |].
    rewrite map_find_update, String.eqb_refl.
    destruct (map_find c es) as [m|]; simpl; [apply IH | reflexivity].
Qed.

(** Any other path, provided [f] keeps the entry the path goes through. *)
Lemma walk_kept q p f n :
  ~ q `prefix_of` p ->
  (forall c rest, q = p ++ c :: rest -> keeps f c) ->
  walk q (update_dir p f n) = walk q n.
Proof.
  revert p n. induction q as [|c q IH]; intros p n Hpre Hk.
  - exfalso. apply Hpre. apply prefix_nil.
  - destruct n as [|a es]; [destruct p; reflexivity |].
    destruct p as [|c' p]; simpl.
    + rewrite (Hk c q eq_refl). reflexivity.
    + rewrite map_find_update.
      destruct (String.eqb_spec c' c) as [->|Hc]; [|reflexivity].
      destruct (map_find c es) as [m|]; simpl; [|reflexivity].
      apply IH.
      * intros Hp. apply Hpre. now apply prefix_cons.
      * intros c0 rest ->. apply (Hk c0 rest). reflexivity.
Qed.

(** A directory stays a directory with its attributes. *)
Lemma update_dir_dir p f a es : exists es', update_dir p f (Dir a es) = Dir a es'.
Proof. destruct p; simpl; eexists; reflexivity. Qed.

Lemma walk_dir_survives q p f n a es :
  walk q n = Some (Dir a es) ->
  (forall c rest, q = p ++ c :: rest -> keeps f c) ->
  exists es', walk q (update_dir p f n) = Some (Dir a es').
Proof.
  intros Hw Hk. destruct (decide (q `prefix_of` p)) as [[r ->]|Hn].
  - rewrite walk_update_above, Hw. simpl.
    destruct (update_dir_dir r f a es) as [es' ->]. eauto.
  - rewrite (walk_kept _ _ _ _ Hn Hk). eauto.
Qed.

(** Nothing can be reached through a regular file. *)
Lemma walk_through_file q r n x y m :
  walk q n = Some (File x y) -> walk (q ++ r) n = Some m -> r = [] /\ m = File x y.
Proof.
  intros Hq. rewrite walk_app, Hq. destruct r; simpl; [intros [= <-]; auto | discriminate].
Qed.

Lemma split_last_snoc l x : split_last (l ++ [x]) = Some (l, x).
Proof. unfold split_last. rewrite rev_app_distr. simpl. now rewrite rev_involutive. Qed.

Lemma split_last_some l d x : split_last l = Some (d, x) -> l = d ++ [x].
Proof.
  unfold split_last. destruct (rev l) as [|y r] eqn:E; [discriminate |].
  intros [= <- <-]. rewrite <- (rev_involutive l), E. reflexivity.
Qed.

(** ** Resolving paths *)

Lemma rsplit_none_has (c : ascii) (s : string) :
  rsplit c s = None -> has_char c s = false.
Proof.
  induction s as [|a s IH]; simpl; [reflexivity |].
  destruct (rsplit c s) as [[u v]|]; [discriminate |].
  destruct (Ascii.eqb a c); [discriminate |]. intros _. now apply IH.
Qed.

Lemma path_filename_no_sep p : has_char sep (path_filename p) = false.
Proof.
  unfold path_filename. destruct (rsplit sep p) as [[u v]|] eqn:E.
  - now apply rsplit_some_has in E.
  - now apply rsplit_none_has.
Qed.

Lemma path_stem_no_sep p : has_char sep (path_stem p) = false.
Proof.
  unfold path_stem. pose proof (path_filename_no_sep p) as H.
  destruct (_ || _); [exact H |].
  destruct (rsplit dot (path_filename p)) as [[u v]|] eqn:E; [|exact H].
  destruct u as [|a u]; [exact H |].
  apply rsplit_some_has in E as [E _]. rewrite E, has_char_app in H.
  now apply orb_false_iff in H.
Qed.

Lemma path_extension_no_sep p : has_char sep (path_extension p) = false.
Proof.
  unfold path_extension. pose proof (path_filename_no_sep p) as H.
  destruct (_ || _); [reflexivity |].
  destruct (rsplit dot (path_filename p)) as [[u v]|] eqn:E; [|reflexivity].
  destruct u as [|a u]; [reflexivity |].
  apply rsplit_some_has in E as [E _]. rewrite E, has_char_app in H.
  now apply orb_false_iff in H.
Qed.

Lemma segments_cons a t :
  segments (String a t) =
  if Ascii.eqb a sep then "" :: segments t
  else match segments t with
       | h :: r => String a h :: r
       | [] => [String a ""]
       end.
Proof.
  unfold segments. simpl. destruct (segments_aux t) as [h r].
  destruct (Ascii.eqb a sep); reflexivity.
Qed.

Lemma segments_not_nil s : segments s <> [].
Proof. unfold segments. destruct (segments_aux s). discriminate. Qed.

Lemma segments_clean w : has_char sep w = false -> segments w = [w].
Proof.
  induction w as [|a w IH]; [reflexivity |].
  simpl. intros H. apply orb_false_iff in H as [Ha Hw].
  rewrite segments_cons, Ha, (IH Hw). reflexivity.
Qed.

Lemma segments_app_sep u v :
  segments (u +:+ String sep v) = segments u ++ segments v.
Proof.
  induction u as [|a u IH].
  - simpl. rewrite segments_cons. reflexivity.
  - simpl. rewrite !segments_cons, IH.
    destruct (Ascii.eqb a sep); [reflexivity |].
    destruct (segments u) as [|h r] eqn:E; [now apply segments_not_nil in E |].
    reflexivity.
Qed.

Lemma ends_with_sep_inv d : ends_with sep d = true -> exists u, d = u +:+ String sep "".
Proof.
  unfold ends_with. destruct (rsplit sep d) as [[u v]|] eqn:E; [|discriminate].
  destruct v; [|discriminate]. intros _. exists u. now apply rsplit_some_has in E.
Qed.

Lemma starts_with_clean w : has_char sep w = false -> starts_with sep w = false.
Proof. destruct w as [|a w]; simpl; [reflexivity |]. intros H. now apply orb_false_iff in H. Qed.

(** Appending one proper name goes one step down. *)
Lemma resolve_append_name d w :
  has_char sep w = false -> is_proper_segment w = true ->
  resolve (path_append d w) = resolve d ++ [w].
Proof.
  intros Hs Hp. unfold path_append. rewrite (starts_with_clean _ Hs).
  assert (Hw : resolve w = [w]).
  { unfold resolve. rewrite (segments_clean _ Hs). simpl. now rewrite Hp. }
  destruct d as [|a d]; [exact Hw |].
  destruct (ends_with sep (String a d)) eqn:E.
  - apply ends_with_sep_inv in E as [u ->].
    rewrite app_assoc_s. simpl (String sep "" +:+ w).
    unfold resolve. rewrite !segments_app_sep, !List.filter_app.
    rewrite (segments_clean _ Hs). simpl. rewrite Hp, app_nil_r. reflexivity.
  - change (String a d +:+ "/" +:+ w) with (String a d +:+ String sep w).
    unfold resolve. rewrite segments_app_sep, List.filter_app.
    rewrite (segments_clean _ Hs). simpl. now rewrite Hp.
Qed.

Lemma path_filename_append_name d w :
  has_char sep w = false -> path_filename (path_append d w) = w.
Proof.
  intros Hs. unfold path_append. rewrite (starts_with_clean _ Hs).
  destruct d as [|a d]; [now apply path_filename_clean |].
  unfold path_filename. destruct (ends_with sep (String a d)) eqn:E.
  - apply ends_with_sep_inv in E as [u ->].
    rewrite app_assoc_s. simpl (String sep "" +:+ w).
    now rewrite (rsplit_last _ _ _ Hs).
  - change (String a d +:+ "/" +:+ w) with (String a d +:+ String sep w).
    now rewrite (rsplit_last _ _ _ Hs).
Qed.

(** ** Decimal numerals *)

Lemma string_of_uint_no_sep d : has_char sep (NilEmpty.string_of_uint d) = false.
Proof. induction d; simpl; auto. Qed.

Lemma to_string_no_sep n : has_char sep (to_string n) = false.
Proof. apply string_of_uint_no_sep. Qed.

Lemma to_string_inj n m : to_string n = to_string m -> n = m.
Proof.
  unfold to_string. intros H. apply Unsigned.to_uint_inj.
  pose proof (NilEmpty.usu (Nat.to_uint n)) as Hn.
  pose proof (NilEmpty.usu (Nat.to_uint m)) as Hm.
  rewrite H in Hn. congruence.
Qed.

Lemma length_app_s a b : String.length (a +:+ b) = String.length a + String.length b.
Proof. induction a as [|x a IH]; simpl; [reflexivity | now rewrite IH]. Qed.

Lemma app_cancel_r a b c : a +:+ c = b +:+ c -> a = b.
Proof.
  revert b. induction a as [|x a IH]; intros [|y b] H; simpl in H.
  - reflexivity.
  - apply (f_equal String.length) in H. simpl in H. rewrite length_app_s in H. lia.
  - apply (f_equal String.length) in H. simpl in H. rewrite length_app_s in H. lia.
  - injection H as -> H. f_equal. now apply IH.
Qed.

(** ** [get_unique_path] *)

Lemma new_filename_inj stem extension n m :
  new_filename stem extension n = new_filename stem extension m -> n = m.
Proof.
  unfold new_filename. intros H. apply String.app_inj in H. simpl in H. injection H as H.
  apply app_cancel_r in H. now apply to_string_inj.
Qed.

Lemma new_filename_no_sep stem extension n :
  has_char sep stem = false -> has_char sep extension = false ->
  has_char sep (new_filename stem extension n) = false.
Proof.
  unfold new_filename. intros Hs He. rewrite has_char_app, Hs. simpl.
  rewrite has_char_app, to_string_no_sep. simpl. exact He.
Qed.

Lemma new_filename_proper stem extension n :
  is_proper_segment (new_filename stem extension n) = true.
Proof.
  unfold is_proper_segment, new_filename. apply andb_true_iff. split; apply negb_true_iff, String.eqb_neq.
  - destruct stem; discriminate.
  - destruct stem as [|a [|b s]]; simpl; discriminate.
Qed.

(** What exists right under a directory is one of its entries. *)
Lemma fs_exists_child d w fs :
  has_char sep w = false -> is_proper_segment w = true ->
  fs_exists (path_append d w) fs = true ->
  exists a es, fs_status d fs = Some (Dir a es) /\ In w (List.map fst es).
Proof.
  intros Hs Hp. unfold fs_exists, fs_status.
  rewrite (resolve_append_name _ _ Hs Hp), walk_app.
  destruct (walk (resolve d) fs) as [[r x|a es]|]; simpl; try discriminate.
  destruct (map_find w es) as [m|] eqn:E; [|discriminate].
  intros _. exists a, es. split; [reflexivity |]. now apply map_find_some_in in E.
Qed.

Lemma probe_free_some fuel fs d stem extension c p :
  probe_free fuel fs d stem extension c = Some p ->
  exists n, c <= n /\ p = path_append d (new_filename stem extension n) /\
            fs_exists p fs = false /\
            forall k, c <= k < n ->
                      fs_exists (path_append d (new_filename stem extension k)) fs = true.
Proof.
  revert c. induction fuel as [|fuel IH]; intros c; simpl; [discriminate |].
  destruct (fs_exists (path_append d (new_filename stem extension c)) fs) eqn:E.
  - intros H. destruct (IH _ H) as (n & Hn & Hp & Hfree & Hbusy).
    exists n. repeat split; [lia | exact Hp | exact Hfree |].
    intros k Hk. destruct (Nat.eq_dec k c) as [->|Hne]; [exact E | apply Hbusy; lia].
  - intros [= <-]. exists c. repeat split; [lia | exact E |]. intros k Hk. lia.
Qed.

Lemma probe_free_none fuel fs d stem extension c :
  probe_free fuel fs d stem extension c = None ->
  forall k, c <= k < c + fuel ->
            fs_exists (path_append d (new_filename stem extension k)) fs = true.
Proof.
  revert c. induction fuel as [|fuel IH]; intros c; simpl; [intros _ k Hk; lia |].
  destruct (fs_exists (path_append d (new_filename stem extension c)) fs) eqn:E;
    [|discriminate].
  intros H k Hk. destruct (Nat.eq_dec k c) as [->|Hne]; [exact E |].
  apply (IH _ H). lia.
Qed.

(** More distinct names than entries cannot all be entries. *)
Lemma names_pigeonhole stem extension c fuel (names : list string) :
  (forall k, c <= k < c + fuel -> In (new_filename stem extension k) names) ->
  fuel <= length names.
Proof.
  intros H.
  rewrite <- (List.length_seq fuel c), <- (List.length_map (new_filename stem extension)).
  apply NoDup_incl_length.
  - apply Finite.Injective_map_NoDup; [|apply List.seq_NoDup].
    intros n m. apply new_filename_inj.
  - intros x Hx. apply in_map_iff in Hx as (k & <- & Hk).
    apply in_seq in Hk. apply H. lia.
Qed.

(** The loop of [get_unique_path] always finds a free name in time. *)
Lemma probe_free_enough fs d filename :
  probe_free (S (entry_count d fs)) fs d (path_stem filename) (path_extension filename) 1
  <> None.
Proof.
  intros H. pose proof (probe_free_none _ _ _ _ _ _ H) as Hall.
  assert (Hs : forall k, has_char sep
                 (new_filename (path_stem filename) (path_extension filename) k) = false)
    by (intros k; apply new_filename_no_sep;
        [apply path_stem_no_sep | apply path_extension_no_sep]).
  destruct (fs_exists_child d _ fs (Hs 1) (new_filename_proper _ _ 1))
    as (a & es & Hd & _); [apply Hall; lia |].
  assert (Hle : S (entry_count d fs) <= length (List.map fst es)).
  { apply (names_pigeonhole (path_stem filename) (path_extension filename) 1).
    intros k Hk.
    destruct (fs_exists_child d _ fs (Hs k) (new_filename_proper _ _ k))
      as (a' & es' & Hd' & Hin); [now apply Hall |].
    rewrite Hd in Hd'. injection Hd' as <- <-. exact Hin. }
  unfold entry_count in Hle. rewrite Hd, length_map in Hle. lia.
Qed.

Lemma get_unique_path_spec destination_dir filename fs :
  exists p,
    get_unique_path destination_dir filename fs = Ok p fs /\
    fs_exists p fs = false /\
    (fs_exists (path_append destination_dir filename) fs = false ->
     p = path_append destination_dir filename) /\
    (fs_exists (path_append destination_dir filename) fs = true ->
     exists n, 1 <= n /\
       p = path_append destination_dir
             (new_filename (path_stem filename) (path_extension filename) n) /\
       forall k, 1 <= k < n ->
         fs_exists (path_append destination_dir
                      (new_filename (path_stem filename) (path_extension filename) k))
                   fs = true).
Proof.
  unfold get_unique_path.
  destruct (fs_exists (path_append destination_dir filename) fs) eqn:E;
    simpl negb; cbv iota.
  - destruct (probe_free _ _ _ _ _ _) as [p|] eqn:P;
      [|now apply probe_free_enough in P].
    destruct (probe_free_some _ _ _ _ _ _ _ P) as (n & Hn & Hp & Hfree & Hbusy).
    exists p. repeat split; [exact Hfree | discriminate |].
    intros _. exists n. repeat split; assumption.
  - exists (path_append destination_dir filename).
    repeat split; [exact E | discriminate].
Qed.

(** ** One entry put or deleted *)

Lemma touches_only_put k v : touches_only (assoc_put k v) k.
Proof. intros c Hc. now apply keeps_put. Qed.

Lemma touches_only_del k : touches_only (assoc_del k) k.
Proof. intros c Hc. now apply keeps_del. Qed.

Lemma frame_entry f k d q n :
  touches_only f k ->
  ~ q `prefix_of` d -> ~ (d ++ [k]) `prefix_of` q ->
  walk q (update_dir d f n) = walk q n.
Proof.
  intros Hf H1 H2. apply walk_kept; [exact H1 |].
  intros c rest ->. apply Hf. intros ->. apply H2.
  exists rest. now rewrite <- app_assoc.
Qed.

Lemma dir_survives_entry f k d q n a es :
  touches_only f k ->
  walk q n = Some (Dir a es) -> ~ (d ++ [k]) `prefix_of` q ->
  exists es', walk q (update_dir d f n) = Some (Dir a es').
Proof.
  intros Hf Hq H2. apply (walk_dir_survives _ _ _ _ _ _ Hq).
  intros c rest ->. apply Hf. intros ->. apply H2.
  exists rest. now rewrite <- app_assoc.
Qed.

Lemma walk_put_entry d k v n a es :
  walk d n = Some (Dir a es) ->
  walk (d ++ [k]) (update_dir d (assoc_put k v) n) = Some v.
Proof.
  intros Hd. rewrite walk_update_below, Hd. simpl. now rewrite map_find_put_same.
Qed.

Lemma walk_del_entry d k n : walk (d ++ [k]) (update_dir d (assoc_del k) n) = None.
Proof.
  rewrite walk_update_below. destruct (walk d n) as [[r x|a es]|]; simpl; try reflexivity.
  now rewrite map_find_del_same.
Qed.

Lemma walk_child d k n a es m :
  walk d n = Some (Dir a es) -> map_find k es = m -> walk (d ++ [k]) n = m.
Proof. intros Hd <-. rewrite walk_app, Hd. simpl. now destruct (map_find k es). Qed.

Lemma walk_child_inv d k n m :
  walk (d ++ [k]) n = Some m ->
  exists a es, walk d n = Some (Dir a es) /\ map_find k es = Some m.
Proof.
  rewrite walk_app. destruct (walk d n) as [[r x|a es]|]; simpl; try discriminate.
  destruct (map_find k es) as [m'|] eqn:E; [|discriminate].
  intros [= <-]. eauto.
Qed.

(** Paths that cannot be prefixes of one another. *)
Lemma file_not_prefix_of_dir t d n r x a es :
  walk t n = Some (File r x) -> walk d n = Some (Dir a es) -> ~ t `prefix_of` d.
Proof.
  intros Ht Hd [k ->]. destruct (walk_through_file _ _ _ _ _ _ Ht Hd) as [_ E].
  discriminate.
Qed.

Lemma missing_not_prefix p q n m :
  walk p n = None -> walk q n = Some m -> ~ p `prefix_of` q.
Proof. intros Hp Hq [k ->]. rewrite walk_app, Hp in Hq. discriminate. Qed.

Lemma file_prefix_eq s t n r x m :
  walk s n = Some (File r x) -> walk t n = Some m -> s `prefix_of` t -> t = s.
Proof.
  intros Hs Ht [k ->]. destruct (walk_through_file _ _ _ _ _ _ Hs Ht) as [-> _].
  now rewrite app_nil_r.
Qed.

(** ** Moving a regular file to a free name *)

Section Move.
Variables (fs : node) (od nd : list string) (on nn : string).
Variables (oa na : dir_attr) (oes nes : list (string * node)).
Variables (r : option errc.t) (x : string).
Hypothesis Hod : walk od fs = Some (Dir oa oes).
Hypothesis Hon : map_find on oes = Some (File r x).
Hypothesis Hnd : walk nd fs = Some (Dir na nes).
Hypothesis Hnn : map_find nn nes = None.

Let Hsrc : walk (od ++ [on]) fs = Some (File r x).
Proof. exact (walk_child _ _ _ _ _ _ Hod Hon). Qed.

Let Hnew : walk (nd ++ [nn]) fs = None.
Proof. exact (walk_child _ _ _ _ _ _ Hnd Hnn). Qed.

Lemma src_not_above_dest : ~ (od ++ [on]) `prefix_of` nd.
Proof. exact (file_not_prefix_of_dir _ _ _ _ _ _ _ Hsrc Hnd). Qed.

Lemma new_not_above_src_dir : ~ (nd ++ [nn]) `prefix_of` od.
Proof. exact (missing_not_prefix _ _ _ _ Hnew Hod). Qed.

Lemma new_not_above_src : ~ (nd ++ [nn]) `prefix_of` (od ++ [on]).
Proof. exact (missing_not_prefix _ _ _ _ Hnew Hsrc). Qed.

Lemma src_not_above_new : ~ (od ++ [on]) `prefix_of` (nd ++ [nn]).
Proof.
  intros [k E]. destruct k as [|c k] using rev_ind.
  - rewrite app_nil_r in E. rewrite E, Hsrc in Hnew. discriminate.
  - rewrite !app_assoc in E. apply app_inj_tail in E as [E _].
    apply src_not_above_dest. exists k. now rewrite E, <- app_assoc.
Qed.

(** A regular file other than the source. *)
Section Bystander.
Variables (t : list string) (r0 : option errc.t) (x0 : string).
Hypothesis Ht : walk t fs = Some (File r0 x0).
Hypothesis Hts : t <> od ++ [on].

Lemma bystander_after_del n :
  walk t (update_dir od (assoc_del on) n) = walk t n.
Proof.
  apply (frame_entry _ on); [apply touches_only_del | |].
  - exact (file_not_prefix_of_dir _ _ _ _ _ _ _ Ht Hod).
  - intros Hp. apply Hts. exact (file_prefix_eq _ _ _ _ _ _ Hsrc Ht Hp).
Qed.

Lemma bystander_after_put v n :
  walk t (update_dir nd (assoc_put nn v) n) = walk t n.
Proof.
  apply (frame_entry _ nn); [apply touches_only_put | |].
  - exact (file_not_prefix_of_dir _ _ _ _ _ _ _ Ht Hnd).
  - exact (missing_not_prefix _ _ _ _ Hnew Ht).
Qed.
End Bystander.

(** [rename]: delete the old entry, then put the node under the new name. *)
Lemma moved_new v :
  walk (nd ++ [nn]) (update_dir nd (assoc_put nn v) (update_dir od (assoc_del on) fs))
  = Some v.
Proof.
  destruct (dir_survives_entry _ on od nd fs _ _ (touches_only_del on) Hnd
              src_not_above_dest) as [es' E].
  exact (walk_put_entry _ _ _ _ _ _ E).
Qed.

Lemma moved_old v :
  walk (od ++ [on]) (update_dir nd (assoc_put nn v) (update_dir od (assoc_del on) fs))
  = None.
Proof.
  rewrite (frame_entry _ nn); [apply walk_del_entry | apply touches_only_put | |].
  - exact src_not_above_dest.
  - exact new_not_above_src.
Qed.

(** [copy_file] then [remove]: put the copy, then delete the old entry. *)
Lemma copied_old v :
  walk (od ++ [on]) (update_dir nd (assoc_put nn v) fs) = Some (File r x).
Proof.
  rewrite (frame_entry _ nn); [exact Hsrc | apply touches_only_put | |].
  - exact src_not_above_dest.
  - exact new_not_above_src.
Qed.

Lemma copied_removed_new v :
  walk (nd ++ [nn]) (update_dir od (assoc_del on) (update_dir nd (assoc_put nn v) fs))
  = Some v.
Proof.
  rewrite (frame_entry _ on); [exact (walk_put_entry _ _ _ _ _ _ Hnd)
                              | apply touches_only_del | |].
  - exact new_not_above_src_dir.
  - exact src_not_above_new.
Qed.

End Move.

(** ** The primitives on a regular file and a free name *)

Lemma split_last_cases l :
  (l = [] /\ split_last l = None) \/ (exists d x, l = d ++ [x] /\ split_last l = Some (d, x)).
Proof.
  destruct (split_last l) as [[d x]|] eqn:E.
  - right. exists d, x. split; [now apply split_last_some | reflexivity].
  - left. split; [|reflexivity]. unfold split_last in E.
    destruct (rev l) eqn:R; [|discriminate].
    rewrite <- (rev_involutive l), R. reflexivity.
Qed.

(** A free name right under an existing directory is not among its entries. *)
Lemma fs_exists_false_child p fs nd nn na nes :
  fs_exists p fs = false -> resolve p = nd ++ [nn] ->
  walk nd fs = Some (Dir na nes) -> map_find nn nes = None.
Proof.
  unfold fs_exists, fs_status. intros He Hp Hd.
  rewrite Hp, walk_app, Hd in He. simpl in He.
  destruct (map_find nn nes); [discriminate | reflexivity].
Qed.

Lemma fs_rename_file_to_free s p fs r x :
  fs_status s fs = Some (File r x) -> fs_exists p fs = false ->
  (exists e, fs_rename s p fs = Throw e fs) \/
  (exists od on nd nn oa oes na nes,
      resolve s = od ++ [on] /\ resolve p = nd ++ [nn] /\
      walk od fs = Some (Dir oa oes) /\ map_find on oes = Some (File r x) /\
      walk nd fs = Some (Dir na nes) /\ map_find nn nes = None /\
      fs_rename s p fs
      = Ok tt (update_dir nd (assoc_put nn (File r x))
                 (update_dir od (assoc_del on) fs))).
Proof.
  intros Hs Hp. unfold fs_rename.
  destruct (split_last_cases (resolve s)) as [[_ ->] | (od & on & Es & ->)];
    [left; eauto |].
  destruct (split_last_cases (resolve p)) as [[_ ->] | (nd & nn & Ep & ->)];
    [left; eauto |].
  unfold fs_status in Hs. rewrite Es in Hs.
  destruct (walk_child_inv _ _ _ _ Hs) as (oa & oes & Hod & Hon).
  rewrite Hod.
  destruct (walk nd fs) as [[? ?|na nes]|] eqn:Hnd; [left; eauto | | left; eauto].
  rewrite Hon.
  pose proof (fs_exists_false_child _ _ _ _ _ _ Hp Ep Hnd) as Hnn.
  destruct (bool_decide (resolve s = resolve p)) eqn:Eq.
  { apply bool_decide_eq_true in Eq. unfold fs_exists, fs_status in Hp.
    rewrite <- Eq, Es, Hs in Hp. discriminate. }
  destruct (bool_decide (resolve s `prefix_of` resolve p)); [left; eauto |].
  destruct (d_write oa); [left; eauto |].
  destruct (d_write na); [left; eauto |].
  destruct (negb _); [left; eauto |].
  rewrite Hnn. right. exists od, on, nd, nn, oa, oes, na, nes.
  repeat split; assumption.
Qed.

Lemma fs_copy_file_to_free s p fs :
  fs_exists p fs = false ->
  (exists e, fs_copy_file s p fs = Throw e fs) \/
  (exists x nd nn na nes,
      fs_status s fs = Some (File None x) /\ resolve p = nd ++ [nn] /\
      walk nd fs = Some (Dir na nes) /\ map_find nn nes = None /\
      fs_copy_file s p fs = Ok true (update_dir nd (assoc_put nn (File None x)) fs)).
Proof.
  intros Hp. unfold fs_copy_file.
  destruct (fs_status s fs) as [[[e|] x|? ?]|] eqn:Hs; try (left; eauto; fail).
  destruct (split_last_cases (resolve p)) as [[_ ->] | (nd & nn & Ep & ->)];
    [left; eauto |].
  destruct (walk nd fs) as [[? ?|na nes]|] eqn:Hnd; [left; eauto | | left; eauto].
  rewrite (fs_exists_false_child _ _ _ _ _ _ Hp Ep Hnd).
  destruct (d_write na); [left; eauto |].
  right. exists x, nd, nn, na, nes. repeat split; try assumption.
  exact (fs_exists_false_child _ _ _ _ _ _ Hp Ep Hnd).
Qed.

Lemma fs_remove_file s fs od on oa oes r x :
  resolve s = od ++ [on] -> walk od fs = Some (Dir oa oes) ->
  map_find on oes = Some (File r x) ->
  (exists e, fs_remove s fs = Throw e fs) \/
  fs_remove s fs = Ok true (update_dir od (assoc_del on) fs).
Proof.
  intros Es Hod Hon. unfold fs_remove.
  rewrite Es, split_last_snoc, Hod, Hon.
  destruct (d_write oa); [left; eauto | right; reflexivity].
Qed.

(** ** The two transfers *)

(** [atomic_file_transfer] of a regular file: either nothing changes and
    the status reports a failure, or the file sits under the free name
    [get_unique_path] chose, is gone from its old place, and every other
    regular file is as it was. *)
Lemma atomic_file_transfer_file s d fs r x :
  fs_status s fs = Some (File r x) ->
  exists p,
    get_unique_path d (path_filename s) fs = Ok p fs /\ fs_exists p fs = false /\
    ((exists st, atomic_file_transfer s d fs = Ok st fs /\
                 st <> file_move_status.successful_transfer) \/
     (exists fs',
         atomic_file_transfer s d fs = Ok file_move_status.successful_transfer fs' /\
         fs_status p fs' = Some (File r x) /\ fs_status s fs' = None /\
         forall t r0 x0,
           fs_status t fs = Some (File r0 x0) -> resolve t <> resolve s ->
           fs_status t fs' = Some (File r0 x0))).
Proof.
  intros Hs. destruct (get_unique_path_spec d (path_filename s) fs) as (p & Hg & Hfree & _).
  exists p. split; [exact Hg |]. split; [exact Hfree |].
  unfold atomic_file_transfer, try_catch, bind. rewrite Hg.
  destruct (fs_rename_file_to_free s p fs r x Hs Hfree)
    as [[e E] | (od & on & nd & nn & oa & oes & na & nes
                 & Es & Ep & Hod & Hon & Hnd & Hnn & E)]; rewrite E.
  - left. destruct e; simpl; eexists; (split; [reflexivity | discriminate]).
  - right. eexists. split; [reflexivity |]. unfold fs_status.
    rewrite Es, Ep. repeat split.
    + exact (moved_new _ _ _ _ _ _ _ _ _ _ _ Hod Hon Hnd _).
    + exact (moved_old _ _ _ _ _ _ _ _ _ _ _ Hod Hon Hnd Hnn _).
    + intros t r0 x0 Ht Hne.
      rewrite (bystander_after_put _ _ _ _ _ Hnd Hnn _ _ _ Ht).
      rewrite (bystander_after_del _ _ _ _ _ _ _ Hod Hon _ _ _ Ht Hne).
      exact Ht.
Qed.

(** [fallback_transfer]: the copy fails and nothing changes; or the copy is
    made and the removal fails, leaving both; or both succeed. *)
Lemma fallback_transfer_cases s d fs :
  exists p,
    get_unique_path d (path_filename s) fs = Ok p fs /\ fs_exists p fs = false /\
    ((exists st, fallback_transfer s d fs = Ok st fs /\
                 st <> file_move_status.successful_transfer) \/
     (exists x fs',
         fs_status s fs = Some (File None x) /\
         fs_status p fs' = Some (File None x) /\
         (forall t r0 x0,
             fs_status t fs = Some (File r0 x0) -> resolve t <> resolve s ->
             fs_status t fs' = Some (File r0 x0)) /\
         ((exists st, fallback_transfer s d fs = Ok st fs' /\
                      st <> file_move_status.successful_transfer /\
                      fs_status s fs' = Some (File None x)) \/
          (fallback_transfer s d fs = Ok file_move_status.successful_transfer fs' /\
           fs_status s fs' = None)))).
Proof.
  destruct (get_unique_path_spec d (path_filename s) fs) as (p & Hg & Hfree & _).
  exists p. split; [exact Hg |]. split; [exact Hfree |].
  unfold fallback_transfer, try_catch, bind. rewrite Hg.
  destruct (fs_copy_file_to_free s p fs Hfree)
    as [[e E] | (x & nd & nn & na & nes & Hs & Ep & Hnd & Hnn & E)]; rewrite E.
  { left. destruct e; simpl; eexists; (split; [reflexivity | discriminate]). }
  right. exists x.
  assert (Hroot : resolve s <> []).
  { intros Hr. unfold fs_status in Hs. rewrite Hr in Hs. simpl in Hs.
    injection Hs as ->. destruct nd; discriminate. }
  destruct (split_last_cases (resolve s)) as [[Hr _] | (od & on & Es & _)];
    [contradiction |].
  unfold fs_status in Hs. rewrite Es in Hs.
  destruct (walk_child_inv _ _ _ _ Hs) as (oa & oes & Hod & Hon).
  pose proof (copied_old _ _ _ _ _ _ _ _ _ _ _ Hod Hon Hnd Hnn (File None x)) as Hs1.
  destruct (walk_child_inv _ _ _ _ Hs1) as (oa1 & oes1 & Hod1 & Hon1).
  destruct (fs_remove_file s _ _ _ _ _ _ _ Es Hod1 Hon1) as [[e R] | R]; rewrite R.
  - exists (update_dir nd (assoc_put nn (File None x)) fs). unfold fs_status.
    rewrite Es, Ep. repeat split.
    + exact Hs.
    + exact (walk_put_entry _ _ _ _ _ _ Hnd).
    + intros t r0 x0 Ht _.
      rewrite (bystander_after_put _ _ _ _ _ Hnd Hnn _ _ _ Ht). exact Ht.
    + left. destruct e; simpl; eexists;
        (split; [reflexivity | split; [discriminate | exact Hs1]]).
  - exists (update_dir od (assoc_del on) (update_dir nd (assoc_put nn (File None x)) fs)).
    unfold fs_status. rewrite Es, Ep. repeat split.
    + exact Hs.
    + exact (copied_removed_new _ _ _ _ _ _ _ _ _ _ _ Hod Hon Hnd Hnn _).
    + intros t r0 x0 Ht Hne.
      rewrite (bystander_after_del _ _ _ _ _ _ _ Hod Hon _ _ _ Ht Hne).
      rewrite (bystander_after_put _ _ _ _ _ Hnd Hnn _ _ _ Ht). exact Ht.
    + right. split; [reflexivity | apply walk_del_entry].
Qed.


(** On a file system whose status queries are always answered and whose
    names are not limited, [get_unique_path] returns a path that does not
    exist: the
    plain destination_dir/filename when that is free, otherwise
    destination_dir/stem(n)ext for the least n >= 1 that is free.  A
    transfer, atomic or fallback, of a regular file whose name is taken at
    the destination by another regular file leaves that file as it was, and
    on success the moved bytes are under the generated name and the source
    is gone. *)
Lemma get_unique_path_collision_safe destination_dir filename fs :
  (exists p,
      get_unique_path destination_dir filename fs = Ok p fs /\
      fs_exists p fs = false /\
      (fs_exists (path_append destination_dir filename) fs = false ->
       p = path_append destination_dir filename) /\
      (fs_exists (path_append destination_dir filename) fs = true ->
       exists n, 1 <= n /\
         p = path_append destination_dir
               (new_filename (path_stem filename) (path_extension filename) n) /\
         forall k, 1 <= k < n ->
           fs_exists (path_append destination_dir
                        (new_filename (path_stem filename) (path_extension filename) k))
                     fs = true)) /\
  (forall transfer source_path r x r0 x0 st fs',
      transfer = atomic_file_transfer \/ transfer = fallback_transfer ->
      path_filename source_path = filename ->
      fs_status source_path fs = Some (File r x) ->
      fs_status (path_append destination_dir filename) fs = Some (File r0 x0) ->
      resolve source_path <> resolve (path_append destination_dir filename) ->
      transfer source_path destination_dir fs = Ok st fs' ->
      fs_status (path_append destination_dir filename) fs' = Some (File r0 x0) /\
      (st = file_move_status.successful_transfer ->
       exists n r',
         1 <= n /\
         get_unique_path destination_dir filename fs
         = Ok (path_append destination_dir
                 (new_filename (path_stem filename) (path_extension filename) n)) fs /\
         fs_status (path_append destination_dir
                      (new_filename (path_stem filename) (path_extension filename) n))
                   fs' = Some (File r' x) /\
         fs_status source_path fs' = None)).
Proof.
  split; [apply get_unique_path_spec |].
  intros transfer s r x r0 x0 st fs' Htr Hname Hs Ht Hne E.
  assert (Hex : fs_exists (path_append destination_dir filename) fs = true)
    by (unfold fs_exists; now rewrite Ht).
  assert (Hne' : resolve (path_append destination_dir filename) <> resolve s)
    by congruence.
  destruct (get_unique_path_spec destination_dir filename fs)
    as (q & Hq & _ & _ & Hn). destruct (Hn Hex) as (n & Hn1 & -> & _). clear Hn.
  destruct Htr as [-> | ->].
  - destruct (atomic_file_transfer_file s destination_dir fs r x Hs)
      as (p & Hg & _ & [(st' & E' & Hst) | (fs1 & E' & Hp & Hgone & Hframe)]);
      rewrite Hname, Hq in Hg; injection Hg as <-;
      rewrite E' in E; injection E as <- <-.
    + split; [exact Ht | contradiction].
    + split; [exact (Hframe _ _ _ Ht Hne') |].
      intros _. exists n, r. auto.
  - destruct (fallback_transfer_cases s destination_dir fs)
      as (p & Hg & _ & [(st' & E' & Hst)
                       | (y & fs1 & Hs' & Hp & Hframe & [(st' & E' & Hst & _) | [E' Hgone]])]);
      rewrite Hname, Hq in Hg; injection Hg as <-;
      rewrite E' in E; injection E as <- <-.
    + split; [exact Ht | contradiction].
    + split; [exact (Hframe _ _ _ Ht Hne') | contradiction].
    + split; [exact (Hframe _ _ _ Ht Hne') |].
      intros _. exists n, None. rewrite Hs in Hs'. injection Hs' as -> ->. auto.
Qed.

(** ** Parents of paths *)

Lemma rstrip_decompose u :
  exists z, u = rstrip sep u +:+ z /\ only_seps z = true.
Proof.
  induction u as [|a u (z & E & Hz)]; simpl.
  - exists "". auto.
  - destruct (rstrip sep u) as [|b t] eqn:R.
    + destruct (Ascii.eqb_spec a sep) as [->|Ha].
      * exists (String sep u). split; [reflexivity |]. simpl in E. subst z.
        simpl. exact Hz.
      * exists u. split; [reflexivity |]. simpl in E. now subst z.
    + exists z. split; [|exact Hz].
      change (String a u = String a (String b t +:+ z)). now rewrite <- E.
Qed.

Lemma resolve_app_seps v z : only_seps z = true -> resolve (v +:+ z) = resolve v.
Proof.
  revert v. induction z as [|a z IH]; intros v H.
  - now rewrite app_empty_r.
  - simpl in H. apply andb_true_iff in H as [Ha Hz].
    apply Ascii.eqb_eq in Ha as ->.
    specialize (IH "" Hz). simpl in IH.
    unfold resolve in *. rewrite segments_app_sep, List.filter_app, IH.
    apply app_nil_r.
Qed.

Lemma resolve_rstrip u : resolve (rstrip sep u) = resolve u.
Proof.
  destruct (rstrip_decompose u) as (z & E & Hz).
  rewrite E at 2. now rewrite resolve_app_seps.
Qed.

Lemma resolve_slash : resolve "/" = [].
Proof. reflexivity. Qed.

Lemma path_parent_path_resolve u w :
  has_char sep w = false ->
  resolve (path_parent_path (u +:+ String sep w)) = resolve u.
Proof.
  intros Hw. unfold path_parent_path. rewrite (rsplit_last _ _ _ Hw).
  pose proof (resolve_rstrip u) as H.
  destruct (rstrip sep u); [|exact H].
  rewrite <- H. reflexivity.
Qed.

(** The parent of dir/name resolves to dir. *)
Lemma resolve_parent_append d w :
  has_char sep w = false ->
  resolve (path_parent_path (path_append d w)) = resolve d.
Proof.
  intros Hs. unfold path_append. rewrite (starts_with_clean _ Hs).
  destruct d as [|a d].
  - unfold path_parent_path. now rewrite (rsplit_none _ _ Hs).
  - destruct (ends_with sep (String a d)) eqn:E.
    + apply ends_with_sep_inv in E as [u ->].
      rewrite app_assoc_s. simpl (String sep "" +:+ w).
      rewrite (path_parent_path_resolve _ _ Hs).
      symmetry. apply (resolve_app_seps u (String sep "")). reflexivity.
    + change (String a d +:+ "/" +:+ w) with (String a d +:+ String sep w).
      apply (path_parent_path_resolve _ _ Hs).
Qed.

Lemma good_name_inv n :
  good_name n = true -> has_char sep n = false /\ is_proper_segment n = true.
Proof.
  unfold good_name. intros H. apply andb_true_iff in H as [H _].
  apply andb_true_iff in H as [H1 H2].
  split; [now apply negb_true_iff in H1 | exact H2].
Qed.

Lemma good_name_not_dots n : good_name n = true -> n <> "." /\ n <> "..".
Proof.
  unfold good_name, is_proper_segment. intros H.
  apply andb_true_iff in H as [H H3]. apply andb_true_iff in H as [_ H].
  apply andb_true_iff in H as [_ H2].
  apply negb_true_iff, String.eqb_neq in H2, H3. auto.
Qed.

Lemma resolve_append_good d n : good_name n = true -> resolve (path_append d n) = resolve d ++ [n].
Proof. intros H. apply good_name_inv in H as [H1 H2]. now apply resolve_append_name. Qed.

Lemma path_filename_append_good d n : good_name n = true -> path_filename (path_append d n) = n.
Proof. intros H. apply good_name_inv in H as [H1 _]. now apply path_filename_append_name. Qed.

(** ** What the catalogs range over *)

(** A category found by either reverse table is a canonical name, hence a
    good folder name. *)
Lemma map_forallb_sound (P : string * string -> bool) (m : gmap string string) k v :
  forallb P (map_to_list m) = true -> m !! k = Some v -> P (k, v) = true.
Proof.
  intros H Hk. rewrite forallb_forall in H. apply H.
  apply list_elem_of_In, elem_of_map_to_list. exact Hk.
Qed.

Lemma extension_lookup_range e c :
  EXTENSION_LOOKUP !! e = Some c -> c ∈ CANONICAL_NAMES /\ good_name c = true.
Proof.
  intros H.
  pose (P := fun kv : string * string =>
               bool_decide (snd kv ∈ CANONICAL_NAMES) && good_name (snd kv)).
  assert (A : forallb P (map_to_list EXTENSION_LOOKUP) = true) by (vm_compute; reflexivity).
  pose proof (map_forallb_sound P _ _ _ A H) as B. unfold P in B. simpl in B.
  apply andb_true_iff in B as [B1 B2].
  split; [now apply bool_decide_eq_true in B1 | exact B2].
Qed.

Lemma alias_lookup_range a c :
  ALIAS_LOOKUP !! a = Some c ->
  c ∈ CANONICAL_NAMES /\ good_name c = true /\ (a ∉ CANONICAL_NAMES) /\ to_lower a = a.
Proof.
  intros H.
  pose (P := fun kv : string * string =>
               bool_decide (snd kv ∈ CANONICAL_NAMES) && good_name (snd kv)
               && negb (bool_decide (fst kv ∈ CANONICAL_NAMES))
               && String.eqb (to_lower (fst kv)) (fst kv)).
  assert (A : forallb P (map_to_list ALIAS_LOOKUP) = true) by (vm_compute; reflexivity).
  pose proof (map_forallb_sound P _ _ _ A H) as B. unfold P in B. simpl in B.
  apply andb_true_iff in B as [B B4]. apply andb_true_iff in B as [B B3].
  apply andb_true_iff in B as [B1 B2].
  repeat split.
  - now apply bool_decide_eq_true in B1.
  - exact B2.
  - now apply negb_true_iff, bool_decide_eq_false in B3.
  - now apply String.eqb_eq.
Qed.

Lemma classify_range p :
  classify_file_by_extension p = "Others" \/
  classify_file_by_extension p ∈ CANONICAL_NAMES.
Proof.
  unfold classify_file_by_extension.
  destruct (String.eqb _ _); [left; reflexivity |].
  destruct (EXTENSION_LOOKUP !! _) as [c|] eqn:E; [|left; reflexivity].
  right. exact (proj1 (extension_lookup_range _ _ E)).
Qed.

Lemma classify_good p : good_name (classify_file_by_extension p) = true.
Proof.
  unfold classify_file_by_extension.
  destruct (String.eqb _ _); [reflexivity |].
  destruct (EXTENSION_LOOKUP !! _) as [c|] eqn:E; [|reflexivity].
  exact (proj2 (extension_lookup_range _ _ E)).
Qed.

(** ** [create_directory] and the statuses of [handle_file] *)

Lemma create_directory_result p fs :
  exists st fs',
    create_directory p fs = Ok st fs' /\
    (fs' = fs \/
     exists d n a es,
       resolve p = d ++ [n] /\ walk d fs = Some (Dir a es) /\ map_find n es = None /\
       fs' = update_dir d (assoc_put n (Dir {| d_open := None; d_write := None;
                                               d_dev := d_dev a |} [])) fs).
Proof.
  unfold create_directory, try_catch, bind, fs_create_directory.
  destruct (negb (fs_exists p fs)); [|eauto].
  destruct (split_last_cases (resolve p)) as [[_ ->] | (d & n & Ep & ->)]; [eauto |].
  destruct (walk d fs) as [[? ?|a es]|] eqn:Hd; [eauto | | eauto].
  destruct (map_find n es) as [[? ?|? ?]|] eqn:Hn; [eauto | eauto |].
  destruct (d_write a) as [e|]; [destruct e; eauto |].
  do 2 eexists. split; [reflexivity |]. right. exists d, n, a, es. auto.
Qed.

(** [create_directory] leaves every regular file as it was. *)
Lemma create_directory_keeps_files p fs st fs' t r x :
  create_directory p fs = Ok st fs' ->
  fs_status t fs = Some (File r x) -> fs_status t fs' = Some (File r x).
Proof.
  intros E Ht. destruct (create_directory_result p fs) as (st0 & fs0 & E0 & H).
  rewrite E0 in E. injection E as <- <-.
  destruct H as [-> | (d & n & a & es & Ep & Hd & Hn & ->)]; [exact Ht |].
  unfold fs_status in *.
  rewrite (bystander_after_put _ _ _ _ _ Hd Hn _ _ _ Ht). exact Ht.
Qed.

Lemma combine_atomic_success cr st :
  combine_atomic cr st = organize_status.success ->
  st = file_move_status.successful_transfer.
Proof. destruct cr, st; simpl; intros H; (reflexivity || discriminate H). Qed.

Lemma combine_fallback_success cr st :
  combine_fallback cr st = organize_status.success ->
  st = file_move_status.successful_transfer.
Proof. destruct cr, st; simpl; intros H; (reflexivity || discriminate H). Qed.

Lemma combine_atomic_not_skipped cr st :
  combine_atomic cr st <> organize_status.already_in_correct_location.
Proof. destruct cr, st; discriminate. Qed.

Lemma combine_fallback_not_skipped cr st :
  combine_fallback cr st <> organize_status.already_in_correct_location.
Proof. destruct cr, st; discriminate. Qed.

(** ** The name [get_unique_path] generates keeps the extension *)

Lemma string_of_uint_no_dot d : has_char dot (NilEmpty.string_of_uint d) = false.
Proof. induction d; simpl; auto. Qed.

Lemma new_filename_has_paren stem extension n :
  has_char "("%char (new_filename stem extension n) = true.
Proof.
  unfold new_filename. rewrite has_char_app. simpl. apply orb_true_r.
Qed.

Lemma new_filename_good f n :
  good_name (new_filename (path_stem f) (path_extension f) n) = true.
Proof.
  unfold good_name.
  rewrite new_filename_no_sep by (apply path_stem_no_sep || apply path_extension_no_sep).
  rewrite new_filename_proper. simpl.
  apply negb_true_iff, String.eqb_neq. intros E.
  pose proof (new_filename_has_paren (path_stem f) (path_extension f) n) as H.
  rewrite E in H. discriminate H.
Qed.

Lemma path_extension_clean f :
  has_char sep f = false -> f <> "." -> f <> ".." ->
  path_extension f = match rsplit dot f with
                     | Some (String a u, e) => String dot e
                     | _ => ""
                     end.
Proof.
  intros Hs H1 H2. unfold path_extension. rewrite (path_filename_clean _ Hs).
  apply String.eqb_neq in H1, H2. rewrite H1, H2. simpl.
  destruct (rsplit dot f) as [[[|a u] e]|]; reflexivity.
Qed.

Lemma new_filename_extension f n :
  has_char sep f = false -> f <> "." -> f <> ".." ->
  path_extension (new_filename (path_stem f) (path_extension f) n) = path_extension f.
Proof.
  intros Hs H1 H2.
  pose proof (new_filename_good f n) as Hg.
  destruct (good_name_inv _ Hg) as [Hgs _]. destruct (good_name_not_dots _ Hg) as [Hg1 Hg2].
  rewrite (path_extension_clean _ Hgs Hg1 Hg2).
  rewrite (path_extension_clean _ Hs H1 H2).
  unfold path_stem. rewrite (path_filename_clean _ Hs).
  apply String.eqb_neq in H1, H2. rewrite H1, H2. simpl orb. cbv iota.
  unfold new_filename.
  destruct (rsplit dot f) as [[[|a u] e]|] eqn:E.
  - apply rsplit_some_has in E as [-> He]. simpl.
    rewrite rsplit_none; [reflexivity |].
    rewrite has_char_app, He. simpl. rewrite has_char_app.
    unfold to_string. rewrite string_of_uint_no_dot. reflexivity.
  - apply rsplit_some_has in E as [_ He].
    replace (String a u +:+ "(" +:+ to_string n +:+ ")" +:+ String dot e)
      with ((String a u +:+ "(" +:+ to_string n +:+ ")") +:+ String dot e)
      by (now rewrite !app_assoc_s).
    rewrite (rsplit_last _ _ _ He). reflexivity.
  - apply rsplit_none_has in E.
    rewrite rsplit_none; [reflexivity |].
    rewrite has_char_app, E. simpl. rewrite has_char_app.
    unfold to_string. rewrite string_of_uint_no_dot. reflexivity.
Qed.

(** A regular file moved into [dest] by either transfer: where it lands. *)
Lemma transfer_lands t_mode entry dest fname fs r x st fs' :
  path_filename entry = fname -> good_name fname = true ->
  fs_status entry fs = Some (File r x) ->
  match t_mode with
  | transfer_mode.atomic_transfer_mode => atomic_file_transfer entry dest fs
  | transfer_mode.fallback_transfer_mode => fallback_transfer entry dest fs
  end = Ok st fs' ->
  (forall t r0 x0, fs_status t fs = Some (File r0 x0) -> resolve t <> resolve entry ->
                   fs_status t fs' = Some (File r0 x0)) /\
  ((st <> file_move_status.successful_transfer /\
    fs_status entry fs' = Some (File r x)) \/
   (st = file_move_status.successful_transfer /\
    exists leaf r',
      good_name leaf = true /\ path_extension leaf = path_extension fname /\
      fs_exists (path_append dest leaf) fs = false /\
      fs_status (path_append dest leaf) fs' = Some (File r' x) /\
      fs_status entry fs' = None)).
Proof.
  intros Hname Hgood Hs E.
  destruct (good_name_inv _ Hgood) as [Hsep _].
  destruct (good_name_not_dots _ Hgood) as [Hd1 Hd2].
  assert (Hleaf : forall p, get_unique_path dest fname fs = Ok p fs ->
            exists leaf, p = path_append dest leaf /\ good_name leaf = true /\
                         path_extension leaf = path_extension fname).
  { intros p Hp.
    destruct (get_unique_path_spec dest fname fs) as (q & Hq & _ & Hfree & Hbusy).
    rewrite Hq in Hp. injection Hp as <-.
    destruct (fs_exists (path_append dest fname) fs).
    - destruct (Hbusy eq_refl) as (n & _ & -> & _).
      eexists. split; [reflexivity |]. split; [apply new_filename_good |].
      now apply new_filename_extension.
    - rewrite (Hfree eq_refl). eauto. }
  destruct t_mode.
  - destruct (atomic_file_transfer_file entry dest fs r x Hs)
      as (p & Hg & Hfree & [(st' & E' & Hst) | (fs1 & E' & Hp & Hgone & Hframe)]);
      rewrite E' in E; injection E as <- <-.
    + split; [intros; assumption |]. left. auto.
    + split; [exact Hframe |]. right. split; [reflexivity |].
      rewrite Hname in Hg. destruct (Hleaf _ Hg) as (leaf & -> & Hl1 & Hl2).
      exists leaf, r. auto.
  - destruct (fallback_transfer_cases entry dest fs)
      as (p & Hg & Hfree & [(st' & E' & Hst)
          | (y & fs1 & Hs' & Hp & Hframe & [(st' & E' & Hst & Hkept) | [E' Hgone]])]);
      rewrite E' in E; injection E as <- <-.
    + split; [intros; assumption |]. left. auto.
    + split; [exact Hframe |]. left. rewrite Hs in Hs'. injection Hs' as -> ->. auto.
    + split; [exact Hframe |]. right. split; [reflexivity |].
      rewrite Hname in Hg. destruct (Hleaf _ Hg) as (leaf & -> & Hl1 & Hl2).
      rewrite Hs in Hs'. injection Hs' as -> ->.
      exists leaf, None. auto.
Qed.

(** ** [handle_file] *)

(** The two tests that make [handle_file] leave a file where it is. *)
Lemma handle_file_skips cur entry t_mode fs :
  String.eqb (classify_file_by_extension entry) (get_parent_folder_name cur) = true \/
  alias_of_category (get_parent_folder_name cur) (classify_file_by_extension entry) = true ->
  handle_file cur entry t_mode fs = Ok organize_status.already_in_correct_location fs.
Proof.
  unfold handle_file. intros [H | H].
  - rewrite H. reflexivity.
  - rewrite H. destruct (String.eqb _ _); reflexivity.
Qed.

(** Otherwise a regular file is sent to base/category: the status is never
    [already_in_correct_location], no other regular file changes, and on
    [success] the bytes are in the category folder under a name with the
    same extension. *)
Lemma handle_file_moves cur entry fname t_mode fs r x :
  path_filename entry = fname -> good_name fname = true ->
  fs_status entry fs = Some (File r x) ->
  String.eqb (classify_file_by_extension entry) (get_parent_folder_name cur) = false ->
  alias_of_category (get_parent_folder_name cur) (classify_file_by_extension entry) = false ->
  exists st fs',
    handle_file cur entry t_mode fs = Ok st fs' /\
    st <> organize_status.already_in_correct_location /\
    (forall t r0 x0, fs_status t fs = Some (File r0 x0) -> resolve t <> resolve entry ->
                     fs_status t fs' = Some (File r0 x0)) /\
    (st = organize_status.success ->
     exists leaf r',
       good_name leaf = true /\ path_extension leaf = path_extension fname /\
       fs_status (path_append
                    (path_append (base_location cur (classify_file_by_extension entry))
                                 (classify_file_by_extension entry)) leaf) fs'
       = Some (File r' x) /\
       fs_status entry fs' = None).
Proof.
  intros Hname Hgood Hs H1 H2. unfold handle_file. rewrite H1, H2.
  set (dest := path_append (base_location cur (classify_file_by_extension entry))
                           (classify_file_by_extension entry)).
  unfold bind.
  destruct (create_directory_result dest fs) as (cr & fs1 & Ec & _). rewrite Ec.
  pose proof (create_directory_keeps_files _ _ _ _ _ _ _ Ec Hs) as Hs1.
  assert (Hframe1 : forall t r0 x0, fs_status t fs = Some (File r0 x0) ->
                                    fs_status t fs1 = Some (File r0 x0))
    by (intros t r0 x0; apply (create_directory_keeps_files _ _ _ _ _ _ _ Ec)).
  assert (Hret : exists st fs',
             match t_mode with
             | transfer_mode.atomic_transfer_mode => atomic_file_transfer entry dest fs1
             | transfer_mode.fallback_transfer_mode => fallback_transfer entry dest fs1
             end = Ok st fs').
  { destruct t_mode.
    - destruct (atomic_file_transfer_file entry dest fs1 r x Hs1)
        as (p & _ & _ & [(st & E & _) | (fs2 & E & _)]); eauto.
    - destruct (fallback_transfer_cases entry dest fs1)
        as (p & _ & _ & [(st & E & _)
                        | (y & fs2 & _ & _ & _ & [(st & E & _) | [E _]])]); eauto. }
  destruct Hret as (st & fs' & Et).
  destruct (transfer_lands t_mode entry dest fname fs1 r x st fs' Hname Hgood Hs1 Et)
    as [Hframe Hcases].
  exists (match t_mode with
          | transfer_mode.atomic_transfer_mode => combine_atomic cr st
          | transfer_mode.fallback_transfer_mode => combine_fallback cr st
          end), fs'.
  split; [destruct t_mode; rewrite Et; reflexivity |].
  split; [destruct t_mode; [apply combine_atomic_not_skipped
                           | apply combine_fallback_not_skipped] |].
  split; [intros t r0 x0 Ht Hne; apply Hframe; [now apply Hframe1 | exact Hne] |].
  assert (Hsucc : match t_mode with
                  | transfer_mode.atomic_transfer_mode => combine_atomic cr st
                  | transfer_mode.fallback_transfer_mode => combine_fallback cr st
                  end = organize_status.success ->
                  st = file_move_status.successful_transfer)
    by (destruct t_mode; [apply combine_atomic_success | apply combine_fallback_success]).
  intros Hst. specialize (Hsucc Hst).
  destruct Hcases as [[Hne _] | [_ (leaf & r' & Hl1 & Hl2 & _ & Hp & Hgone)]];
    [contradiction |].
  exists leaf, r'. auto.
Qed.

(** The base is the parent when the folder is a canonical one of another
    category, or an alias of another category. *)
Lemma base_location_parent cur category :
  category <> get_parent_folder_name cur ->
  get_parent_folder_name cur ∈ CANONICAL_NAMES \/
  (exists c, ALIAS_LOOKUP !! get_parent_folder_name cur = Some c /\ c <> category) ->
  base_location cur category = path_parent_path cur /\
  alias_of_category (get_parent_folder_name cur) category = false.
Proof.
  intros Hne H. unfold base_location, alias_of_category, alias_of_other_category.
  apply String.eqb_neq in Hne. rewrite Hne. simpl negb.
  destruct H as [Hc | (c & Ha & Hc)].
  - rewrite (bool_decide_eq_true_2 _ Hc). simpl. split; [reflexivity |].
    destruct (ALIAS_LOOKUP !! get_parent_folder_name cur) as [c|] eqn:E; [|reflexivity].
    destruct (alias_lookup_range _ _ E) as (_ & _ & Hn & _).
    exact (False_ind _ (Hn Hc)).
  - rewrite Ha. apply String.eqb_neq in Hc. rewrite Hc. simpl.
    split; [|reflexivity].
    destruct (bool_decide _ && true); reflexivity.
Qed.

(** Ejection as far as it goes: a regular file fname lies in the folder
    d/name, and name is a
    canonical category name, or an alias of a category, other than the
    category of the file.  Then [handle_file] takes d as base: it never
    answers [already_in_correct_location], its destination folder resolves
    to d/category, a sibling of d/name, and on [success] the bytes are in
    d/category and no longer in d/name; nothing is put under d/name. *)
Lemma handle_file_ejects_one_level_up d name fname t_mode fs r x :
  good_name name = true -> good_name fname = true ->
  fs_status (path_append (path_append d name) fname) fs = Some (File r x) ->
  classify_file_by_extension (path_append (path_append d name) fname) <> name ->
  name ∈ CANONICAL_NAMES \/
  (exists c, ALIAS_LOOKUP !! name = Some c /\
             c <> classify_file_by_extension (path_append (path_append d name) fname)) ->
  let cur := path_append d name in
  let entry := path_append cur fname in
  let category := classify_file_by_extension entry in
  base_location cur category = path_parent_path cur /\
  resolve (path_append (path_parent_path cur) category) = resolve d ++ [category] /\
  exists st fs',
    handle_file cur entry t_mode fs = Ok st fs' /\
    st <> organize_status.already_in_correct_location /\
    (st = organize_status.success ->
     exists leaf r',
       fs_status (path_append (path_append (path_parent_path cur) category) leaf) fs'
       = Some (File r' x) /\
       resolve (path_append (path_append (path_parent_path cur) category) leaf)
       = resolve d ++ [category; leaf] /\
       ~ resolve cur `prefix_of`
           resolve (path_append (path_append (path_parent_path cur) category) leaf) /\
       fs_status entry fs' = None).
Proof.
  intros Hname Hfname Hs Hcat Hfolder cur entry category.
  assert (Hparent : get_parent_folder_name cur = name)
    by (apply path_filename_append_good; exact Hname).
  assert (Hne : category <> get_parent_folder_name cur) by (rewrite Hparent; exact Hcat).
  assert (Hfolder' : get_parent_folder_name cur ∈ CANONICAL_NAMES \/
                     (exists c, ALIAS_LOOKUP !! get_parent_folder_name cur = Some c /\
                                c <> category))
    by (rewrite Hparent; exact Hfolder).
  destruct (base_location_parent cur category Hne Hfolder') as [Hbase Halias].
  assert (Hdest : resolve (path_append (path_parent_path cur) category)
                  = resolve d ++ [category]).
  { rewrite (resolve_append_good _ _ (classify_good entry)).
    unfold cur. rewrite resolve_parent_append; [reflexivity |].
    exact (proj1 (good_name_inv _ Hname)). }
  split; [exact Hbase |]. split; [exact Hdest |].
  assert (Heqb : String.eqb (classify_file_by_extension entry)
                            (get_parent_folder_name cur) = false)
    by (apply String.eqb_neq; exact Hne).
  destruct (handle_file_moves cur entry fname t_mode fs r x
              (path_filename_append_good _ _ Hfname) Hfname Hs Heqb Halias)
    as (st & fs' & E & Hst & _ & Hsucc).
  exists st, fs'. split; [exact E |]. split; [exact Hst |].
  intros Hok. destruct (Hsucc Hok) as (leaf & r' & Hl & _ & Hp & Hgone).
  fold category in Hp. rewrite Hbase in Hp.
  exists leaf, r'. split; [exact Hp |].
  assert (Hres : resolve (path_append (path_append (path_parent_path cur) category) leaf)
                 = resolve d ++ [category; leaf]).
  { rewrite (resolve_append_good _ _ Hl), Hdest, <- app_assoc. reflexivity. }
  split; [exact Hres |]. split; [|exact Hgone].
  rewrite Hres. unfold cur. rewrite (resolve_append_good _ _ Hname).
  intros [k Hk]. rewrite <- app_assoc in Hk. apply app_inv_head in Hk.
  simpl in Hk. injection Hk as Hk _. apply Hcat. exact Hk.
Qed.


(** ** The scan of [normalize_category_folder] *)

Lemma map_find_insert_fresh {V : Type} (k k' : string) (v : V) (m : list (string * V)) :
  map_find k' m = None ->
  map_find k (map_insert k' v m) = if String.eqb k k' then Some v else map_find k m.
Proof.
  induction m as [|[k0 v0] m IH]; simpl.
  - intros _. reflexivity.
  - destruct (String.eqb_spec k' k0) as [->|Hk0]; [discriminate |].
    intros Hm. destruct (String.compare k' k0) eqn:C.
    + apply String.compare_eq_iff in C. contradiction.
    + simpl. reflexivity.
    + simpl. rewrite (IH Hm).
      destruct (String.eqb_spec k k0) as [->|Hk]; [|reflexivity].
      apply String.eqb_neq in Hk0. rewrite String.eqb_sym, Hk0. reflexivity.
Qed.

Lemma in_map_insert {V : Type} (k : string) (v : V) (m : list (string * V)) kv :
  In kv (map_insert k v m) -> kv = (k, v) \/ In kv m.
Proof.
  induction m as [|[k0 v0] m IH]; simpl.
  - intros [<- | []]. now left.
  - destruct (String.compare k k0); simpl.
    + intros H. now right.
    + intros [<- | H]; [now left | now right].
    + intros [<- | H]; [right; now left |].
      destruct (IH H) as [-> | H']; [now left | right; now right].
Qed.

Lemma in_map_insert_keys {V : Type} (k : string) (v : V) (m : list (string * V)) x :
  In x (List.map fst (map_insert k v m)) -> x = k \/ In x (List.map fst m).
Proof.
  intros H. apply in_map_iff in H as (kv & <- & Hin).
  apply in_map_insert in Hin as [-> | Hin]; [now left |].
  right. apply in_map_iff. eauto.
Qed.

Lemma nodup_map_insert {V : Type} (k : string) (v : V) (m : list (string * V)) :
  map_find k m = None -> List.NoDup (List.map fst m) ->
  List.NoDup (List.map fst (map_insert k v m)).
Proof.
  induction m as [|[k0 v0] m IH]; simpl.
  - intros _ _. constructor; [tauto | constructor].
  - destruct (String.eqb_spec k k0) as [->|Hk0]; [discriminate |].
    intros Hm Hnd. inversion Hnd as [|? ? Hnotin Hnd']; subst.
    destruct (String.compare k k0) eqn:C; simpl.
    + exact Hnd.
    + constructor; [|exact Hnd].
      intros [E | Hin]; [congruence |]. simpl in Hin.
      exact (map_find_none_notin _ _ Hm Hin).
    + constructor; [|now apply IH].
      intros Hin. apply in_map_insert_keys in Hin as [E | Hin]; [congruence | tauto].
Qed.

(** The category a folder name is taken for is unique. *)
Lemma alias_folder_category fs cur c c' n :
  alias_folder fs cur c n = true -> alias_folder fs cur c' n = true -> c = c'.
Proof.
  unfold alias_folder. intros H H'.
  apply andb_true_iff in H as [_ H]. apply andb_true_iff in H' as [_ H'].
  destruct (ALIAS_LOOKUP !! _) as [c0|]; [|discriminate H].
  apply String.eqb_eq in H, H'. congruence.
Qed.

(** One step of the scan, seen through [map_find]. *)
Lemma scan_entry_find fs cur m n c :
  map_find c (scan_entry fs cur m n) =
  match map_find c m with
  | Some v => Some v
  | None => if alias_folder fs cur c n then Some (path_append cur n) else None
  end.
Proof.
  unfold scan_entry, alias_folder.
  destruct (fs_is_directory (path_append cur n) fs); simpl;
    [|now destruct (map_find c m)].
  destruct (bool_decide (path_filename (path_append cur n) ∈ CANONICAL_NAMES)); simpl;
    [now destruct (map_find c m) |].
  destruct (ALIAS_LOOKUP !! to_lower (path_filename (path_append cur n)))
    as [c0|]; [|now destruct (map_find c m)].
  destruct (map_find c0 m) as [v0|] eqn:E0.
  - destruct (String.eqb_spec c0 c) as [->|Hc]; [now rewrite E0 |].
    now destruct (map_find c m).
  - rewrite (map_find_insert_fresh _ _ _ _ E0).
    destruct (String.eqb_spec c c0) as [->|Hc].
    + rewrite E0, String.eqb_refl. reflexivity.
    + assert (E : String.eqb c0 c = false) by (apply String.eqb_neq; congruence).
      rewrite E. destruct (map_find c m); reflexivity.
Qed.

Lemma scan_find fs cur names m c :
  map_find c (fold_left (scan_entry fs cur) names m) =
  match map_find c m with
  | Some v => Some v
  | None => option_map (path_append cur) (List.find (alias_folder fs cur c) names)
  end.
Proof.
  revert m. induction names as [|n names IH]; intros m; simpl.
  - now destruct (map_find c m).
  - rewrite IH, scan_entry_find.
    destruct (map_find c m); [reflexivity |].
    destruct (alias_folder fs cur c n); reflexivity.
Qed.

(** The pairs the scan collects: distinct categories, each with the first
    folder of the level taken for one of its aliases. *)
Lemma scan_entry_pairs fs cur m n kv :
  In kv (scan_entry fs cur m n) ->
  In kv m \/ (kv = (fst kv, path_append cur n) /\ map_find (fst kv) m = None /\
              alias_folder fs cur (fst kv) n = true).
Proof.
  unfold scan_entry, alias_folder.
  destruct (fs_is_directory (path_append cur n) fs); simpl; [|now left].
  destruct (bool_decide (path_filename (path_append cur n) ∈ CANONICAL_NAMES)); simpl;
    [now left |].
  destruct (ALIAS_LOOKUP !! to_lower (path_filename (path_append cur n)))
    as [c0|]; [|now left].
  destruct (map_find c0 m) as [v0|] eqn:E0; [now left |].
  intros H. apply in_map_insert in H as [-> | H]; [|now left].
  right. simpl. rewrite String.eqb_refl. auto.
Qed.

Lemma scan_entry_nodup fs cur m n :
  List.NoDup (List.map fst m) -> List.NoDup (List.map fst (scan_entry fs cur m n)).
Proof.
  unfold scan_entry. intros H.
  destruct (negb _); [exact H |].
  destruct (bool_decide _); [exact H |].
  destruct (ALIAS_LOOKUP !! _) as [c0|]; [|exact H].
  destruct (map_find c0 m) eqn:E; [exact H |].
  now apply nodup_map_insert.
Qed.

Lemma scan_nodup fs cur names m :
  List.NoDup (List.map fst m) ->
  List.NoDup (List.map fst (fold_left (scan_entry fs cur) names m)).
Proof.
  revert m. induction names as [|n names IH]; intros m H; simpl; [exact H |].
  apply IH. now apply scan_entry_nodup.
Qed.

Lemma map_find_in {V : Type} (k : string) (v : V) (m : list (string * V)) :
  List.NoDup (List.map fst m) -> In (k, v) m -> map_find k m = Some v.
Proof.
  induction m as [|[k0 v0] m IH]; simpl; [tauto |].
  intros Hnd [E | Hin].
  - injection E as -> ->. now rewrite String.eqb_refl.
  - inversion Hnd as [|? ? Hnotin Hnd']; subst.
    destruct (String.eqb_spec k k0) as [->|Hk]; [|now apply IH].
    exfalso. apply Hnotin. apply in_map_iff. exists (k0, v). auto.
Qed.

Lemma scan_pairs fs cur names c v :
  In (c, v) (fold_left (scan_entry fs cur) names []) ->
  exists n, v = path_append cur n /\ List.find (alias_folder fs cur c) names = Some n.
Proof.
  intros Hin.
  pose proof (scan_nodup fs cur names [] (List.NoDup_nil _)) as Hnd.
  pose proof (map_find_in _ _ _ Hnd Hin) as Hf.
  rewrite scan_find in Hf. simpl in Hf.
  destruct (List.find (alias_folder fs cur c) names) as [n|]; [|discriminate].
  injection Hf as <-. eauto.
Qed.

(** ** The renames of [normalize_category_folder] *)

Lemma fs_rename_ok old_p new_p fs fs' :
  fs_rename old_p new_p fs = Ok tt fs' ->
  fs' = fs \/
  exists od on nd nn src,
    resolve old_p = od ++ [on] /\ resolve new_p = nd ++ [nn] /\
    fs' = update_dir nd (assoc_put nn src) (update_dir od (assoc_del on) fs).
Proof.
  unfold fs_rename.
  destruct (split_last_cases (resolve old_p)) as [[_ ->] | (od & on & Eo & ->)];
    [discriminate |].
  destruct (split_last_cases (resolve new_p)) as [[_ ->] | (nd & nn & En & ->)];
    [discriminate |].
  destruct (walk od fs) as [[? ?|oa oes]|]; try discriminate.
  destruct (walk nd fs) as [[? ?|na nes]|]; try discriminate.
  destruct (map_find on oes) as [src|]; [|discriminate].
  destruct (bool_decide (resolve old_p = resolve new_p)); [intros [= <-]; now left |].
  destruct (bool_decide (resolve old_p `prefix_of` resolve new_p)); [discriminate |].
  destruct (d_write oa); [discriminate |].
  destruct (d_write na); [discriminate |].
  destruct (negb _); [discriminate |].
  destruct (is_mount_point oa src || _); [discriminate |].
  intros H. right. exists od, on, nd, nn, src.
  split; [exact Eo |]. split; [exact En |].
  destruct src as [? ?|? ?]; destruct (map_find nn nes) as [[? ?|? [|? ?]]|];
    try discriminate H; injection H as <-; reflexivity.
Qed.

Lemma not_prefix_below (C : list string) n rest : ~ (C ++ n :: rest) `prefix_of` C.
Proof.
  intros [k E]. rewrite <- app_assoc in E.
  rewrite <- (app_nil_r C) in E at 1. apply app_inv_head in E. discriminate.
Qed.

Lemma not_prefix_sibling (C : list string) k n rest :
  k <> n -> ~ (C ++ [k]) `prefix_of` (C ++ n :: rest).
Proof.
  intros Hne [k' E]. rewrite <- app_assoc in E. apply app_inv_head in E.
  simpl in E. injection E as E _. congruence.
Qed.

(** Renaming the entry n0 of a level to c leaves alone whatever lies at or
    below any other entry n of that level. *)
Lemma rename_to_canonical_frame cur c n0 n rest fs fs' :
  good_name n0 = true -> good_name c = true -> n <> n0 -> n <> c ->
  rename_to_canonical (c, path_append cur n0) fs = Ok tt fs' ->
  walk (resolve cur ++ n :: rest) fs' = walk (resolve cur ++ n :: rest) fs.
Proof.
  intros Hn0 Hc Hne0 Hnec. unfold rename_to_canonical, try_catch, ret. simpl.
  destruct (negb _); [|intros [= <-]; reflexivity].
  destruct (fs_rename_result (path_append cur n0)
              (path_append (path_parent_path (path_append cur n0)) c) fs)
    as [[fs1 E] | [e E]]; rewrite E; [|intros [= <-]; reflexivity].
  intros [= <-].
  destruct (fs_rename_ok _ _ _ _ E) as [-> | (od & on & nd & nn & src & Eo & En & ->)];
    [reflexivity |].
  rewrite (resolve_append_good _ _ Hn0) in Eo.
  rewrite (resolve_append_good _ _ Hc) in En.
  rewrite resolve_parent_append in En by exact (proj1 (good_name_inv _ Hn0)).
  apply app_inj_tail in Eo as [<- <-]. apply app_inj_tail in En as [<- <-].
  rewrite (frame_entry _ c); [|apply touches_only_put | apply not_prefix_below
                              | apply not_prefix_sibling; congruence].
  apply (frame_entry _ n0); [apply touches_only_del | apply not_prefix_below
                            | apply not_prefix_sibling; congruence].
Qed.

Lemma for_each_rename_frame cur m n rest fs fs' :
  (forall c v, In (c, v) m ->
     exists n0, v = path_append cur n0 /\ good_name n0 = true /\ good_name c = true /\
                n <> n0 /\ n <> c) ->
  for_each rename_to_canonical m fs = Ok tt fs' ->
  walk (resolve cur ++ n :: rest) fs' = walk (resolve cur ++ n :: rest) fs.
Proof.
  revert fs. induction m as [|[c v] m IH]; intros fs Hm; simpl.
  - intros [= <-]. reflexivity.
  - unfold bind. destruct (rename_to_canonical_returns (c, v) fs) as (fs1 & E1 & _).
    rewrite E1. intros E.
    rewrite (IH fs1 (fun c' v' H => Hm c' v' (or_intror H)) E).
    destruct (Hm c v (or_introl eq_refl)) as (n0 & -> & Hn0 & Hc & Hne0 & Hnec).
    exact (rename_to_canonical_frame _ _ _ _ _ _ _ Hn0 Hc Hne0 Hnec E1).
Qed.

Lemma alias_folder_inv fs cur c n :
  good_name n = true -> alias_folder fs cur c n = true ->
  fs_is_directory (path_append cur n) fs = true /\ (n ∉ CANONICAL_NAMES) /\
  ALIAS_LOOKUP !! to_lower n = Some c.
Proof.
  intros Hn. unfold alias_folder. rewrite (path_filename_append_good _ _ Hn).
  intros H. apply andb_true_iff in H as [H H3]. apply andb_true_iff in H as [H1 H2].
  split; [exact H1 |]. split.
  - apply negb_true_iff, bool_decide_eq_false in H2. exact H2.
  - destruct (ALIAS_LOOKUP !! to_lower n) as [c0|]; [|discriminate H3].
    apply String.eqb_eq in H3. now subst.
Qed.

Lemma for_each_app {A : Type} (body : A -> M unit) l1 l2 fs :
  for_each body (l1 ++ l2) fs =
  match for_each body l1 fs with
  | Ok _ fs1 => for_each body l2 fs1
  | Throw e fs1 => Throw e fs1
  | OutOfFuel => OutOfFuel
  end.
Proof.
  revert fs. induction l1 as [|x l1 IH]; intros fs; simpl; [reflexivity |].
  unfold bind. destruct (body x fs); [apply IH | reflexivity | reflexivity].
Qed.

(** The level itself stays a directory with its attributes. *)
Lemma rename_to_canonical_level cur c n0 fs fs' a es :
  good_name n0 = true -> good_name c = true ->
  walk (resolve cur) fs = Some (Dir a es) ->
  rename_to_canonical (c, path_append cur n0) fs = Ok tt fs' ->
  exists es', walk (resolve cur) fs' = Some (Dir a es').
Proof.
  intros Hn0 Hc Hd. unfold rename_to_canonical, try_catch, ret. simpl.
  destruct (negb _); [|intros [= <-]; eauto].
  destruct (fs_rename_result (path_append cur n0)
              (path_append (path_parent_path (path_append cur n0)) c) fs)
    as [[fs1 E] | [e E]]; rewrite E; [|intros [= <-]; eauto].
  intros [= <-].
  destruct (fs_rename_ok _ _ _ _ E) as [-> | (od & on & nd & nn & src & Eo & En & ->)];
    [eauto |].
  rewrite (resolve_append_good _ _ Hn0) in Eo.
  rewrite (resolve_append_good _ _ Hc) in En.
  rewrite resolve_parent_append in En by exact (proj1 (good_name_inv _ Hn0)).
  apply app_inj_tail in Eo as [<- <-]. apply app_inj_tail in En as [<- <-].
  pose proof (walk_update_below (resolve cur) [] (assoc_del n0) fs) as H1.
  rewrite app_nil_r, Hd in H1. simpl in H1.
  pose proof (walk_update_below (resolve cur) [] (assoc_put c src)
                (update_dir (resolve cur) (assoc_del n0) fs)) as H2.
  rewrite app_nil_r, H1 in H2. simpl in H2. eauto.
Qed.

Lemma for_each_rename_level cur m fs fs' a es :
  (forall c v, In (c, v) m ->
     exists n0, v = path_append cur n0 /\ good_name n0 = true /\ good_name c = true) ->
  walk (resolve cur) fs = Some (Dir a es) ->
  for_each rename_to_canonical m fs = Ok tt fs' ->
  exists es', walk (resolve cur) fs' = Some (Dir a es').
Proof.
  revert fs es. induction m as [|[c v] m IH]; intros fs es Hm Hd; simpl.
  - intros [= <-]. eauto.
  - unfold bind. destruct (rename_to_canonical_returns (c, v) fs) as (fs1 & E1 & _).
    rewrite E1. intros E.
    destruct (Hm c v (or_introl eq_refl)) as (n0 & -> & Hn0 & Hc).
    destruct (rename_to_canonical_level _ _ _ _ _ _ _ Hn0 Hc Hd E1) as [es1 Hd1].
    exact (IH fs1 es1 (fun c' v' H => Hm c' v' (or_intror H)) Hd1 E).
Qed.

(** In a writable level with no entry called c, renaming n0 to c works,
    unless n0 is the root of a mounted volume. *)
Lemma rename_to_canonical_succeeds cur c n0 fs a es src :
  good_name n0 = true -> good_name c = true -> n0 <> c ->
  walk (resolve cur) fs = Some (Dir a es) -> d_write a = None ->
  is_mount_point a src = false ->
  map_find n0 es = Some src -> map_find c es = None ->
  exists fs',
    rename_to_canonical (c, path_append cur n0) fs = Ok tt fs' /\
    walk (resolve cur ++ [c]) fs' = Some src /\
    walk (resolve cur ++ [n0]) fs' = None.
Proof.
  intros Hn0 Hc Hne Hd Hw Hmp Hsrc Hfree.
  unfold rename_to_canonical, try_catch, ret. simpl.
  rewrite (path_filename_append_good _ _ Hn0).
  apply String.eqb_neq in Hne as Hneb. rewrite Hneb.
  change (negb false) with true. cbv beta iota.
  unfold fs_rename.
  rewrite (resolve_append_good _ _ Hn0), (resolve_append_good _ _ Hc).
  rewrite resolve_parent_append by exact (proj1 (good_name_inv _ Hn0)).
  rewrite !split_last_snoc. cbv beta iota. rewrite Hd, Hsrc.
  rewrite bool_decide_eq_false_2
    by (intros E; apply app_inj_tail in E as [_ E]; contradiction).
  rewrite bool_decide_eq_false_2 by (apply not_prefix_sibling; exact Hne).
  rewrite Hw, Nat.eqb_refl, Hfree, Hmp. change (negb true) with false.
  change (false || false) with false. cbv beta iota.
  eexists. split; [destruct src; reflexivity |].
  pose proof (walk_update_below (resolve cur) [] (assoc_del n0) fs) as H1.
  rewrite app_nil_r, Hd in H1. simpl in H1.
  split.
  - exact (walk_put_entry _ _ _ _ _ _ H1).
  - rewrite (frame_entry _ c); [apply walk_del_entry | apply touches_only_put
                                | apply (not_prefix_below _ n0 [])
                                | apply not_prefix_sibling; congruence].
Qed.

Lemma map_find_some_pair {V : Type} (k : string) (v : V) (m : list (string * V)) :
  map_find k m = Some v -> In (k, v) m.
Proof.
  induction m as [|[k0 v0] m IH]; simpl; [discriminate |].
  destruct (String.eqb_spec k k0) as [->|Hk].
  - intros [= ->]. now left.
  - intros H. right. now apply IH.
Qed.

(** What is known of every pair the scan collects. *)
Lemma scan_pairs_good fs cur names c v :
  (forall n, In n names -> good_name n = true) ->
  In (c, v) (fold_left (scan_entry fs cur) names []) ->
  exists n0, v = path_append cur n0 /\ good_name n0 = true /\ good_name c = true /\
             List.find (alias_folder fs cur c) names = Some n0 /\
             c ∈ CANONICAL_NAMES /\ (n0 ∉ CANONICAL_NAMES).
Proof.
  intros Hgood Hcv. destruct (scan_pairs _ _ _ _ _ Hcv) as (n0 & -> & Hf).
  pose proof (find_some _ _ Hf) as [Hin0 Ha0].
  destruct (alias_folder_inv _ _ _ _ (Hgood _ Hin0) Ha0) as (_ & Hn & Hal).
  destruct (alias_lookup_range _ _ Hal) as (Hc1 & Hc2 & _).
  exists n0. split; [reflexivity |]. split; [exact (Hgood _ Hin0) |].
  split; [exact Hc2 |]. split; [exact Hf |]. split; [exact Hc1 | exact Hn].
Qed.

(** In a writable level with no entry called c, the first folder taken for
    an alias of c ends up under the name c. *)
Lemma normalize_first_renamed cur fs names fs' c n0 a es src :
  (forall n, In n names -> good_name n = true) ->
  for_each rename_to_canonical (fold_left (scan_entry fs cur) names []) fs = Ok tt fs' ->
  List.find (alias_folder fs cur c) names = Some n0 ->
  walk (resolve cur) fs = Some (Dir a es) -> d_write a = None ->
  is_mount_point a src = false ->
  map_find n0 es = Some src -> map_find c es = None ->
  walk (resolve cur ++ [c]) fs' = Some src /\ walk (resolve cur ++ [n0]) fs' = None.
Proof.
  intros Hgood E Hf Hd Hw Hmp Hsrc Hfree.
  set (m := fold_left (scan_entry fs cur) names []) in *.
  assert (Hin : In (c, path_append cur n0) m).
  { apply map_find_some_pair. unfold m. rewrite scan_find. simpl. now rewrite Hf. }
  pose proof (scan_nodup fs cur names [] (List.NoDup_nil _)) as Hnd. fold m in Hnd.
  assert (Hall : forall c' v', In (c', v') m ->
            exists n', v' = path_append cur n' /\ good_name n' = true /\
                       good_name c' = true /\
                       (c' <> c -> n0 <> n' /\ n0 <> c' /\ c <> n' /\ c <> c')).
  { intros c' v' Hcv.
    destruct (scan_pairs_good _ _ _ _ _ Hgood Hcv) as (n' & -> & H1 & H2 & Hf' & H3 & H4).
    destruct (scan_pairs_good _ _ _ _ _ Hgood Hin) as (n0' & E0 & _ & _ & Hf0 & H5 & H6).
    rewrite Hf in Hf0. injection Hf0 as <-.
    exists n'. split; [reflexivity |]. split; [exact H1 |]. split; [exact H2 |].
    intros Hcc. split; [|split; [|split]].
    - intros ->. apply Hcc. pose proof (find_some _ _ Hf) as [_ A].
      pose proof (find_some _ _ Hf') as [_ A'].
      exact (alias_folder_category _ _ _ _ _ A' A).
    - intros ->. exact (H6 H3).
    - intros ->. exact (H4 H5).
    - intros ->. exact (Hcc eq_refl). }
  destruct (scan_pairs_good _ _ _ _ _ Hgood Hin) as (n0' & E0 & Hn0 & Hc & Hf0 & Hc1 & Hn1).
  rewrite Hf in Hf0. injection Hf0 as <-. clear E0.
  assert (Hne : n0 <> c) by (intros ->; exact (Hn1 Hc1)).
  destruct (in_split _ _ Hin) as (m1 & m2 & Em). rewrite Em in Hnd, E, Hall.
  rewrite List.map_app in Hnd. simpl in Hnd.
  apply List.NoDup_remove_2 in Hnd.
  assert (Hother : forall c' v', In (c', v') m1 \/ In (c', v') m2 -> c' <> c).
  { intros c' v' H ->. apply Hnd. apply in_or_app.
    destruct H as [H | H]; [left | right]; apply in_map_iff; exists (c, v'); auto. }
  assert (Hside : forall ms, (forall c' v', In (c', v') ms -> In (c', v') m1 \/ In (c', v') m2) ->
            forall n, n = n0 \/ n = c ->
            forall c' v', In (c', v') ms ->
              exists n', v' = path_append cur n' /\ good_name n' = true /\
                         good_name c' = true /\ n <> n' /\ n <> c').
  { intros ms Hms n Hn c' v' Hcv.
    assert (Hin' : In (c', v') (m1 ++ (c, path_append cur n0) :: m2)).
    { apply in_or_app. destruct (Hms _ _ Hcv); [now left | right; now right]. }
    destruct (Hall _ _ Hin') as (n' & -> & H1 & H2 & H3).
    destruct (H3 (Hother _ _ (Hms _ _ Hcv))) as (A & B & C & D).
    exists n'. split; [reflexivity |]. split; [exact H1 |]. split; [exact H2 |].
    destruct Hn as [-> | ->]; split; assumption. }
  rewrite for_each_app in E.
  destruct (for_each_rename_returns m1 fs) as [fs1 E1]. rewrite E1 in E.
  simpl in E. unfold bind in E.
  pose proof (for_each_rename_frame cur m1 n0 [] fs fs1
                (Hside m1 (fun _ _ H => or_introl H) n0 (or_introl eq_refl)) E1) as F0.
  pose proof (for_each_rename_frame cur m1 c [] fs fs1
                (Hside m1 (fun _ _ H => or_introl H) c (or_intror eq_refl)) E1) as Fc.
  destruct (for_each_rename_level cur m1 fs fs1 a es) as [es1 Hd1]; [|exact Hd|exact E1|].
  { intros c' v' Hcv.
    destruct (Hside m1 (fun _ _ H => or_introl H) c (or_intror eq_refl) _ _ Hcv)
      as (n' & -> & H1 & H2 & _). exists n'. split; [reflexivity |]. split; assumption. }
  rewrite (walk_child _ _ _ _ _ _ Hd Hsrc) in F0.
  rewrite (walk_child _ _ _ _ _ _ Hd Hfree) in Fc.
  destruct (walk_child_inv _ _ _ _ F0) as (a' & es' & Hd' & Hsrc1).
  rewrite Hd1 in Hd'. injection Hd' as <- <-.
  assert (Hfree1 : map_find c es1 = None).
  { rewrite walk_app, Hd1 in Fc. simpl in Fc.
    destruct (map_find c es1); [discriminate | reflexivity]. }
  destruct (rename_to_canonical_succeeds cur c n0 fs1 a es1 src
              Hn0 Hc Hne Hd1 Hw Hmp Hsrc1 Hfree1) as (fs2 & E2 & Hc2 & Hn2).
  rewrite E2 in E.
  rewrite (for_each_rename_frame cur m2 c [] fs2 fs'
             (Hside m2 (fun _ _ H => or_intror H) c (or_intror eq_refl)) E).
  rewrite (for_each_rename_frame cur m2 n0 [] fs2 fs'
             (Hside m2 (fun _ _ H => or_intror H) n0 (or_introl eq_refl)) E).
  split; assumption.
Qed.

(** C8: at one level whose entries are [names], in enumeration order.  The
    scan maps each canonical category to the FIRST directory of the level
    that is not canonically named and whose lowercased name is an alias of
    it, and only these pairs are handed to [rename]; when the level is
    writable and has no entry of the canonical name, and the folder is not
    the root of a mounted volume, that first folder ends up under the
    canonical name.  Every other entry that is not canonically
    named, in particular every later alias folder of the same category, is
    after normalisation the same node under the same name. *)
Theorem normalize_renames_first_alias_only cur fs names :
  fs_list cur fs = Ok names fs ->
  (forall n, In n names -> good_name n = true) ->
  exists fs',
    normalize_category_folder cur fs = Ok tt fs' /\
    for_each rename_to_canonical (fold_left (scan_entry fs cur) names []) fs = Ok tt fs' /\
    (forall c,
        map_find c (fold_left (scan_entry fs cur) names [])
        = option_map (path_append cur) (List.find (alias_folder fs cur c) names)) /\
    (forall c first a es src,
        List.find (alias_folder fs cur c) names = Some first ->
        fs_status cur fs = Some (Dir a es) -> d_write a = None ->
        fs_status (path_append cur first) fs = Some src ->
        is_mount_point a src = false ->
        fs_exists (path_append cur c) fs = false ->
        fs_status (path_append cur c) fs' = Some src /\
        fs_status (path_append cur first) fs' = None) /\
    (forall n,
        In n names -> n ∉ CANONICAL_NAMES ->
        (forall c, List.find (alias_folder fs cur c) names <> Some n) ->
        fs_status (path_append cur n) fs' = fs_status (path_append cur n) fs) /\
    (forall c first n,
        List.find (alias_folder fs cur c) names = Some first ->
        In n names -> alias_folder fs cur c n = true -> n <> first ->
        fs_status (path_append cur n) fs' = fs_status (path_append cur n) fs).
Proof.
  intros Hl Hgood.
  destruct (for_each_rename_returns (fold_left (scan_entry fs cur) names []) fs)
    as [fs' E].
  exists fs'.
  assert (Hframe : forall n,
             In n names -> n ∉ CANONICAL_NAMES ->
             (forall c, List.find (alias_folder fs cur c) names <> Some n) ->
             fs_status (path_append cur n) fs' = fs_status (path_append cur n) fs).
  { intros n Hin Hcan Hfirst. unfold fs_status.
    rewrite (resolve_append_good _ _ (Hgood n Hin)).
    apply (for_each_rename_frame cur (fold_left (scan_entry fs cur) names []) n []
             fs fs'); [|exact E].
    intros c v Hcv.
    destruct (scan_pairs_good _ _ _ _ _ Hgood Hcv) as (n0 & -> & H1 & H2 & Hf & H3 & H4).
    exists n0. split; [reflexivity |]. split; [exact H1 |]. split; [exact H2 |]. split.
    - intros ->. exact (Hfirst c Hf).
    - intros ->. exact (Hcan H3). }
  split; [unfold normalize_category_folder, bind; rewrite Hl; exact E |].
  split; [exact E |]. split; [intros c; apply scan_find |]. split; [|split; [exact Hframe |]].
  - intros c first a es src Hf Hd Hw Hsrc Hmp Hfree.
    pose proof (find_some _ _ Hf) as [Hin Ha].
    destruct (alias_folder_inv _ _ _ _ (Hgood _ Hin) Ha) as (_ & _ & Hal).
    destruct (alias_lookup_range _ _ Hal) as (_ & Hc & _).
    unfold fs_status, fs_exists, fs_status in *.
    rewrite (resolve_append_good _ _ (Hgood _ Hin)) in *.
    rewrite (resolve_append_good _ _ Hc) in *.
    rewrite walk_app, Hd in Hsrc, Hfree. simpl in Hsrc, Hfree.
    apply (normalize_first_renamed cur fs names fs' c first a es src Hgood E Hf Hd Hw
             Hmp).
    + destruct (map_find first es); [exact Hsrc | discriminate Hsrc].
    + destruct (map_find c es); [discriminate Hfree | reflexivity].
  - intros c first n Hf Hin Ha Hne.
    destruct (alias_folder_inv _ _ _ _ (Hgood _ Hin) Ha) as (_ & Hcan & _).
    apply Hframe; [exact Hin | exact Hcan |].
    intros c' Hf'. pose proof (find_some _ _ Hf') as [_ Ha'].
    pose proof (alias_folder_category _ _ _ _ _ Ha Ha') as <-.
    congruence.
Qed.

Lemma normalize_renames_first_alias_only_witness :
  exists fs',
    normalize_category_folder "root" fs_two_aliases = Ok tt fs' /\
    fs_status "root/Image Files" fs' = fs_status "root/pics" fs_two_aliases /\
    fs_status "root/pics" fs' = None /\
    fs_status "root/photos" fs' = fs_status "root/photos" fs_two_aliases.
Proof.
  destruct (normalize_renames_first_alias_only "root" fs_two_aliases ["pics"; "photos"])
    as (fs' & E & _ & _ & Hfirst & _ & Hlater).
  - reflexivity.
  - intros n [<- | [<- | []]]; reflexivity.
  - exists fs'. split; [exact E |].
    destruct (Hfirst "Image Files" "pics" plain
                [("pics", Dir plain [("shot.png", File None "s")]);
                 ("photos", Dir plain [("beach.png", File None "b")])]
                (Dir plain [("shot.png", File None "s")])) as [H1 H2];
      try (vm_compute; reflexivity).
    split; [exact H1 |]. split; [exact H2 |].
    apply (Hlater "Image Files" "pics" "photos"); try (vm_compute; reflexivity).
    + right. left. reflexivity.
    + discriminate.
Defined.

(* ================================================================== *)
(** * Running [organize_directory] twice *)
(* ================================================================== *)

(** ** Kinds of nodes after an update *)

Lemma kind_update_dir r f n : kind (update_dir r f n) = kind n.
Proof. destruct n as [? ?|a es]; destruct r; reflexivity. Qed.

Lemma look_update_other f k d q fs :
  touches_only f k -> ~ (d ++ [k]) `prefix_of` q ->
  look q (update_dir d f fs) = look q fs.
Proof.
  intros Hf Hn. unfold look. destruct (decide (q `prefix_of` d)) as [[r ->]|Hp].
  - rewrite walk_update_above. destruct (walk q fs) as [n|]; simpl; [|reflexivity].
    now rewrite kind_update_dir.
  - now rewrite (frame_entry f k d q fs Hf Hp Hn).
Qed.

Lemma walk_put_under d k v rest fs a es :
  walk d fs = Some (Dir a es) ->
  walk (d ++ k :: rest) (update_dir d (assoc_put k v) fs) = walk rest v.
Proof.
  intros Hd. rewrite walk_update_below, Hd. simpl. now rewrite map_find_put_same.
Qed.

Lemma walk_del_under d k rest fs :
  walk (d ++ k :: rest) (update_dir d (assoc_del k) fs) = None.
Proof.
  rewrite walk_update_below. destruct (walk d fs) as [[? ?|a es]|]; simpl; try reflexivity.
  now rewrite map_find_del_same.
Qed.

Lemma prefix_snoc_inv {A : Type} (d : list A) k q :
  (d ++ [k]) `prefix_of` q -> exists rest, q = d ++ k :: rest.
Proof. intros [r ->]. exists r. now rewrite <- app_assoc. Qed.

(** ** Entries of directories after an update *)

Lemma names_assoc_update {V : Type} c (g : V -> V) (es : list (string * V)) :
  List.map fst (assoc_update c g es) = List.map fst es.
Proof.
  induction es as [|[k v] es IH]; simpl; [reflexivity |].
  destruct (String.eqb c k); simpl; [reflexivity | now rewrite IH].
Qed.

Lemma names_assoc_put {V : Type} k (v : V) (es : list (string * V)) :
  List.map fst (assoc_put k v es) =
  if existsb (String.eqb k) (List.map fst es) then List.map fst es
  else List.map fst es ++ [k].
Proof.
  induction es as [|[k0 v0] es IH]; simpl; [reflexivity |].
  destruct (String.eqb_spec k k0) as [->|Hk]; simpl; [reflexivity |].
  rewrite IH. now destruct (existsb _ _).
Qed.

Lemma names_assoc_del {V : Type} k (es : list (string * V)) :
  List.map fst (assoc_del k es) =
  List.filter (fun n => negb (String.eqb k n)) (List.map fst es).
Proof.
  unfold assoc_del. induction es as [|[k0 v0] es IH]; simpl; [reflexivity |].
  destruct (String.eqb k k0); simpl; [exact IH | now rewrite IH].
Qed.

Lemma entries_update_other f k d q fs a' es' :
  touches_only f k -> ~ (d ++ [k]) `prefix_of` q ->
  walk q (update_dir d f fs) = Some (Dir a' es') ->
  exists es, walk q fs = Some (Dir a' es) /\
             ((q = d /\ es' = f es) \/ List.map fst es' = List.map fst es).
Proof.
  intros Hf Hn. destruct (decide (q `prefix_of` d)) as [[r ->]|Hp].
  - rewrite walk_update_above. destruct (walk q fs) as [[? ?|a es]|]; simpl.
    + destruct r; discriminate.
    + destruct r as [|c r]; simpl; intros [= <- <-]; exists es; split; try reflexivity.
      * left. split; [now rewrite app_nil_r | reflexivity].
      * right. apply names_assoc_update.
    + discriminate.
  - rewrite (frame_entry f k d q fs Hf Hp Hn). intros H. exists es'. auto.
Qed.

(** ** Well-formed trees *)

Lemma wf_sub fs q n : wf fs -> walk q fs = Some n -> wf n.
Proof.
  intros Hwf Hq q' a es H. apply (Hwf (q ++ q') a es). now rewrite walk_app, Hq.
Qed.

Lemma wf_file r x : wf (File r x).
Proof. intros q a es H. destruct q; discriminate. Qed.

Lemma wf_empty_dir a : wf (Dir a []).
Proof.
  intros q a' es H. destruct q; simpl in H; [|discriminate].
  injection H as <- <-. split; [constructor | intros n []].
Qed.

Lemma existsb_eqb_in k (l : list string) : existsb (String.eqb k) l = true <-> In k l.
Proof.
  rewrite existsb_exists. split.
  - intros (x & Hx & E). apply String.eqb_eq in E. now subst.
  - intros H. exists k. split; [exact H | apply String.eqb_refl].
Qed.

Lemma wf_put d k v fs a es :
  wf fs -> walk d fs = Some (Dir a es) -> good_name k = true -> wf v ->
  wf (update_dir d (assoc_put k v) fs).
Proof.
  intros Hwf Hd Hk Hv q a' es' Hq.
  destruct (decide ((d ++ [k]) `prefix_of` q)) as [Hp|Hp].
  - apply prefix_snoc_inv in Hp as [rest ->].
    rewrite (walk_put_under _ _ _ _ _ _ _ Hd) in Hq. exact (Hv _ _ _ Hq).
  - destruct (entries_update_other _ k _ _ _ _ _ (touches_only_put k v) Hp Hq)
      as (es0 & H0 & [[-> ->] | Hn]).
    + destruct (Hwf _ _ _ H0) as [Hnd Hg]. rewrite names_assoc_put.
      destruct (existsb (String.eqb k) (List.map fst es0)) eqn:E; [auto |].
      split.
      * apply List.NoDup_app; [exact Hnd | constructor; [tauto | constructor] |].
        intros x Hx [<- | []].
        apply existsb_eqb_in in Hx. congruence.
      * intros n Hin. apply in_app_or in Hin as [Hin | [<- | []]]; auto.
    + rewrite Hn. exact (Hwf _ _ _ H0).
Qed.

Lemma wf_del d k fs : wf fs -> wf (update_dir d (assoc_del k) fs).
Proof.
  intros Hwf q a' es' Hq.
  destruct (decide ((d ++ [k]) `prefix_of` q)) as [Hp|Hp].
  - apply prefix_snoc_inv in Hp as [rest ->]. rewrite walk_del_under in Hq. discriminate.
  - destruct (entries_update_other _ k _ _ _ _ _ (touches_only_del k) Hp Hq)
      as (es0 & H0 & [[-> ->] | Hn]).
    + destruct (Hwf _ _ _ H0) as [Hnd Hg]. rewrite names_assoc_del. split.
      * now apply List.NoDup_filter.
      * intros n Hin. apply filter_In in Hin as [Hin _]. auto.
    + rewrite Hn. exact (Hwf _ _ _ H0).
Qed.

(** ** Levels of the walk *)

Lemma at_path_resolve root ns s : at_path root ns s -> resolve s = resolve root ++ ns.
Proof.
  induction 1 as [|ns s n H IH Hg Hv]; [now rewrite app_nil_r |].
  rewrite (resolve_append_good _ _ Hg), IH, app_assoc. reflexivity.
Qed.

Lemma at_path_walkable root ns s : at_path root ns s -> walkable ns.
Proof.
  unfold walkable. induction 1 as [|ns s n H IH Hg Hv]; [constructor |].
  apply Forall_app. split; [exact IH |]. constructor; [split; assumption | constructor].
Qed.

Lemma at_path_folder root ns s : at_path root ns s -> path_filename s = folder_of root ns.
Proof.
  unfold folder_of. destruct 1 as [|ns s n H Hg Hv]; [reflexivity |].
  rewrite (path_filename_append_good _ _ Hg), last_last. reflexivity.
Qed.

Lemma walkable_app ns ms : walkable (ns ++ ms) <-> walkable ns /\ walkable ms.
Proof. unfold walkable. apply Forall_app. Qed.

Lemma walkable_snoc ns n :
  walkable ns -> good_name n = true -> visible n = true -> walkable (ns ++ [n]).
Proof.
  intros H Hg Hv. apply walkable_app. split; [exact H |].
  constructor; [split; assumption | constructor].
Qed.

(** The folder name and the parent of any path ending in a good name. *)
Lemma path_split_parent s name :
  path_filename s = name -> good_name name = true ->
  exists D, resolve s = D ++ [name] /\ resolve (path_parent_path s) = D.
Proof.
  intros Hf Hg. destruct (good_name_inv _ Hg) as [Hs Hp].
  unfold path_filename in Hf. destruct (rsplit sep s) as [[u v]|] eqn:E.
  - subst v. apply rsplit_some_has in E as [-> _].
    exists (resolve u). split; [|now apply path_parent_path_resolve].
    unfold resolve. rewrite segments_app_sep, List.filter_app, (segments_clean _ Hs).
    simpl. now rewrite Hp.
  - subst s. exists []. split.
    + unfold resolve. rewrite (segments_clean _ Hs). simpl. now rewrite Hp.
    + unfold path_parent_path. now rewrite E.
Qed.

(** ** Classification looks at the last name only *)

Lemma path_extension_filename p : path_extension p = path_extension (path_filename p).
Proof.
  unfold path_extension.
  now rewrite (path_filename_clean _ (path_filename_no_sep p)).
Qed.

Lemma classify_filename p :
  classify_file_by_extension p = classify_file_by_extension (path_filename p).
Proof. unfold classify_file_by_extension. now rewrite <- path_extension_filename. Qed.

Lemma classify_append s f :
  good_name f = true ->
  classify_file_by_extension (path_append s f) = classify_file_by_extension f.
Proof.
  intros Hg. rewrite classify_filename, (path_filename_append_good _ _ Hg). reflexivity.
Qed.

Lemma classify_same_extension f g :
  has_char sep f = false -> has_char sep g = false ->
  path_extension f = path_extension g ->
  classify_file_by_extension f = classify_file_by_extension g.
Proof. intros _ _ H. unfold classify_file_by_extension. now rewrite H. Qed.

(** [handle_file] skips exactly the placed files. *)
Lemma handle_file_placed s n t_mode fs :
  good_name n = true -> placed (path_filename s) n = true ->
  handle_file s (path_append s n) t_mode fs
  = Ok organize_status.already_in_correct_location fs.
Proof.
  intros Hg Hp. apply handle_file_skips. unfold get_parent_folder_name.
  rewrite (classify_append _ _ Hg). unfold placed in Hp.
  apply orb_true_iff in Hp. exact Hp.
Qed.

(** ** Kinds after one entry is put or deleted *)

Lemma look_dir_inv q fs a : look q fs = Some (KDir a) -> exists es, walk q fs = Some (Dir a es).
Proof.
  unfold look. destruct (walk q fs) as [[? ?|a' es]|]; simpl; try discriminate.
  intros [= <-]. eauto.
Qed.

Lemma look_file_inv q fs : look q fs = Some KFile -> exists r x, walk q fs = Some (File r x).
Proof.
  unfold look. destruct (walk q fs) as [[r x|a' es]|]; simpl; try discriminate.
  intros _. eauto.
Qed.

Lemma look_none_inv q fs : look q fs = None -> walk q fs = None.
Proof. unfold look. destruct (walk q fs); simpl; [discriminate | reflexivity]. Qed.

Lemma look_below_none q rest fs : look q fs = None -> look (q ++ rest) fs = None.
Proof. intros H. apply look_none_inv in H. unfold look. now rewrite walk_app, H. Qed.

Lemma look_below_file q c rest fs : look q fs = Some KFile -> look (q ++ c :: rest) fs = None.
Proof.
  intros H. apply look_file_inv in H as (r & x & H). unfold look. now rewrite walk_app, H.
Qed.

(** Something lies below [q] only if [q] is a directory. *)
Lemma look_above q c rest fs k :
  look (q ++ c :: rest) fs = Some k -> exists a, look q fs = Some (KDir a).
Proof.
  intros H. destruct (look q fs) as [[|a]|] eqn:E; [| eauto |].
  - now rewrite (look_below_file _ c rest _ E) in H.
  - now rewrite (look_below_none _ (c :: rest) _ E) in H.
Qed.

(** A file or an empty directory put under a fresh name. *)
Lemma look_put_fresh d k v fs a q :
  look d fs = Some (KDir a) -> look (d ++ [k]) fs = None ->
  (forall c rest, walk (c :: rest) v = None) ->
  look q (update_dir d (assoc_put k v) fs)
  = if decide (q = d ++ [k]) then Some (kind v) else look q fs.
Proof.
  intros Hd Hk Hv. apply look_dir_inv in Hd as [es Hd].
  destruct (decide ((d ++ [k]) `prefix_of` q)) as [Hp|Hp].
  - apply prefix_snoc_inv in Hp as [rest ->]. unfold look at 1.
    rewrite (walk_put_under _ _ _ _ _ _ _ Hd).
    destruct rest as [|c rest].
    + rewrite decide_True by reflexivity. reflexivity.
    + rewrite decide_False
        by (intros E; apply app_inv_head in E; discriminate E).
      rewrite Hv. simpl. symmetry.
      replace (d ++ k :: c :: rest) with ((d ++ [k]) ++ c :: rest)
        by (now rewrite <- app_assoc).
      now apply look_below_none.
  - rewrite (look_update_other _ k _ _ _ (touches_only_put k v) Hp).
    rewrite decide_False; [reflexivity |]. intros ->. apply Hp. reflexivity.
Qed.

(** A regular file deleted. *)
Lemma look_del_file d k fs q :
  look (d ++ [k]) fs = Some KFile ->
  look q (update_dir d (assoc_del k) fs)
  = if decide (q = d ++ [k]) then None else look q fs.
Proof.
  intros Hk. destruct (decide ((d ++ [k]) `prefix_of` q)) as [Hp|Hp].
  - apply prefix_snoc_inv in Hp as [rest ->]. unfold look at 1.
    rewrite walk_del_under. simpl. destruct rest as [|c rest].
    + rewrite decide_True by reflexivity. reflexivity.
    + rewrite decide_False
        by (intros E; apply app_inv_head in E; discriminate E).
      symmetry.
      replace (d ++ k :: c :: rest) with ((d ++ [k]) ++ c :: rest)
        by (now rewrite <- app_assoc).
      now apply look_below_file.
  - rewrite (look_update_other _ k _ _ _ (touches_only_del k) Hp).
    rewrite decide_False; [reflexivity |]. intros ->. apply Hp. reflexivity.
Qed.

(** ** The effect of a successful transfer, as updates of the tree *)

Lemma get_unique_path_leaf dest fname fs :
  good_name fname = true ->
  exists leaf,
    get_unique_path dest fname fs = Ok (path_append dest leaf) fs /\
    good_name leaf = true /\ path_extension leaf = path_extension fname /\
    fs_exists (path_append dest leaf) fs = false.
Proof.
  intros Hgood. destruct (good_name_inv _ Hgood) as [Hsep _].
  destruct (good_name_not_dots _ Hgood) as [Hd1 Hd2].
  destruct (get_unique_path_spec dest fname fs) as (q & Hq & Hfree & Hplain & Hbusy).
  destruct (fs_exists (path_append dest fname) fs).
  - destruct (Hbusy eq_refl) as (n & _ & -> & _).
    eexists. split; [exact Hq |]. split; [apply new_filename_good |].
    split; [now apply new_filename_extension | exact Hfree].
  - rewrite (Hplain eq_refl) in Hq, Hfree. exists fname. auto.
Qed.

Lemma transfer_formula t_mode entry dest fname fs r x fs' :
  path_filename entry = fname -> good_name fname = true ->
  fs_status entry fs = Some (File r x) ->
  match t_mode with
  | transfer_mode.atomic_transfer_mode => atomic_file_transfer entry dest fs
  | transfer_mode.fallback_transfer_mode => fallback_transfer entry dest fs
  end = Ok file_move_status.successful_transfer fs' ->
  exists leaf r' od on a,
    good_name leaf = true /\ path_extension leaf = path_extension fname /\
    resolve entry = od ++ [on] /\
    look (resolve dest) fs = Some (KDir a) /\
    look (resolve dest ++ [leaf]) fs = None /\
    (fs' = update_dir (resolve dest) (assoc_put leaf (File r' x))
             (update_dir od (assoc_del on) fs) \/
     fs' = update_dir od (assoc_del on)
             (update_dir (resolve dest) (assoc_put leaf (File r' x)) fs)).
Proof.
  intros Hname Hgood Hs E.
  destruct (get_unique_path_leaf dest fname fs Hgood) as (leaf & Hg & Hl1 & Hl2 & Hfree).
  assert (Hnone : forall nd nn na nes,
             resolve (path_append dest leaf) = nd ++ [nn] ->
             walk nd fs = Some (Dir na nes) ->
             nd = resolve dest /\ nn = leaf /\
             look (resolve dest) fs = Some (KDir na) /\
             look (resolve dest ++ [leaf]) fs = None).
  { intros nd nn na nes Ep Hnd.
    rewrite (resolve_append_good _ _ Hl1) in Ep. apply app_inj_tail in Ep as [<- <-].
    split; [reflexivity |]. split; [reflexivity |]. unfold look. rewrite Hnd.
    split; [reflexivity |].
    unfold fs_exists, fs_status in Hfree. rewrite (resolve_append_good _ _ Hl1) in Hfree.
    destruct (walk (resolve dest ++ [leaf]) fs); [discriminate Hfree | reflexivity]. }
  destruct t_mode.
  - unfold atomic_file_transfer, try_catch, bind in E. rewrite Hname, Hg in E.
    destruct (fs_rename_file_to_free entry (path_append dest leaf) fs r x Hs Hfree)
      as [[e R] | (od & on & nd & nn & oa & oes & na & nes
                   & Es & Ep & Hod & Hon & Hnd & Hnn & R)]; rewrite R in E.
    + exfalso. destruct e; simpl in E; discriminate E.
    + injection E as <-.
      destruct (Hnone _ _ _ _ Ep Hnd) as (-> & -> & H1 & H2).
      exists leaf, r, od, on, na. auto 10.
  - unfold fallback_transfer, try_catch, bind in E. rewrite Hname, Hg in E.
    destruct (fs_copy_file_to_free entry (path_append dest leaf) fs Hfree)
      as [[e R] | (y & nd & nn & na & nes & Hs' & Ep & Hnd & Hnn & R)]; rewrite R in E.
    { exfalso. destruct e; simpl in E; discriminate E. }
    rewrite Hs in Hs'. injection Hs' as -> <-.
    destruct (Hnone _ _ _ _ Ep Hnd) as (-> & -> & H1 & H2).
    assert (Hroot : resolve entry <> []).
    { intros Hr. unfold fs_status in Hs. rewrite Hr in Hs. simpl in Hs.
      injection Hs as Hfs. rewrite Hfs in Hnd. destruct (resolve dest); discriminate Hnd. }
    destruct (split_last_cases (resolve entry)) as [[Hr _] | (od & on & Es & _)];
      [contradiction |].
    unfold fs_status in Hs. rewrite Es in Hs.
    destruct (walk_child_inv _ _ _ _ Hs) as (oa & oes & Hod & Hon).
    pose proof (copied_old _ _ _ _ _ _ _ _ _ _ _ Hod Hon Hnd Hnn (File None x)) as Hs1.
    destruct (walk_child_inv _ _ _ _ Hs1) as (oa1 & oes1 & Hod1 & Hon1).
    destruct (fs_remove_file entry _ _ _ _ _ _ _ Es Hod1 Hon1) as [[e R'] | R'];
      rewrite R' in E.
    + exfalso. destruct e; simpl in E; discriminate E.
    + injection E as <-. exists leaf, None, od, on, na. auto 10.
Qed.

(** ** Refinement *)

Lemma refines_refl root fs : refines root fs fs.
Proof. repeat split; auto. Qed.

Lemma refines_trans root fs1 fs2 fs3 :
  refines root fs1 fs2 -> refines root fs2 fs3 -> refines root fs1 fs3.
Proof.
  intros (A1 & A2 & A3) (B1 & B2 & B3). repeat split.
  - intros q a H. apply B1, A1, H.
  - intros q a H. destruct (B2 _ _ H) as [H' | [H' Ho]].
    + exact (A2 _ _ H').
    + right. split; [|exact Ho]. intros a' Ha'. exact (H' a' (A1 _ _ Ha')).
  - intros ms f H. destruct (B3 _ _ H) as [H' | H']; [exact (A3 _ _ H') | now right].
Qed.

(** A level in order stays in order, and a new level is in order. *)
Lemma level_ok_refines root fs fs' ms :
  refines root fs fs' ->
  level_ok fs root ms \/ (forall a, look (resolve root ++ ms) fs <> Some (KDir a)) ->
  level_ok fs' root ms.
Proof.
  intros (A1 & A2 & A3) Hok a Ha.
  assert (Hfiles : forall f, look (resolve root ++ ms ++ [f]) fs = Some KFile ->
                             exists a0, look (resolve root ++ ms) fs = Some (KDir a0)).
  { intros f Hf. rewrite app_assoc in Hf. exact (look_above _ _ _ _ _ Hf). }
  destruct (A2 _ _ Ha) as [Hold | [Hnew Ho]].
  - destruct Hok as [Hok | Hno]; [|exact (False_ind _ (Hno _ Hold))].
    destruct (Hok _ Hold) as [Ho Hf]. split; [exact Ho |].
    intros f H. destruct (A3 _ _ H) as [H' | H']; [exact (Hf _ H') | exact H'].
  - split; [exact Ho |]. intros f H. destruct (A3 _ _ H) as [H' | H']; [|exact H'].
    destruct (Hfiles _ H') as [a0 Ha0]. exact (False_ind _ (Hnew _ Ha0)).
Qed.

(** ** A regular file moved to a fresh name *)

Lemma moved_look fs fs' S n D leaf r x a :
  look (S ++ [n]) fs = Some KFile ->
  look D fs = Some (KDir a) -> look (D ++ [leaf]) fs = None ->
  fs' = update_dir D (assoc_put leaf (File r x)) (update_dir S (assoc_del n) fs) \/
  fs' = update_dir S (assoc_del n) (update_dir D (assoc_put leaf (File r x)) fs) ->
  forall q, look q fs' = if decide (q = S ++ [n]) then None
                         else if decide (q = D ++ [leaf]) then Some KFile
                              else look q fs.
Proof.
  intros Hsrc Hd Hnew Hfs q.
  assert (Hne : D ++ [leaf] <> S ++ [n]) by (intros E; rewrite E, Hsrc in Hnew; discriminate).
  assert (HneD : D <> S ++ [n]) by (intros E; rewrite E, Hsrc in Hd; discriminate).
  assert (Hleafv : forall c rest, walk (c :: rest) (File r x) = None) by reflexivity.
  destruct Hfs as [-> | ->].
  - rewrite (look_put_fresh _ _ _ _ a); [| | |exact Hleafv].
    + rewrite (look_del_file _ _ _ _ Hsrc).
      destruct (decide (q = D ++ [leaf])) as [->|]; [|reflexivity].
      now rewrite decide_False.
    + rewrite (look_del_file _ _ _ _ Hsrc), decide_False; assumption.
    + rewrite (look_del_file _ _ _ _ Hsrc), decide_False; assumption.
  - rewrite look_del_file.
    + rewrite (look_put_fresh _ _ _ _ a _ Hd Hnew Hleafv). reflexivity.
    + rewrite (look_put_fresh _ _ _ _ a _ Hd Hnew Hleafv), decide_False; [exact Hsrc |].
      congruence.
Qed.

Lemma moved_wf fs fs' S n D leaf r x a :
  wf fs -> look (S ++ [n]) fs = Some KFile ->
  look D fs = Some (KDir a) -> good_name leaf = true ->
  fs' = update_dir D (assoc_put leaf (File r x)) (update_dir S (assoc_del n) fs) \/
  fs' = update_dir S (assoc_del n) (update_dir D (assoc_put leaf (File r x)) fs) ->
  wf fs'.
Proof.
  intros Hwf Hsrc Hd Hg [-> | ->].
  - assert (Hd' : look D (update_dir S (assoc_del n) fs) = Some (KDir a)).
    { rewrite (look_del_file _ _ _ _ Hsrc), decide_False; [exact Hd |].
      intros E. rewrite E, Hsrc in Hd. discriminate. }
    apply look_dir_inv in Hd' as [es Hd'].
    apply (wf_put _ _ _ _ _ _ (wf_del _ _ _ Hwf) Hd' Hg (wf_file _ _)).
  - apply look_dir_inv in Hd as [es Hd].
    apply wf_del. apply (wf_put _ _ _ _ _ _ Hwf Hd Hg (wf_file _ _)).
Qed.

(** [create_directory], seen through kinds. *)
Lemma create_directory_look p B k fs st fs1 :
  wf fs -> resolve p = B ++ [k] -> good_name k = true ->
  create_directory p fs = Ok st fs1 ->
  wf fs1 /\
  (fs1 = fs \/
   exists a, d_open a = None /\ look (B ++ [k]) fs = None /\
             forall q, look q fs1 = if decide (q = B ++ [k]) then Some (KDir a)
                                    else look q fs).
Proof.
  intros Hwf Ep Hgood E. destruct (create_directory_result p fs) as (st0 & fs0 & E0 & H).
  rewrite E0 in E. injection E as <- <-.
  destruct H as [-> | (d & n & a & es & Ep' & Hd & Hn & ->)]; [auto |].
  rewrite Ep in Ep'. apply app_inj_tail in Ep' as [<- <-].
  split.
  - apply (wf_put _ _ _ _ _ _ Hwf Hd Hgood (wf_empty_dir _)).
  - right. exists {| d_open := None; d_write := None; d_dev := d_dev a |}.
    split; [reflexivity |].
    assert (Hnone : look (B ++ [k]) fs = None)
      by (unfold look; now rewrite (walk_child _ _ _ _ _ _ Hd Hn)).
    split; [exact Hnone |]. intros q.
    assert (Hdir : look B fs = Some (KDir a)) by (unfold look; now rewrite Hd).
    exact (look_put_fresh B k
             (Dir {| d_open := None; d_write := None; d_dev := d_dev a |} [])
             fs a q Hdir Hnone (fun c rest => eq_refl)).
Qed.

(** ** Good and visible names in the catalogs *)

Lemma canonical_good c : c ∈ CANONICAL_NAMES -> good_name c = true /\ visible c = true.
Proof.
  intros H.
  assert (A : forallb (fun c => good_name c && visible c) (elements CANONICAL_NAMES) = true)
    by (vm_compute; reflexivity).
  rewrite forallb_forall in A.
  apply elem_of_elements, list_elem_of_In in H.
  specialize (A _ H). apply andb_true_iff in A. exact A.
Qed.

Lemma alias_key_good a c :
  ALIAS_LOOKUP !! a = Some c -> good_name a = true /\ visible a = true.
Proof.
  intros H.
  pose (P := fun kv : string * string => good_name (fst kv) && visible (fst kv)).
  assert (A : forallb P (map_to_list ALIAS_LOOKUP) = true) by (vm_compute; reflexivity).
  pose proof (map_forallb_sound P _ _ _ A H) as B. unfold P in B. simpl in B.
  apply andb_true_iff in B. exact B.
Qed.

Lemma others_not_alias : ALIAS_LOOKUP !! to_lower "Others" = None.
Proof. vm_compute. reflexivity. Qed.

Lemma classify_visible p : visible (classify_file_by_extension p) = true.
Proof.
  destruct (classify_range p) as [-> | H]; [reflexivity |].
  exact (proj2 (canonical_good _ H)).
Qed.

(** The base of [handle_file] is the level or its parent. *)
Lemma base_cases s cat :
  String.eqb cat (path_filename s) = false ->
  resolve (base_location s cat) = resolve s \/
  (good_name (path_filename s) = true /\
   exists D, resolve s = D ++ [path_filename s] /\ resolve (base_location s cat) = D).
Proof.
  intros Hne. unfold base_location, get_parent_folder_name, alias_of_other_category.
  rewrite Hne. simpl negb. rewrite andb_true_r.
  destruct (bool_decide (path_filename s ∈ CANONICAL_NAMES)) eqn:Ec.
  - apply bool_decide_eq_true in Ec. destruct (canonical_good _ Ec) as [Hg _].
    right. split; [exact Hg |]. exact (path_split_parent s _ eq_refl Hg).
  - clear Ec. destruct (ALIAS_LOOKUP !! path_filename s) as [c|] eqn:Ea; [|now left].
    destruct (negb (String.eqb c cat)); [|now left].
    destruct (alias_key_good _ _ Ea) as [Hg _].
    right. split; [exact Hg |]. exact (path_split_parent s _ eq_refl Hg).
Qed.

(** Where the destination folder lies with respect to the root. *)
Lemma dest_position root ns s cat :
  at_path root ns s -> String.eqb cat (path_filename s) = false ->
  resolve (base_location s cat) ++ [cat] <> resolve root ++ ns /\
  forall ms, resolve root ++ ms = resolve (base_location s cat) ++ [cat] ->
             folder_of root ms = cat.
Proof.
  intros Hat Hne. pose proof (at_path_resolve _ _ _ Hat) as Hs.
  apply String.eqb_neq in Hne as Hne'.
  destruct (base_cases s cat Hne) as [-> | (Hg & D & HD & ->)].
  - rewrite Hs. split.
    + intros E. rewrite <- app_assoc in E. apply app_inv_head in E.
      rewrite <- (app_nil_r ns) in E at 2. apply app_inv_head in E. discriminate E.
    + intros ms E. rewrite <- app_assoc in E. apply app_inv_head in E. subst ms.
      unfold folder_of. apply last_last.
  - rewrite Hs in HD. split.
    + intros E. rewrite <- E in HD. apply app_inj_tail in HD as [_ HD]. congruence.
    + intros ms E. destruct ns as [|n0 ns0] using rev_ind.
      * rewrite app_nil_r in HD. rewrite HD, <- app_assoc in E.
        apply app_inv_head in E. simpl in E. injection E as E _. congruence.
      * clear IHns0. rewrite app_assoc in HD. apply app_inj_tail in HD as [HD _].
        rewrite <- HD, <- app_assoc in E. apply app_inv_head in E. subst ms.
        unfold folder_of. apply last_last.
Qed.

(** ** A successful [handle_file] refines the tree *)

Lemma placed_false folder f :
  placed folder f = false ->
  String.eqb (classify_file_by_extension f) folder = false /\
  alias_of_category folder (classify_file_by_extension f) = false.
Proof. unfold placed. intros H. now apply orb_false_iff in H. Qed.

Lemma handle_file_refines root ns s n t_mode fs fs2 :
  at_path root ns s -> good_name n = true -> wf fs ->
  look (resolve root ++ ns ++ [n]) fs = Some KFile ->
  placed (path_filename s) n = false ->
  handle_file s (path_append s n) t_mode fs = Ok organize_status.success fs2 ->
  wf fs2 /\ refines root fs fs2 /\
  (forall f, look (resolve root ++ ns ++ [f]) fs2 = Some KFile ->
             f <> n /\ look (resolve root ++ ns ++ [f]) fs = Some KFile).
Proof.
  intros Hat Hn Hwf Hfile Hnp E.
  pose proof (at_path_resolve _ _ _ Hat) as Hs.
  set (entry := path_append s n) in *.
  assert (Hentry : resolve entry = (resolve root ++ ns) ++ [n])
    by (unfold entry; now rewrite (resolve_append_good _ _ Hn), Hs).
  rewrite app_assoc in Hfile.
  destruct (look_file_inv _ _ Hfile) as (r & x & Hw).
  assert (Hst : fs_status entry fs = Some (File r x))
    by (unfold fs_status; now rewrite Hentry).
  destruct (placed_false _ _ Hnp) as [Hne Hna].
  assert (Hcat : classify_file_by_extension entry = classify_file_by_extension n)
    by (apply classify_append; exact Hn).
  set (cat := classify_file_by_extension n) in *.
  destruct (dest_position root ns s cat Hat Hne) as [Hdest_ne Hdest_in].
  set (B := resolve (base_location s cat)) in *.
  unfold handle_file, get_parent_folder_name in E. rewrite Hcat in E.
  rewrite Hne, Hna in E. unfold bind in E.
  set (dest := path_append (base_location s cat) cat) in *.
  assert (Hdest : resolve dest = B ++ [cat])
    by (unfold dest, B, cat; apply resolve_append_good, classify_good).
  destruct (create_directory dest fs) as [cr fs1| |] eqn:Ec; try discriminate E.
  destruct (create_directory_look _ _ _ _ _ _ Hwf Hdest (classify_good n) Ec)
    as [Hwf1 Hl1].
  pose proof (create_directory_keeps_files _ _ _ _ _ _ _ Ec Hst) as Hst1.
  assert (Et : exists st fs',
             match t_mode with
             | transfer_mode.atomic_transfer_mode => atomic_file_transfer entry dest fs1
             | transfer_mode.fallback_transfer_mode => fallback_transfer entry dest fs1
             end = Ok st fs' /\ st = file_move_status.successful_transfer /\ fs' = fs2).
  { destruct t_mode.
    - destruct (atomic_file_transfer entry dest fs1) as [st fs'| |]; try discriminate E.
      injection E as E <-. exists st, fs'. split; [reflexivity |].
      split; [exact (combine_atomic_success _ _ E) | reflexivity].
    - destruct (fallback_transfer entry dest fs1) as [st fs'| |]; try discriminate E.
      injection E as E <-. exists st, fs'. split; [reflexivity |].
      split; [exact (combine_fallback_success _ _ E) | reflexivity]. }
  destruct Et as (st & fs' & Et & -> & ->). clear E.
  destruct (transfer_formula t_mode entry dest n fs1 r x fs2
              (path_filename_append_good _ _ Hn) Hn Hst1 Et)
    as (leaf & r' & od & on & a & Hleaf & Hext & Hod & Hd1 & Hnew1 & Hfs2).
  rewrite Hentry in Hod. apply app_inj_tail in Hod as [<- <-].
  rewrite Hdest in Hd1, Hnew1, Hfs2.
  assert (Hfile1 : look ((resolve root ++ ns) ++ [n]) fs1 = Some KFile).
  { unfold fs_status in Hst1. rewrite Hentry in Hst1. unfold look. now rewrite Hst1. }
  pose proof (moved_look _ _ _ _ _ _ _ _ _ Hfile1 Hd1 Hnew1 Hfs2) as L2.
  pose proof (moved_wf _ _ _ _ _ _ _ _ _ Hwf1 Hfile1 Hd1 Hleaf Hfs2) as Hwf2.
  assert (L1 : forall q, look q fs1 = look q fs \/
                         (q = B ++ [cat] /\ look q fs = None /\
                          exists a0, d_open a0 = None /\ look q fs1 = Some (KDir a0))).
  { intros q. destruct Hl1 as [-> | (a0 & Ho & Hnone & L)]; [now left |].
    rewrite L. destruct (decide (q = B ++ [cat])) as [->|]; [|now left].
    right. repeat split; [exact Hnone |]. exists a0. split; [exact Ho | reflexivity]. }
  assert (Hleafcat : classify_file_by_extension leaf = cat).
  { unfold cat. apply classify_same_extension; [| |exact Hext].
    - exact (proj1 (good_name_inv _ Hleaf)).
    - exact (proj1 (good_name_inv _ Hn)). }
  split; [exact Hwf2 |]. split; [split; [|split] |].
  - intros q a' Hq.
    assert (Hq1 : look q fs1 = Some (KDir a')).
    { destruct (L1 q) as [-> | (_ & Hnone & _)]; [exact Hq |].
      rewrite Hnone in Hq. discriminate Hq. }
    rewrite L2. destruct (decide (q = (resolve root ++ ns) ++ [n])) as [->|].
    { rewrite Hfile1 in Hq1. discriminate Hq1. }
    destruct (decide (q = (B ++ [cat]) ++ [leaf])) as [->|]; [|exact Hq1].
    rewrite Hnew1 in Hq1. discriminate Hq1.
  - intros q a' Hq. rewrite L2 in Hq.
    destruct (decide (q = (resolve root ++ ns) ++ [n])); [discriminate Hq |].
    destruct (decide (q = (B ++ [cat]) ++ [leaf])); [discriminate Hq |].
    destruct (L1 q) as [L | (-> & Hnone & a0 & Ho & L)].
    + left. now rewrite <- L.
    + right. rewrite L in Hq. injection Hq as <-.
      split; [|exact Ho]. intros a'' H. rewrite Hnone in H. discriminate H.
  - intros ms f Hq. rewrite L2 in Hq.
    destruct (decide (resolve root ++ ms ++ [f] = (resolve root ++ ns) ++ [n]));
      [discriminate Hq |].
    destruct (decide (resolve root ++ ms ++ [f] = (B ++ [cat]) ++ [leaf])) as [Eq|].
    + right. rewrite app_assoc in Eq. apply app_inj_tail in Eq as [Eq ->].
      rewrite (Hdest_in _ Eq). unfold placed. rewrite Hleafcat, String.eqb_refl.
      reflexivity.
    + left. destruct (L1 (resolve root ++ ms ++ [f])) as [L | (_ & _ & a0 & _ & L)];
        [now rewrite <- L |].
      rewrite L in Hq. discriminate Hq.
  - intros f Hq. rewrite L2 in Hq. rewrite app_assoc in Hq.
    destruct (decide ((resolve root ++ ns) ++ [f] = (resolve root ++ ns) ++ [n]))
      as [|Hfn]; [discriminate Hq |].
    split; [intros ->; now apply Hfn |].
    destruct (decide ((resolve root ++ ns) ++ [f] = (B ++ [cat]) ++ [leaf])) as [Eq|].
    + apply app_inj_tail in Eq as [Eq _]. symmetry in Eq. contradiction.
    + rewrite app_assoc.
      destruct (L1 ((resolve root ++ ns) ++ [f])) as [L | (_ & _ & a0 & _ & L)];
        [now rewrite <- L |].
      rewrite L in Hq. discriminate Hq.
Qed.

(* ================================================================== *)
(** ** Further properties of the catalogs and of classification *)
(* ================================================================== *)

Lemma canonical_fold_keys (m : list (string * list string)) (s0 : gset string) x :
  x ∈ fold_left (fun (h : gset string) (it : string * list string) => h ∪ {[ fst it ]}) m s0
  <-> x ∈ s0 \/ In x (List.map fst m).
Proof.
  revert s0. induction m as [|it m IH]; intros s0; simpl.
  - split; [intros H; left; exact H | intros [H | []]; exact H].
  - rewrite IH, elem_of_union, elem_of_singleton. split.
    + intros [[H | H] | H]; [left; exact H | right; left; symmetry; exact H
                             | right; right; exact H].
    + intros [H | [H | H]]; [left; left; exact H | left; right; symmetry; exact H
                             | right; exact H].
Qed.

Lemma canonical_names_keys x :
  x ∈ CANONICAL_NAMES <-> In x (List.map fst CATEGORY_EXTENSION_MAP).
Proof.
  pose proof (canonical_fold_keys CATEGORY_EXTENSION_MAP ∅ x) as H.
  split.
  - intros Hx. destruct (proj1 H Hx) as [H0 | H0]; [|exact H0].
    exact (False_ind _ (not_elem_of_empty (C:=gset string) x H0)).
  - intros Hx. exact (proj2 H (or_intror Hx)).
Qed.

(** X1: the category [classify_file_by_extension] returns is "Others" or a
    canonical name; the canonical names are exactly the keys of
    [CATEGORY_EXTENSION_MAP] and "Others" is not one of them; and the
    category is always one path component, so that [base / category] is a
    direct child of [base]. *)
Theorem classify_file_by_extension_range (file_path : string) :
  (classify_file_by_extension file_path = "Others" \/
   classify_file_by_extension file_path ∈ CANONICAL_NAMES) /\
  ("Others" ∉ CANONICAL_NAMES) /\
  (forall c, c ∈ CANONICAL_NAMES <-> exists exts, In (c, exts) CATEGORY_EXTENSION_MAP) /\
  (forall base, resolve (path_append base (classify_file_by_extension file_path))
                = resolve base ++ [classify_file_by_extension file_path]).
Proof.
  split; [exact (classify_range file_path) |].
  split; [apply (bool_decide_unpack _); vm_compute; exact I |].
  split.
  - intros c. rewrite canonical_names_keys, in_map_iff. split.
    + intros ([k exts] & E & Hin). simpl in E. subst k. exists exts. exact Hin.
    + intros (exts & Hin). exists (c, exts). split; [reflexivity | exact Hin].
  - intros base. apply resolve_append_good, classify_good.
Qed.

(** *** The reverse lookup tables *)

Lemma last_cons_some {A : Type} (c : A) (l : list A) (d : option A) :
  List.last (List.map Some (c :: l)) d = List.last (List.map Some l) (Some c).
Proof.
  destruct l as [|b l]; [reflexivity |].
  change (List.last (Some b :: List.map Some l) d
          = List.last (Some b :: List.map Some l) (Some c)).
  generalize (Some b) as y. generalize (List.map Some l) as t.
  induction t as [|z t IH]; intros y; [reflexivity |].
  exact (IH z).
Qed.

Lemma invert_members (c : string) (members : list string) (acc : gmap string string) x :
  (fold_left (fun (lookup : gmap string string) member => <[ member := c ]> lookup)
             members acc) !! x
  = if existsb (String.eqb x) members then Some c else acc !! x.
Proof.
  revert acc. induction members as [|a members IH]; intros acc; [reflexivity |].
  simpl fold_left. rewrite IH. simpl existsb.
  destruct (String.eqb_spec x a) as [->|Hne].
  - rewrite lookup_insert_eq. simpl. destruct (existsb _ members); reflexivity.
  - rewrite lookup_insert_ne by (intros E; exact (Hne (eq_sym E))). reflexivity.
Qed.

Lemma invert_from (m : list (string * list string)) (acc : gmap string string) x :
  (fold_left (fun lookup category =>
                fold_left (fun (lookup : gmap string string) member =>
                             <[ member := fst category ]> lookup)
                          (snd category) lookup) m acc) !! x
  = List.last (List.map Some (owners m x)) (acc !! x).
Proof.
  revert acc. induction m as [|[c members] m IH]; intros acc; [reflexivity |].
  simpl fold_left. rewrite IH. rewrite invert_members.
  unfold owners. simpl List.filter.
  destruct (existsb (String.eqb x) members); [|reflexivity].
  symmetry. apply (last_cons_some c).
Qed.

Lemma owners_in (m : list (string * list string)) x c :
  In c (owners m x) <-> exists members, In (c, members) m /\ In x members.
Proof.
  unfold owners. rewrite in_map_iff. split.
  - intros ([k members] & E & Hin). simpl in E. subst k.
    apply filter_In in Hin as [Hin Hx]. simpl in Hx.
    apply existsb_exists in Hx as (y & Hy & E). apply String.eqb_eq in E. subst y.
    exists members. split; assumption.
  - intros (members & Hin & Hx). exists (c, members). split; [reflexivity |].
    apply filter_In. split; [exact Hin |]. simpl. apply existsb_exists.
    exists x. split; [exact Hx | apply String.eqb_refl].
Qed.

(** X2: the lambda that builds [EXTENSION_LOOKUP] and [ALIAS_LOOKUP] from a
    catalog maps a string to the LAST category (in the map's iteration
    order) that lists it, whatever the catalog; it has an entry for a string
    exactly when some category lists it, and the entry is a category that
    does. *)
Theorem invert_last_owner (m : list (string * list string)) (x : string) :
  invert m !! x = List.last (List.map Some (owners m x)) None /\
  (invert m !! x = None <-> forall c members, In (c, members) m -> ~ In x members) /\
  (forall c, invert m !! x = Some c -> exists members, In (c, members) m /\ In x members).
Proof.
  assert (E : invert m !! x = List.last (List.map Some (owners m x)) None).
  { unfold invert. rewrite invert_from. reflexivity. }
  assert (Hlast : forall (l : list string),
             (l = [] /\ List.last (List.map Some l) None = None) \/
             (exists c, In c l /\ List.last (List.map Some l) None = Some c)).
  { intros l. destruct l as [|c l]; [left; split; reflexivity |]. right.
    rewrite last_cons_some. revert c. induction l as [|b l IH]; intros c.
    - exists c. split; [left; reflexivity | reflexivity].
    - rewrite last_cons_some. destruct (IH b) as (c' & Hin & ->).
      exists c'. split; [right; exact Hin | reflexivity]. }
  split; [exact E |]. rewrite E. split.
  - split.
    + intros Hnone c members Hin Hx.
      destruct (Hlast (owners m x)) as [[Hnil _] | (c' & _ & Hsome)].
      * assert (Hc : In c (owners m x)) by (apply owners_in; eauto).
        rewrite Hnil in Hc. exact Hc.
      * rewrite Hsome in Hnone. discriminate Hnone.
    + intros Hno. destruct (Hlast (owners m x)) as [[_ Hnone] | (c' & Hin & _)];
        [exact Hnone |].
      apply owners_in in Hin as (members & Hin & Hx).
      exact (False_ind _ (Hno _ _ Hin Hx)).
  - intros c Hc. destruct (Hlast (owners m x)) as [[_ Hnone] | (c' & Hin & Hsome)].
    + rewrite Hnone in Hc. discriminate Hc.
    + rewrite Hsome in Hc. injection Hc as <-. apply owners_in. exact Hin.
Qed.

(** *** Letter case *)

Lemma tolower_idem (a : ascii) : tolower (tolower a) = tolower a.
Proof. destruct a as [[] [] [] [] [] [] [] []]; reflexivity. Qed.

Lemma to_lower_idem (s : string) : to_lower (to_lower s) = to_lower s.
Proof. induction s as [|a s IH]; simpl; [reflexivity |]. now rewrite tolower_idem, IH. Qed.

Lemma rsplit_to_lower (c : ascii) (s : string) :
  (forall a, Ascii.eqb (tolower a) c = Ascii.eqb a c) ->
  rsplit c (to_lower s) =
  match rsplit c s with
  | Some (u, v) => Some (to_lower u, to_lower v)
  | None => None
  end.
Proof.
  intros Hc. induction s as [|a s IH]; simpl; [reflexivity |].
  rewrite IH. destruct (rsplit c s) as [[u v]|]; [reflexivity |].
  rewrite Hc. destruct (Ascii.eqb a c); reflexivity.
Qed.

Lemma path_filename_to_lower p : path_filename (to_lower p) = to_lower (path_filename p).
Proof.
  unfold path_filename. rewrite (rsplit_to_lower sep p tolower_keeps_sep).
  destruct (rsplit sep p) as [[u v]|]; reflexivity.
Qed.

Lemma to_lower_eqb_dots f :
  String.eqb (to_lower f) "." = String.eqb f "." /\
  String.eqb (to_lower f) ".." = String.eqb f "..".
Proof.
  destruct f as [|a [|b [|c f]]]; simpl; try (split; reflexivity).
  - change (Ascii.eqb (tolower a) dot) with (Ascii.eqb (tolower a) dot).
    pose proof (tolower_keeps_dot a) as Ha. unfold dot in Ha.
    rewrite Ha. split; [reflexivity |]. destruct (Ascii.eqb a "."); reflexivity.
  - pose proof (tolower_keeps_dot a) as Ha. pose proof (tolower_keeps_dot b) as Hb.
    unfold dot in Ha, Hb. rewrite Ha, Hb. split; reflexivity.
  - pose proof (tolower_keeps_dot a) as Ha. pose proof (tolower_keeps_dot b) as Hb.
    unfold dot in Ha, Hb. rewrite Ha, Hb. split; reflexivity.
Qed.

Lemma path_extension_to_lower p : path_extension (to_lower p) = to_lower (path_extension p).
Proof.
  unfold path_extension. rewrite path_filename_to_lower.
  destruct (to_lower_eqb_dots (path_filename p)) as [-> ->].
  destruct (String.eqb (path_filename p) "." || String.eqb (path_filename p) "..");
    [reflexivity |].
  rewrite (rsplit_to_lower dot _ tolower_keeps_dot).
  destruct (rsplit dot (path_filename p)) as [[[|a u] v]|]; reflexivity.
Qed.

Lemma classify_to_lower p :
  classify_file_by_extension (to_lower p) = classify_file_by_extension p.
Proof.
  unfold classify_file_by_extension. rewrite path_extension_to_lower.
  destruct (path_extension p) as [|a e]; [reflexivity |].
  simpl to_lower. simpl erase_first. simpl String.eqb. cbv iota.
  rewrite to_lower_idem. reflexivity.
Qed.

(** X3: classification ignores letter case: two paths that are equal up to
    the case of ASCII letters get the same category. *)
Theorem classify_file_by_extension_ignores_case (p q : string) :
  to_lower p = to_lower q ->
  classify_file_by_extension p = classify_file_by_extension q.
Proof.
  intros E. rewrite <- (classify_to_lower p), <- (classify_to_lower q), E. reflexivity.
Qed.

Lemma classify_file_by_extension_ignores_case_witness :
  classify_file_by_extension "Holiday/IMG_1.JPG"
  = classify_file_by_extension "holiday/img_1.jpg".
Proof.
  apply (classify_file_by_extension_ignores_case "Holiday/IMG_1.JPG" "holiday/img_1.jpg").
  reflexivity.
Defined.

(* ================================================================== *)
(** ** Further properties of the file operations *)
(* ================================================================== *)

Lemma create_directory_cases p fs :
  (fs_exists p fs = true /\
   create_directory p fs = Ok create_directory_status.already_exists fs) \/
  (fs_exists p fs = false /\
   exists st, create_directory p fs = Ok st fs /\
              (st = create_directory_status.permission_denied_failure \/
               st = create_directory_status.unknown_failure)) \/
  (fs_exists p fs = false /\
   exists d n a es,
     resolve p = d ++ [n] /\ walk d fs = Some (Dir a es) /\ map_find n es = None /\
     create_directory p fs
     = Ok create_directory_status.successful_creation
          (update_dir d (assoc_put n (Dir {| d_open := None; d_write := None;
                                             d_dev := d_dev a |} [])) fs)).
Proof.
  unfold create_directory.
  destruct (fs_exists p fs) eqn:He; simpl negb; cbv iota; [left; split; reflexivity |].
  right. unfold try_catch, bind, fs_create_directory.
  assert (Hfail : forall e,
             exists st,
               (if errc.eqb e errc.permission_denied
                then ret create_directory_status.permission_denied_failure
                else ret create_directory_status.unknown_failure) fs = Ok st fs /\
               (st = create_directory_status.permission_denied_failure \/
                st = create_directory_status.unknown_failure)).
  { intros e. destruct (errc.eqb e errc.permission_denied); eexists;
      (split; [reflexivity |]); [left | right]; reflexivity. }
  destruct (split_last_cases (resolve p)) as [[Hnil _] | (d & n & Ep & ->)].
  { unfold fs_exists, fs_status in He. rewrite Hnil in He. discriminate He. }
  destruct (walk d fs) as [[? ?|a es]|] eqn:Hd;
    [left; split; [reflexivity | apply Hfail] | | left; split; [reflexivity | apply Hfail]].
  pose proof (fs_exists_false_child _ _ _ _ _ _ He Ep Hd) as Hn. rewrite Hn.
  destruct (d_write a) as [e|]; [left; split; [reflexivity | apply Hfail] |].
  right. split; [reflexivity |]. exists d, n, a, es. repeat split; assumption.
Qed.

(** Its query answered, [create_directory] returns a status.  It answers
    [already_exists]
    exactly when something, a directory or a regular file, is at the path;
    unless it answers [successful_creation] it changes nothing; after
    [successful_creation] the path is an empty directory, every path that is
    not an ancestor of it is as before, and a second call answers
    [already_exists] and changes nothing. *)
Lemma create_directory_outcomes (target_directory_path : string) (fs : node) :
  exists st fs',
    create_directory target_directory_path fs = Ok st fs' /\
    (fs_exists target_directory_path fs = true <->
     st = create_directory_status.already_exists) /\
    (st <> create_directory_status.successful_creation -> fs' = fs) /\
    (st = create_directory_status.successful_creation ->
     (exists a, fs_status target_directory_path fs' = Some (Dir a [])) /\
     (forall q, ~ q `prefix_of` resolve target_directory_path -> walk q fs' = walk q fs) /\
     create_directory target_directory_path fs'
     = Ok create_directory_status.already_exists fs').
Proof.
  destruct (create_directory_cases target_directory_path fs)
    as [[He E] | [(He & st & E & Hst) | (He & d & n & a & es & Ep & Hd & Hn & E)]].
  - exists create_directory_status.already_exists, fs.
    split; [exact E |]. split; [split; [reflexivity | intros _; exact He] |].
    split; [reflexivity | discriminate].
  - exists st, fs. split; [exact E |]. rewrite He.
    split; [split; [discriminate | intros ->; destruct Hst; discriminate] |].
    split; [reflexivity | intros ->; destruct Hst; discriminate].
  - set (fresh := Dir {| d_open := None; d_write := None; d_dev := d_dev a |} []) in *.
    exists create_directory_status.successful_creation,
           (update_dir d (assoc_put n fresh) fs).
    split; [exact E |]. rewrite He. split; [split; discriminate |].
    split; [intros H; exact (False_ind _ (H eq_refl)) |]. intros _.
    assert (Hnew : walk (d ++ [n]) (update_dir d (assoc_put n fresh) fs) = Some fresh)
      by exact (walk_put_entry _ _ _ _ _ _ Hd).
    split; [exists {| d_open := None; d_write := None; d_dev := d_dev a |};
            unfold fs_status; rewrite Ep; exact Hnew |].
    split.
    + intros q Hq. rewrite Ep in Hq.
      destruct (decide ((d ++ [n]) `prefix_of` q)) as [[rest ->]|Hbelow].
      * destruct rest as [|c rest].
        { exfalso. apply Hq. rewrite app_nil_r. reflexivity. }
        rewrite (walk_app (d ++ [n])), Hnew.
        rewrite (walk_app (d ++ [n])), (walk_child _ _ _ _ _ _ Hd Hn). reflexivity.
      * apply (frame_entry _ n); [apply touches_only_put | | exact Hbelow].
        intros Hp. apply Hq. etransitivity; [exact Hp |]. now exists [n].
    + destruct (create_directory_cases target_directory_path
                  (update_dir d (assoc_put n fresh) fs))
        as [[_ E2] | [(He2 & _) | (He2 & _)]]; [exact E2 | |];
        unfold fs_exists, fs_status in He2; rewrite Ep, Hnew in He2; discriminate He2.
Qed.




(** The two steps of [fallback_transfer] for a readable file and a free
    name in a writable directory. *)
Lemma fallback_steps s p fs od on nd nn oa oes na nes x :
  resolve s = od ++ [on] -> resolve p = nd ++ [nn] ->
  walk od fs = Some (Dir oa oes) -> map_find on oes = Some (File None x) ->
  walk nd fs = Some (Dir na nes) -> map_find nn nes = None -> d_write na = None ->
  let fs1 := update_dir nd (assoc_put nn (File None x)) fs in
  fs_copy_file s p fs = Ok true fs1 /\
  fs_remove s fs1 = match d_write oa with
                    | Some e => Throw e fs1
                    | None => Ok true (update_dir od (assoc_del on) fs1)
                    end /\
  walk (od ++ [on]) fs1 = Some (File None x) /\
  walk (nd ++ [nn]) fs1 = Some (File None x).
Proof.
  intros Es Ep Hod Hon Hnd Hnn Hw fs1.
  assert (Hold1 : walk (od ++ [on]) fs1 = Some (File None x))
    by exact (copied_old fs od nd on nn oa na oes nes None x Hod Hon Hnd Hnn _).
  split; [|split; [|split; [exact Hold1 | exact (walk_put_entry _ _ _ _ _ _ Hnd)]]].
  - unfold fs_copy_file, fs_status.
    rewrite Es, (walk_child _ _ _ _ _ _ Hod Hon), Ep, split_last_snoc, Hnd, Hnn, Hw.
    reflexivity.
  - destruct (dir_survives_entry (assoc_put nn (File None x)) nn nd od fs oa oes
                (touches_only_put nn _) Hod
                (new_not_above_src_dir fs od nd nn oa na oes nes Hod Hnd Hnn))
      as (oes' & Hod1).
    fold fs1 in Hod1.
    destruct (walk_child_inv _ _ _ _ Hold1) as (a' & es' & Hod1' & Hon1).
    rewrite Hod1 in Hod1'. injection Hod1' as <- <-.
    unfold fs_remove. rewrite Es, split_last_snoc, Hod1, Hon1. reflexivity.
Qed.





(* ================================================================== *)
(** ** Further properties of [handle_file] *)
(* ================================================================== *)

Lemma atomic_file_transfer_returns s d fs :
  exists st fs', atomic_file_transfer s d fs = Ok st fs'.
Proof.
  destruct (get_unique_path_spec d (path_filename s) fs) as (p & Eg & _).
  unfold atomic_file_transfer, try_catch, bind. rewrite Eg.
  destruct (fs_rename_result s p fs) as [(fs' & ->) | (e & ->)]; [eauto |].
  destruct (errc.eqb e errc.permission_denied); [eauto |].
  destruct (errc.eqb e errc.cross_device_link); eauto.
Qed.

Lemma fallback_transfer_returns s d fs :
  exists st fs', fallback_transfer s d fs = Ok st fs'.
Proof.
  destruct (fallback_transfer_cases s d fs)
    as (p & _ & _ & [(st & E & _) | (y & fs2 & _ & _ & _ & [(st & E & _) | [E _]])]);
    eauto.
Qed.

(** Where a successful transfer of a regular file puts it. *)
Lemma transfer_success_at t_mode entry dest fs r x fs' :
  fs_status entry fs = Some (File r x) ->
  match t_mode with
  | transfer_mode.atomic_transfer_mode => atomic_file_transfer entry dest fs
  | transfer_mode.fallback_transfer_mode => fallback_transfer entry dest fs
  end = Ok file_move_status.successful_transfer fs' ->
  exists p r',
    get_unique_path dest (path_filename entry) fs = Ok p fs /\
    fs_status p fs' = Some (File r' x) /\ fs_status entry fs' = None.
Proof.
  intros Hs E. destruct t_mode.
  - destruct (atomic_file_transfer_file entry dest fs r x Hs)
      as (p & Eg & _ & [(st & E' & Hst) | (fs2 & E' & Hp & Hgone & _)]);
      rewrite E' in E.
    + injection E as E1 E2. exact (False_ind _ (Hst E1)).
    + injection E as <-. exists p, r. auto.
  - destruct (fallback_transfer_cases entry dest fs)
      as (p & Eg & _ & [(st & E' & Hst)
                       | (y & fs2 & Hy & Hp & _ & [(st & E' & Hst & _) | [E' Hgone]])]);
      rewrite E' in E.
    + injection E as E1 E2. exact (False_ind _ (Hst E1)).
    + injection E as E1 E2. exact (False_ind _ (Hst E1)).
    + injection E as <-. rewrite Hs in Hy. injection Hy as -> ->. exists p, None. auto.
Qed.

(** [create_directory] does not change what is right under its path. *)
Lemma create_directory_child p k fs st fs1 :
  create_directory p fs = Ok st fs1 ->
  walk (resolve p ++ [k]) fs1 = walk (resolve p ++ [k]) fs.
Proof.
  intros E.
  destruct (create_directory_cases p fs)
    as [[_ E'] | [(_ & st' & E' & _) | (He & d & n & a & es & Ep & Hd & Hn & E')]];
    rewrite E' in E; injection E as _ <-; try reflexivity.
  rewrite Ep, (walk_app (d ++ [n])), (walk_put_entry _ _ _ _ _ _ Hd).
  rewrite (walk_app (d ++ [n])), (walk_child _ _ _ _ _ _ Hd Hn). reflexivity.
Qed.

(** A regular file that is not in place is sent to base/category: the
    status is never [already_in_correct_location], no other regular file
    changes, and on [success] the bytes are in the category folder, under
    the file's own name if that is free there and under a name with the same
    extension otherwise. *)
Lemma handle_file_moves_at cur fname t_mode fs r x :
  good_name fname = true ->
  fs_status (path_append cur fname) fs = Some (File r x) ->
  placed (get_parent_folder_name cur) fname = false ->
  let category := classify_file_by_extension fname in
  let dest := path_append (base_location cur category) category in
  exists st fs',
    handle_file cur (path_append cur fname) t_mode fs = Ok st fs' /\
    st <> organize_status.already_in_correct_location /\
    (forall t r0 x0, fs_status t fs = Some (File r0 x0) ->
                     resolve t <> resolve (path_append cur fname) ->
                     fs_status t fs' = Some (File r0 x0)) /\
    (st = organize_status.success ->
     exists leaf r',
       good_name leaf = true /\ path_extension leaf = path_extension fname /\
       fs_status (path_append dest leaf) fs' = Some (File r' x) /\
       fs_status (path_append cur fname) fs' = None /\
       (fs_exists (path_append dest fname) fs = false -> leaf = fname)).
Proof.
  intros Hg Hs Hnp category dest.
  pose proof (classify_append cur fname Hg) as Hcat.
  pose proof (path_filename_append_good cur fname Hg) as Hname.
  destruct (placed_false _ _ Hnp) as [H1 H2]. fold category in H1, H2.
  unfold handle_file. rewrite Hcat. fold category. rewrite H1, H2. fold dest.
  unfold bind.
  destruct (create_directory_result dest fs) as (cr & fs1 & Ec & _). rewrite Ec.
  pose proof (create_directory_keeps_files _ _ _ _ _ _ _ Ec Hs) as Hs1.
  assert (Hret : exists st fs',
             match t_mode with
             | transfer_mode.atomic_transfer_mode =>
                 atomic_file_transfer (path_append cur fname) dest fs1
             | transfer_mode.fallback_transfer_mode =>
                 fallback_transfer (path_append cur fname) dest fs1
             end = Ok st fs').
  { destruct t_mode; [apply atomic_file_transfer_returns
                     | apply fallback_transfer_returns]. }
  destruct Hret as (st & fs' & Et).
  destruct (transfer_lands t_mode _ dest fname fs1 r x st fs' Hname Hg Hs1 Et)
    as [Hframe _].
  exists (match t_mode with
          | transfer_mode.atomic_transfer_mode => combine_atomic cr st
          | transfer_mode.fallback_transfer_mode => combine_fallback cr st
          end), fs'.
  split; [destruct t_mode; rewrite Et; reflexivity |].
  split; [destruct t_mode; [apply combine_atomic_not_skipped
                           | apply combine_fallback_not_skipped] |].
  split.
  { intros t r0 x0 Ht Hne. apply Hframe; [|exact Hne].
    exact (create_directory_keeps_files _ _ _ _ _ _ _ Ec Ht). }
  intros Hst.
  assert (Hsucc : st = file_move_status.successful_transfer)
    by (destruct t_mode; [exact (combine_atomic_success _ _ Hst)
                         | exact (combine_fallback_success _ _ Hst)]).
  subst st.
  destruct (transfer_success_at t_mode _ dest fs1 r x fs' Hs1 Et)
    as (p & r' & Eg & Hp & Hgone).
  rewrite Hname in Eg.
  destruct (get_unique_path_leaf dest fname fs1 Hg) as (leaf & Eg' & Hleaf & Hext & _).
  rewrite Eg' in Eg. injection Eg as <-.
  exists leaf, r'. repeat split; try assumption.
  intros Hfree.
  assert (Hfree1 : fs_exists (path_append dest fname) fs1 = false).
  { unfold fs_exists, fs_status in *.
    rewrite (resolve_append_good dest fname Hg) in *.
    rewrite (create_directory_child _ _ _ _ _ Ec). exact Hfree. }
  destruct (get_unique_path_spec dest fname fs1) as (p0 & Eg0 & _ & Hsame & _).
  rewrite Eg' in Eg0. injection Eg0 as <-.
  specialize (Hsame Hfree1).
  rewrite <- (path_filename_append_good dest leaf Hleaf), Hsame.
  apply path_filename_append_good, Hg.
Qed.



(** X10: a file that [handle_file] has moved with [success] is in place:
    its bytes are under a name of the same category in the folder
    base/category, and [handle_file], asked about that file in that folder,
    answers [already_in_correct_location] and changes nothing, in any mode
    and any file system. *)
Theorem handle_file_moved_file_is_placed
        (cur fname : string) (t_mode : transfer_mode.t) (fs fs' : node)
        (r : option errc.t) (x : string) :
  good_name fname = true ->
  fs_status (path_append cur fname) fs = Some (File r x) ->
  handle_file cur (path_append cur fname) t_mode fs = Ok organize_status.success fs' ->
  let category := classify_file_by_extension fname in
  let dest := path_append (base_location cur category) category in
  exists leaf r',
    fs_status (path_append dest leaf) fs' = Some (File r' x) /\
    fs_status (path_append cur fname) fs' = None /\
    classify_file_by_extension (path_append dest leaf) = category /\
    forall t_mode' fs'',
      handle_file dest (path_append dest leaf) t_mode' fs''
      = Ok organize_status.already_in_correct_location fs''.
Proof.
  intros Hg Hs E category dest.
  destruct (placed (get_parent_folder_name cur) fname) eqn:Hp.
  { unfold get_parent_folder_name in Hp.
    rewrite (handle_file_placed cur fname t_mode fs Hg Hp) in E. discriminate E. }
  destruct (handle_file_moves_at cur fname t_mode fs r x Hg Hs Hp)
    as (st & fs1 & E1 & _ & _ & Hsucc).
  rewrite E1 in E. injection E as -> ->.
  destruct (Hsucc eq_refl) as (leaf & r' & Hleaf & Hext & Hnew & Hgone & _).
  fold category in Hnew. fold dest in Hnew.
  assert (Hcat : classify_file_by_extension (path_append dest leaf) = category).
  { rewrite (classify_append dest leaf Hleaf). unfold category.
    apply classify_same_extension; [| |exact Hext].
    - exact (proj1 (good_name_inv _ Hleaf)).
    - exact (proj1 (good_name_inv _ Hg)). }
  exists leaf, r'. split; [exact Hnew |]. split; [exact Hgone |].
  split; [exact Hcat |].
  intros t_mode' fs''. apply handle_file_skips. left.
  rewrite Hcat. unfold get_parent_folder_name, dest.
  rewrite (path_filename_append_good _ category (classify_good fname)).
  apply String.eqb_refl.
Qed.

Lemma handle_file_moved_file_is_placed_witness :
  exists leaf r',
    fs_status (path_append "root/Word Files" leaf)
      (final_fs (handle_file "root/Image Files" "root/Image Files/report.docx"
                             transfer_mode.atomic_transfer_mode) fs_misplaced)
    = Some (File r' "r").
Proof.
  destruct (handle_file_moved_file_is_placed
              "root/Image Files" "report.docx" transfer_mode.atomic_transfer_mode
              fs_misplaced
              (final_fs (handle_file "root/Image Files" "root/Image Files/report.docx"
                                     transfer_mode.atomic_transfer_mode) fs_misplaced)
              None "r")
    as (leaf & r' & H & _).
  - reflexivity.
  - reflexivity.
  - vm_compute. reflexivity.
  - exists leaf, r'. exact H.
Defined.

(* ================================================================== *)
(** ** Further properties of [get_unique_path], the root check and
       folder names *)
(* ================================================================== *)

Lemma probe_free_bound fuel fs d stem extension c p :
  probe_free fuel fs d stem extension c = Some p ->
  exists n, c <= n < c + fuel /\ p = path_append d (new_filename stem extension n).
Proof.
  revert c. induction fuel as [|fuel IH]; intros c; simpl; [discriminate |].
  destruct (fs_exists (path_append d (new_filename stem extension c)) fs).
  - intros H. destruct (IH _ H) as (n & Hn & Hp). exists n. split; [lia | exact Hp].
  - intros [= <-]. exists c. split; [lia | reflexivity].
Qed.

(** Status queries answered, the name [get_unique_path] chooses for a file
    name of one
    component is that name or stem(n)extension with n between 1 and one more
    than the number of entries of the destination; candidates with different
    n are different names; and the chosen name is one component with the
    category of the original, so that a file renamed to avoid a collision is
    still classified the same. *)
Lemma get_unique_path_names (destination_dir filename : string) (fs : node) :
  good_name filename = true ->
  exists leaf,
    get_unique_path destination_dir filename fs
    = Ok (path_append destination_dir leaf) fs /\
    (leaf = filename \/
     exists n, 1 <= n <= S (entry_count destination_dir fs) /\
               leaf = new_filename (path_stem filename) (path_extension filename) n) /\
    (forall n m,
        new_filename (path_stem filename) (path_extension filename) n
        = new_filename (path_stem filename) (path_extension filename) m -> n = m) /\
    resolve (path_append destination_dir leaf) = resolve destination_dir ++ [leaf] /\
    classify_file_by_extension (path_append destination_dir leaf)
    = classify_file_by_extension filename.
Proof.
  intros Hg. destruct (good_name_inv _ Hg) as [Hsep _].
  destruct (good_name_not_dots _ Hg) as [Hd1 Hd2].
  assert (Hkeep : forall leaf,
             good_name leaf = true -> path_extension leaf = path_extension filename ->
             resolve (path_append destination_dir leaf) = resolve destination_dir ++ [leaf] /\
             classify_file_by_extension (path_append destination_dir leaf)
             = classify_file_by_extension filename).
  { intros leaf Hl He. split; [exact (resolve_append_good _ _ Hl) |].
    rewrite (classify_append _ _ Hl).
    apply classify_same_extension; [exact (proj1 (good_name_inv _ Hl)) | exact Hsep | exact He]. }
  unfold get_unique_path.
  destruct (fs_exists (path_append destination_dir filename) fs); simpl negb; cbv iota.
  - destruct (probe_free _ _ _ _ _ _) as [p|] eqn:P;
      [|exact (False_ind _ (probe_free_enough _ _ _ P))].
    destruct (probe_free_bound _ _ _ _ _ _ _ P) as (n & Hn & ->).
    eexists. split; [reflexivity |].
    split; [right; exists n; split; [lia | reflexivity] |].
    split; [intros a b; apply new_filename_inj |].
    apply Hkeep; [apply new_filename_good | now apply new_filename_extension].
  - exists filename. split; [reflexivity |]. split; [left; reflexivity |].
    split; [intros a b; apply new_filename_inj |].
    apply Hkeep; [exact Hg | reflexivity].
Qed.

(** The outcomes of [validate_path]. *)
Lemma validate_path_cases root_path fs :
  (validate_path root_path fs = path_status.not_found /\ fs_exists root_path fs = false) \/
  (validate_path root_path fs = path_status.not_directory /\
   fs_exists root_path fs = true /\ fs_is_directory root_path fs = false) \/
  ((validate_path root_path fs = path_status.permission_denied \/
    validate_path root_path fs = path_status.ok) /\
   fs_is_directory root_path fs = true).
Proof.
  unfold validate_path.
  destruct (fs_exists root_path fs); simpl negb; cbv iota;
    [|left; split; reflexivity].
  destruct (fs_is_directory root_path fs); simpl negb; cbv iota;
    [|right; left; repeat split; reflexivity].
  right; right. split; [|reflexivity].
  destruct (probe_accessible root_path fs); simpl; [right | left]; reflexivity.
Qed.

Lemma handle_file_status cur entry t_mode fs :
  exists st fs',
    handle_file cur entry t_mode fs = Ok st fs' /\
    (String.eqb (classify_file_by_extension entry) (get_parent_folder_name cur) = false ->
     alias_of_category (get_parent_folder_name cur) (classify_file_by_extension entry)
     = false ->
     st <> organize_status.already_in_correct_location).
Proof.
  unfold handle_file.
  destruct (String.eqb _ _).
  { eexists; eexists. split; [reflexivity | intros H; discriminate H]. }
  destruct (alias_of_category _ _).
  { eexists; eexists. split; [reflexivity | intros _ H; discriminate H]. }
  unfold bind.
  match goal with
  | |- context [create_directory ?d fs] =>
      destruct (create_directory_result d fs) as (cr & fs1 & -> & _);
      set (dest := d)
  end.
  destruct t_mode.
  - destruct (atomic_file_transfer_returns entry dest fs1) as (st & fs' & ->).
    eexists; eexists. split; [reflexivity |].
    intros _ _. apply combine_atomic_not_skipped.
  - destruct (fallback_transfer_returns entry dest fs1) as (st & fs' & ->).
    eexists; eexists. split; [reflexivity |].
    intros _ _. apply combine_fallback_not_skipped.
Qed.


(* ================================================================== *)
(** ** Further properties of [normalize_category_folder] *)
(* ================================================================== *)

(** The updates of one rename inside a level. *)
Lemma rename_to_canonical_cases cur c n0 fs fs' :
  good_name n0 = true -> good_name c = true ->
  rename_to_canonical (c, path_append cur n0) fs = Ok tt fs' ->
  fs' = fs \/
  exists a es src,
    n0 <> c /\
    walk (resolve cur) fs = Some (Dir a es) /\ map_find n0 es = Some src /\
    match src, map_find c es with
    | Dir _ _, Some (File _ _) => False
    | Dir _ _, Some (Dir _ (_ :: _)) => False
    | File _ _, Some (Dir _ _) => False
    | _, _ => True
    end /\
    fs' = update_dir (resolve cur) (assoc_put c src)
            (update_dir (resolve cur) (assoc_del n0) fs).
Proof.
  intros Hn0 Hc E. unfold rename_to_canonical, try_catch, ret in E. simpl in E.
  rewrite (path_filename_append_good _ _ Hn0) in E.
  destruct (String.eqb_spec n0 c) as [->|Hne];
    [change (negb true) with false in E; cbv beta iota in E;
     injection E as <-; left; reflexivity |].
  change (negb false) with true in E. cbv beta iota in E.
  unfold fs_rename in E.
  rewrite (resolve_append_good _ _ Hn0), (resolve_append_good _ _ Hc) in E.
  rewrite resolve_parent_append in E by exact (proj1 (good_name_inv _ Hn0)).
  rewrite !split_last_snoc in E. cbv beta iota in E.
  destruct (walk (resolve cur) fs) as [[? ?|a es]|] eqn:Hd;
    try (injection E as <-; left; reflexivity).
  destruct (map_find n0 es) as [src|] eqn:Hsrc; [|injection E as <-; left; reflexivity].
  destruct (bool_decide _); [injection E as <-; left; reflexivity |].
  destruct (bool_decide _); [injection E as <-; left; reflexivity |].
  destruct (d_write a); [injection E as <-; left; reflexivity |].
  rewrite Nat.eqb_refl in E. change (negb true) with false in E. cbv beta iota in E.
  destruct (is_mount_point a src
            || match map_find c es with
               | Some tgt => is_mount_point a tgt
               | None => false
               end);
    [injection E as <-; left; reflexivity |].
  destruct src as [sr sx|sa ses]; destruct (map_find c es) as [[? ?|? [|? ?]]|] eqn:Hc';
    injection E as <-;
    first [ left; reflexivity
          | right; eexists a, es, _;
            split; [exact Hne |]; split; [reflexivity |]; split; [exact Hsrc |];
            rewrite Hc'; split; [exact I | reflexivity] ].
Qed.

Lemma rename_to_canonical_outside cur c n0 fs fs' q :
  good_name n0 = true -> good_name c = true ->
  rename_to_canonical (c, path_append cur n0) fs = Ok tt fs' ->
  ~ q `prefix_of` resolve cur -> ~ resolve cur `prefix_of` q ->
  walk q fs' = walk q fs.
Proof.
  intros Hn0 Hc E Hq1 Hq2.
  destruct (rename_to_canonical_cases _ _ _ _ _ Hn0 Hc E)
    as [-> | (a & es & src & _ & _ & _ & _ & ->)]; [reflexivity |].
  assert (Hk : forall k, ~ (resolve cur ++ [k]) `prefix_of` q).
  { intros k H. apply Hq2. etransitivity; [|exact H]. now exists [k]. }
  rewrite (frame_entry _ c); [|apply touches_only_put | exact Hq1 | apply Hk].
  apply (frame_entry _ n0); [apply touches_only_del | exact Hq1 | apply Hk].
Qed.

Lemma rename_to_canonical_source_gone cur c n0 fs fs' :
  good_name n0 = true -> good_name c = true ->
  rename_to_canonical (c, path_append cur n0) fs = Ok tt fs' ->
  fs' = fs \/ walk (resolve cur ++ [n0]) fs' = None.
Proof.
  intros Hn0 Hc E.
  destruct (rename_to_canonical_cases _ _ _ _ _ Hn0 Hc E)
    as [-> | (a & es & src & Hne & _ & _ & _ & ->)]; [left; reflexivity | right].
  rewrite (frame_entry _ c); [apply walk_del_entry | apply touches_only_put
                              | apply (not_prefix_below _ n0 [])
                              | apply not_prefix_sibling; congruence].
Qed.

(** A rename does not turn the entry [n'] into a regular file, unless [n']
    is the new name. *)
Lemma rename_to_canonical_keeps_nonfile cur c n0 n' fs fs' :
  good_name n0 = true -> good_name c = true -> n' <> c ->
  (forall r x, walk (resolve cur ++ [n']) fs <> Some (File r x)) ->
  rename_to_canonical (c, path_append cur n0) fs = Ok tt fs' ->
  forall r x, walk (resolve cur ++ [n']) fs' <> Some (File r x).
Proof.
  intros Hn0 Hc Hne Hnf E r x.
  destruct (String.string_dec n' n0) as [->|Hne0].
  - destruct (rename_to_canonical_source_gone _ _ _ _ _ Hn0 Hc E) as [-> | ->];
      [apply Hnf | discriminate].
  - rewrite (rename_to_canonical_frame cur c n0 n' [] fs fs' Hn0 Hc Hne0 Hne E).
    apply Hnf.
Qed.

(** A rename onto a regular file or a directory with entries, of something
    that is not a regular file, changes nothing. *)
Lemma rename_to_canonical_blocked cur c n0 fs fs' t :
  good_name n0 = true -> good_name c = true ->
  (forall r x, walk (resolve cur ++ [n0]) fs <> Some (File r x)) ->
  walk (resolve cur ++ [c]) fs = Some t -> (forall a, t <> Dir a []) ->
  rename_to_canonical (c, path_append cur n0) fs = Ok tt fs' ->
  fs' = fs.
Proof.
  intros Hn0 Hc Hnf Ht Hne E.
  destruct (rename_to_canonical_cases _ _ _ _ _ Hn0 Hc E)
    as [-> | (a & es & src & _ & Hd & Hsrc & Hm & ->)]; [reflexivity |].
  exfalso.
  destruct (walk_child_inv _ _ _ _ Ht) as (a' & es' & Hd' & Hc').
  rewrite Hd in Hd'. injection Hd' as <- <-. rewrite Hc' in Hm.
  destruct src as [sr sx|sa ses].
  - exact (Hnf sr sx (walk_child _ _ _ _ _ _ Hd Hsrc)).
  - destruct t as [? ?|ta [|? ?]]; [exact Hm | exact (Hne ta eq_refl) | exact Hm].
Qed.

Lemma for_each_rename_invariant (P : node -> Prop) m fs fs' :
  P fs ->
  (forall cv fs1 fs2, In cv m -> P fs1 -> rename_to_canonical cv fs1 = Ok tt fs2 -> P fs2) ->
  for_each rename_to_canonical m fs = Ok tt fs' -> P fs'.
Proof.
  revert fs. induction m as [|cv m IH]; intros fs H0 Hstep; simpl.
  - intros [= <-]. exact H0.
  - unfold bind. destruct (rename_to_canonical_returns cv fs) as (fs1 & E1 & _).
    rewrite E1. intros E.
    apply (IH fs1); [| |exact E].
    + exact (Hstep cv fs fs1 (or_introl eq_refl) H0 E1).
    + intros cv' fa fb Hin. exact (Hstep cv' fa fb (or_intror Hin)).
Qed.

Lemma length_assoc_del {V : Type} k (es : list (string * V)) v :
  map_find k es = Some v -> S (length (assoc_del k es)) <= length es.
Proof.
  unfold assoc_del. induction es as [|[k' v'] es IH]; simpl; [discriminate |].
  destruct (String.eqb k k'); simpl.
  - intros _. pose proof (List.filter_length_le
                            (fun e : string * V => negb (String.eqb k (fst e))) es).
    lia.
  - intros H. specialize (IH H). lia.
Qed.

Lemma length_assoc_put {V : Type} k (v : V) (es : list (string * V)) :
  length (assoc_put k v es) <= S (length es).
Proof.
  induction es as [|[k' v'] es IH]; simpl; [lia |].
  destruct (String.eqb k k'); simpl; lia.
Qed.

(** The first folders of the scan are directories of the level. *)
Lemma scan_firsts_are_directories fs cur names c v :
  (forall n, In n names -> good_name n = true) ->
  In (c, v) (fold_left (scan_entry fs cur) names []) ->
  exists n0, v = path_append cur n0 /\ good_name n0 = true /\ good_name c = true /\
             c ∈ CANONICAL_NAMES /\ (n0 ∉ CANONICAL_NAMES) /\
             alias_folder fs cur c n0 = true /\
             forall r x, walk (resolve cur ++ [n0]) fs <> Some (File r x).
Proof.
  intros Hgood Hin.
  destruct (scan_pairs_good _ _ _ _ _ Hgood Hin) as (n0 & -> & Hn0 & Hc & Hf & Hc1 & Hn1).
  pose proof (find_some _ _ Hf) as [_ Ha].
  destruct (alias_folder_inv _ _ _ _ Hn0 Ha) as (Hdir & _ & _).
  exists n0. split; [reflexivity |]. split; [exact Hn0 |]. split; [exact Hc |].
  split; [exact Hc1 |]. split; [exact Hn1 |]. split; [exact Ha |].
  intros r x Hw. unfold fs_is_directory, fs_status in Hdir.
  rewrite (resolve_append_good _ _ Hn0), Hw in Hdir. discriminate Hdir.
Qed.

(** X14: [normalize_category_folder] only renames folders of its level: a
    regular file of the level is the same afterwards, whatever its name;
    every path that is neither the level, nor above it, nor below it leads to
    what it led to; and the level keeps its attributes and does not get more
    entries than it had. *)
Theorem normalize_category_folder_frame
        (current_directory_level_path : string) (fs fs' : node) (names : list string) :
  fs_list current_directory_level_path fs = Ok names fs ->
  (forall n, In n names -> good_name n = true) ->
  normalize_category_folder current_directory_level_path fs = Ok tt fs' ->
  (forall n r x,
      good_name n = true ->
      fs_status (path_append current_directory_level_path n) fs = Some (File r x) ->
      fs_status (path_append current_directory_level_path n) fs' = Some (File r x)) /\
  (forall q,
      ~ q `prefix_of` resolve current_directory_level_path ->
      ~ resolve current_directory_level_path `prefix_of` q ->
      walk q fs' = walk q fs) /\
  (exists a es es',
      fs_status current_directory_level_path fs = Some (Dir a es) /\
      fs_status current_directory_level_path fs' = Some (Dir a es') /\
      length es' <= length es).
Proof.
  intros Hl Hgood E. set (cur := current_directory_level_path) in *.
  unfold normalize_category_folder, bind in E. rewrite Hl in E.
  set (m := fold_left (scan_entry fs cur) names []) in *.
  assert (Hm : forall c v, In (c, v) m ->
             exists n0, v = path_append cur n0 /\ good_name n0 = true /\
                        good_name c = true /\ c ∈ CANONICAL_NAMES /\
                        (n0 ∉ CANONICAL_NAMES) /\ alias_folder fs cur c n0 = true /\
                        forall r x, walk (resolve cur ++ [n0]) fs <> Some (File r x))
    by (intros c v; apply scan_firsts_are_directories; exact Hgood).
  set (Q := fun fs1 : node =>
              forall c v n0, In (c, v) m -> v = path_append cur n0 -> good_name n0 = true ->
                             forall r x, walk (resolve cur ++ [n0]) fs1 <> Some (File r x)).
  assert (HQ0 : Q fs).
  { intros c v n0 Hin Ev Hn0. destruct (Hm c v Hin) as (n1 & Ev1 & Hn1 & _ & _ & _ & _ & H).
    assert (n0 = n1) as ->; [|exact H].
    rewrite <- (path_filename_append_good cur n0 Hn0), <- Ev, Ev1.
    apply path_filename_append_good, Hn1. }
  assert (HQstep : forall cv fs1 fs2, In cv m -> Q fs1 ->
                     rename_to_canonical cv fs1 = Ok tt fs2 -> Q fs2).
  { intros [c v] fs1 fs2 Hin HQ1 E1 c' v' n' Hin' Ev' Hn' r x.
    destruct (Hm c v Hin) as (n0 & -> & Hn0 & Hc & Hc1 & _).
    destruct (Hm c' v' Hin') as (n1 & Ev1 & Hn1 & _ & _ & Hnc1 & _).
    assert (n' = n1) as ->.
    { rewrite <- (path_filename_append_good cur n' Hn'), <- Ev', Ev1.
      apply path_filename_append_good, Hn1. }
    refine (rename_to_canonical_keeps_nonfile cur c n0 n1 fs1 fs2 Hn0 Hc _ _ E1 r x).
    - intros ->. exact (Hnc1 Hc1).
    - exact (HQ1 c' v' n1 Hin' Ev' Hn'). }
  split; [|split].
  - intros n r x Hn Hs. unfold fs_status in *.
    rewrite (resolve_append_good cur n Hn) in *.
    refine (proj1 (for_each_rename_invariant
                     (fun fs1 => walk (resolve cur ++ [n]) fs1 = Some (File r x) /\ Q fs1)
                     m fs fs' (conj Hs HQ0) _ E)).
    intros [c v] fs1 fs2 Hin [Hf HQ1] E1.
    split; [|exact (HQstep _ _ _ Hin HQ1 E1)].
    destruct (Hm c v Hin) as (n0 & -> & Hn0 & Hc & _).
    pose proof (HQ1 c _ n0 Hin eq_refl Hn0) as Hnf.
    destruct (String.string_dec n c) as [->|Hnc].
    + rewrite (rename_to_canonical_blocked cur c n0 fs1 fs2 (File r x) Hn0 Hc Hnf Hf
                 (fun a => ltac:(discriminate)) E1).
      exact Hf.
    + assert (Hn0' : n <> n0) by (intros ->; exact (Hnf r x Hf)).
      rewrite (rename_to_canonical_frame cur c n0 n [] fs1 fs2 Hn0 Hc Hn0' Hnc E1).
      exact Hf.
  - intros q Hq1 Hq2.
    refine (for_each_rename_invariant (fun fs1 => walk q fs1 = walk q fs)
              m fs fs' eq_refl _ E).
    intros [c v] fs1 fs2 Hin H1 E1.
    destruct (Hm c v Hin) as (n0 & -> & Hn0 & Hc & _).
    rewrite (rename_to_canonical_outside cur c n0 fs1 fs2 q Hn0 Hc E1 Hq1 Hq2).
    exact H1.
  - unfold fs_list in Hl. unfold fs_status.
    destruct (fs_status cur fs) as [[? ?|a es]|] eqn:Hd; try discriminate Hl.
    unfold fs_status in Hd. exists a, es.
    assert (Hinv : exists es1, walk (resolve cur) fs' = Some (Dir a es1) /\
                               length es1 <= length es).
    2:{ destruct Hinv as (es1 & H1 & H2). exists es1.
        split; [exact Hd |]. split; [exact H1 | exact H2]. }
    refine (for_each_rename_invariant
              (fun fs1 => exists es1, walk (resolve cur) fs1 = Some (Dir a es1) /\
                                      length es1 <= length es)
              m fs fs' _ _ E).
    + exists es. split; [exact Hd | lia].
    + intros [c v] fs1 fs2 Hin (es1 & Hd1 & Hlen) E1.
      destruct (Hm c v Hin) as (n0 & -> & Hn0 & Hc & _).
      destruct (rename_to_canonical_cases _ _ _ _ _ Hn0 Hc E1)
        as [-> | (a1 & es1' & src & _ & Hd1' & Hsrc & _ & ->)].
      * exists es1. split; [exact Hd1 | exact Hlen].
      * rewrite Hd1 in Hd1'. injection Hd1' as <- <-.
        exists (assoc_put c src (assoc_del n0 es1)). split.
        -- pose proof (walk_update_below (resolve cur) [] (assoc_del n0) fs1) as H1.
           rewrite app_nil_r, Hd1 in H1. simpl in H1.
           pose proof (walk_update_below (resolve cur) [] (assoc_put c src)
                         (update_dir (resolve cur) (assoc_del n0) fs1)) as H2.
           rewrite app_nil_r, H1 in H2. simpl in H2. exact H2.
        -- pose proof (length_assoc_del n0 es1 src Hsrc).
           pose proof (length_assoc_put c src (assoc_del n0 es1)). lia.
Qed.

Lemma normalize_category_folder_frame_witness :
  (forall n r x,
      good_name n = true ->
      fs_status (path_append "root" n) fs_two_aliases = Some (File r x) ->
      fs_status (path_append "root" n)
        (final_fs (normalize_category_folder "root") fs_two_aliases)
      = Some (File r x)) /\
  (forall q,
      ~ q `prefix_of` resolve "root" -> ~ resolve "root" `prefix_of` q ->
      walk q (final_fs (normalize_category_folder "root") fs_two_aliases)
      = walk q fs_two_aliases) /\
  (exists a es es',
      fs_status "root" fs_two_aliases = Some (Dir a es) /\
      fs_status "root" (final_fs (normalize_category_folder "root") fs_two_aliases)
      = Some (Dir a es') /\
      length es' <= length es).
Proof.
  apply (normalize_category_folder_frame "root" fs_two_aliases _ ["pics"; "photos"]).
  - reflexivity.
  - intros n [<- | [<- | []]]; reflexivity.
  - vm_compute. reflexivity.
Defined.

(** X15: folders are never merged.  When the level already has an entry
    with the canonical name of a category, and that entry is a directory
    with entries (or a regular file), the folder that the scan takes for the
    first alias of the category keeps its name: after
    [normalize_category_folder] both paths lead to what they led to. *)
Theorem normalize_category_folder_never_merges
        (current_directory_level_path : string) (fs : node) (names : list string)
        (c first : string) (t : node) :
  fs_list current_directory_level_path fs = Ok names fs ->
  (forall n, In n names -> good_name n = true) ->
  List.find (alias_folder fs current_directory_level_path c) names = Some first ->
  fs_status (path_append current_directory_level_path c) fs = Some t ->
  (forall a, t <> Dir a []) ->
  exists fs',
    normalize_category_folder current_directory_level_path fs = Ok tt fs' /\
    fs_status (path_append current_directory_level_path c) fs' = Some t /\
    fs_status (path_append current_directory_level_path first) fs'
    = fs_status (path_append current_directory_level_path first) fs.
Proof.
  intros Hl Hgood Hf Ht Hne. set (cur := current_directory_level_path) in *.
  destruct (normalize_returns_when_listed cur fs names Hl) as (fs' & E).
  exists fs'. split; [exact E |].
  unfold normalize_category_folder, bind in E. rewrite Hl in E.
  set (m := fold_left (scan_entry fs cur) names []) in *.
  assert (Hm : forall c v, In (c, v) m ->
             exists n0, v = path_append cur n0 /\ good_name n0 = true /\
                        good_name c = true /\ c ∈ CANONICAL_NAMES /\
                        (n0 ∉ CANONICAL_NAMES) /\ alias_folder fs cur c n0 = true /\
                        forall r x, walk (resolve cur ++ [n0]) fs <> Some (File r x))
    by (intros c0 v; apply scan_firsts_are_directories; exact Hgood).
  pose proof (find_some _ _ Hf) as [Hin0 Ha0].
  pose proof (Hgood _ Hin0) as Hfirst.
  destruct (alias_folder_inv _ _ _ _ Hfirst Ha0) as (_ & Hfnc & Hal).
  destruct (alias_lookup_range _ _ Hal) as (Hcc & Hcg & _).
  unfold fs_status in *.
  rewrite (resolve_append_good cur c Hcg) in *.
  rewrite (resolve_append_good cur first Hfirst).
  set (Q := fun fs1 : node =>
              forall c v n0, In (c, v) m -> v = path_append cur n0 -> good_name n0 = true ->
                             forall r x, walk (resolve cur ++ [n0]) fs1 <> Some (File r x)).
  assert (HQ0 : Q fs).
  { intros c0 v n0 Hin Ev Hn0. destruct (Hm c0 v Hin) as (n1 & Ev1 & Hn1 & _ & _ & _ & _ & H).
    assert (n0 = n1) as ->; [|exact H].
    rewrite <- (path_filename_append_good cur n0 Hn0), <- Ev, Ev1.
    apply path_filename_append_good, Hn1. }
  assert (HQstep : forall cv fs1 fs2, In cv m -> Q fs1 ->
                     rename_to_canonical cv fs1 = Ok tt fs2 -> Q fs2).
  { intros [c0 v] fs1 fs2 Hin HQ1 E1 c' v' n' Hin' Ev' Hn' r x.
    destruct (Hm c0 v Hin) as (n0 & -> & Hn0 & Hc & Hc1 & _).
    destruct (Hm c' v' Hin') as (n1 & Ev1 & Hn1 & _ & _ & Hnc1 & _).
    assert (n' = n1) as ->.
    { rewrite <- (path_filename_append_good cur n' Hn'), <- Ev', Ev1.
      apply path_filename_append_good, Hn1. }
    refine (rename_to_canonical_keeps_nonfile cur c0 n0 n1 fs1 fs2 Hn0 Hc _ _ E1 r x).
    - intros ->. exact (Hnc1 Hc1).
    - exact (HQ1 c' v' n1 Hin' Ev' Hn'). }
  assert (Hinv : (walk (resolve cur ++ [c]) fs' = Some t /\
                  walk (resolve cur ++ [first]) fs' = walk (resolve cur ++ [first]) fs) /\
                 Q fs').
  { refine (for_each_rename_invariant
              (fun fs1 => (walk (resolve cur ++ [c]) fs1 = Some t /\
                           walk (resolve cur ++ [first]) fs1
                           = walk (resolve cur ++ [first]) fs) /\ Q fs1)
              m fs fs' (conj (conj Ht eq_refl) HQ0) _ E).
    intros [c0 v] fs1 fs2 Hin [[H1 H2] HQ1] E1.
    split; [|exact (HQstep _ _ _ Hin HQ1 E1)].
    destruct (Hm c0 v Hin) as (n0 & -> & Hn0 & Hc & Hc1 & Hn1 & Ha & _).
    pose proof (HQ1 c0 _ n0 Hin eq_refl Hn0) as Hnf.
    destruct (String.string_dec c0 c) as [->|Hcne].
    - rewrite (rename_to_canonical_blocked cur c n0 fs1 fs2 t Hn0 Hc Hnf H1 Hne E1).
      split; [exact H1 | exact H2].
    - assert (A1 : c <> n0) by (intros ->; exact (Hn1 Hcc)).
      assert (A2 : c <> c0) by (intros ->; exact (Hcne eq_refl)).
      assert (A3 : first <> n0).
      { intros ->. exact (Hcne (alias_folder_category _ _ _ _ _ Ha Ha0)). }
      assert (A4 : first <> c0) by (intros ->; exact (Hfnc Hc1)).
      rewrite (rename_to_canonical_frame cur c0 n0 c [] fs1 fs2 Hn0 Hc A1 A2 E1).
      rewrite (rename_to_canonical_frame cur c0 n0 first [] fs1 fs2 Hn0 Hc A3 A4 E1).
      split; [exact H1 | exact H2]. }
  exact (proj1 Hinv).
Qed.

Lemma normalize_category_folder_never_merges_witness :
  exists fs',
    normalize_category_folder "root" fs_alias_beside_canonical = Ok tt fs' /\
    fs_status (path_append "root" "Image Files") fs'
    = Some (Dir plain [("old.png", File None "o")]) /\
    fs_status (path_append "root" "pics") fs'
    = fs_status (path_append "root" "pics") fs_alias_beside_canonical.
Proof.
  apply (normalize_category_folder_never_merges
           "root" fs_alias_beside_canonical ["pics"; "Image Files"] "Image Files" "pics").
  - reflexivity.
  - intros n [<- | [<- | []]]; reflexivity.
  - vm_compute. reflexivity.
  - reflexivity.
  - intros a. discriminate.
Defined.

(* ================================================================== *)
(** ** [organize_directory] on a folder of regular files *)
(* ================================================================== *)

Lemma create_directory_fresh p d n a es fs :
  resolve p = d ++ [n] -> walk d fs = Some (Dir a es) -> map_find n es = None ->
  d_write a = None ->
  create_directory p fs
  = Ok create_directory_status.successful_creation
       (update_dir d (assoc_put n (Dir {| d_open := None; d_write := None;
                                          d_dev := d_dev a |} [])) fs).
Proof.
  intros Ep Hd Hn Hw.
  destruct (create_directory_cases p fs)
    as [[He _] | [(_ & st & E & H) | (_ & d' & n' & a' & es' & Ep' & Hd' & _ & E)]].
  - unfold fs_exists, fs_status in He.
    rewrite Ep, (walk_child _ _ _ _ _ _ Hd Hn) in He. discriminate He.
  - exfalso. unfold create_directory in E.
    assert (He : fs_exists p fs = false)
      by (unfold fs_exists, fs_status; now rewrite Ep, (walk_child _ _ _ _ _ _ Hd Hn)).
    rewrite He in E. change (negb false) with true in E. cbv beta iota in E.
    unfold try_catch, bind, fs_create_directory in E.
    rewrite Ep, split_last_snoc, Hd, Hn, Hw in E.
    injection E as E _. subst st. destruct H as [H | H]; discriminate H.
  - rewrite Ep in Ep'. apply app_inj_tail in Ep' as [<- <-].
    rewrite Hd in Hd'. injection Hd' as <- <-. exact E.
Qed.

Lemma get_unique_path_free destination_dir filename fs :
  fs_exists (path_append destination_dir filename) fs = false ->
  get_unique_path destination_dir filename fs
  = Ok (path_append destination_dir filename) fs.
Proof. intros H. unfold get_unique_path. rewrite H. reflexivity. Qed.

(** Both transfers of a regular file between writable directories of one
    volume, to a name that is free. *)
Lemma transfer_moves t_mode cur fname dest fs oa oes na nes r x :
  good_name fname = true ->
  walk (resolve cur) fs = Some (Dir oa oes) -> map_find fname oes = Some (File r x) ->
  walk (resolve dest) fs = Some (Dir na nes) -> map_find fname nes = None ->
  d_write oa = None -> d_write na = None -> d_dev oa = d_dev na ->
  (t_mode = transfer_mode.fallback_transfer_mode -> r = None) ->
  exists fs',
    match t_mode with
    | transfer_mode.atomic_transfer_mode =>
        atomic_file_transfer (path_append cur fname) dest fs
    | transfer_mode.fallback_transfer_mode =>
        fallback_transfer (path_append cur fname) dest fs
    end = Ok file_move_status.successful_transfer fs' /\
    (fs' = update_dir (resolve dest) (assoc_put fname (File r x))
             (update_dir (resolve cur) (assoc_del fname) fs) \/
     fs' = update_dir (resolve cur) (assoc_del fname)
             (update_dir (resolve dest) (assoc_put fname (File r x)) fs)).
Proof.
  intros Hg Hod Hon Hnd Hnn Hwo Hwn Hdev Hr.
  pose proof (resolve_append_good cur fname Hg) as Es.
  pose proof (path_filename_append_good cur fname Hg) as Hname.
  pose proof (resolve_append_good dest fname Hg) as Ep.
  assert (Hfree : fs_exists (path_append dest fname) fs = false).
  { unfold fs_exists, fs_status. now rewrite Ep, (walk_child _ _ _ _ _ _ Hnd Hnn). }
  pose proof (get_unique_path_free dest fname fs Hfree) as Eg.
  destruct t_mode.
  - eexists. split; [|left; reflexivity].
    unfold atomic_file_transfer, try_catch, bind. rewrite Hname, Eg.
    unfold fs_rename. rewrite Es, Ep, !split_last_snoc, Hod, Hnd, Hon.
    rewrite bool_decide_eq_false_2.
    2:{ intros E. unfold fs_exists, fs_status in Hfree.
        rewrite Ep, <- E, (walk_child _ _ _ _ _ _ Hod Hon) in Hfree. discriminate Hfree. }
    rewrite bool_decide_eq_false_2
      by exact (src_not_above_new fs _ _ _ _ _ _ _ _ _ _ Hod Hon Hnd Hnn).
    rewrite Hwo, Hwn, Hdev, Nat.eqb_refl, Hnn. reflexivity.
  - rewrite (Hr eq_refl) in *.
    destruct (fallback_steps _ _ fs _ _ _ _ _ _ _ _ x Es Ep Hod Hon Hnd Hnn Hwn)
      as (Ecopy & Eremove & _ & _).
    rewrite Hwo in Eremove.
    eexists. split; [|right; reflexivity].
    unfold fallback_transfer, try_catch, bind. rewrite Hname, Eg, Ecopy, Eremove.
    reflexivity.
Qed.

(** The entries of a level after an update of the level or of one of its
    folders. *)
Lemma level_after_update R f fs a es :
  walk R fs = Some (Dir a es) -> walk R (update_dir R f fs) = Some (Dir a (f es)).
Proof.
  intros Hd. pose proof (walk_update_below R [] f fs) as H.
  rewrite app_nil_r, Hd in H. exact H.
Qed.

Lemma level_after_update_below R c f fs a es :
  walk R fs = Some (Dir a es) ->
  walk R (update_dir (R ++ [c]) f fs)
  = Some (Dir a (assoc_update c (update_dir [] f) es)).
Proof.
  intros Hd. rewrite walk_update_above, Hd. reflexivity.
Qed.

Lemma classify_category_name p : category_name (classify_file_by_extension p).
Proof. exact (classify_range p). Qed.

(** One file of the level that is not in place: [handle_file] succeeds, and
    what it does to the entries of the level. *)
Lemma handle_file_flat_step root n t_mode fs a es_cur r x :
  good_name n = true ->
  walk (resolve root) fs = Some (Dir a es_cur) -> d_write a = None ->
  map_find n es_cur = Some (File r x) ->
  get_parent_folder_name root ∉ CANONICAL_NAMES ->
  ALIAS_LOOKUP !! get_parent_folder_name root = None ->
  String.eqb (classify_file_by_extension n) (get_parent_folder_name root) = false ->
  n <> classify_file_by_extension n ->
  (t_mode = transfer_mode.fallback_transfer_mode -> r = None) ->
  (map_find (classify_file_by_extension n) es_cur = None \/
   exists a' ces,
     map_find (classify_file_by_extension n) es_cur = Some (Dir a' ces) /\
     d_write a' = None /\ d_dev a' = d_dev a /\ map_find n ces = None) ->
  exists fs2 es2 a' ces,
    handle_file root (path_append root n) t_mode fs = Ok organize_status.success fs2 /\
    walk (resolve root) fs2 = Some (Dir a es2) /\
    map_find n es2 = None /\
    map_find (classify_file_by_extension n) es2
    = Some (Dir a' (assoc_put n (File r x) ces)) /\
    d_write a' = None /\ d_dev a' = d_dev a /\
    ((map_find (classify_file_by_extension n) es_cur = None /\ ces = []) \/
     map_find (classify_file_by_extension n) es_cur = Some (Dir a' ces)) /\
    forall k, k <> n -> k <> classify_file_by_extension n ->
              map_find k es2 = map_find k es_cur.
Proof.
  intros Hg Hd Hw Hn Hnc Hna Hne Hncat Hr Hcat.
  set (cat := classify_file_by_extension n) in *.
  set (R := resolve root) in *.
  assert (Hbase : base_location root cat = root).
  { unfold base_location, alias_of_other_category.
    rewrite (bool_decide_eq_false_2 _ Hnc), Hna. reflexivity. }
  set (dest := path_append root cat).
  assert (Edest : resolve dest = R ++ [cat])
    by exact (resolve_append_good root cat (classify_good n)).
  assert (Hcatn : cat <> n) by (intros E; exact (Hncat (eq_sym E))).
  (* the category folder *)
  assert (Stage1 : exists cr fs1 es1 a' ces,
             create_directory dest fs = Ok cr fs1 /\
             (cr = create_directory_status.successful_creation \/
              cr = create_directory_status.already_exists) /\
             walk R fs1 = Some (Dir a es1) /\
             map_find cat es1 = Some (Dir a' ces) /\
             d_write a' = None /\ d_dev a' = d_dev a /\ map_find n ces = None /\
             ((map_find cat es_cur = None /\ ces = []) \/
              map_find cat es_cur = Some (Dir a' ces)) /\
             forall k, k <> cat -> map_find k es1 = map_find k es_cur).
  { destruct Hcat as [Hnone | (a' & ces & Hsome & Hw' & Hdev' & Hfree)].
    - eexists; eexists; eexists; eexists; exists [].
      split; [exact (create_directory_fresh dest R cat a es_cur fs Edest Hd Hnone Hw) |].
      split; [left; reflexivity |].
      split; [exact (level_after_update R _ fs a es_cur Hd) |].
      split; [apply map_find_put_same |].
      split; [reflexivity |]. split; [reflexivity |]. split; [reflexivity |].
      split; [left; split; [exact Hnone | reflexivity] |].
      intros k Hk. apply map_find_put_other. intros E. exact (Hk (eq_sym E)).
    - exists create_directory_status.already_exists, fs, es_cur, a', ces.
      split.
      { unfold create_directory.
        assert (He : fs_exists dest fs = true).
        { unfold fs_exists, fs_status.
          now rewrite Edest, (walk_child _ _ _ _ _ _ Hd Hsome). }
        rewrite He. reflexivity. }
      split; [right; reflexivity |].
      split; [exact Hd |]. split; [exact Hsome |].
      split; [exact Hw' |]. split; [exact Hdev' |]. split; [exact Hfree |].
      split; [right; exact Hsome |]. intros k _. reflexivity. }
  destruct Stage1 as (cr & fs1 & es1 & a' & ces & Ec & Hcr & Hd1 & Hcat1 & Hw' & Hdev'
                      & Hfree & Hwas & Hsame1).
  (* the transfer *)
  assert (Hn1 : map_find n es1 = Some (File r x)).
  { rewrite (Hsame1 n (fun E => Hcatn (eq_sym E))). exact Hn. }
  assert (Hdest1 : walk (resolve dest) fs1 = Some (Dir a' ces)).
  { rewrite Edest. exact (walk_child _ _ _ _ _ _ Hd1 Hcat1). }
  destruct (transfer_moves t_mode root n dest fs1 a es1 a' ces r x
              Hg Hd1 Hn1 Hdest1 Hfree Hw Hw' (eq_sym Hdev') Hr)
    as (fs2 & Et & Hfs2).
  set (g := assoc_put n (File r x)) in *.
  assert (Hlevel : exists es2,
             walk R fs2 = Some (Dir a es2) /\
             forall k, map_find k es2 =
                       if String.eqb k n then None
                       else if String.eqb cat k
                            then option_map (update_dir [] g) (map_find k es1)
                            else map_find k es1).
  { destruct Hfs2 as [-> | ->]; rewrite Edest.
    - eexists. split.
      + apply level_after_update_below. apply level_after_update. exact Hd1.
      + intros k. rewrite map_find_update.
        destruct (String.eqb_spec k n) as [->|Hk].
        * apply String.eqb_neq in Hcatn. rewrite Hcatn. apply map_find_del_same.
        * rewrite (map_find_del_other n k es1 (fun E => Hk (eq_sym E))). reflexivity.
    - eexists. split.
      + apply level_after_update. apply level_after_update_below. exact Hd1.
      + intros k. destruct (String.eqb_spec k n) as [->|Hk].
        * apply map_find_del_same.
        * rewrite (map_find_del_other n k _ (fun E => Hk (eq_sym E))).
          apply map_find_update. }
  destruct Hlevel as (es2 & Hd2 & Hes2).
  exists fs2, es2, a', ces.
  split.
  { unfold handle_file, get_parent_folder_name in *.
    rewrite (classify_append root n Hg). fold cat. rewrite Hne.
    unfold alias_of_category. rewrite Hna, Hbase. fold dest.
    unfold bind. rewrite Ec.
    destruct t_mode; rewrite Et; destruct Hcr as [-> | ->]; reflexivity. }
  split; [exact Hd2 |].
  split; [rewrite Hes2, String.eqb_refl; reflexivity |].
  split.
  { rewrite Hes2. apply String.eqb_neq in Hcatn. rewrite Hcatn, String.eqb_refl, Hcat1.
    reflexivity. }
  split; [exact Hw' |]. split; [exact Hdev' |]. split; [exact Hwas |].
  intros k Hk1 Hk2. rewrite Hes2.
  apply String.eqb_neq in Hk1. rewrite Hk1.
  assert (Hk3 : String.eqb cat k = false)
    by (apply String.eqb_neq; intros E; exact (Hk2 (eq_sym E))).
  rewrite Hk3. apply Hsame1. exact Hk2.
Qed.

(** The loop over the entries, one entry at a time. *)
Lemma for_entries_file cur t_mode name rest st fs s fs1 :
  fs_is_regular_file (path_append cur name) fs = true ->
  handle_file cur (path_append cur name) t_mode fs = Ok s fs1 ->
  s = organize_status.already_in_correct_location \/ s = organize_status.success ->
  for_entries cur t_mode (name :: rest) st fs
  = for_entries cur t_mode rest
      {| directories := directories st; handled := handled st ++ [s] |} fs1.
Proof.
  intros Hf E Hs. cbn [for_entries]. rewrite Hf. unfold bind. rewrite E.
  destruct Hs as [-> | ->]; reflexivity.
Qed.

Lemma for_entries_file_fails cur t_mode name rest st fs s fs1 :
  fs_is_regular_file (path_append cur name) fs = true ->
  handle_file cur (path_append cur name) t_mode fs = Ok s fs1 ->
  s <> organize_status.already_in_correct_location -> s <> organize_status.success ->
  for_entries cur t_mode (name :: rest) st fs
  = Ok (Some s, {| directories := directories st; handled := handled st ++ [s] |}) fs1.
Proof.
  intros Hf E H1 H2. cbn [for_entries]. rewrite Hf. unfold bind. rewrite E.
  destruct s; try reflexivity; [exact (False_ind _ (H2 eq_refl))
                               | exact (False_ind _ (H1 eq_refl))].
Qed.

Lemma for_entries_directory cur t_mode name rest st fs :
  fs_is_regular_file (path_append cur name) fs = false ->
  fs_is_directory (path_append cur name) fs = true ->
  for_entries cur t_mode (name :: rest) st fs
  = for_entries cur t_mode rest
      (if visible (path_filename (path_append cur name))
       then {| directories := path_append cur name :: directories st;
               handled := handled st |}
       else st) fs.
Proof.
  intros Hf Hd. cbn [for_entries]. rewrite Hf, Hd. unfold visible.
  destruct (negb _ && negb _); reflexivity.
Qed.

Lemma for_entries_other cur t_mode name rest st fs :
  fs_is_regular_file (path_append cur name) fs = false ->
  fs_is_directory (path_append cur name) fs = false ->
  for_entries cur t_mode (name :: rest) st fs = for_entries cur t_mode rest st fs.
Proof. intros Hf Hd. cbn [for_entries]. rewrite Hf, Hd. reflexivity. Qed.

Lemma sorting_start folder a es names :
  (forall n, In n (List.map fst es) -> ~ category_name n) ->
  sorting folder a es [] names es.
Proof.
  intros Hnames. split; [|split].
  - reflexivity.
  - intros n r x [].
  - intros c Hc. left.
    destruct (map_find c es) as [v|] eqn:E; [|reflexivity].
    exact (False_ind _ (Hnames c (map_find_some_in _ _ _ E) Hc)).
Qed.

(** The loop over a level of regular files: every file is handled, with
    [success] or [already_in_correct_location], and no directory is pushed. *)
Lemma for_entries_flat root t_mode a es :
  d_write a = None ->
  get_parent_folder_name root ∉ CANONICAL_NAMES ->
  ALIAS_LOOKUP !! get_parent_folder_name root = None ->
  List.NoDup (List.map fst es) ->
  (forall n v, In (n, v) es ->
     good_name n = true /\ ~ category_name n /\
     exists r x, v = File r x /\
                 (t_mode = transfer_mode.fallback_transfer_mode -> r = None)) ->
  forall todo done fs st es_cur,
    List.NoDup (done ++ todo) ->
    (forall n, In n todo -> In n (List.map fst es)) ->
    walk (resolve root) fs = Some (Dir a es_cur) ->
    sorting (get_parent_folder_name root) a es done todo es_cur ->
    exists fs' es' log,
      for_entries root t_mode todo st fs
      = Ok (None, {| directories := directories st; handled := handled st ++ log |}) fs' /\
      walk (resolve root) fs' = Some (Dir a es') /\
      sorting (get_parent_folder_name root) a es (done ++ todo) [] es' /\
      length log = length todo.
Proof.
  intros Hw Hnc Hna Hnd Hes.
  set (N := get_parent_folder_name root) in *.
  induction todo as [|n todo IH]; intros done fs st es_cur Hnodup Hin Hd Hs.
  { exists fs, es_cur, []. rewrite !app_nil_r. destruct st as [ds hs].
    split; [reflexivity |]. split; [exact Hd |]. split; [exact Hs | reflexivity]. }
  destruct Hs as (S2 & S3 & S4).
  (* the entry *)
  assert (Hn_in : In n (List.map fst es)) by (apply Hin; left; reflexivity).
  apply in_map_iff in Hn_in as ([n0 v] & En & Hnv). simpl in En. subst n0.
  destruct (Hes n v Hnv) as (Hg & Hncat & r & x & -> & Hr).
  pose proof (map_find_in n (File r x) es Hnd Hnv) as Hn_es.
  assert (Hn_cur : map_find n es_cur = Some (File r x))
    by (rewrite (S2 n (or_introl eq_refl)); exact Hn_es).
  assert (Hreg : fs_is_regular_file (path_append root n) fs = true).
  { unfold fs_is_regular_file, fs_status.
    now rewrite (resolve_append_good root n Hg), (walk_child _ _ _ _ _ _ Hd Hn_cur). }
  assert (Hfresh : ~ In n done /\ ~ In n todo /\ List.NoDup ((done ++ [n]) ++ todo)).
  { rewrite <- app_assoc. simpl. split; [|split; [|exact Hnodup]].
    - intros H. apply List.NoDup_remove_2 in Hnodup. apply Hnodup.
      apply in_or_app. left. exact H.
    - intros H. apply List.NoDup_remove_2 in Hnodup. apply Hnodup.
      apply in_or_app. right. exact H. }
  destruct Hfresh as (Hnot_done & Hnot_todo & Hnodup').
  assert (Hin' : forall k, In k todo -> In k (List.map fst es))
    by (intros k Hk; apply Hin; right; exact Hk).
  assert (Hname_cat : forall k, In k (n :: todo) \/ In k done ->
                                In k (List.map fst es) -> ~ category_name k).
  { intros k _ Hk. apply in_map_iff in Hk as ([k0 v0] & Ek & Hkv). simpl in Ek. subst k0.
    exact (proj1 (proj2 (Hes k v0 Hkv))). }
  set (cat := classify_file_by_extension n) in *.
  pose proof (classify_category_name n) as Hcat_name. fold cat in Hcat_name.
  assert (Hncat' : n <> cat) by (intros E; apply Hncat; rewrite E; exact Hcat_name).
  destruct (String.eqb cat N) eqn:Hplaced.
  - (* the file is in place *)
    pose proof (handle_file_placed root n t_mode fs Hg) as Eh.
    unfold placed in Eh. fold cat in Eh. fold N in Eh.
    unfold get_parent_folder_name in N. fold N in Eh.
    rewrite Hplaced in Eh. specialize (Eh eq_refl).
    rewrite (for_entries_file root t_mode n todo st fs _ fs Hreg Eh (or_introl eq_refl)).
    destruct (IH (done ++ [n]) fs
                 {| directories := directories st;
                    handled := handled st ++
                               [organize_status.already_in_correct_location] |}
                 es_cur Hnodup' Hin' Hd)
      as (fs' & es' & log & E & Hd' & Hs' & Hlen).
    { split; [|split].
      - intros k Hk. apply S2. right. exact Hk.
      - intros k rk xk Hk Hk_es. apply in_app_or in Hk as [Hk | [<- | []]].
        + exact (S3 k rk xk Hk Hk_es).
        + fold cat. rewrite Hplaced. rewrite Hn_es in Hk_es. injection Hk_es as <- <-.
          exact Hn_cur.
      - intros c Hc. destruct (S4 c Hc) as [H | (a' & ces & H1 & H2 & H3 & H4)];
          [left; exact H | right].
        exists a', ces. split; [exact H1 |]. split; [exact H2 |]. split; [exact H3 |].
        intros k Hk. apply in_or_app. left. exact (H4 k Hk). }
    exists fs', es', (organize_status.already_in_correct_location :: log).
    split; [|split; [exact Hd' |split]].
    + rewrite E. simpl. rewrite <- app_assoc. reflexivity.
    + rewrite <- app_assoc in Hs'. exact Hs'.
    + simpl. rewrite Hlen. reflexivity.
  - (* the file is moved *)
    assert (Hcat_cur :
              map_find cat es_cur = None \/
              exists a' ces,
                map_find cat es_cur = Some (Dir a' ces) /\
                d_write a' = None /\ d_dev a' = d_dev a /\ map_find n ces = None).
    { destruct (S4 cat Hcat_name) as [H | (a' & ces & H1 & H2 & H3 & H4)];
        [left; exact H | right].
      exists a', ces. split; [exact H1 |]. split; [exact H2 |]. split; [exact H3 |].
      destruct (map_find n ces) as [v|] eqn:E; [|reflexivity].
      exfalso. apply Hnot_done. apply H4. rewrite E. discriminate. }
    destruct (handle_file_flat_step root n t_mode fs a es_cur r x
                Hg Hd Hw Hn_cur Hnc Hna Hplaced Hncat' Hr Hcat_cur)
      as (fs2 & es2 & a' & ces & Eh & Hd2 & Hgone & Hcat2 & Hw' & Hdev' & Hwas & Hsame).
    fold cat in Hcat2, Hwas, Hsame.
    rewrite (for_entries_file root t_mode n todo st fs _ fs2 Hreg Eh (or_intror eq_refl)).
    destruct (IH (done ++ [n]) fs2
                 {| directories := directories st;
                    handled := handled st ++ [organize_status.success] |}
                 es2 Hnodup' Hin' Hd2)
      as (fs' & es' & log & E & Hd' & Hs' & Hlen).
    { split; [|split].
      - intros k Hk. rewrite Hsame.
        + apply S2. right. exact Hk.
        + intros ->. exact (Hnot_todo Hk).
        + intros ->. exact (Hname_cat cat (or_introl (or_intror Hk)) (Hin' _ Hk) Hcat_name).
      - intros k rk xk Hk Hk_es. apply in_app_or in Hk as [Hk | [<- | []]].
        + assert (Hkn : k <> n) by (intros ->; exact (Hnot_done Hk)).
          assert (Hkc : k <> cat).
          { intros ->. exact (Hname_cat cat (or_intror Hk)
                                (map_find_some_in _ _ _ Hk_es) Hcat_name). }
          specialize (S3 k rk xk Hk Hk_es).
          destruct (String.eqb (classify_file_by_extension k) N).
          * rewrite (Hsame k Hkn Hkc). exact S3.
          * destruct S3 as (Hnone & a'' & ces'' & Hc'' & Hk'').
            split; [rewrite (Hsame k Hkn Hkc); exact Hnone |].
            destruct (String.string_dec (classify_file_by_extension k) cat) as [Ec|Ec].
            -- rewrite Ec in *. destruct Hwas as [[Hwas _] | Hwas];
                 rewrite Hwas in Hc''; [discriminate Hc'' |].
               injection Hc'' as <- <-.
               exists a', (assoc_put n (File r x) ces). split; [exact Hcat2 |].
               rewrite (map_find_put_other n k _ ces (fun E => Hkn (eq_sym E))).
               exact Hk''.
            -- exists a'', ces''. split; [|exact Hk''].
               rewrite Hsame; [exact Hc'' | | exact Ec].
               intros E. apply Hncat. rewrite <- E. apply classify_category_name.
        + fold cat. rewrite Hplaced. split; [exact Hgone |].
          rewrite Hn_es in Hk_es. injection Hk_es as <- <-.
          exists a', (assoc_put n (File r x) ces). split; [exact Hcat2 |].
          apply map_find_put_same.
      - intros c Hc. destruct (String.string_dec c cat) as [->|Ec].
        + right. exists a', (assoc_put n (File r x) ces).
          split; [exact Hcat2 |]. split; [exact Hw' |]. split; [exact Hdev' |].
          intros k Hk. apply in_or_app.
          destruct (String.string_dec k n) as [->|Hkn]; [right; left; reflexivity |].
          left. rewrite (map_find_put_other n k _ ces (fun E => Hkn (eq_sym E))) in Hk.
          destruct Hwas as [[_ ->] | Hwas]; [exact (False_ind _ (Hk eq_refl)) |].
          destruct (S4 cat Hcat_name) as [H | (a0 & ces0 & H1 & _ & _ & H4)];
            rewrite Hwas in *; [discriminate H |].
          injection H1 as <- <-. exact (H4 k Hk).
        + assert (Hcn : c <> n) by (intros ->; exact (Hncat Hc)).
          rewrite (Hsame c Hcn Ec).
          destruct (S4 c Hc) as [H | (a0 & ces0 & H1 & H2 & H3 & H4)];
            [left; exact H | right].
          exists a0, ces0. split; [exact H1 |]. split; [exact H2 |]. split; [exact H3 |].
          intros k Hk. apply in_or_app. left. exact (H4 k Hk). }
    exists fs', es', (organize_status.success :: log).
    split; [|split; [exact Hd' |split]].
    + rewrite E. simpl. rewrite <- app_assoc. reflexivity.
    + rewrite <- app_assoc in Hs'. exact Hs'.
    + simpl. rewrite Hlen. reflexivity.
Qed.

Lemma scan_without_directories fs cur names m :
  (forall n, In n names -> fs_is_directory (path_append cur n) fs = false) ->
  fold_left (scan_entry fs cur) names m = m.
Proof.
  revert m. induction names as [|n names IH]; intros m H; [reflexivity |].
  simpl fold_left. unfold scan_entry at 2. rewrite (H n (or_introl eq_refl)).
  simpl negb. cbv iota. apply IH. intros k Hk. apply H. right. exact Hk.
Qed.

(* ================================================================== *)
(** ** The control flow of [organize_directory] *)
(* ================================================================== *)

Lemma for_entries_handled cur t_mode names st fs r st' fs' :
  for_entries cur t_mode names st fs = Ok (r, st') fs' ->
  exists l,
    handled st' = handled st ++ l /\
    match r with
    | None =>
        Forall (fun s => s = organize_status.success \/
                         s = organize_status.already_in_correct_location) l
    | Some s =>
        exists l0,
          l = l0 ++ [s] /\
          Forall (fun s => s = organize_status.success \/
                           s = organize_status.already_in_correct_location) l0 /\
          s <> organize_status.success /\
          s <> organize_status.already_in_correct_location
    end.
Proof.
  revert st fs. induction names as [|n names IH]; intros st fs; cbn [for_entries].
  { intros [= <- <- <-]. exists []. rewrite app_nil_r. split; [reflexivity | constructor]. }
  assert (Hcons : forall s st1 fs1,
             (s = organize_status.success \/
              s = organize_status.already_in_correct_location) ->
             handled st1 = handled st ++ [s] ->
             for_entries cur t_mode names st1 fs1 = Ok (r, st') fs' ->
             exists l,
               handled st' = handled st ++ l /\
               match r with
               | None =>
                   Forall (fun s => s = organize_status.success \/
                                    s = organize_status.already_in_correct_location) l
               | Some s =>
                   exists l0,
                     l = l0 ++ [s] /\
                     Forall (fun s => s = organize_status.success \/
                                      s = organize_status.already_in_correct_location) l0 /\
                     s <> organize_status.success /\
                     s <> organize_status.already_in_correct_location
               end).
  { intros s st1 fs1 Hs Hst1 E. destruct (IH st1 fs1 E) as (l & Hl & Hr).
    exists (s :: l). split; [rewrite Hl, Hst1, <- app_assoc; reflexivity |].
    destruct r as [s'|].
    - destruct Hr as (l0 & -> & Hl0 & H1 & H2). exists (s :: l0).
      split; [reflexivity |]. split; [constructor; assumption |]. split; assumption.
    - constructor; assumption. }
  destruct (fs_is_regular_file _ fs).
  - unfold bind. destruct (handle_file _ _ _ fs) as [s fs1| |]; try discriminate.
    destruct s; cbn [organize_status.eqb negb];
      try (intros [= <- <- <-]; eexists; split; [reflexivity |];
           exists []; split; [reflexivity |]; split; [constructor |];
           split; discriminate).
    + apply (Hcons organize_status.success); [left; reflexivity | reflexivity].
    + apply (Hcons organize_status.already_in_correct_location);
        [right; reflexivity | reflexivity].
  - destruct (fs_is_directory _ fs); [|apply IH].
    destruct (negb _ && negb _); [|apply IH].
    intros E. destruct (IH _ _ E) as (l & Hl & Hr). exists l. split; assumption.
Qed.

Lemma organize_loop_handled fuel t_mode st fs s log fs' :
  Forall (fun s => s = organize_status.success \/
                   s = organize_status.already_in_correct_location) (handled st) ->
  organize_loop fuel t_mode st fs = Ok (s, log) fs' ->
  (s = organize_status.success /\
   Forall (fun s => s = organize_status.success \/
                    s = organize_status.already_in_correct_location) log) \/
  (exists l,
      log = l ++ [s] /\
      Forall (fun s => s = organize_status.success \/
                       s = organize_status.already_in_correct_location) l /\
      s <> organize_status.success /\
      s <> organize_status.already_in_correct_location).
Proof.
  revert st fs. induction fuel as [|fuel IH]; intros st fs Hst; cbn [organize_loop];
    [discriminate |].
  destruct (directories st) as [|cur rest].
  { intros [= <- <- <-]. left. split; [reflexivity | exact Hst]. }
  unfold bind.
  destruct (normalize_category_folder cur fs) as [[] fs1| |]; try discriminate.
  destruct (fs_list cur fs1) as [names fs2| |]; try discriminate.
  destruct (for_entries cur t_mode names _ fs2) as [[r st'] fs3| |] eqn:E;
    try discriminate.
  destruct (for_entries_handled _ _ _ _ _ _ _ _ E) as (l & Hl & Hr).
  cbn [handled] in Hl.
  destruct r as [s'|].
  - intros [= <- <- <-]. right. destruct Hr as (l0 & -> & Hl0 & H1 & H2).
    exists (handled st ++ l0). rewrite Hl, app_assoc.
    split; [reflexivity |]. split; [|split; assumption].
    apply Forall_app. split; assumption.
  - apply IH. rewrite Hl. apply Forall_app. split; assumption.
Qed.

(** X17: [organize_directory] stops at the first failure.  When it returns
    a status, either the status is [success] and every call of [handle_file]
    answered [success] or [already_in_correct_location]; or the root failed
    validation, no file was handled and nothing changed; or the status is
    that of the last call of [handle_file], a failure, every call before it
    answered [success] or [already_in_correct_location], and no file was
    handled after it. *)
Theorem organize_directory_stops_at_first_failure
        (fuel : nat) (root_path : string) (t_mode : transfer_mode.t) (fs fs' : node)
        (s : organize_status.t) (log : list organize_status.t) :
  organize_directory fuel root_path t_mode fs = Ok (s, log) fs' ->
  (s = organize_status.success /\
   Forall (fun s => s = organize_status.success \/
                    s = organize_status.already_in_correct_location) log) \/
  (validate_path root_path fs <> path_status.ok /\
   s = process_path_validation root_path fs /\ log = [] /\ fs' = fs) \/
  (exists l,
      log = l ++ [s] /\
      Forall (fun s => s = organize_status.success \/
                       s = organize_status.already_in_correct_location) l /\
      s <> organize_status.success /\
      s <> organize_status.already_in_correct_location).
Proof.
  unfold organize_directory, process_path_validation.
  destruct (validate_path root_path fs) eqn:V; cbn [organize_status.eqb negb];
    try (intros [= <- <- <-]; right; left; split; [discriminate |];
         split; [reflexivity |]; split; reflexivity).
  intros E.
  destruct (organize_loop_handled fuel t_mode
              {| directories := [root_path]; handled := [] |} fs s log fs'
              (List.Forall_nil _) E)
    as [H | H]; [left; exact H | right; right; exact H].
Qed.

Lemma organize_directory_stops_at_first_failure_witness :
  exists fs',
    organize_directory 3 "root" transfer_mode.atomic_transfer_mode fs_locked_folder
    = Ok (organize_status.permission_denied,
          [organize_status.success; organize_status.permission_denied]) fs' /\
    fs_status "root/Image Files/a.png" fs' = Some (File None "a") /\
    fs_status "root/locked/b.txt" fs' = Some (File None "b") /\
    exists l,
      [organize_status.success; organize_status.permission_denied]
      = l ++ [organize_status.permission_denied] /\
      Forall (fun s => s = organize_status.success \/
                       s = organize_status.already_in_correct_location) l.
Proof.
  exists (final_fs (organize_directory 3 "root" transfer_mode.atomic_transfer_mode)
                   fs_locked_folder).
  assert (E : organize_directory 3 "root" transfer_mode.atomic_transfer_mode
                fs_locked_folder
              = Ok (organize_status.permission_denied,
                    [organize_status.success; organize_status.permission_denied])
                   (final_fs (organize_directory 3 "root"
                                transfer_mode.atomic_transfer_mode) fs_locked_folder))
    by (vm_compute; reflexivity).
  split; [exact E |].
  split; [vm_compute; reflexivity |].
  split; [vm_compute; reflexivity |].
  destruct (organize_directory_stops_at_first_failure _ _ _ _ _ _ _ E)
    as [[H _] | [(H & _) | (l & El & Hl & _)]].
  - discriminate H.
  - exfalso. apply H. vm_compute. reflexivity.
  - exists l. split; [exact El | exact Hl].
Defined.

(* ================================================================== *)
(** ** What [organize_directory] leaves alone *)
(* ================================================================== *)

Lemma assoc_update_id {V : Type} c (g : V -> V) (es : list (string * V)) :
  (forall v, map_find c es = Some v -> g v = v) -> assoc_update c g es = es.
Proof.
  induction es as [|[k v] es IH]; simpl; [reflexivity |].
  destruct (String.eqb c k).
  - intros H. rewrite (H v eq_refl). reflexivity.
  - intros H. rewrite (IH H). reflexivity.
Qed.

(** An update of a directory that is not there changes nothing. *)
Lemma update_dir_absent d f fs :
  (forall a es, walk d fs <> Some (Dir a es)) -> update_dir d f fs = fs.
Proof.
  revert fs. induction d as [|c d IH]; intros fs H.
  - destruct fs as [? ?|a es]; [reflexivity |]. exact (False_ind _ (H a es eq_refl)).
  - destruct fs as [? ?|a es]; [reflexivity |]. simpl. f_equal.
    apply assoc_update_id. intros v Hv. apply IH. intros a' es' Hw.
    apply (H a' es'). simpl. rewrite Hv. exact Hw.
Qed.

Lemma apply_edit_wf fs e : wf fs -> edit_wf e -> wf (apply_edit fs e).
Proof.
  destruct e as [[d k] [v|]]; simpl; intros Hwf He.
  - destruct (walk d fs) as [[? ?|a es]|] eqn:Hd.
    + rewrite update_dir_absent; [exact Hwf |]. intros a es H. rewrite Hd in H. discriminate H.
    + exact (wf_put d k v fs a es Hwf Hd (proj1 He) (proj2 He)).
    + rewrite update_dir_absent; [exact Hwf |]. intros a es H. rewrite Hd in H. discriminate H.
  - apply wf_del. exact Hwf.
Qed.

Lemma apply_edit_misses fs e q : edit_misses q e -> walk q (apply_edit fs e) = walk q fs.
Proof.
  destruct e as [[d k] [v|]]; simpl; intros [H1 H2].
  - apply (frame_entry _ k); [apply touches_only_put | exact H1 | exact H2].
  - apply (frame_entry _ k); [apply touches_only_del | exact H1 | exact H2].
Qed.

Lemma apply_edits_wf edits fs :
  wf fs -> Forall edit_wf edits -> wf (fold_left apply_edit edits fs).
Proof.
  revert fs. induction edits as [|e edits IH]; intros fs Hwf H; [exact Hwf |].
  simpl. apply IH; [|exact (Forall_inv_tail H)].
  apply apply_edit_wf; [exact Hwf | exact (Forall_inv H)].
Qed.

Lemma apply_edits_misses edits fs q :
  Forall (edit_misses q) edits -> walk q (fold_left apply_edit edits fs) = walk q fs.
Proof.
  revert fs. induction edits as [|e edits IH]; intros fs H; [reflexivity |].
  simpl. rewrite (IH _ (Forall_inv_tail H)).
  apply apply_edit_misses. exact (Forall_inv H).
Qed.

(** What the two transfers do to the tree. *)
Lemma transfer_edits t_mode cur n dest fs r x st fs' :
  good_name n = true ->
  fs_status (path_append cur n) fs = Some (File r x) ->
  match t_mode with
  | transfer_mode.atomic_transfer_mode =>
      atomic_file_transfer (path_append cur n) dest fs
  | transfer_mode.fallback_transfer_mode =>
      fallback_transfer (path_append cur n) dest fs
  end = Ok st fs' ->
  exists edits,
    fs' = fold_left apply_edit edits fs /\
    Forall (fun e => e = (resolve cur, n, None) \/
                     exists leaf r' x',
                       good_name leaf = true /\
                       e = (resolve dest, leaf, Some (File r' x'))) edits.
Proof.
  intros Hg Hs E.
  pose proof (path_filename_append_good cur n Hg) as Hname.
  destruct (get_unique_path_leaf dest n fs Hg) as (leaf & Eg & Hleaf & _ & Hfree).
  pose proof (resolve_append_good dest leaf Hleaf) as Ep.
  pose proof (resolve_append_good cur n Hg) as Es.
  assert (Hnone : exists edits : list edit,
             fs = fold_left apply_edit edits fs /\
             Forall (fun e => e = (resolve cur, n, None) \/
                              exists leaf r' x',
                                good_name leaf = true /\
                                e = (resolve dest, leaf, Some (File r' x'))) edits)
    by (exists []; split; [reflexivity | constructor]).
  assert (Hput : forall r' x',
             (fun e : edit => e = (resolve cur, n, None) \/
                      exists leaf r' x',
                        good_name leaf = true /\
                        e = (resolve dest, leaf, Some (File r' x')))
               (resolve dest, leaf, Some (File r' x')))
    by (intros r' x'; right; exists leaf, r', x'; split; [exact Hleaf | reflexivity]).
  destruct t_mode.
  - unfold atomic_file_transfer, try_catch, bind in E. rewrite Hname, Eg in E.
    destruct (fs_rename_file_to_free _ (path_append dest leaf) fs r x Hs Hfree)
      as [[e R] | (od & on & nd & nn & oa & oes & na & nes
                   & Es' & Ep' & Hod & Hon & Hnd & Hnn & R)]; rewrite R in E.
    + assert (fs' = fs) as ->; [|exact Hnone].
      destruct (errc.eqb e errc.permission_denied);
        [|destruct (errc.eqb e errc.cross_device_link)]; injection E as _ <-; reflexivity.
    + injection E as _ <-.
      rewrite Es in Es'. apply app_inj_tail in Es' as [<- <-].
      rewrite Ep in Ep'. apply app_inj_tail in Ep' as [<- <-].
      exists [(resolve cur, n, None); (resolve dest, leaf, Some (File r x))].
      split; [reflexivity |].
      constructor; [left; reflexivity |]. constructor; [apply Hput | constructor].
  - unfold fallback_transfer, try_catch, bind in E. rewrite Hname, Eg in E.
    destruct (fs_copy_file_to_free (path_append cur n) (path_append dest leaf) fs Hfree)
      as [[e R] | (y & nd & nn & na & nes & Hs' & Ep' & Hnd & Hnn & R)]; rewrite R in E.
    { assert (fs' = fs) as ->; [|exact Hnone].
      destruct (errc.eqb e errc.permission_denied); injection E as _ <-; reflexivity. }
    rewrite Ep in Ep'. apply app_inj_tail in Ep' as [<- <-].
    unfold fs_status in Hs'. rewrite Es in Hs'.
    destruct (walk_child_inv _ _ _ _ Hs') as (oa & oes & Hod & Hon).
    pose proof (copied_old _ _ _ _ _ _ _ _ _ _ _ Hod Hon Hnd Hnn (File None y)) as Hs1.
    destruct (walk_child_inv _ _ _ _ Hs1) as (oa1 & oes1 & Hod1 & Hon1).
    destruct (fs_remove_file (path_append cur n) _ _ _ _ _ _ _ Es Hod1 Hon1)
      as [[e R'] | R']; rewrite R' in E.
    + exists [(resolve dest, leaf, Some (File None y))].
      split; [|constructor; [apply Hput | constructor]].
      destruct (errc.eqb e errc.permission_denied); injection E as _ <-; reflexivity.
    + injection E as _ <-.
      exists [(resolve dest, leaf, Some (File None y)); (resolve cur, n, None)].
      split; [reflexivity |].
      constructor; [apply Hput |]. constructor; [left; reflexivity | constructor].
Qed.

(** What [handle_file] does to the tree, for a regular file. *)
Lemma handle_file_edits cur n t_mode fs r x st fs2 :
  good_name n = true ->
  fs_status (path_append cur n) fs = Some (File r x) ->
  handle_file cur (path_append cur n) t_mode fs = Ok st fs2 ->
  exists edits,
    fs2 = fold_left apply_edit edits fs /\
    Forall (fun e =>
              String.eqb (classify_file_by_extension n) (path_filename cur) = false /\
              (e = (resolve cur, n, None) \/
               (exists a,
                   e = (resolve (base_location cur (classify_file_by_extension n)),
                        classify_file_by_extension n, Some (Dir a []))) \/
               (exists leaf r' x',
                   good_name leaf = true /\
                   e = (resolve (base_location cur (classify_file_by_extension n))
                          ++ [classify_file_by_extension n],
                        leaf, Some (File r' x'))))) edits.
Proof.
  intros Hg Hs E. unfold handle_file, get_parent_folder_name in E.
  rewrite (classify_append cur n Hg) in E.
  set (cat := classify_file_by_extension n) in *.
  destruct (String.eqb cat (path_filename cur)) eqn:Hne.
  { injection E as _ <-. exists []. split; [reflexivity | constructor]. }
  destruct (alias_of_category (path_filename cur) cat).
  { injection E as _ <-. exists []. split; [reflexivity | constructor]. }
  set (dest := path_append (base_location cur cat) cat) in *.
  assert (Edest : resolve dest = resolve (base_location cur cat) ++ [cat])
    by exact (resolve_append_good _ cat (classify_good n)).
  unfold bind in E.
  destruct (create_directory dest fs) as [cr fs1| |] eqn:Ec; try discriminate E.
  pose proof (create_directory_keeps_files _ _ _ _ _ _ _ Ec Hs) as Hs1.
  assert (Hc : exists edits1,
             fs1 = fold_left apply_edit edits1 fs /\
             Forall (fun e => exists a,
                         e = (resolve (base_location cur cat), cat, Some (Dir a [])))
                    edits1).
  { destruct (create_directory_cases dest fs)
      as [[_ E'] | [(_ & st' & E' & _) | (_ & d & k & a & es & Ep & _ & _ & E')]];
      rewrite E' in Ec; injection Ec as _ <-.
    - exists []. split; [reflexivity | constructor].
    - exists []. split; [reflexivity | constructor].
    - rewrite Edest in Ep. apply app_inj_tail in Ep as [<- <-].
      eexists [(_, _, Some _)]. split; [reflexivity |].
      constructor; [eexists; reflexivity | constructor]. }
  destruct Hc as (edits1 & Hfs1 & Hall1).
  assert (Ht : exists st' ,
             match t_mode with
             | transfer_mode.atomic_transfer_mode =>
                 atomic_file_transfer (path_append cur n) dest fs1
             | transfer_mode.fallback_transfer_mode =>
                 fallback_transfer (path_append cur n) dest fs1
             end = Ok st' fs2).
  { destruct t_mode.
    - destruct (atomic_file_transfer _ dest fs1) as [st' fs'| |]; try discriminate E.
      injection E as _ <-. eauto.
    - destruct (fallback_transfer _ dest fs1) as [st' fs'| |]; try discriminate E.
      injection E as _ <-. eauto. }
  destruct Ht as (st' & Et).
  destruct (transfer_edits t_mode cur n dest fs1 r x st' fs2 Hg Hs1 Et)
    as (edits2 & Hfs2 & Hall2).
  exists (edits1 ++ edits2). split; [rewrite fold_left_app, <- Hfs1; exact Hfs2 |].
  apply Forall_app. split.
  - eapply List.Forall_impl; [|exact Hall1]. intros e (a & ->).
    split; [reflexivity |]. right; left. exists a. reflexivity.
  - eapply List.Forall_impl; [|exact Hall2]. intros e [-> | (leaf & r' & x' & Hl & ->)].
    + split; [reflexivity |]. left. reflexivity.
    + split; [reflexivity |]. right; right. exists leaf, r', x'.
      split; [exact Hl |]. rewrite Edest. reflexivity.
Qed.

(** Edits that cannot reach the hidden entry [h] of the root. *)
Lemma hidden_misses_level (R ns : list string) k h v :
  walkable ns -> visible h = false -> (ns = [] -> k <> h) ->
  edit_misses (R ++ [h]) (R ++ ns, k, v).
Proof.
  intros Hns Hh Hk. split.
  - intros H. apply prefix_app_inv in H. destruct H as [rest E].
    destruct ns as [|m ms]; [discriminate E |].
    injection E as -> _. apply Forall_inv in Hns. destruct Hns as [_ Hv].
    rewrite Hh in Hv. discriminate Hv.
  - intros H. rewrite <- app_assoc in H. apply prefix_app_inv in H.
    destruct H as [rest E]. destruct ns as [|m ms].
    + injection E as E _. exact (Hk eq_refl (eq_sym E)).
    + injection E as _ E. destruct ms; discriminate E.
Qed.

Lemma hidden_misses_parent (D : list string) N h k v :
  k <> N -> edit_misses ((D ++ [N]) ++ [h]) (D, k, v).
Proof.
  intros Hk. split.
  - rewrite <- app_assoc. apply (not_prefix_below D N [h]).
  - rewrite <- app_assoc. apply (not_prefix_sibling D k N [h] Hk).
Qed.

Lemma hidden_misses_parent_folder (D : list string) N h cat leaf v :
  cat <> N -> edit_misses ((D ++ [N]) ++ [h]) (D ++ [cat], leaf, v).
Proof.
  intros Hk. split.
  - intros H. rewrite <- app_assoc in H. apply prefix_app_inv in H.
    destruct H as [rest E]. discriminate E.
  - intros H. rewrite <- !app_assoc in H. apply prefix_app_inv in H.
    destruct H as [rest E]. injection E as E _. exact (Hk (eq_sym E)).
Qed.

Lemma snoc_cases {A : Type} (l : list A) : l = [] \/ exists l' x, l = l' ++ [x].
Proof.
  destruct l as [|a l]; [left; reflexivity | right].
  assert (H : a :: l <> []) by discriminate.
  destruct (exists_last H) as (l' & x & E). exists l', x. exact E.
Qed.

(** [handle_file] at a level the walk reaches keeps the tree well formed
    and does not touch a hidden directory of the root. *)
Lemma handle_file_hidden root ns s n t_mode fs r x st fs2 h a0 es0 :
  at_path root ns s -> good_name n = true -> wf fs ->
  fs_status (path_append s n) fs = Some (File r x) ->
  visible h = false -> walk (resolve root ++ [h]) fs = Some (Dir a0 es0) ->
  handle_file s (path_append s n) t_mode fs = Ok st fs2 ->
  wf fs2 /\ walk (resolve root ++ [h]) fs2 = Some (Dir a0 es0).
Proof.
  intros Hat Hg Hwf Hs Hh Hq E.
  pose proof (at_path_resolve _ _ _ Hat) as Hres.
  pose proof (at_path_walkable _ _ _ Hat) as Hns.
  destruct (handle_file_edits s n t_mode fs r x st fs2 Hg Hs E) as (edits & -> & Hall).
  set (cat := classify_file_by_extension n) in *.
  assert (Hcat_h : cat <> h).
  { intros Ec. pose proof (classify_visible n) as Hv. fold cat in Hv.
    rewrite Ec, Hh in Hv. discriminate Hv. }
  assert (Hn_h : ns = [] -> n <> h).
  { intros -> ->. unfold fs_status in Hs.
    rewrite (resolve_append_good s h Hg), Hres, app_nil_r, Hq in Hs. discriminate Hs. }
  assert (Hcatw : forall ms, walkable ms -> walkable (ms ++ [cat])).
  { intros ms Hms. apply walkable_snoc; [exact Hms | apply classify_good
                                         | apply classify_visible]. }
  assert (Hok : Forall (fun e => edit_wf e /\ edit_misses (resolve root ++ [h]) e) edits).
  { eapply List.Forall_impl; [|exact Hall]. intros e [Hne He].
    assert (Hbase : (resolve (base_location s cat) = resolve root ++ ns) \/
                    (exists ms, walkable ms /\
                                resolve (base_location s cat) = resolve root ++ ms) \/
                    (exists D, resolve root = D ++ [path_filename s] /\
                               resolve (base_location s cat) = D)).
    { destruct (base_cases s cat Hne) as [Hb | (_ & D & Hd & Hb)].
      - left. rewrite Hb. exact Hres.
      - right. destruct (snoc_cases ns) as [-> | (ms & m & ->)].
        + right. exists D. rewrite app_nil_r in Hres. rewrite <- Hres. split; assumption.
        + left. exists ms. split; [exact (proj1 (proj1 (walkable_app _ _) Hns)) |].
          rewrite Hres, app_assoc in Hd. apply app_inj_tail in Hd as [<- _]. exact Hb. }
    assert (Hcat_N : cat <> path_filename s)
      by (apply String.eqb_neq; exact Hne).
    destruct He as [-> | [(a & ->) | (leaf & r' & x' & Hleaf & ->)]].
    - split; [exact I |]. rewrite Hres. apply hidden_misses_level; assumption.
    - split; [split; [apply classify_good | apply wf_empty_dir] |].
      destruct Hbase as [-> | [(ms & Hms & ->) | (D & -> & ->)]].
      + apply hidden_misses_level; [exact Hns | exact Hh | intros _; exact Hcat_h].
      + apply hidden_misses_level; [exact Hms | exact Hh | intros _; exact Hcat_h].
      + apply hidden_misses_parent. exact Hcat_N.
    - split; [split; [exact Hleaf | apply wf_file] |].
      destruct Hbase as [-> | [(ms & Hms & ->) | (D & -> & ->)]].
      + rewrite <- app_assoc. apply hidden_misses_level; [apply Hcatw; exact Hns | exact Hh |].
        intros H. destruct ns; discriminate H.
      + rewrite <- app_assoc. apply hidden_misses_level; [apply Hcatw; exact Hms | exact Hh |].
        intros H. destruct ms; discriminate H.
      + apply hidden_misses_parent_folder. exact Hcat_N. }
  split.
  - apply apply_edits_wf; [exact Hwf |].
    eapply List.Forall_impl; [|exact Hok]. intros e He. exact (proj1 He).
  - rewrite apply_edits_misses; [exact Hq |].
    eapply List.Forall_impl; [|exact Hok]. intros e He. exact (proj2 He).
Qed.

Lemma nodupb_sound l : nodupb l = true -> List.NoDup l.
Proof.
  induction l as [|x l IH]; simpl; [constructor |].
  intros H. apply andb_true_iff in H as [H1 H2]. constructor; [|exact (IH H2)].
  intros Hin. apply negb_true_iff in H1.
  rewrite (proj2 (existsb_eqb_in x l) Hin) in H1. discriminate H1.
Qed.

Lemma wf_dir a es :
  List.NoDup (List.map fst es) ->
  (forall n, In n (List.map fst es) -> good_name n = true) ->
  (forall k v, In (k, v) es -> wf v) ->
  wf (Dir a es).
Proof.
  intros Hnd Hg Hsub q a' es' Hq. destruct q as [|c q].
  - injection Hq as <- <-. split; assumption.
  - simpl in Hq. destruct (map_find c es) as [m|] eqn:Hm; [|discriminate Hq].
    exact (Hsub c m (map_find_some_pair _ _ _ Hm) q a' es' Hq).
Qed.

Lemma wfb_sound : forall n, wfb n = true -> wf n.
Proof.
  fix IH 1. intros [r x|a es] H; [apply wf_file |].
  simpl in H. apply andb_true_iff in H as [H H3]. apply andb_true_iff in H as [H1 H2].
  apply wf_dir.
  - exact (nodupb_sound _ H1).
  - intros n Hn. exact (proj1 (forallb_forall _ _) H2 n Hn).
  - clear H1 H2. induction es as [|[k0 v0] es IHes]; intros k v Hin; [destruct Hin |].
    apply andb_true_iff in H3 as [Hv Hrest]. destruct Hin as [E | Hin].
    + injection E as _ <-. exact (IH v0 Hv).
    + exact (IHes Hrest k v Hin).
Qed.

Lemma visible_to_lower s : visible (to_lower s) = visible s.
Proof.
  destruct s as [|c s]; [reflexivity |]. unfold visible, starts_with. simpl to_lower.
  cbv beta iota. rewrite (tolower_keeps_dot c). reflexivity.
Qed.

Lemma fs_list_names cur fs names fs' :
  wf fs -> fs_list cur fs = Ok names fs' ->
  fs' = fs /\ (forall n, In n names -> good_name n = true).
Proof.
  intros Hwf. unfold fs_list, fs_status.
  destruct (walk (resolve cur) fs) as [[? ?|a es]|] eqn:Hd; try discriminate.
  destruct (d_open a); [discriminate |]. intros [= <- <-].
  split; [reflexivity |]. exact (proj2 (Hwf _ _ _ Hd)).
Qed.

Lemma fs_list_throws cur fs e fs' : fs_list cur fs = Throw e fs' -> fs' = fs.
Proof.
  unfold fs_list. destruct (fs_status cur fs) as [[? ?|a es]|].
  - intros [= _ <-]. reflexivity.
  - destruct (d_open a); [intros [= _ <-]; reflexivity | discriminate].
  - intros [= _ <-]. reflexivity.
Qed.

Lemma normalize_throws_unchanged cur fs e fs' :
  normalize_category_folder cur fs = Throw e fs' -> fs' = fs.
Proof.
  unfold normalize_category_folder, bind.
  destruct (fs_list cur fs) as [names fs1| |] eqn:Hl; [| |discriminate].
  - destruct (for_each_rename_returns (fold_left (scan_entry fs1 cur) names []) fs1)
      as (fs2 & ->). discriminate.
  - intros [= _ <-]. exact (fs_list_throws _ _ _ _ Hl).
Qed.

(** [normalize_category_folder] at a level the walk reaches keeps the tree
    well formed and does not touch a hidden directory of the root. *)
Lemma normalize_hidden root ns s fs fs1 h a0 es0 :
  at_path root ns s -> wf fs ->
  visible h = false -> walk (resolve root ++ [h]) fs = Some (Dir a0 es0) ->
  normalize_category_folder s fs = Ok tt fs1 ->
  wf fs1 /\ walk (resolve root ++ [h]) fs1 = Some (Dir a0 es0).
Proof.
  intros Hat Hwf Hh Hq E.
  pose proof (at_path_resolve _ _ _ Hat) as Hres.
  pose proof (at_path_walkable _ _ _ Hat) as Hns.
  unfold normalize_category_folder, bind in E.
  destruct (fs_list s fs) as [names fs0| |] eqn:Hl; try discriminate E.
  destruct (fs_list_names _ _ _ _ Hwf Hl) as [-> Hgood].
  refine (for_each_rename_invariant
            (fun fs1 => wf fs1 /\ walk (resolve root ++ [h]) fs1 = Some (Dir a0 es0))
            _ fs fs1 (conj Hwf Hq) _ E).
  intros [c v] fa fb Hin [Hwfa Hqa] Er.
  destruct (scan_firsts_are_directories _ _ _ _ _ Hgood Hin)
    as (n0 & -> & Hn0 & Hc & Hc1 & _ & Ha & _).
  destruct (alias_folder_inv _ _ _ _ Hn0 Ha) as (_ & _ & Hal).
  assert (Hvn0 : visible n0 = true).
  { rewrite <- visible_to_lower. exact (proj2 (alias_key_good _ _ Hal)). }
  pose proof (proj2 (canonical_good _ Hc1)) as Hvc.
  destruct (rename_to_canonical_cases _ _ _ _ _ Hn0 Hc Er)
    as [-> | (a & es & src & _ & Hd & Hsrc & _ & ->)]; [split; assumption |].
  change (update_dir (resolve s) (assoc_put c src)
            (update_dir (resolve s) (assoc_del n0) fa))
    with (fold_left apply_edit [(resolve s, n0, None); (resolve s, c, Some src)] fa).
  split.
  - apply apply_edits_wf; [exact Hwfa |].
    constructor; [exact I |]. constructor; [|constructor].
    split; [exact Hc |]. exact (wf_sub _ _ _ Hwfa (walk_child _ _ _ _ _ _ Hd Hsrc)).
  - rewrite apply_edits_misses; [exact Hqa |]. rewrite Hres.
    constructor; [|constructor; [|constructor]];
      (apply hidden_misses_level; [exact Hns | exact Hh |]); intros _ E';
      [rewrite E', Hh in Hvn0; discriminate Hvn0
      | rewrite E', Hh in Hvc; discriminate Hvc].
Qed.

Lemma organize_status_cases (s : organize_status.t) :
  (s = organize_status.success \/ s = organize_status.already_in_correct_location) \/
  (s <> organize_status.success /\ s <> organize_status.already_in_correct_location).
Proof. destruct s; first [left; left; reflexivity | left; right; reflexivity
                         | right; split; discriminate]. Qed.

(** The loop over the entries of a level the walk reaches: it returns, the
    tree stays well formed, the hidden directory is not touched, and what is
    pushed is a level below the root. *)
Lemma for_entries_hidden root ns s t_mode h a0 es0 names :
  at_path root ns s -> visible h = false ->
  (forall n, In n names -> good_name n = true) ->
  forall st fs,
    wf fs -> walk (resolve root ++ [h]) fs = Some (Dir a0 es0) ->
    Forall (below_root root) (directories st) ->
    exists r st' fs',
      for_entries s t_mode names st fs = Ok (r, st') fs' /\
      wf fs' /\ walk (resolve root ++ [h]) fs' = Some (Dir a0 es0) /\
      Forall (below_root root) (directories st').
Proof.
  intros Hat Hh. induction names as [|n names IH]; intros Hgood st fs Hwf Hq Hst.
  { exists None, st, fs. split; [reflexivity |]. split; [exact Hwf |].
    split; [exact Hq | exact Hst]. }
  pose proof (Hgood n (or_introl eq_refl)) as Hg.
  assert (Hgood' : forall k, In k names -> good_name k = true)
    by (intros k Hk; apply Hgood; right; exact Hk).
  destruct (fs_is_regular_file (path_append s n) fs) eqn:Hf.
  - assert (Hs : exists r x, fs_status (path_append s n) fs = Some (File r x)).
    { unfold fs_is_regular_file in Hf.
      destruct (fs_status (path_append s n) fs) as [[r x|? ?]|];
        [eauto | discriminate Hf | discriminate Hf]. }
    destruct Hs as (r & x & Hs).
    destruct (handle_file_status s (path_append s n) t_mode fs) as (st1 & fs1 & Eh & _).
    destruct (handle_file_hidden root ns s n t_mode fs r x st1 fs1 h a0 es0
                Hat Hg Hwf Hs Hh Hq Eh) as [Hwf1 Hq1].
    destruct (organize_status_cases st1) as [[-> | ->] | [H1 H2]].
    + rewrite (for_entries_file s t_mode n names st fs _ fs1 Hf Eh (or_intror eq_refl)).
      apply (IH Hgood'); assumption.
    + rewrite (for_entries_file s t_mode n names st fs _ fs1 Hf Eh (or_introl eq_refl)).
      apply (IH Hgood'); assumption.
    + rewrite (for_entries_file_fails s t_mode n names st fs _ fs1 Hf Eh H2 H1).
      eexists; eexists; eexists. split; [reflexivity |]. split; [exact Hwf1 |].
      split; [exact Hq1 | exact Hst].
  - destruct (fs_is_directory (path_append s n) fs) eqn:Hd.
    + rewrite (for_entries_directory s t_mode n names st fs Hf Hd).
      rewrite (path_filename_append_good s n Hg).
      destruct (visible n) eqn:Hv; [|apply (IH Hgood'); assumption].
      apply (IH Hgood'); [exact Hwf | exact Hq |].
      constructor; [|exact Hst]. exists (ns ++ [n]). constructor; assumption.
    + rewrite (for_entries_other s t_mode n names st fs Hf Hd).
      apply (IH Hgood'); assumption.
Qed.

Lemma organize_loop_hidden root t_mode h a0 es0 fuel :
  visible h = false ->
  forall st fs,
    wf fs -> walk (resolve root ++ [h]) fs = Some (Dir a0 es0) ->
    Forall (below_root root) (directories st) ->
    match organize_loop fuel t_mode st fs with
    | Ok _ fs' | Throw _ fs' => walk (resolve root ++ [h]) fs' = Some (Dir a0 es0)
    | OutOfFuel => True
    end.
Proof.
  intros Hh. induction fuel as [|fuel IH]; intros st fs Hwf Hq Hst; [exact I |].
  cbn [organize_loop]. destruct (directories st) as [|cur rest] eqn:Hdirs; [exact Hq |].
  destruct (Forall_inv Hst) as (ns & Hat). pose proof (Forall_inv_tail Hst) as Hrest.
  unfold bind.
  destruct (normalize_category_folder cur fs) as [[] fs1|e fs1|] eqn:En; [| |exact I].
  2:{ rewrite (normalize_throws_unchanged _ _ _ _ En). exact Hq. }
  destruct (normalize_hidden root ns cur fs fs1 h a0 es0 Hat Hwf Hh Hq En) as [Hwf1 Hq1].
  destruct (fs_list cur fs1) as [names fs2|e fs2|] eqn:El; [| |exact I].
  2:{ rewrite (fs_list_throws _ _ _ _ El). exact Hq1. }
  destruct (fs_list_names _ _ _ _ Hwf1 El) as [-> Hgood].
  destruct (for_entries_hidden root ns cur t_mode h a0 es0 names Hat Hh Hgood
              {| directories := rest; handled := handled st |} fs1 Hwf1 Hq1 Hrest)
    as (r & st' & fs' & -> & Hwf' & Hq' & Hst').
  destruct r as [s|]; [exact Hq' |].
  apply IH; assumption.
Qed.

(** X18: [organize_directory] does not touch hidden directories of the
    root.  In a tree whose directories list every name once, a directory of
    the root whose name starts with a dot is, with everything below it,
    exactly as before whenever [organize_directory] returns a status or
    throws. *)
Theorem organize_directory_skips_hidden_directory
        (fuel : nat) (root_path : string) (t_mode : transfer_mode.t) (fs : node)
        (h : string) (a0 : dir_attr) (es0 : list (string * node)) :
  wf fs -> good_name h = true -> visible h = false ->
  fs_status (path_append root_path h) fs = Some (Dir a0 es0) ->
  match organize_directory fuel root_path t_mode fs with
  | Ok _ fs' | Throw _ fs' => fs_status (path_append root_path h) fs' = Some (Dir a0 es0)
  | OutOfFuel => True
  end.
Proof.
  intros Hwf Hg Hh Hs. unfold fs_status in *.
  rewrite (resolve_append_good root_path h Hg) in *.
  unfold organize_directory.
  destruct (negb _); [exact Hs |].
  apply organize_loop_hidden; [exact Hh | exact Hwf | exact Hs |].
  constructor; [|constructor]. exists []. constructor.
Qed.

Lemma organize_directory_skips_hidden_directory_witness :
  exists res fs',
    organize_directory 5 "root" transfer_mode.atomic_transfer_mode fs_with_hidden
    = Ok res fs' /\
    fs_status "root/Image Files/a.png" fs' = Some (File None "a") /\
    fs_status (path_append "root" ".git") fs'
    = Some (Dir plain [("config", File None "c"); ("a.png", File None "g")]).
Proof.
  pose proof (organize_directory_skips_hidden_directory
                5 "root" transfer_mode.atomic_transfer_mode fs_with_hidden ".git"
                plain [("config", File None "c"); ("a.png", File None "g")]) as H.
  destruct (organize_directory 5 "root" transfer_mode.atomic_transfer_mode fs_with_hidden)
    as [res fs'| |] eqn:E.
  - exists res, fs'. split; [reflexivity |]. split.
    + vm_compute in E. injection E as _ <-. reflexivity.
    + apply H; [apply wfb_sound; vm_compute; reflexivity | reflexivity ..].
  - vm_compute in E. discriminate E.
  - vm_compute in E. discriminate E.
Defined.

(* ================================================================== *)
(** ** No file is lost *)
(* ================================================================== *)

Lemma count_dir x a es : count_data x (Dir a es) = count_entries x es.
Proof. simpl. induction es as [|e es IH]; simpl; [reflexivity | now rewrite IH]. Qed.

Lemma count_assoc_update x c (g : node -> node) es m :
  map_find c es = Some m ->
  count_entries x (assoc_update c g es) + count_data x m
  = count_entries x es + count_data x (g m).
Proof.
  induction es as [|[k v] es IH]; simpl; [discriminate |].
  destruct (String.eqb c k).
  - intros [= ->]. simpl. lia.
  - intros H. specialize (IH H). simpl. lia.
Qed.

(** The count after the entries of one directory have been rewritten. *)
Lemma count_update x d f fs a es :
  walk d fs = Some (Dir a es) ->
  count_data x (update_dir d f fs) + count_entries x es
  = count_data x fs + count_entries x (f es).
Proof.
  revert fs. induction d as [|c d IH]; intros fs Hd.
  - simpl in Hd. injection Hd as ->. change (update_dir [] f (Dir a es)) with (Dir a (f es)).
    rewrite !count_dir. lia.
  - destruct fs as [? ?|a0 es0]; [discriminate Hd |]. simpl in Hd.
    destruct (map_find c es0) as [m|] eqn:Hm; [|discriminate Hd].
    change (update_dir (c :: d) f (Dir a0 es0))
      with (Dir a0 (assoc_update c (update_dir d f) es0)).
    rewrite !count_dir.
    pose proof (count_assoc_update x c (update_dir d f) es0 m Hm).
    pose proof (IH m Hd). lia.
Qed.

Lemma count_assoc_put_fresh x k v es :
  map_find k es = None ->
  count_entries x (assoc_put k v es) = count_entries x es + count_data x v.
Proof.
  induction es as [|[k' v'] es IH]; simpl; [lia |].
  destruct (String.eqb k k'); [discriminate |].
  intros H. simpl. rewrite (IH H). lia.
Qed.

Lemma count_assoc_put_over x k v es old :
  map_find k es = Some old ->
  count_entries x (assoc_put k v es) + count_data x old
  = count_entries x es + count_data x v.
Proof.
  induction es as [|[k' v'] es IH]; simpl; [discriminate |].
  destruct (String.eqb k k').
  - intros [= ->]. simpl. lia.
  - intros H. specialize (IH H). simpl. lia.
Qed.

Lemma assoc_del_absent k (es : list (string * node)) :
  ~ In k (List.map fst es) -> assoc_del k es = es.
Proof.
  unfold assoc_del. induction es as [|[k' v'] es IH]; simpl; [reflexivity |].
  intros H. destruct (String.eqb_spec k k') as [->|Hne].
  - exfalso. apply H. left. reflexivity.
  - simpl. rewrite IH; [reflexivity |]. intros Hin. apply H. right. exact Hin.
Qed.

Lemma count_assoc_del x k es old :
  List.NoDup (List.map fst es) -> map_find k es = Some old ->
  count_entries x (assoc_del k es) + count_data x old = count_entries x es.
Proof.
  induction es as [|[k' v'] es IH]; simpl; [discriminate |].
  intros Hnd. apply List.NoDup_cons_iff in Hnd as [Hnotin Hnd].
  unfold assoc_del. simpl. destruct (String.eqb_spec k k') as [->|Hne].
  - intros [= ->]. simpl.
    change (List.filter (fun e : string * node => negb (String.eqb k' (fst e))) es)
      with (assoc_del k' es).
    rewrite (assoc_del_absent k' es Hnotin). lia.
  - intros H. simpl. specialize (IH Hnd H). unfold assoc_del in IH. lia.
Qed.

Lemma put_fresh_count x d k v fs a es :
  walk d fs = Some (Dir a es) -> map_find k es = None ->
  count_data x (update_dir d (assoc_put k v) fs) = count_data x fs + count_data x v.
Proof.
  intros Hd Hk. pose proof (count_update x d (assoc_put k v) fs a es Hd) as H.
  rewrite (count_assoc_put_fresh x k v es Hk) in H. lia.
Qed.

Lemma put_over_count x d k v fs a es old :
  walk d fs = Some (Dir a es) -> map_find k es = Some old ->
  count_data x (update_dir d (assoc_put k v) fs) + count_data x old
  = count_data x fs + count_data x v.
Proof.
  intros Hd Hk. pose proof (count_update x d (assoc_put k v) fs a es Hd) as H.
  pose proof (count_assoc_put_over x k v es old Hk). lia.
Qed.

Lemma del_count x d k fs a es old :
  wf fs -> walk d fs = Some (Dir a es) -> map_find k es = Some old ->
  count_data x (update_dir d (assoc_del k) fs) + count_data x old = count_data x fs.
Proof.
  intros Hwf Hd Hk. pose proof (count_update x d (assoc_del k) fs a es Hd) as H.
  pose proof (count_assoc_del x k es old (proj1 (Hwf _ _ _ Hd)) Hk). lia.
Qed.

Lemma create_directory_count x p fs st fs1 :
  create_directory p fs = Ok st fs1 -> count_data x fs1 = count_data x fs.
Proof.
  intros E.
  destruct (create_directory_cases p fs)
    as [[_ E'] | [(_ & st' & E' & _) | (_ & d & k & a & es & _ & Hd & Hk & E')]];
    rewrite E' in E; injection E as _ <-; try reflexivity.
  rewrite (put_fresh_count x d k _ fs a es Hd Hk). simpl. lia.
Qed.

(** Neither transfer loses bytes; the rename does not copy any. *)
Lemma transfer_count t_mode cur n dest fs r x0 st fs' x :
  good_name n = true -> wf fs ->
  fs_status (path_append cur n) fs = Some (File r x0) ->
  match t_mode with
  | transfer_mode.atomic_transfer_mode =>
      atomic_file_transfer (path_append cur n) dest fs
  | transfer_mode.fallback_transfer_mode =>
      fallback_transfer (path_append cur n) dest fs
  end = Ok st fs' ->
  count_data x fs <= count_data x fs' /\
  (t_mode = transfer_mode.atomic_transfer_mode -> count_data x fs' = count_data x fs).
Proof.
  intros Hg Hwf Hs E.
  pose proof (path_filename_append_good cur n Hg) as Hname.
  destruct (get_unique_path_leaf dest n fs Hg) as (leaf & Eg & Hleaf & _ & Hfree).
  pose proof (resolve_append_good dest leaf Hleaf) as Ep.
  pose proof (resolve_append_good cur n Hg) as Es.
  destruct t_mode.
  - unfold atomic_file_transfer, try_catch, bind in E. rewrite Hname, Eg in E.
    destruct (fs_rename_file_to_free _ (path_append dest leaf) fs r x0 Hs Hfree)
      as [[e R] | (od & on & nd & nn & oa & oes & na & nes
                   & Es' & Ep' & Hod & Hon & Hnd & Hnn & R)]; rewrite R in E.
    + assert (fs' = fs) as ->; [|split; [lia | reflexivity]].
      destruct (errc.eqb e errc.permission_denied);
        [|destruct (errc.eqb e errc.cross_device_link)]; injection E as _ <-; reflexivity.
    + injection E as _ <-.
      set (mid := update_dir od (assoc_del on) fs).
      pose proof (del_count x od on fs oa oes _ Hwf Hod Hon) as Hdel. fold mid in Hdel.
      destruct (dir_survives_entry (assoc_del on) on od nd fs na nes
                  (touches_only_del on) Hnd
                  (src_not_above_dest fs od nd on oa na oes nes r x0 Hod Hon Hnd))
        as (nes' & Hnd'). fold mid in Hnd'.
      assert (Hnn' : map_find nn nes' = None).
      { pose proof (frame_entry (assoc_del on) on od (nd ++ [nn]) fs
                      (touches_only_del on)
                      (new_not_above_src_dir fs od nd nn oa na oes nes Hod Hnd Hnn)
                      (src_not_above_new fs od nd on nn oa na oes nes r x0
                         Hod Hon Hnd Hnn)) as Hfr.
        fold mid in Hfr. rewrite (walk_child _ _ _ _ _ _ Hnd Hnn) in Hfr.
        rewrite walk_app, Hnd' in Hfr. simpl in Hfr.
        destruct (map_find nn nes'); [discriminate Hfr | reflexivity]. }
      rewrite (put_fresh_count x nd nn _ mid na nes' Hnd' Hnn').
      split; [lia | intros _; lia].
  - split; [|discriminate].
    unfold fallback_transfer, try_catch, bind in E. rewrite Hname, Eg in E.
    destruct (fs_copy_file_to_free (path_append cur n) (path_append dest leaf) fs Hfree)
      as [[e R] | (y & nd & nn & na & nes & Hs' & Ep' & Hnd & Hnn & R)]; rewrite R in E.
    { assert (fs' = fs) as ->; [|lia].
      destruct (errc.eqb e errc.permission_denied); injection E as _ <-; reflexivity. }
    set (fs1 := update_dir nd (assoc_put nn (File None y)) fs) in *.
    pose proof (put_fresh_count x nd nn (File None y) fs na nes Hnd Hnn) as Hput.
    fold fs1 in Hput.
    rewrite Ep in Ep'. apply app_inj_tail in Ep' as [<- <-].
    assert (Hwf1 : wf fs1) by (apply (wf_put _ _ _ _ _ _ Hwf Hnd Hleaf); apply wf_file).
    unfold fs_status in Hs'. rewrite Es in Hs'.
    destruct (walk_child_inv _ _ _ _ Hs') as (oa & oes & Hod & Hon).
    pose proof (copied_old _ _ _ _ _ _ _ _ _ _ _ Hod Hon Hnd Hnn (File None y)) as Hs1.
    fold fs1 in Hs1.
    destruct (walk_child_inv _ _ _ _ Hs1) as (oa1 & oes1 & Hod1 & Hon1).
    destruct (fs_remove_file (path_append cur n) _ _ _ _ _ _ _ Es Hod1 Hon1)
      as [[e R'] | R']; rewrite R' in E.
    + assert (fs' = fs1) as ->; [|lia].
      destruct (errc.eqb e errc.permission_denied); injection E as _ <-; reflexivity.
    + injection E as _ <-.
      pose proof (del_count x _ _ fs1 _ _ _ Hwf1 Hod1 Hon1) as Hdel. lia.
Qed.

Lemma handle_file_wf cur n t_mode fs r x st fs2 :
  good_name n = true -> wf fs ->
  fs_status (path_append cur n) fs = Some (File r x) ->
  handle_file cur (path_append cur n) t_mode fs = Ok st fs2 -> wf fs2.
Proof.
  intros Hg Hwf Hs E.
  destruct (handle_file_edits cur n t_mode fs r x st fs2 Hg Hs E) as (edits & -> & Hall).
  apply apply_edits_wf; [exact Hwf |].
  eapply List.Forall_impl; [|exact Hall].
  intros e [_ [-> | [(a & ->) | (leaf & r' & x' & Hleaf & ->)]]].
  - exact I.
  - split; [apply classify_good | apply wf_empty_dir].
  - split; [exact Hleaf | apply wf_file].
Qed.

(** [handle_file] loses no bytes, and in atomic mode copies none. *)
Lemma handle_file_count cur n t_mode fs r x0 st fs2 x :
  good_name n = true -> wf fs ->
  fs_status (path_append cur n) fs = Some (File r x0) ->
  handle_file cur (path_append cur n) t_mode fs = Ok st fs2 ->
  count_data x fs <= count_data x fs2 /\
  (t_mode = transfer_mode.atomic_transfer_mode -> count_data x fs2 = count_data x fs).
Proof.
  intros Hg Hwf Hs E. unfold handle_file, get_parent_folder_name in E.
  rewrite (classify_append cur n Hg) in E.
  set (cat := classify_file_by_extension n) in *.
  destruct (String.eqb cat (path_filename cur)).
  { injection E as _ <-. split; [lia | reflexivity]. }
  destruct (alias_of_category (path_filename cur) cat).
  { injection E as _ <-. split; [lia | reflexivity]. }
  set (dest := path_append (base_location cur cat) cat) in *.
  assert (Edest : resolve dest = resolve (base_location cur cat) ++ [cat])
    by exact (resolve_append_good _ cat (classify_good n)).
  unfold bind in E.
  destruct (create_directory dest fs) as [cr fs1| |] eqn:Ec; try discriminate E.
  pose proof (create_directory_keeps_files _ _ _ _ _ _ _ Ec Hs) as Hs1.
  pose proof (create_directory_count x _ _ _ _ Ec) as Hc.
  destruct (create_directory_look _ _ _ _ _ _ Hwf Edest (classify_good n) Ec) as [Hwf1 _].
  assert (Ht : exists st',
             match t_mode with
             | transfer_mode.atomic_transfer_mode =>
                 atomic_file_transfer (path_append cur n) dest fs1
             | transfer_mode.fallback_transfer_mode =>
                 fallback_transfer (path_append cur n) dest fs1
             end = Ok st' fs2).
  { destruct t_mode.
    - destruct (atomic_file_transfer _ dest fs1) as [st' fs'| |]; try discriminate E.
      injection E as _ <-. eauto.
    - destruct (fallback_transfer _ dest fs1) as [st' fs'| |]; try discriminate E.
      injection E as _ <-. eauto. }
  destruct Ht as (st' & Et).
  destruct (transfer_count t_mode cur n dest fs1 r x0 st' fs2 x Hg Hwf1 Hs1 Et)
    as [H1 H2].
  split; [lia |]. intros Hm. rewrite (H2 Hm). exact Hc.
Qed.

Lemma sources_not_files_start fs cur names :
  (forall n, In n names -> good_name n = true) ->
  sources_not_files cur (fold_left (scan_entry fs cur) names []) fs.
Proof.
  intros Hgood c v n0 Hin Ev Hn0.
  destruct (scan_firsts_are_directories _ _ _ _ _ Hgood Hin)
    as (n1 & Ev1 & Hn1 & _ & _ & _ & _ & H).
  assert (n0 = n1) as ->; [|exact H].
  rewrite <- (path_filename_append_good cur n0 Hn0), <- Ev, Ev1.
  apply path_filename_append_good, Hn1.
Qed.

Lemma sources_not_files_step fs cur names cv fs1 fs2 :
  (forall n, In n names -> good_name n = true) ->
  In cv (fold_left (scan_entry fs cur) names []) ->
  sources_not_files cur (fold_left (scan_entry fs cur) names []) fs1 ->
  rename_to_canonical cv fs1 = Ok tt fs2 ->
  sources_not_files cur (fold_left (scan_entry fs cur) names []) fs2.
Proof.
  intros Hgood Hin HQ1 E1 c' v' n' Hin' Ev' Hn' r x. destruct cv as [c v].
  destruct (scan_firsts_are_directories _ _ _ _ _ Hgood Hin)
    as (n0 & -> & Hn0 & Hc & Hc1 & _).
  destruct (scan_firsts_are_directories _ _ _ _ _ Hgood Hin')
    as (n1 & Ev1 & Hn1 & _ & _ & Hnc1 & _).
  assert (n' = n1) as ->.
  { rewrite <- (path_filename_append_good cur n' Hn'), <- Ev', Ev1.
    apply path_filename_append_good, Hn1. }
  refine (rename_to_canonical_keeps_nonfile cur c n0 n1 fs1 fs2 Hn0 Hc _ _ E1 r x).
  - intros ->. exact (Hnc1 Hc1).
  - exact (HQ1 c' v' n1 Hin' Ev' Hn').
Qed.

(** The renames of [normalize_category_folder] keep the tree well formed
    and keep the number of files of every content. *)
Lemma normalize_count cur fs fs1 :
  wf fs -> normalize_category_folder cur fs = Ok tt fs1 ->
  wf fs1 /\ forall x, count_data x fs1 = count_data x fs.
Proof.
  intros Hwf E. unfold normalize_category_folder, bind in E.
  destruct (fs_list cur fs) as [names fs0| |] eqn:Hl; try discriminate E.
  destruct (fs_list_names _ _ _ _ Hwf Hl) as [-> Hgood].
  set (m := fold_left (scan_entry fs cur) names []) in *.
  assert (Hinv : (wf fs1 /\ forall x, count_data x fs1 = count_data x fs) /\
                 sources_not_files cur m fs1).
  2:{ exact (proj1 Hinv). }
  refine (for_each_rename_invariant
            (fun fs1 => (wf fs1 /\ forall x, count_data x fs1 = count_data x fs) /\
                        sources_not_files cur m fs1)
            m fs fs1 _ _ E).
  { split; [split; [exact Hwf | reflexivity] |].
    exact (sources_not_files_start fs cur names Hgood). }
  intros [c v] fa fb Hin [[Hwfa Hca] HQ] Er.
  split; [|exact (sources_not_files_step fs cur names _ fa fb Hgood Hin HQ Er)].
  destruct (scan_firsts_are_directories _ _ _ _ _ Hgood Hin)
    as (n0 & -> & Hn0 & Hc & _).
  pose proof (HQ c _ n0 Hin eq_refl Hn0) as Hnf.
  destruct (rename_to_canonical_cases _ _ _ _ _ Hn0 Hc Er)
    as [-> | (a & es & src & Hne & Hd & Hsrc & Hm & ->)]; [split; assumption |].
  pose proof (walk_child _ _ _ _ _ _ Hd Hsrc) as Hwsrc.
  destruct src as [sr sx|sa ses]; [exact (False_ind _ (Hnf sr sx Hwsrc)) |].
  set (mid := update_dir (resolve cur) (assoc_del n0) fa).
  assert (Hwfm : wf mid) by (apply wf_del; exact Hwfa).
  assert (Hdm : walk (resolve cur) mid = Some (Dir a (assoc_del n0 es)))
    by exact (level_after_update _ _ _ _ _ Hd).
  assert (Hcm : map_find c (assoc_del n0 es) = map_find c es)
    by exact (map_find_del_other n0 c es Hne).
  split.
  - apply (wf_put _ _ _ _ _ _ Hwfm Hdm Hc). exact (wf_sub _ _ _ Hwfa Hwsrc).
  - intros x. rewrite <- Hca.
    pose proof (del_count x _ _ fa _ _ _ Hwfa Hd Hsrc) as Hdel. fold mid in Hdel.
    destruct (map_find c es) as [[? ?|ta [|? ?]]|] eqn:Hc'; try (exact (False_ind _ Hm)).
    + pose proof (put_over_count x _ c (Dir sa ses) mid _ _ _ Hdm
                    (eq_trans Hcm eq_refl)) as Hput.
      simpl count_data at 2 in Hput. lia.
    + rewrite (put_fresh_count x _ c (Dir sa ses) mid _ _ Hdm Hcm). lia.
Qed.

Lemma for_entries_count s t_mode names :
  (forall n, In n names -> good_name n = true) ->
  forall st fs,
    wf fs ->
    exists r st' fs',
      for_entries s t_mode names st fs = Ok (r, st') fs' /\
      wf fs' /\
      forall x, count_data x fs <= count_data x fs' /\
                (t_mode = transfer_mode.atomic_transfer_mode ->
                 count_data x fs' = count_data x fs).
Proof.
  induction names as [|n names IH]; intros Hgood st fs Hwf.
  { exists None, st, fs. split; [reflexivity |]. split; [exact Hwf |].
    intros x. split; [lia | reflexivity]. }
  pose proof (Hgood n (or_introl eq_refl)) as Hg.
  assert (Hgood' : forall k, In k names -> good_name k = true)
    by (intros k Hk; apply Hgood; right; exact Hk).
  destruct (fs_is_regular_file (path_append s n) fs) eqn:Hf.
  - assert (Hs : exists r x, fs_status (path_append s n) fs = Some (File r x)).
    { unfold fs_is_regular_file in Hf.
      destruct (fs_status (path_append s n) fs) as [[r x|? ?]|];
        [eauto | discriminate Hf | discriminate Hf]. }
    destruct Hs as (r & x0 & Hs).
    destruct (handle_file_status s (path_append s n) t_mode fs) as (st1 & fs1 & Eh & _).
    pose proof (handle_file_wf s n t_mode fs r x0 st1 fs1 Hg Hwf Hs Eh) as Hwf1.
    pose proof (fun x => handle_file_count s n t_mode fs r x0 st1 fs1 x Hg Hwf Hs Eh)
      as Hc1.
    assert (Hnext : forall st2,
               exists r st' fs',
                 for_entries s t_mode names st2 fs1 = Ok (r, st') fs' /\
                 wf fs' /\
                 forall x, count_data x fs <= count_data x fs' /\
                           (t_mode = transfer_mode.atomic_transfer_mode ->
                            count_data x fs' = count_data x fs)).
    { intros st2. destruct (IH Hgood' st2 fs1 Hwf1) as (r' & st' & fs' & E & Hwf' & Hc').
      exists r', st', fs'. split; [exact E |]. split; [exact Hwf' |].
      intros x. destruct (Hc1 x) as [A1 A2]. destruct (Hc' x) as [B1 B2].
      split; [lia |]. intros Hm. rewrite (B2 Hm). exact (A2 Hm). }
    destruct (organize_status_cases st1) as [[-> | ->] | [H1 H2]].
    + rewrite (for_entries_file s t_mode n names st fs _ fs1 Hf Eh (or_intror eq_refl)).
      apply Hnext.
    + rewrite (for_entries_file s t_mode n names st fs _ fs1 Hf Eh (or_introl eq_refl)).
      apply Hnext.
    + rewrite (for_entries_file_fails s t_mode n names st fs _ fs1 Hf Eh H2 H1).
      eexists; eexists; eexists. split; [reflexivity |]. split; [exact Hwf1 | exact Hc1].
  - destruct (fs_is_directory (path_append s n) fs) eqn:Hd.
    + rewrite (for_entries_directory s t_mode n names st fs Hf Hd).
      apply (IH Hgood'). exact Hwf.
    + rewrite (for_entries_other s t_mode n names st fs Hf Hd).
      apply (IH Hgood'). exact Hwf.
Qed.

Lemma organize_loop_count t_mode fuel :
  forall st fs,
    wf fs ->
    match organize_loop fuel t_mode st fs with
    | Ok _ fs' | Throw _ fs' =>
        forall x, count_data x fs <= count_data x fs' /\
                  (t_mode = transfer_mode.atomic_transfer_mode ->
                   count_data x fs' = count_data x fs)
    | OutOfFuel => True
    end.
Proof.
  induction fuel as [|fuel IH]; intros st fs Hwf; [exact I |].
  cbn [organize_loop]. destruct (directories st) as [|cur rest].
  { intros x. split; [simpl; lia | reflexivity]. }
  unfold bind.
  destruct (normalize_category_folder cur fs) as [[] fs1|e fs1|] eqn:En; [| |exact I].
  2:{ rewrite (normalize_throws_unchanged _ _ _ _ En).
      intros x. split; [lia | reflexivity]. }
  destruct (normalize_count cur fs fs1 Hwf En) as [Hwf1 Hc1].
  destruct (fs_list cur fs1) as [names fs2|e fs2|] eqn:El; [| |exact I].
  2:{ rewrite (fs_list_throws _ _ _ _ El).
      intros x. rewrite Hc1. split; [lia | reflexivity]. }
  destruct (fs_list_names _ _ _ _ Hwf1 El) as [-> Hgood].
  destruct (for_entries_count cur t_mode names Hgood
              {| directories := rest; handled := handled st |} fs1 Hwf1)
    as (r & st' & fs' & -> & Hwf' & Hc').
  assert (Hc : forall x, count_data x fs <= count_data x fs' /\
                         (t_mode = transfer_mode.atomic_transfer_mode ->
                          count_data x fs' = count_data x fs)).
  { intros x. destruct (Hc' x) as [A1 A2]. rewrite <- (Hc1 x).
    split; [exact A1 | exact A2]. }
  destruct r as [s|]; [exact Hc |].
  specialize (IH st' fs' Hwf').
  destruct (organize_loop fuel t_mode st' fs') as [res fs3|e fs3|]; [| |exact I];
    intros x; destruct (Hc x) as [A1 A2]; destruct (IH x) as [B1 B2];
    (split; [lia | intros Hm; rewrite (B2 Hm); exact (A2 Hm)]).
Qed.

(** X19: [organize_directory] loses no file.  In a tree whose directories
    list each name once, whenever it returns a status or throws, the number
    of regular files holding any given bytes is at least what it was; in
    atomic mode it is exactly what it was, no file being copied. *)
Theorem organize_directory_loses_no_file
        (fuel : nat) (root_path : string) (t_mode : transfer_mode.t) (fs : node) :
  wf fs ->
  match organize_directory fuel root_path t_mode fs with
  | Ok _ fs' | Throw _ fs' =>
      forall x, count_data x fs <= count_data x fs' /\
                (t_mode = transfer_mode.atomic_transfer_mode ->
                 count_data x fs' = count_data x fs)
  | OutOfFuel => True
  end.
Proof.
  intros Hwf. unfold organize_directory.
  destruct (negb _); [intros x; split; [lia | reflexivity] |].
  apply organize_loop_count. exact Hwf.
Qed.

Lemma organize_directory_loses_no_file_witness :
  exists res fs',
    organize_directory 5 "root" transfer_mode.atomic_transfer_mode fs_mixed
    = Ok res fs' /\
    fs_status "root/pics/notes.txt" fs' = None /\
    count_data "same" fs' = 2 /\ count_data "old" fs' = 1 /\ count_data "s" fs' = 1.
Proof.
  pose proof (organize_directory_loses_no_file
                5 "root" transfer_mode.atomic_transfer_mode fs_mixed) as H.
  destruct (organize_directory 5 "root" transfer_mode.atomic_transfer_mode fs_mixed)
    as [res fs'| |] eqn:E.
  - assert (Hwf : wf fs_mixed) by (apply wfb_sound; vm_compute; reflexivity).
    exists res, fs'. split; [reflexivity |]. split.
    + vm_compute in E. injection E as _ <-. reflexivity.
    + split; [|split]; apply (H Hwf); reflexivity.
  - vm_compute in E. discriminate E.
  - vm_compute in E. discriminate E.
Defined.

(* ================================================================== *)
(** ** The walk ends *)
(* ================================================================== *)

Lemma tsize_dir a es : tsize (Dir a es) = S (esum es).
Proof. reflexivity. Qed.

Lemma esum_assoc_update c (g : node -> node) es m :
  map_find c es = Some m ->
  esum (assoc_update c g es) + tsize m = esum es + tsize (g m).
Proof.
  induction es as [|[k v] es IH]; simpl; [discriminate |].
  destruct (String.eqb c k).
  - intros [= ->]. simpl. lia.
  - intros H. specialize (IH H). simpl. lia.
Qed.

Lemma tsize_update d f fs a es :
  walk d fs = Some (Dir a es) ->
  tsize (update_dir d f fs) + esum es = tsize fs + esum (f es).
Proof.
  revert fs. induction d as [|c d IH]; intros fs Hd.
  - simpl in Hd. injection Hd as ->. change (update_dir [] f (Dir a es)) with (Dir a (f es)).
    rewrite !tsize_dir. lia.
  - destruct fs as [? ?|a0 es0]; [discriminate Hd |]. simpl in Hd.
    destruct (map_find c es0) as [m|] eqn:Hm; [|discriminate Hd].
    change (update_dir (c :: d) f (Dir a0 es0))
      with (Dir a0 (assoc_update c (update_dir d f) es0)).
    rewrite !tsize_dir.
    pose proof (esum_assoc_update c (update_dir d f) es0 m Hm).
    pose proof (IH m Hd). lia.
Qed.

Lemma esum_put_fresh k v es :
  map_find k es = None -> esum (assoc_put k v es) = esum es + tsize v.
Proof.
  induction es as [|[k' v'] es IH]; simpl; [lia |].
  destruct (String.eqb k k'); [discriminate |].
  intros H. simpl. rewrite (IH H). lia.
Qed.

Lemma esum_put_le k v es : esum (assoc_put k v es) <= esum es + tsize v.
Proof.
  induction es as [|[k' v'] es IH]; simpl; [lia |].
  destruct (String.eqb k k'); simpl; lia.
Qed.

Lemma esum_del k es old :
  List.NoDup (List.map fst es) -> map_find k es = Some old ->
  esum (assoc_del k es) + tsize old = esum es.
Proof.
  induction es as [|[k' v'] es IH]; simpl; [discriminate |].
  intros Hnd. apply List.NoDup_cons_iff in Hnd as [Hnotin Hnd].
  unfold assoc_del. simpl. destruct (String.eqb_spec k k') as [->|Hne].
  - intros [= ->]. simpl.
    change (List.filter (fun e : string * node => negb (String.eqb k' (fst e))) es)
      with (assoc_del k' es).
    rewrite (assoc_del_absent k' es Hnotin). lia.
  - intros H. simpl. specialize (IH Hnd H). unfold assoc_del in IH. lia.
Qed.

(** The directories below the entries of a level, entry by entry. *)
Lemma esum_names C fs a es :
  walk C fs = Some (Dir a es) -> List.NoDup (List.map fst es) ->
  stack_size fs (List.map (fun n => C ++ [n]) (List.map fst es)) = esum es.
Proof.
  intros Hd Hnd.
  assert (H : forall l, (forall k v, In (k, v) l -> map_find k es = Some v) ->
                        stack_size fs (List.map (fun n => C ++ [n]) (List.map fst l))
                        = esum l).
  { induction l as [|[k v] l IH]; intros Hl; [reflexivity |].
    simpl. rewrite IH by (intros k' v' Hin; apply Hl; right; exact Hin).
    unfold tsize_at.
    rewrite (walk_child _ _ _ _ _ _ Hd (Hl k v (or_introl eq_refl))). reflexivity. }
  apply H. intros k v Hin. exact (map_find_in k v es Hnd Hin).
Qed.

Lemma tsize_at_update d f k fs a es q :
  walk d fs = Some (Dir a es) -> touches_only f k ->
  (q `prefix_of` d -> esum (f es) = esum es) ->
  (forall rest, q = d ++ k :: rest ->
                tsize_at q (update_dir d f fs) = tsize_at q fs) ->
  tsize_at q (update_dir d f fs) = tsize_at q fs.
Proof.
  intros Hd Ht Hsum Hunder.
  destruct (decide (q `prefix_of` d)) as [Hp|Hnp].
  - specialize (Hsum Hp). destruct Hp as [d' ->].
    unfold tsize_at. rewrite walk_update_above. rewrite walk_app in Hd.
    destruct (walk q fs) as [m|]; [|discriminate Hd]. simpl.
    pose proof (tsize_update d' f m a es Hd). lia.
  - destruct (decide ((d ++ [k]) `prefix_of` q)) as [Hp|Hnp2].
    + destruct (prefix_snoc_inv _ _ _ Hp) as [rest ->]. apply (Hunder rest). reflexivity.
    + unfold tsize_at. rewrite (frame_entry f k d q fs Ht Hnp Hnp2). reflexivity.
Qed.

Lemma stays_refl q fs : stays q fs fs.
Proof. split; reflexivity. Qed.

Lemma stays_trans q fs1 fs2 fs3 : stays q fs1 fs2 -> stays q fs2 fs3 -> stays q fs1 fs3.
Proof. intros [A1 A2] [B1 B2]. split; [now rewrite B1 | now rewrite B2]. Qed.

(** A new regular file changes nothing that was there. *)
Lemma put_file_stays d k r x fs a es q :
  walk d fs = Some (Dir a es) -> map_find k es = None -> look q fs <> None ->
  stays q fs (update_dir d (assoc_put k (File r x)) fs).
Proof.
  intros Hd Hk Hq. split.
  - assert (Hld : look d fs = Some (KDir a)) by (unfold look; rewrite Hd; reflexivity).
    assert (Hlk : look (d ++ [k]) fs = None)
      by (unfold look; rewrite (walk_child _ _ _ _ _ _ Hd Hk); reflexivity).
    rewrite (look_put_fresh d k (File r x) fs a q Hld Hlk (fun _ _ => eq_refl)).
    destruct (decide (q = d ++ [k])) as [->|_]; [|reflexivity].
    exact (False_ind _ (Hq Hlk)).
  - apply (tsize_at_update d _ k fs a es q Hd (touches_only_put k _)).
    + intros _. rewrite (esum_put_fresh k _ es Hk). simpl. lia.
    + intros rest ->. unfold tsize_at. rewrite (walk_put_under _ _ _ _ _ _ _ Hd).
      rewrite walk_app, Hd. simpl. rewrite Hk. destruct rest; reflexivity.
Qed.

(** Removing a regular file changes nothing else. *)
Lemma del_file_stays d k r x fs a es q :
  wf fs -> walk d fs = Some (Dir a es) -> map_find k es = Some (File r x) ->
  q <> d ++ [k] ->
  stays q fs (update_dir d (assoc_del k) fs).
Proof.
  intros Hwf Hd Hk Hq. split.
  - assert (Hlk : look (d ++ [k]) fs = Some KFile)
      by (unfold look; rewrite (walk_child _ _ _ _ _ _ Hd Hk); reflexivity).
    rewrite (look_del_file d k fs q Hlk).
    destruct (decide (q = d ++ [k])) as [E|_]; [exact (False_ind _ (Hq E)) | reflexivity].
  - apply (tsize_at_update d _ k fs a es q Hd (touches_only_del k)).
    + intros _. pose proof (esum_del k es _ (proj1 (Hwf d a es Hd)) Hk) as H.
      simpl in H. lia.
    + intros rest ->. unfold tsize_at. rewrite walk_del_under.
      rewrite walk_app, Hd. simpl. rewrite Hk. destruct rest; reflexivity.
Qed.

(** A new empty directory counts only for the levels it is in. *)
Lemma put_dir_stays d k a' fs a es q :
  walk d fs = Some (Dir a es) -> map_find k es = None ->
  ~ q `prefix_of` (d ++ [k]) ->
  stays q fs (update_dir d (assoc_put k (Dir a' [])) fs).
Proof.
  intros Hd Hk Hq. split.
  - assert (Hld : look d fs = Some (KDir a)) by (unfold look; rewrite Hd; reflexivity).
    assert (Hlk : look (d ++ [k]) fs = None)
      by (unfold look; rewrite (walk_child _ _ _ _ _ _ Hd Hk); reflexivity).
    rewrite (look_put_fresh d k (Dir a' []) fs a q Hld Hlk (fun _ _ => eq_refl)).
    destruct (decide (q = d ++ [k])) as [->|_]; [|reflexivity].
    exfalso. apply Hq. reflexivity.
  - apply (tsize_at_update d _ k fs a es q Hd (touches_only_put k _)).
    + intros Hp. exfalso. apply Hq. apply (prefix_app_r q d [k]) in Hp. exact Hp.
    + intros rest ->. unfold tsize_at. rewrite (walk_put_under _ _ _ _ _ _ _ Hd).
      rewrite walk_app, Hd. simpl. rewrite Hk.
      destruct rest as [|c rest]; [|reflexivity].
      exfalso. apply Hq. reflexivity.
Qed.

Lemma transfer_stays t_mode cur n dest fs r x0 st fs' q :
  good_name n = true -> wf fs ->
  fs_status (path_append cur n) fs = Some (File r x0) ->
  match t_mode with
  | transfer_mode.atomic_transfer_mode =>
      atomic_file_transfer (path_append cur n) dest fs
  | transfer_mode.fallback_transfer_mode =>
      fallback_transfer (path_append cur n) dest fs
  end = Ok st fs' ->
  look q fs <> None -> q <> resolve cur ++ [n] ->
  stays q fs fs'.
Proof.
  intros Hg Hwf Hs E Hq Hne.
  pose proof (path_filename_append_good cur n Hg) as Hname.
  destruct (get_unique_path_leaf dest n fs Hg) as (leaf & Eg & Hleaf & _ & Hfree).
  pose proof (resolve_append_good dest leaf Hleaf) as Ep.
  pose proof (resolve_append_good cur n Hg) as Es.
  destruct t_mode.
  - unfold atomic_file_transfer, try_catch, bind in E. rewrite Hname, Eg in E.
    destruct (fs_rename_file_to_free _ (path_append dest leaf) fs r x0 Hs Hfree)
      as [[e R] | (od & on & nd & nn & oa & oes & na & nes
                   & Es' & Ep' & Hod & Hon & Hnd & Hnn & R)]; rewrite R in E.
    + assert (fs' = fs) as ->; [|apply stays_refl].
      destruct (errc.eqb e errc.permission_denied);
        [|destruct (errc.eqb e errc.cross_device_link)]; injection E as _ <-; reflexivity.
    + injection E as _ <-.
      set (mid := update_dir od (assoc_del on) fs).
      assert (Hne' : q <> od ++ [on]) by (rewrite <- Es', Es; exact Hne).
      pose proof (del_file_stays od on r x0 fs oa oes q Hwf Hod Hon Hne') as Hdel.
      fold mid in Hdel.
      destruct (dir_survives_entry (assoc_del on) on od nd fs na nes
                  (touches_only_del on) Hnd
                  (src_not_above_dest fs od nd on oa na oes nes r x0 Hod Hon Hnd))
        as (nes' & Hnd'). fold mid in Hnd'.
      assert (Hnn' : map_find nn nes' = None).
      { pose proof (frame_entry (assoc_del on) on od (nd ++ [nn]) fs
                      (touches_only_del on)
                      (new_not_above_src_dir fs od nd nn oa na oes nes Hod Hnd Hnn)
                      (src_not_above_new fs od nd on nn oa na oes nes r x0
                         Hod Hon Hnd Hnn)) as Hfr.
        fold mid in Hfr. rewrite (walk_child _ _ _ _ _ _ Hnd Hnn) in Hfr.
        rewrite walk_app, Hnd' in Hfr. simpl in Hfr.
        destruct (map_find nn nes'); [discriminate Hfr | reflexivity]. }
      apply (stays_trans q fs mid _ Hdel).
      apply (put_file_stays nd nn r x0 mid na nes' q Hnd' Hnn').
      rewrite (proj1 Hdel). exact Hq.
  - unfold fallback_transfer, try_catch, bind in E. rewrite Hname, Eg in E.
    destruct (fs_copy_file_to_free (path_append cur n) (path_append dest leaf) fs Hfree)
      as [[e R] | (y & nd & nn & na & nes & Hs' & Ep' & Hnd & Hnn & R)]; rewrite R in E.
    { assert (fs' = fs) as ->; [|apply stays_refl].
      destruct (errc.eqb e errc.permission_denied); injection E as _ <-; reflexivity. }
    set (fs1 := update_dir nd (assoc_put nn (File None y)) fs) in *.
    pose proof (put_file_stays nd nn None y fs na nes q Hnd Hnn Hq) as Hput.
    fold fs1 in Hput.
    rewrite Ep in Ep'. apply app_inj_tail in Ep' as [<- <-].
    assert (Hwf1 : wf fs1) by (apply (wf_put _ _ _ _ _ _ Hwf Hnd Hleaf); apply wf_file).
    unfold fs_status in Hs'. rewrite Es in Hs'.
    destruct (walk_child_inv _ _ _ _ Hs') as (oa & oes & Hod & Hon).
    pose proof (copied_old _ _ _ _ _ _ _ _ _ _ _ Hod Hon Hnd Hnn (File None y)) as Hs1.
    fold fs1 in Hs1.
    destruct (walk_child_inv _ _ _ _ Hs1) as (oa1 & oes1 & Hod1 & Hon1).
    destruct (fs_remove_file (path_append cur n) _ _ _ _ _ _ _ Es Hod1 Hon1)
      as [[e R'] | R']; rewrite R' in E.
    + assert (fs' = fs1) as ->; [|exact Hput].
      destruct (errc.eqb e errc.permission_denied); injection E as _ <-; reflexivity.
    + injection E as _ <-.
      apply (stays_trans q fs fs1 _ Hput).
      exact (del_file_stays _ _ _ _ fs1 _ _ q Hwf1 Hod1 Hon1 Hne).
Qed.

Lemma create_directory_stays p fs st fs1 q :
  create_directory p fs = Ok st fs1 ->
  (look (resolve p) fs = None -> ~ q `prefix_of` resolve p) ->
  stays q fs fs1.
Proof.
  intros E Hq.
  destruct (create_directory_cases p fs)
    as [[_ R] | [[_ (st' & R & _)] | [_ (d & n & a & es & Ep & Hd & Hn & R)]]];
    rewrite R in E; injection E as _ <-; try apply stays_refl.
  rewrite Ep in Hq. apply (put_dir_stays d n _ fs a es q Hd Hn). apply Hq.
  unfold look. rewrite (walk_child _ _ _ _ _ _ Hd Hn). reflexivity.
Qed.

(** What [handle_file] leaves as it is: everything that is there, the file
    apart, unless the category folder is created on its way. *)
Lemma handle_file_stays cur n t_mode fs r x0 st fs2 q :
  good_name n = true -> wf fs ->
  fs_status (path_append cur n) fs = Some (File r x0) ->
  handle_file cur (path_append cur n) t_mode fs = Ok st fs2 ->
  look q fs <> None -> q <> resolve cur ++ [n] ->
  (String.eqb (classify_file_by_extension n) (path_filename cur) = false ->
   look (resolve (base_location cur (classify_file_by_extension n))
         ++ [classify_file_by_extension n]) fs = None ->
   ~ q `prefix_of` (resolve (base_location cur (classify_file_by_extension n))
                    ++ [classify_file_by_extension n])) ->
  stays q fs fs2.
Proof.
  intros Hg Hwf Hs E Hq Hne Hpos. unfold handle_file, get_parent_folder_name in E.
  rewrite (classify_append cur n Hg) in E.
  set (cat := classify_file_by_extension n) in *.
  destruct (String.eqb cat (path_filename cur)).
  { injection E as _ <-. apply stays_refl. }
  specialize (Hpos eq_refl).
  destruct (alias_of_category (path_filename cur) cat).
  { injection E as _ <-. apply stays_refl. }
  set (dest := path_append (base_location cur cat) cat) in *.
  assert (Edest : resolve dest = resolve (base_location cur cat) ++ [cat])
    by exact (resolve_append_good _ cat (classify_good n)).
  unfold bind in E.
  destruct (create_directory dest fs) as [cr fs1| |] eqn:Ec; try discriminate E.
  pose proof (create_directory_keeps_files _ _ _ _ _ _ _ Ec Hs) as Hs1.
  assert (Hc : stays q fs fs1).
  { apply (create_directory_stays dest fs cr fs1 q Ec). rewrite Edest. exact Hpos. }
  destruct (create_directory_look _ _ _ _ _ _ Hwf Edest (classify_good n) Ec) as [Hwf1 _].
  assert (Ht : exists st',
             match t_mode with
             | transfer_mode.atomic_transfer_mode =>
                 atomic_file_transfer (path_append cur n) dest fs1
             | transfer_mode.fallback_transfer_mode =>
                 fallback_transfer (path_append cur n) dest fs1
             end = Ok st' fs2).
  { destruct t_mode.
    - destruct (atomic_file_transfer _ dest fs1) as [st' fs'| |]; try discriminate E.
      injection E as _ <-. eauto.
    - destruct (fallback_transfer _ dest fs1) as [st' fs'| |]; try discriminate E.
      injection E as _ <-. eauto. }
  destruct Ht as (st' & Et).
  apply (stays_trans q fs fs1 fs2 Hc).
  apply (transfer_stays t_mode cur n dest fs1 r x0 st' fs2 q Hg Hwf1 Hs1 Et); [|exact Hne].
  rewrite (proj1 Hc). exact Hq.
Qed.

Lemma prefix_snoc_cases {A : Type} (p D : list A) (k : A) :
  p `prefix_of` D ++ [k] -> p = D ++ [k] \/ p `prefix_of` D.
Proof.
  intros [r Hr]. destruct (snoc_cases r) as [-> | (r' & x & ->)].
  - left. rewrite app_nil_r in Hr. symmetry. exact Hr.
  - right. rewrite app_assoc in Hr. apply app_inj_tail in Hr as [-> _].
    exists r'. reflexivity.
Qed.

(** The category folder is not above an entry of the level. *)
Lemma tracked_child cur n' cat fs :
  look (resolve cur ++ [n']) fs <> None ->
  String.eqb cat (path_filename cur) = false ->
  look (resolve (base_location cur cat) ++ [cat]) fs = None ->
  ~ (resolve cur ++ [n']) `prefix_of` (resolve (base_location cur cat) ++ [cat]).
Proof.
  intros Hp He Hn Hpre. apply prefix_snoc_cases in Hpre as [E | Hpre].
  - rewrite E in Hp. exact (Hp Hn).
  - destruct (base_cases cur cat He) as [Eb | (_ & D & Ec & Eb)]; rewrite Eb in Hpre.
    + exact (not_prefix_below _ n' [] Hpre).
    + rewrite Ec, <- app_assoc in Hpre. exact (not_prefix_below D _ [n'] Hpre).
Qed.

(** Nor above a level apart from this one. *)
Lemma tracked_apart cur p cat fs :
  apart (resolve cur) p -> look p fs <> None ->
  String.eqb cat (path_filename cur) = false ->
  look (resolve (base_location cur cat) ++ [cat]) fs = None ->
  ~ p `prefix_of` (resolve (base_location cur cat) ++ [cat]).
Proof.
  intros [_ Ha] Hp He Hn Hpre. apply prefix_snoc_cases in Hpre as [E | Hpre].
  - rewrite E in Hp. exact (Hp Hn).
  - apply Ha.
    destruct (base_cases cur cat He) as [Eb | (_ & D & Ec & Eb)]; rewrite Eb in Hpre.
    + exact Hpre.
    + rewrite Ec. apply prefix_app_r. exact Hpre.
Qed.

Lemma side_tail C n names p : side C (n :: names) p -> side C names p.
Proof.
  intros [(n' & -> & Hn) | Ha]; [left | right; exact Ha].
  exists n'. split; [reflexivity |]. intros Hin. apply Hn. right. exact Hin.
Qed.

Lemma side_apart C n names p : side C (n :: names) p -> apart (C ++ [n]) p.
Proof.
  intros [(n' & -> & Hn) | [H1 H2]].
  - assert (Hne : n <> n') by (intros ->; apply Hn; left; reflexivity).
    split.
    + exact (not_prefix_sibling C n n' [] Hne).
    + apply (not_prefix_sibling C n' n []). intros E. exact (Hne (eq_sym E)).
  - split.
    + intros Hp. apply H1. exact (prefix_app_l _ _ _ Hp).
    + intros Hp. apply prefix_snoc_cases in Hp as [-> | Hp]; [|exact (H2 Hp)].
      apply H1. apply prefix_app_r. reflexivity.
Qed.

Lemma stack_size_app fs l1 l2 :
  stack_size fs (l1 ++ l2) = stack_size fs l1 + stack_size fs l2.
Proof. induction l1 as [|p l1 IH]; simpl; [reflexivity | rewrite IH; lia]. Qed.

Lemma stack_size_stays fs fs' l :
  Forall (fun q => stays q fs fs') l -> stack_size fs' l = stack_size fs l.
Proof.
  induction 1 as [|q l [_ Hq] _ IH]; simpl; [reflexivity | rewrite Hq, IH; reflexivity].
Qed.

Lemma stack_size_walk fs fs' l :
  Forall (fun q => walk q fs' = walk q fs) l -> stack_size fs' l = stack_size fs l.
Proof.
  induction 1 as [|q l Hq _ IH]; simpl; [reflexivity |].
  unfold tsize_at. rewrite Hq, IH. reflexivity.
Qed.

Lemma fs_list_level cur fs names fs' :
  fs_list cur fs = Ok names fs' ->
  fs' = fs /\ exists a es, walk (resolve cur) fs = Some (Dir a es) /\ names = List.map fst es.
Proof.
  unfold fs_list, fs_status.
  destruct (walk (resolve cur) fs) as [[? ?|a es]|]; try (intros H; discriminate H).
  destruct (d_open a); intros H; [discriminate H |].
  injection H as <- <-. split; [reflexivity |]. exists a, es. split; reflexivity.
Qed.

Lemma fs_list_returns cur fs : fs_list cur fs <> OutOfFuel.
Proof.
  unfold fs_list. destruct (fs_status cur fs) as [[? ?|a es]|];
    try destruct (d_open a); intros H; discriminate H.
Qed.

Lemma normalize_returns cur fs : normalize_category_folder cur fs <> OutOfFuel.
Proof.
  unfold normalize_category_folder, bind. pose proof (fs_list_returns cur fs) as Hl.
  destruct (fs_list cur fs) as [names fs0|e fs0|];
    [|intros H; discriminate H | exact (False_ind _ (Hl eq_refl))].
  destruct (for_each_rename_returns (fold_left (scan_entry fs0 cur) names []) fs0)
    as [fs' E].
  rewrite E. intros H; discriminate H.
Qed.

(** The alias renames of a level add no directory to it and leave the
    levels apart from it alone. *)
Lemma normalize_measure cur fs fs1 :
  wf fs -> normalize_category_folder cur fs = Ok tt fs1 ->
  wf fs1 /\ tsize_at (resolve cur) fs1 <= tsize_at (resolve cur) fs /\
  look (resolve cur) fs1 = look (resolve cur) fs /\
  forall q, apart (resolve cur) q -> walk q fs1 = walk q fs.
Proof.
  intros Hwf E. unfold normalize_category_folder, bind in E.
  destruct (fs_list cur fs) as [names fs0| |] eqn:Hl; try discriminate E.
  destruct (fs_list_names _ _ _ _ Hwf Hl) as [-> Hgood].
  set (m := fold_left (scan_entry fs cur) names []) in *.
  refine (for_each_rename_invariant
            (fun fs1 => wf fs1 /\ tsize_at (resolve cur) fs1 <= tsize_at (resolve cur) fs /\
                        look (resolve cur) fs1 = look (resolve cur) fs /\
                        forall q, apart (resolve cur) q -> walk q fs1 = walk q fs)
            m fs fs1 _ _ E).
  { split; [exact Hwf |]. split; [lia |]. split; reflexivity. }
  intros [c v] fa fb Hin (Hwfa & Hta & Hla & Hoa) Er.
  destruct (scan_firsts_are_directories _ _ _ _ _ Hgood Hin)
    as (n0 & -> & Hn0 & Hc & _).
  assert (Hout : forall q, apart (resolve cur) q -> walk q fb = walk q fs).
  { intros q Hq. rewrite <- (Hoa q Hq). destruct Hq as [H1 H2].
    exact (rename_to_canonical_outside cur c n0 fa fb q Hn0 Hc Er H2 H1). }
  destruct (rename_to_canonical_cases _ _ _ _ _ Hn0 Hc Er)
    as [-> | (a & es & src & Hne & Hd & Hsrc & _ & ->)];
    [split; [exact Hwfa | split; [exact Hta | split; [exact Hla | exact Hoa]]] |].
  pose proof (walk_child _ _ _ _ _ _ Hd Hsrc) as Hwsrc.
  set (mid := update_dir (resolve cur) (assoc_del n0) fa) in *.
  assert (Hwfm : wf mid) by (apply wf_del; exact Hwfa).
  assert (Hdm : walk (resolve cur) mid = Some (Dir a (assoc_del n0 es)))
    by exact (level_after_update _ _ _ _ _ Hd).
  pose proof (level_after_update _ (assoc_put c src) _ _ _ Hdm) as Hdb.
  split; [|split; [|split; [|exact Hout]]].
  - apply (wf_put _ _ _ _ _ _ Hwfm Hdm Hc). exact (wf_sub _ _ _ Hwfa Hwsrc).
  - unfold tsize_at in Hta |- *. rewrite Hdb. rewrite Hd in Hta.
    rewrite tsize_dir in Hta |- *.
    pose proof (esum_put_le c src (assoc_del n0 es)).
    pose proof (esum_del n0 es src (proj1 (Hwfa _ _ _ Hd)) Hsrc). lia.
  - rewrite <- Hla. unfold look. rewrite Hdb, Hd. reflexivity.
Qed.

(** Reading one level: the levels it pushes and the levels that waited
    hold together no more directories than before. *)
Lemma for_entries_measure cur t_mode M names :
  forall st fs,
    (forall n, In n names -> good_name n = true) ->
    List.NoDup names ->
    wf fs ->
    all_apart (List.map resolve (directories st)) ->
    Forall (fun p => (exists a, look p fs = Some (KDir a)) /\ side (resolve cur) names p)
           (List.map resolve (directories st)) ->
    Forall (fun q => look q fs <> None) (List.map (fun n => resolve cur ++ [n]) names) ->
    stack_size fs (List.map resolve (directories st))
    + stack_size fs (List.map (fun n => resolve cur ++ [n]) names) <= M ->
    exists r st' fs',
      for_entries cur t_mode names st fs = Ok (r, st') fs' /\
      (r = None ->
       wf fs' /\ stack_ok fs' (List.map resolve (directories st')) /\
       stack_size fs' (List.map resolve (directories st')) <= M).
Proof.
  induction names as [|n names IH]; intros st fs Hgood Hnd Hwf Hap Hstk Hpres Hm.
  { exists None, st, fs. split; [reflexivity |]. intros _. split; [exact Hwf |].
    split; [|simpl in Hm; lia]. split; [exact Hap |].
    apply (List.Forall_impl _ (fun p H => proj1 H) Hstk). }
  pose proof (Hgood n (or_introl eq_refl)) as Hg.
  assert (Hgood' : forall k, In k names -> good_name k = true)
    by (intros k Hk; apply Hgood; right; exact Hk).
  apply List.NoDup_cons_iff in Hnd as [Hnotin Hnd].
  pose proof (resolve_append_good cur n Hg) as Es.
  simpl in Hpres, Hm. apply List.Forall_cons_iff in Hpres as [Hpn Hpres].
  assert (Hstk' : forall fs1,
             Forall (fun p => look p fs1 = look p fs) (List.map resolve (directories st)) ->
             Forall (fun p => (exists a, look p fs1 = Some (KDir a)) /\
                              side (resolve cur) names p)
                    (List.map resolve (directories st))).
  { intros fs1 Hl. apply List.Forall_forall. intros p Hp.
    pose proof (proj1 (List.Forall_forall _ _) Hl p Hp) as E.
    destruct (proj1 (List.Forall_forall _ _) Hstk p Hp) as [(a & Ha) Hs].
    split; [exists a; rewrite E; exact Ha | exact (side_tail _ _ _ _ Hs)]. }
  assert (Hsame : Forall (fun p => look p fs = look p fs)
                         (List.map resolve (directories st)))
    by (apply List.Forall_forall; reflexivity).
  destruct (fs_is_regular_file (path_append cur n) fs) eqn:Hf.
  - assert (Hs : exists r x, fs_status (path_append cur n) fs = Some (File r x)).
    { unfold fs_is_regular_file in Hf.
      destruct (fs_status (path_append cur n) fs) as [[r x|? ?]|];
        [eauto | discriminate Hf | discriminate Hf]. }
    destruct Hs as (r & x0 & Hs).
    destruct (handle_file_status cur (path_append cur n) t_mode fs) as (st1 & fs1 & Eh & _).
    pose proof (handle_file_wf cur n t_mode fs r x0 st1 fs1 Hg Hwf Hs Eh) as Hwf1.
    assert (Hfile : look (resolve cur ++ [n]) fs = Some KFile).
    { unfold look. unfold fs_status in Hs. rewrite Es in Hs. rewrite Hs. reflexivity. }
    assert (Hs1 : Forall (fun p => stays p fs fs1) (List.map resolve (directories st))).
    { apply List.Forall_forall. intros p Hp.
      destruct (proj1 (List.Forall_forall _ _) Hstk p Hp) as [(a & Ha) Hside].
      assert (Hpn' : look p fs <> None) by (rewrite Ha; intros H; discriminate H).
      apply (handle_file_stays cur n t_mode fs r x0 st1 fs1 p Hg Hwf Hs Eh Hpn').
      - intros ->. rewrite Hfile in Ha. discriminate Ha.
      - intros He Hn. destruct Hside as [(n' & -> & _) | Hside].
        + exact (tracked_child cur n' _ fs Hpn' He Hn).
        + exact (tracked_apart cur p _ fs Hside Hpn' He Hn). }
    assert (Hs2 : Forall (fun p => stays p fs fs1)
                         (List.map (fun k => resolve cur ++ [k]) names)).
    { apply List.Forall_forall. intros p Hp.
      apply List.in_map_iff in Hp as (n' & <- & Hn').
      assert (Hpn' : look (resolve cur ++ [n']) fs <> None).
      { apply (proj1 (List.Forall_forall _ _) Hpres).
        apply List.in_map_iff. exists n'. split; [reflexivity | exact Hn']. }
      apply (handle_file_stays cur n t_mode fs r x0 st1 fs1 _ Hg Hwf Hs Eh Hpn').
      - intros E. apply app_inj_tail in E as [_ ->]. exact (Hnotin Hn').
      - intros He Hn. exact (tracked_child cur n' _ fs Hpn' He Hn). }
    assert (Hnext : forall st2,
               directories st2 = directories st ->
               exists r st' fs',
                 for_entries cur t_mode names st2 fs1 = Ok (r, st') fs' /\
                 (r = None ->
                  wf fs' /\ stack_ok fs' (List.map resolve (directories st')) /\
                  stack_size fs' (List.map resolve (directories st')) <= M)).
    { intros st2 Hd2. apply (IH st2 fs1 Hgood' Hnd Hwf1); rewrite ?Hd2.
      - exact Hap.
      - apply Hstk'. apply (List.Forall_impl _ (fun p H => proj1 H) Hs1).
      - apply List.Forall_forall. intros p Hp.
        rewrite (proj1 (proj1 (List.Forall_forall _ _) Hs2 p Hp)).
        exact (proj1 (List.Forall_forall _ _) Hpres p Hp).
      - rewrite (stack_size_stays _ _ _ Hs1), (stack_size_stays _ _ _ Hs2). lia. }
    destruct (organize_status_cases st1) as [[-> | ->] | [H1 H2]].
    + rewrite (for_entries_file cur t_mode n names st fs _ fs1 Hf Eh (or_intror eq_refl)).
      apply Hnext. reflexivity.
    + rewrite (for_entries_file cur t_mode n names st fs _ fs1 Hf Eh (or_introl eq_refl)).
      apply Hnext. reflexivity.
    + rewrite (for_entries_file_fails cur t_mode n names st fs _ fs1 Hf Eh H2 H1).
      eexists; eexists; eexists. split; [reflexivity |]. intros H; discriminate H.
  - destruct (fs_is_directory (path_append cur n) fs) eqn:Hd.
    + rewrite (for_entries_directory cur t_mode n names st fs Hf Hd).
      destruct (visible (path_filename (path_append cur n))).
      * apply (IH _ fs Hgood' Hnd Hwf); cbn [directories List.map]; rewrite ?Es.
        -- split; [|exact Hap].
           apply List.Forall_forall. intros p Hp.
           exact (side_apart _ _ _ _
                    (proj2 (proj1 (List.Forall_forall _ _) Hstk p Hp))).
        -- apply List.Forall_cons; [|exact (Hstk' fs Hsame)].
           split.
           ++ unfold fs_is_directory, fs_status in Hd. rewrite Es in Hd.
              unfold look.
              destruct (walk (resolve cur ++ [n]) fs) as [[? ?|a es]|];
                [discriminate Hd | exists a; reflexivity | discriminate Hd].
           ++ left. exists n. split; [reflexivity | exact Hnotin].
        -- exact Hpres.
        -- simpl. lia.
      * apply (IH st fs Hgood' Hnd Hwf Hap (Hstk' fs Hsame) Hpres). lia.
    + rewrite (for_entries_other cur t_mode n names st fs Hf Hd).
      apply (IH st fs Hgood' Hnd Hwf Hap (Hstk' fs Hsame) Hpres). lia.
Qed.


(* ================================================================== *)
(** ** Trees whose directories can all be listed *)
(* ================================================================== *)

Lemma listable_sub fs q n : listable fs -> walk q fs = Some n -> listable n.
Proof.
  intros Hl Hq q' a es H. apply (Hl (q ++ q') a es). rewrite walk_app, Hq. exact H.
Qed.

Lemma listable_file r x : listable (File r x).
Proof.
  intros q a es H. destruct (walk_file_nil _ _ _ _ H) as [_ E]. discriminate E.
Qed.

Lemma listable_empty_dir a : d_open a = None -> listable (Dir a []).
Proof.
  intros Ha [|c q] a' es H; [|discriminate H]. injection H as <- _. exact Ha.
Qed.

Lemma listable_dir a es :
  d_open a = None -> (forall k v, In (k, v) es -> listable v) -> listable (Dir a es).
Proof.
  intros Ha Hsub [|c q] a' es' Hq.
  - injection Hq as <- _. exact Ha.
  - simpl in Hq. destruct (map_find c es) as [m|] eqn:Hm; [|discriminate Hq].
    exact (Hsub c m (map_find_some_pair _ _ _ Hm) q a' es' Hq).
Qed.

Lemma listableb_sound : forall n, listableb n = true -> listable n.
Proof.
  fix IH 1. intros [r x|a es] H; [apply listable_file |].
  simpl in H. destruct (d_open a) eqn:Ha; [discriminate H |].
  apply (listable_dir a es Ha).
  induction es as [|[k0 v0] es IHes]; intros k v Hin; [destruct Hin |].
  apply andb_true_iff in H as [Hv Hrest]. destruct Hin as [E | Hin].
  - injection E as _ <-. exact (IH v0 Hv).
  - exact (IHes Hrest k v Hin).
Qed.

Lemma listable_put d k v fs a es :
  listable fs -> walk d fs = Some (Dir a es) -> listable v ->
  listable (update_dir d (assoc_put k v) fs).
Proof.
  intros Hl Hd Hv q a' es' Hq.
  destruct (decide ((d ++ [k]) `prefix_of` q)) as [Hp|Hp].
  - apply prefix_snoc_inv in Hp as [rest ->].
    rewrite (walk_put_under _ _ _ _ _ _ _ Hd) in Hq. exact (Hv _ _ _ Hq).
  - destruct (entries_update_other _ k _ _ _ _ _ (touches_only_put k v) Hp Hq)
      as (es0 & H0 & _).
    exact (Hl _ _ _ H0).
Qed.

Lemma listable_del d k fs : listable fs -> listable (update_dir d (assoc_del k) fs).
Proof.
  intros Hl q a' es' Hq.
  destruct (decide ((d ++ [k]) `prefix_of` q)) as [Hp|Hp].
  - apply prefix_snoc_inv in Hp as [rest ->]. rewrite walk_del_under in Hq.
    discriminate Hq.
  - destruct (entries_update_other _ k _ _ _ _ _ (touches_only_del k) Hp Hq)
      as (es0 & H0 & _).
    exact (Hl _ _ _ H0).
Qed.

Lemma create_directory_listable p fs st fs1 :
  listable fs -> create_directory p fs = Ok st fs1 -> listable fs1.
Proof.
  intros Hl E.
  destruct (create_directory_cases p fs)
    as [[_ R] | [[_ (st' & R & _)] | [_ (d & n & a & es & Ep & Hd & Hn & R)]]];
    rewrite R in E; injection E as _ <-; try exact Hl.
  apply (listable_put d n _ fs a es Hl Hd). apply listable_empty_dir. reflexivity.
Qed.

Lemma transfer_listable t_mode cur n dest fs r x0 st fs' :
  good_name n = true -> listable fs ->
  fs_status (path_append cur n) fs = Some (File r x0) ->
  match t_mode with
  | transfer_mode.atomic_transfer_mode =>
      atomic_file_transfer (path_append cur n) dest fs
  | transfer_mode.fallback_transfer_mode =>
      fallback_transfer (path_append cur n) dest fs
  end = Ok st fs' ->
  listable fs'.
Proof.
  intros Hg Hl Hs E.
  pose proof (path_filename_append_good cur n Hg) as Hname.
  destruct (get_unique_path_leaf dest n fs Hg) as (leaf & Eg & Hleaf & _ & Hfree).
  pose proof (resolve_append_good cur n Hg) as Es.
  destruct t_mode.
  - unfold atomic_file_transfer, try_catch, bind in E. rewrite Hname, Eg in E.
    destruct (fs_rename_file_to_free _ (path_append dest leaf) fs r x0 Hs Hfree)
      as [[e R] | (od & on & nd & nn & oa & oes & na & nes
                   & Es' & Ep' & Hod & Hon & Hnd & Hnn & R)]; rewrite R in E.
    + assert (fs' = fs) as ->; [|exact Hl].
      destruct (errc.eqb e errc.permission_denied);
        [|destruct (errc.eqb e errc.cross_device_link)]; injection E as _ <-; reflexivity.
    + injection E as _ <-.
      destruct (dir_survives_entry (assoc_del on) on od nd fs na nes
                  (touches_only_del on) Hnd
                  (src_not_above_dest fs od nd on oa na oes nes r x0 Hod Hon Hnd))
        as (nes' & Hnd').
      apply (listable_put nd nn _ _ na nes' (listable_del od on fs Hl) Hnd').
      apply listable_file.
  - unfold fallback_transfer, try_catch, bind in E. rewrite Hname, Eg in E.
    destruct (fs_copy_file_to_free (path_append cur n) (path_append dest leaf) fs Hfree)
      as [[e R] | (y & nd & nn & na & nes & Hs' & Ep' & Hnd & Hnn & R)]; rewrite R in E.
    { assert (fs' = fs) as ->; [|exact Hl].
      destruct (errc.eqb e errc.permission_denied); injection E as _ <-; reflexivity. }
    set (fs1 := update_dir nd (assoc_put nn (File None y)) fs) in *.
    assert (Hl1 : listable fs1)
      by (apply (listable_put nd nn _ fs na nes Hl Hnd); apply listable_file).
    unfold fs_status in Hs'. rewrite Es in Hs'.
    destruct (walk_child_inv _ _ _ _ Hs') as (oa & oes & Hod & Hon).
    pose proof (copied_old _ _ _ _ _ _ _ _ _ _ _ Hod Hon Hnd Hnn (File None y)) as Hs1.
    fold fs1 in Hs1.
    destruct (walk_child_inv _ _ _ _ Hs1) as (oa1 & oes1 & Hod1 & Hon1).
    destruct (fs_remove_file (path_append cur n) _ _ _ _ _ _ _ Es Hod1 Hon1)
      as [[e R'] | R']; rewrite R' in E.
    + assert (fs' = fs1) as ->; [|exact Hl1].
      destruct (errc.eqb e errc.permission_denied); injection E as _ <-; reflexivity.
    + injection E as _ <-. apply listable_del. exact Hl1.
Qed.

Lemma handle_file_listable cur n t_mode fs r x0 st fs2 :
  good_name n = true -> listable fs ->
  fs_status (path_append cur n) fs = Some (File r x0) ->
  handle_file cur (path_append cur n) t_mode fs = Ok st fs2 ->
  listable fs2.
Proof.
  intros Hg Hl Hs E. unfold handle_file, get_parent_folder_name in E.
  rewrite (classify_append cur n Hg) in E.
  set (cat := classify_file_by_extension n) in *.
  destruct (String.eqb cat (path_filename cur)).
  { injection E as _ <-. exact Hl. }
  destruct (alias_of_category (path_filename cur) cat).
  { injection E as _ <-. exact Hl. }
  set (dest := path_append (base_location cur cat) cat) in *.
  unfold bind in E.
  destruct (create_directory dest fs) as [cr fs1| |] eqn:Ec; try discriminate E.
  pose proof (create_directory_keeps_files _ _ _ _ _ _ _ Ec Hs) as Hs1.
  pose proof (create_directory_listable _ _ _ _ Hl Ec) as Hl1.
  assert (Ht : exists st',
             match t_mode with
             | transfer_mode.atomic_transfer_mode =>
                 atomic_file_transfer (path_append cur n) dest fs1
             | transfer_mode.fallback_transfer_mode =>
                 fallback_transfer (path_append cur n) dest fs1
             end = Ok st' fs2).
  { destruct t_mode.
    - destruct (atomic_file_transfer _ dest fs1) as [st' fs'| |]; try discriminate E.
      injection E as _ <-. eauto.
    - destruct (fallback_transfer _ dest fs1) as [st' fs'| |]; try discriminate E.
      injection E as _ <-. eauto. }
  destruct Ht as (st' & Et).
  exact (transfer_listable t_mode cur n dest fs1 r x0 st' fs2 Hg Hl1 Hs1 Et).
Qed.

Lemma normalize_listable cur fs fs1 :
  wf fs -> listable fs -> normalize_category_folder cur fs = Ok tt fs1 -> listable fs1.
Proof.
  intros Hwf Hl E. unfold normalize_category_folder, bind in E.
  destruct (fs_list cur fs) as [names fs0| |] eqn:Hls; try discriminate E.
  destruct (fs_list_names _ _ _ _ Hwf Hls) as [-> Hgood].
  refine (for_each_rename_invariant listable _ fs fs1 Hl _ E).
  intros [c v] fa fb Hin Hla Er.
  destruct (scan_firsts_are_directories _ _ _ _ _ Hgood Hin)
    as (n0 & -> & Hn0 & Hc & _).
  destruct (rename_to_canonical_cases _ _ _ _ _ Hn0 Hc Er)
    as [-> | (a & es & src & Hne & Hd & Hsrc & _ & ->)]; [exact Hla |].
  pose proof (walk_child _ _ _ _ _ _ Hd Hsrc) as Hwsrc.
  apply (listable_put _ c src _ a (assoc_del n0 es) (listable_del _ n0 fa Hla)
           (level_after_update _ _ _ _ _ Hd)).
  exact (listable_sub _ _ _ Hla Hwsrc).
Qed.

Lemma for_entries_listable cur t_mode names :
  (forall n, In n names -> good_name n = true) ->
  forall st fs r st' fs',
    listable fs -> for_entries cur t_mode names st fs = Ok (r, st') fs' -> listable fs'.
Proof.
  induction names as [|n names IH]; intros Hgood st fs r st' fs' Hl E.
  { injection E as _ _ <-. exact Hl. }
  pose proof (Hgood n (or_introl eq_refl)) as Hg.
  assert (Hgood' : forall k, In k names -> good_name k = true)
    by (intros k Hk; apply Hgood; right; exact Hk).
  destruct (fs_is_regular_file (path_append cur n) fs) eqn:Hf.
  - assert (Hs : exists r x, fs_status (path_append cur n) fs = Some (File r x)).
    { unfold fs_is_regular_file in Hf.
      destruct (fs_status (path_append cur n) fs) as [[r0 x|? ?]|];
        [eauto | discriminate Hf | discriminate Hf]. }
    destruct Hs as (r0 & x0 & Hs).
    destruct (handle_file_status cur (path_append cur n) t_mode fs) as (st1 & fs1 & Eh & _).
    pose proof (handle_file_listable cur n t_mode fs r0 x0 st1 fs1 Hg Hl Hs Eh) as Hl1.
    destruct (organize_status_cases st1) as [[-> | ->] | [H1 H2]].
    + rewrite (for_entries_file cur t_mode n names st fs _ fs1 Hf Eh (or_intror eq_refl))
        in E.
      exact (IH Hgood' _ _ _ _ _ Hl1 E).
    + rewrite (for_entries_file cur t_mode n names st fs _ fs1 Hf Eh (or_introl eq_refl))
        in E.
      exact (IH Hgood' _ _ _ _ _ Hl1 E).
    + rewrite (for_entries_file_fails cur t_mode n names st fs _ fs1 Hf Eh H2 H1) in E.
      injection E as _ _ <-. exact Hl1.
  - destruct (fs_is_directory (path_append cur n) fs) eqn:Hd.
    + rewrite (for_entries_directory cur t_mode n names st fs Hf Hd) in E.
      exact (IH Hgood' _ _ _ _ _ Hl E).
    + rewrite (for_entries_other cur t_mode n names st fs Hf Hd) in E.
      exact (IH Hgood' _ _ _ _ _ Hl E).
Qed.

(* ================================================================== *)
(** ** How the walk ends *)
(* ================================================================== *)

(** The loop does not run out of rounds, and it throws only where a
    directory cannot be listed. *)
Lemma organize_loop_ends t_mode fuel :
  forall st fs,
    wf fs -> stack_ok fs (List.map resolve (directories st)) ->
    stack_size fs (List.map resolve (directories st)) < fuel ->
    match organize_loop fuel t_mode st fs with
    | Ok _ _ => True
    | Throw _ _ => ~ listable fs
    | OutOfFuel => False
    end.
Proof.
  induction fuel as [|fuel IH]; intros st fs Hwf [Hap Hdirs] Hm; [lia |].
  cbn [organize_loop]. destruct (directories st) as [|cur rest]; [exact I |].
  cbn [List.map] in Hap, Hdirs, Hm. destruct Hap as [Hap1 Hap].
  apply List.Forall_cons_iff in Hdirs as [(a0 & Hcur) Hdirs]. simpl in Hm.
  destruct (look_dir_inv _ _ _ Hcur) as (es0 & Hcur').
  unfold bind.
  destruct (normalize_category_folder cur fs) as [[] fs1|e fs1|] eqn:En.
  3:{ exact (normalize_returns cur fs En). }
  2:{ intros Hl.
      assert (El : fs_list cur fs = Ok (List.map fst es0) fs).
      { unfold fs_list, fs_status. rewrite Hcur', (Hl _ _ _ Hcur'). reflexivity. }
      destruct (normalize_returns_when_listed cur fs _ El) as [fs' E'].
      rewrite E' in En. discriminate En. }
  destruct (normalize_measure cur fs fs1 Hwf En) as (Hwf1 & Ht1 & Hlook & Hout).
  rewrite Hcur in Hlook. destruct (look_dir_inv _ _ _ Hlook) as (es1 & Hd).
  destruct (fs_list cur fs1) as [names fs2|e fs2|] eqn:El.
  3:{ exact (fs_list_returns cur fs1 El). }
  2:{ intros Hl. pose proof (normalize_listable cur fs fs1 Hwf Hl En) as Hl1.
      unfold fs_list, fs_status in El. rewrite Hd, (Hl1 _ _ _ Hd) in El.
      discriminate El. }
  destruct (fs_list_names _ _ _ _ Hwf1 El) as [_ Hgood].
  destruct (fs_list_level _ _ _ _ El) as [-> (a & es & Hd' & ->)].
  rewrite Hd in Hd'. injection Hd' as <- <-.
  assert (Hrest : Forall (fun q => walk q fs1 = walk q fs) (List.map resolve rest)).
  { apply List.Forall_forall. intros q Hq. apply Hout.
    exact (proj1 (List.Forall_forall _ _) Hap1 q Hq). }
  destruct (for_entries_measure cur t_mode
              (esum es1 + stack_size fs1 (List.map resolve rest)) (List.map fst es1)
              {| directories := rest; handled := handled st |} fs1 Hgood
              (proj1 (Hwf1 _ _ _ Hd)) Hwf1)
    as (r & st' & fs' & Ef & Hr).
  - exact Hap.
  - cbn [directories]. apply List.Forall_forall. intros q Hq.
    destruct (proj1 (List.Forall_forall _ _) Hdirs q Hq) as (aq & Haq).
    split.
    + exists aq. unfold look. rewrite (proj1 (List.Forall_forall _ _) Hrest q Hq).
      exact Haq.
    + right. exact (proj1 (List.Forall_forall _ _) Hap1 q Hq).
  - apply List.Forall_forall. intros q Hq.
    apply List.in_map_iff in Hq as (n & <- & Hn).
    apply List.in_map_iff in Hn as ([k v] & <- & Hkv).
    unfold look. cbn [fst].
    rewrite (walk_child _ _ _ _ _ _ Hd (map_find_in k v es1 (proj1 (Hwf1 _ _ _ Hd)) Hkv)).
    intros H; discriminate H.
  - cbn [directories].
    rewrite (esum_names _ _ _ _ Hd (proj1 (Hwf1 _ _ _ Hd))). lia.
  - rewrite Ef. destruct r as [s|]; [exact I |].
    destruct (Hr eq_refl) as (Hwf' & Hok' & Hm').
    assert (Hlt : stack_size fs' (List.map resolve (directories st')) < fuel).
    { rewrite (stack_size_walk _ _ _ Hrest) in Hm'.
      assert (Hc : tsize_at (resolve cur) fs1 = S (esum es1))
        by (unfold tsize_at; rewrite Hd; reflexivity).
      lia. }
    pose proof (IH st' fs' Hwf' Hok' Hlt) as Hrec.
    destruct (organize_loop fuel t_mode st' fs') as [res fs3|e fs3|];
      [exact I | | exact Hrec].
    intros Hl. apply Hrec.
    apply (for_entries_listable cur t_mode _ Hgood _ fs1 _ _ _
             (normalize_listable cur fs fs1 Hwf Hl En) Ef).
Qed.

Lemma validated_root_ok root_path fs :
  negb (organize_status.eqb (process_path_validation root_path fs)
          organize_status.success) = false ->
  stack_ok fs [resolve root_path].
Proof.
  intros Hv. split; [split; [apply List.Forall_nil | exact I] |].
  apply List.Forall_cons; [|apply List.Forall_nil].
  unfold process_path_validation in Hv.
  destruct (validate_path_cases root_path fs)
    as [[E _] | [[E _] | [[E | E] Hd]]]; rewrite E in Hv; try discriminate Hv.
  unfold fs_is_directory, fs_status in Hd. unfold look.
  destruct (walk (resolve root_path) fs) as [[? ?|a es]|];
    [discriminate Hd | exists a; reflexivity | discriminate Hd].
Qed.

(* ================================================================== *)
(** ** Files in the wrong category folder *)
(* ================================================================== *)

(** Scenario D as it runs: root/Image Files/report.docx is moved to
    root/Word Files/report.docx. *)
Lemma handle_file_scenario_d :
  exists fs',
    handle_file "root/Image Files" "root/Image Files/report.docx"
                transfer_mode.atomic_transfer_mode fs_misplaced
    = Ok organize_status.success fs' /\
    fs_status "root/Word Files/report.docx" fs' = Some (File None "r") /\
    fs_status "root/Image Files/report.docx" fs' = None /\
    fs_status "root/Image Files/Word Files" fs' = None.
Proof.
  eexists. split; [vm_compute; reflexivity |].
  split; [|split]; vm_compute; reflexivity.
Qed.

(** One level up is not always outside every category folder: from the
    alias folder root/Image Files/videos the file goes to
    root/Image Files/Word Files, a category folder inside a category folder;
    and so it does in a run of [organize_directory], which first renames
    videos to Video Files. *)
Lemma handle_file_nests_category_folders :
  ALIAS_LOOKUP !! get_parent_folder_name "root/Image Files/videos" = Some "Video Files" /\
  classify_file_by_extension "root/Image Files/videos/report.docx" = "Word Files" /\
  base_location "root/Image Files/videos" "Word Files" = "root/Image Files" /\
  (exists fs',
      handle_file "root/Image Files/videos" "root/Image Files/videos/report.docx"
                  transfer_mode.atomic_transfer_mode fs_alias_in_category
      = Ok organize_status.success fs' /\
      fs_status "root/Image Files/Word Files/report.docx" fs' = Some (File None "r")) /\
  (exists log fs',
      organize_directory 4 "root" transfer_mode.atomic_transfer_mode fs_alias_in_category
      = Ok (organize_status.success, log) fs' /\
      fs_status "root/Image Files/Word Files/report.docx" fs' = Some (File None "r")).
Proof.
  split; [vm_compute; reflexivity |].
  split; [vm_compute; reflexivity |].
  split; [vm_compute; reflexivity |].
  split.
  - eexists. split; vm_compute; reflexivity.
  - eexists. eexists. split; vm_compute; reflexivity.
Qed.

(** C3: root/Pics holds report.docx.  "pics" is an alias of "Image Files",
    which is not the category of report.docx, so the file is to leave the
    folder for root/Word Files.  [handle_file] looks up "Pics" as it is
    spelled, finds neither a canonical name nor an alias, takes root/Pics
    itself as base and moves the file to root/Pics/Word Files/report.docx.
    A run of [organize_directory] on root does the same: the rename of
    root/Pics to the canonical name is refused, root/Image Files being
    populated. *)
Theorem handle_file_capital_alias_not_ejected :
  ALIAS_LOOKUP !! to_lower (get_parent_folder_name "root/Pics") = Some "Image Files" /\
  ALIAS_LOOKUP !! get_parent_folder_name "root/Pics" = None /\
  classify_file_by_extension "root/Pics/report.docx" = "Word Files" /\
  base_location "root/Pics" "Word Files" = "root/Pics" /\
  (exists fs',
      handle_file "root/Pics" "root/Pics/report.docx" transfer_mode.atomic_transfer_mode
                  fs_capital_misplaced = Ok organize_status.success fs' /\
      fs_status "root/Pics/Word Files/report.docx" fs' = Some (File None "r") /\
      fs_status "root/Word Files/report.docx" fs' = None) /\
  (exists log fs',
      organize_directory 4 "root" transfer_mode.atomic_transfer_mode fs_capital_misplaced
      = Ok (organize_status.success, log) fs' /\
      fs_status "root/Pics/Word Files/report.docx" fs' = Some (File None "r") /\
      fs_status "root/Word Files/report.docx" fs' = None).
Proof.
  split; [vm_compute; reflexivity |].
  split; [vm_compute; reflexivity |].
  split; [vm_compute; reflexivity |].
  split; [vm_compute; reflexivity |].
  split.
  - eexists. split; [vm_compute; reflexivity |]. split; vm_compute; reflexivity.
  - eexists. eexists. split; [vm_compute; reflexivity |]. split; vm_compute; reflexivity.
Qed.

(* ================================================================== *)
(** ** [get_unique_path] where status queries fail *)
(* ================================================================== *)

Section Stat.
Variable stat_error : string -> option errc.t.

Lemma probe_free_stat_ok fuel d stem ext :
  forall c p fs fs',
    probe_free_stat stat_error fuel d stem ext c fs = Ok p fs' ->
    fs' = fs /\ probe_free fuel fs d stem ext c = Some p.
Proof.
  induction fuel as [|fuel IH]; intros c p fs fs'; cbn [probe_free_stat probe_free];
    [intros H; discriminate H |].
  destruct (N.leb INT_MAX (N.of_nat c)); [intros H; discriminate H |].
  unfold bind, fs_exists_stat.
  destruct (stat_error (path_append d (new_filename stem ext c)));
    [intros H; discriminate H |].
  destruct (fs_exists (path_append d (new_filename stem ext c)) fs).
  - apply IH.
  - intros H. injection H as <- <-. split; reflexivity.
Qed.

Lemma probe_free_stat_throw fuel d stem ext :
  forall c e fs fs',
    probe_free_stat stat_error fuel d stem ext c fs = Throw e fs' -> fs' = fs.
Proof.
  induction fuel as [|fuel IH]; intros c e fs fs'; cbn [probe_free_stat];
    [intros H; discriminate H |].
  destruct (N.leb INT_MAX (N.of_nat c)); [intros H; discriminate H |].
  unfold bind, fs_exists_stat.
  destruct (stat_error (path_append d (new_filename stem ext c)));
    [intros H; injection H as _ <-; reflexivity |].
  destruct (fs_exists (path_append d (new_filename stem ext c)) fs).
  - apply IH.
  - intros H. discriminate H.
Qed.

(** Where every candidate that is reached can be queried and the counter
    stays below [INT_MAX], the loop is that of the file system without
    errors. *)
Lemma probe_free_stat_complete fuel d stem ext fs :
  forall c p,
    probe_free fuel fs d stem ext c = Some p ->
    (forall n, c <= n ->
               (forall k, c <= k < n ->
                          fs_exists (path_append d (new_filename stem ext k)) fs = true) ->
               stat_error (path_append d (new_filename stem ext n)) = None) ->
    (N.of_nat (c + fuel) <= INT_MAX)%N ->
    probe_free_stat stat_error fuel d stem ext c fs = Ok p fs.
Proof.
  induction fuel as [|fuel IH]; intros c p Hp Hse Hb; cbn [probe_free_stat probe_free] in *;
    [discriminate Hp |].
  assert (Hc : N.leb INT_MAX (N.of_nat c) = false) by (apply N.leb_gt; lia).
  rewrite Hc. unfold bind, fs_exists_stat.
  rewrite (Hse c (le_n c)) by (intros k Hk; lia).
  destruct (fs_exists (path_append d (new_filename stem ext c)) fs) eqn:He.
  - apply (IH (S c) p Hp); [|lia].
    intros n Hn Hk. apply Hse; [lia |].
    intros k Hk'. destruct (Nat.eq_dec k c) as [-> | Hne]; [exact He |].
    apply Hk. lia.
  - injection Hp as <-. reflexivity.
Qed.

Lemma get_unique_path_stat_ok d filename fs p fs' :
  get_unique_path_stat stat_error d filename fs = Ok p fs' ->
  fs' = fs /\ get_unique_path d filename fs = Ok p fs.
Proof.
  unfold get_unique_path_stat, get_unique_path, bind, fs_exists_stat.
  destruct (stat_error (path_append d filename)); [intros H; discriminate H |].
  destruct (fs_exists (path_append d filename) fs); cbn [negb].
  - intros H. destruct (probe_free_stat_ok _ _ _ _ _ _ _ _ H) as [-> Hp].
    rewrite Hp. split; reflexivity.
  - intros H. injection H as <- <-. split; reflexivity.
Qed.

Lemma get_unique_path_stat_throw d filename fs e fs' :
  get_unique_path_stat stat_error d filename fs = Throw e fs' -> fs' = fs.
Proof.
  unfold get_unique_path_stat, bind, fs_exists_stat.
  destruct (stat_error (path_append d filename));
    [intros H; injection H as _ <-; reflexivity |].
  destruct (fs_exists (path_append d filename) fs); cbn [negb].
  - apply probe_free_stat_throw.
  - intros H. discriminate H.
Qed.

Lemma get_unique_path_stat_complete d filename fs :
  stat_error (path_append d filename) = None ->
  (forall n, 1 <= n ->
             (forall k, 1 <= k < n ->
                        fs_exists (path_append d (new_filename (path_stem filename)
                                                    (path_extension filename) k)) fs = true) ->
             stat_error (path_append d (new_filename (path_stem filename)
                                          (path_extension filename) n)) = None) ->
  (N.of_nat (entry_count d fs) + 2 <= INT_MAX)%N ->
  get_unique_path_stat stat_error d filename fs = get_unique_path d filename fs.
Proof.
  intros H0 Hse Hb. unfold get_unique_path_stat, get_unique_path, bind, fs_exists_stat.
  rewrite H0. destruct (fs_exists (path_append d filename) fs); cbn [negb]; [|reflexivity].
  pose proof (probe_free_enough fs d filename) as Hen.
  destruct (probe_free (S (entry_count d fs)) fs d (path_stem filename)
              (path_extension filename) 1) as [p|] eqn:Hp;
    [|exact (False_ind _ (Hen eq_refl))].
  apply (probe_free_stat_complete _ _ _ _ _ _ _ Hp Hse). lia.
Qed.

(** A transfer is the transfer of the file system without errors, its
    queries having been answered; or, a query having failed, it has changed
    nothing. *)
Lemma atomic_file_transfer_stat_cases s d fs :
  (exists p, get_unique_path_stat stat_error d (path_filename s) fs = Ok p fs /\
             atomic_file_transfer_stat stat_error s d fs = atomic_file_transfer s d fs) \/
  (exists st, atomic_file_transfer_stat stat_error s d fs = Ok st fs /\
              st <> file_move_status.successful_transfer) \/
  (get_unique_path_stat stat_error d (path_filename s) fs = OutOfFuel /\
   atomic_file_transfer_stat stat_error s d fs = OutOfFuel).
Proof.
  unfold atomic_file_transfer_stat, atomic_file_transfer, try_catch, bind.
  destruct (get_unique_path_stat stat_error d (path_filename s) fs) as [p fs'|e fs'|] eqn:E.
  - destruct (get_unique_path_stat_ok _ _ _ _ _ E) as [-> Hg]. rewrite Hg. left.
    exists p. split; reflexivity.
  - rewrite (get_unique_path_stat_throw _ _ _ _ _ E). right. left.
    destruct (errc.eqb e errc.permission_denied);
      [|destruct (errc.eqb e errc.cross_device_link)];
      eexists; (split; [reflexivity | intros H; discriminate H]).
  - right. right. split; reflexivity.
Qed.

Lemma fallback_transfer_stat_cases s d fs :
  (exists p, get_unique_path_stat stat_error d (path_filename s) fs = Ok p fs /\
             fallback_transfer_stat stat_error s d fs = fallback_transfer s d fs) \/
  (exists st, fallback_transfer_stat stat_error s d fs = Ok st fs /\
              st <> file_move_status.successful_transfer) \/
  (get_unique_path_stat stat_error d (path_filename s) fs = OutOfFuel /\
   fallback_transfer_stat stat_error s d fs = OutOfFuel).
Proof.
  unfold fallback_transfer_stat, fallback_transfer, try_catch, bind.
  destruct (get_unique_path_stat stat_error d (path_filename s) fs) as [p fs'|e fs'|] eqn:E.
  - destruct (get_unique_path_stat_ok _ _ _ _ _ E) as [-> Hg]. rewrite Hg. left.
    exists p. split; reflexivity.
  - rewrite (get_unique_path_stat_throw _ _ _ _ _ E). right. left.
    destruct (errc.eqb e errc.permission_denied);
      eexists; (split; [reflexivity | intros H; discriminate H]).
  - right. right. split; reflexivity.
Qed.

(** Whatever the queries answer, a transfer leaves the file that bears the
    name in the destination as it was, and when it succeeds the bytes are
    under the first free candidate. *)
Lemma transfer_stat_collision
      (transfer_stat transfer : string -> string -> M file_move_status.t)
      destination_dir filename fs source_path r x r0 x0 st fs' :
  ((exists p, get_unique_path_stat stat_error destination_dir (path_filename source_path) fs
              = Ok p fs /\
              transfer_stat source_path destination_dir fs
              = transfer source_path destination_dir fs) \/
   (exists st, transfer_stat source_path destination_dir fs = Ok st fs /\
               st <> file_move_status.successful_transfer) \/
   (get_unique_path_stat stat_error destination_dir (path_filename source_path) fs
    = OutOfFuel /\
    transfer_stat source_path destination_dir fs = OutOfFuel)) ->
  transfer = atomic_file_transfer \/ transfer = fallback_transfer ->
  path_filename source_path = filename ->
  fs_status source_path fs = Some (File r x) ->
  fs_status (path_append destination_dir filename) fs = Some (File r0 x0) ->
  resolve source_path <> resolve (path_append destination_dir filename) ->
  transfer_stat source_path destination_dir fs = Ok st fs' ->
  fs_status (path_append destination_dir filename) fs' = Some (File r0 x0) /\
  (st = file_move_status.successful_transfer ->
   exists n r',
     1 <= n /\
     get_unique_path_stat stat_error destination_dir filename fs
     = Ok (path_append destination_dir
             (new_filename (path_stem filename) (path_extension filename) n)) fs /\
     fs_exists (path_append destination_dir
                  (new_filename (path_stem filename) (path_extension filename) n)) fs
     = false /\
     (forall k, 1 <= k < n ->
                fs_exists (path_append destination_dir
                             (new_filename (path_stem filename) (path_extension filename) k))
                          fs = true) /\
     fs_status (path_append destination_dir
                  (new_filename (path_stem filename) (path_extension filename) n)) fs'
     = Some (File r' x) /\
     fs_status source_path fs' = None).
Proof.
  intros Hcases Htr Hname Hs Ht Hne E.
  destruct Hcases as [(p & Hg & Hc) | [(st' & Hc & Hst) | [_ Hc]]].
  3:{ rewrite Hc in E. discriminate E. }
  2:{ rewrite Hc in E. injection E as <- <-.
      split; [exact Ht | intros H; exact (False_ind _ (Hst H))]. }
  rewrite Hc in E. rewrite Hname in Hg.
  destruct (get_unique_path_stat_ok _ _ _ _ _ Hg) as [_ Hg'].
  assert (Hex : fs_exists (path_append destination_dir filename) fs = true)
    by (unfold fs_exists; rewrite Ht; reflexivity).
  destruct (get_unique_path_spec destination_dir filename fs)
    as (q & Hq & Hfree & _ & Hcol).
  destruct (Hcol Hex) as (m & Hm & Eq & Hbefore).
  rewrite Hq in Hg'. injection Hg' as <-.
  destruct (get_unique_path_collision_safe destination_dir filename fs) as [_ Hold].
  destruct (Hold transfer source_path r x r0 x0 st fs' Htr Hname Hs Ht Hne E)
    as [Hkept Hland].
  split; [exact Hkept |].
  intros Hsucc. destruct (Hland Hsucc) as (n & r' & Hn & Hgn & Hp & Hgone).
  rewrite Hq in Hgn. injection Hgn as Hgn.
  exists m, r'. rewrite <- Eq. split; [exact Hm |]. split; [exact Hg |].
  split; [exact Hfree |]. split; [exact Hbefore |].
  split; [rewrite Hgn; exact Hp | exact Hgone].
Qed.

End Stat.

(** A regular file in a writable directory is moved, under the name
    [get_unique_path] chose, into a writable directory of the same volume;
    the copy needs a readable file. *)
Lemma transfer_succeeds t_mode cur fname dest fs oa oes na nes r x :
  good_name fname = true ->
  walk (resolve cur) fs = Some (Dir oa oes) -> map_find fname oes = Some (File r x) ->
  walk (resolve dest) fs = Some (Dir na nes) ->
  d_write oa = None -> d_write na = None -> d_dev oa = d_dev na ->
  (t_mode = transfer_mode.fallback_transfer_mode -> r = None) ->
  exists fs',
    match t_mode with
    | transfer_mode.atomic_transfer_mode =>
        atomic_file_transfer (path_append cur fname) dest fs
    | transfer_mode.fallback_transfer_mode =>
        fallback_transfer (path_append cur fname) dest fs
    end = Ok file_move_status.successful_transfer fs'.
Proof.
  intros Hg Hod Hon Hnd Hwo Hwn Hdev Hr.
  pose proof (resolve_append_good cur fname Hg) as Es.
  pose proof (path_filename_append_good cur fname Hg) as Hname.
  destruct (get_unique_path_leaf dest fname fs Hg) as (leaf & Eg & Hleaf & _ & Hfree).
  pose proof (resolve_append_good dest leaf Hleaf) as Ep.
  pose proof (fs_exists_false_child _ _ _ _ _ _ Hfree Ep Hnd) as Hnn.
  destruct t_mode.
  - eexists.
    unfold atomic_file_transfer, try_catch, bind. rewrite Hname, Eg.
    unfold fs_rename. rewrite Es, Ep, !split_last_snoc, Hod, Hnd, Hon.
    rewrite bool_decide_eq_false_2.
    2:{ intros E. unfold fs_exists, fs_status in Hfree.
        rewrite Ep, <- E, (walk_child _ _ _ _ _ _ Hod Hon) in Hfree. discriminate Hfree. }
    rewrite bool_decide_eq_false_2
      by exact (src_not_above_new fs _ _ _ _ _ _ _ _ _ _ Hod Hon Hnd Hnn).
    rewrite Hwo, Hwn, Hdev, Nat.eqb_refl, Hnn. reflexivity.
  - rewrite (Hr eq_refl) in *.
    destruct (fallback_steps _ _ fs _ _ _ _ _ _ _ _ x Es Ep Hod Hon Hnd Hnn Hwn)
      as (Ecopy & Eremove & _ & _).
    rewrite Hwo in Eremove.
    eexists.
    unfold fallback_transfer, try_catch, bind. rewrite Hname, Eg, Ecopy, Eremove.
    reflexivity.
Qed.

(** C1, the failing input: a name of 254 bytes is taken in the destination.
    Its first candidate, stem(1)ext, has 257 bytes, the query of it fails
    and [get_unique_path] throws instead of returning a free name; the
    transfer catches the error and moves nothing. *)
Theorem get_unique_path_long_name_counterexample :
  String.length long_name = 254 /\
  fs_exists (path_append "root/Image Files" long_name) fs_long_name = true /\
  name_limit (path_append "root/Image Files" long_name) = None /\
  get_unique_path_stat name_limit "root/Image Files" long_name fs_long_name
  = Throw errc.filename_too_long fs_long_name /\
  atomic_file_transfer_stat name_limit (path_append "root" long_name) "root/Image Files"
                            fs_long_name
  = Ok file_move_status.unknown_failure fs_long_name /\
  fallback_transfer_stat name_limit (path_append "root" long_name) "root/Image Files"
                         fs_long_name
  = Ok file_move_status.unknown_failure fs_long_name.
Proof.
  split; [vm_compute; reflexivity |].
  split; [vm_compute; reflexivity |].
  split; [vm_compute; reflexivity |].
  split; [vm_compute; reflexivity |].
  split; vm_compute; reflexivity.
Qed.

(** C1, amended.  Where each status query of [get_unique_path] is answered
    (no candidate that is reached is too long a name, say) and the
    destination has fewer than [INT_MAX] - 1 entries, [get_unique_path]
    returns destination_dir/filename when that is free and otherwise
    destination_dir/stem(n)ext for the least n >= 1 that is free.  A
    transfer, atomic or fallback, of a regular file whose name is taken at
    the destination by another regular file leaves that file as it was,
    whatever the queries answer, and when it succeeds the moved bytes are
    under the generated name and the source is gone.  It does succeed, the
    queries being answered, from a writable directory into a writable
    directory of the same volume; the copy needs a readable file. *)
Theorem get_unique_path_within_limits
        (stat_error : string -> option errc.t) (destination_dir filename : string)
        (fs : node) :
  let candidate n :=
    path_append destination_dir
                (new_filename (path_stem filename) (path_extension filename) n) in
  let answered :=
    stat_error (path_append destination_dir filename) = None /\
    (forall n, 1 <= n ->
               (forall k, 1 <= k < n -> fs_exists (candidate k) fs = true) ->
               stat_error (candidate n) = None) /\
    (N.of_nat (entry_count destination_dir fs) + 2 <= INT_MAX)%N in
  (answered ->
   exists p,
     get_unique_path_stat stat_error destination_dir filename fs = Ok p fs /\
     fs_exists p fs = false /\
     (fs_exists (path_append destination_dir filename) fs = false ->
      p = path_append destination_dir filename) /\
     (fs_exists (path_append destination_dir filename) fs = true ->
      exists n, 1 <= n /\ p = candidate n /\
                forall k, 1 <= k < n -> fs_exists (candidate k) fs = true)) /\
  (forall transfer source_path r x r0 x0 st fs',
      transfer = atomic_file_transfer_stat stat_error \/
      transfer = fallback_transfer_stat stat_error ->
      path_filename source_path = filename ->
      fs_status source_path fs = Some (File r x) ->
      fs_status (path_append destination_dir filename) fs = Some (File r0 x0) ->
      resolve source_path <> resolve (path_append destination_dir filename) ->
      transfer source_path destination_dir fs = Ok st fs' ->
      fs_status (path_append destination_dir filename) fs' = Some (File r0 x0) /\
      (st = file_move_status.successful_transfer ->
       exists n r',
         1 <= n /\
         get_unique_path_stat stat_error destination_dir filename fs
         = Ok (candidate n) fs /\
         fs_exists (candidate n) fs = false /\
         (forall k, 1 <= k < n -> fs_exists (candidate k) fs = true) /\
         fs_status (candidate n) fs' = Some (File r' x) /\
         fs_status source_path fs' = None)) /\
  (forall transfer cur r x oa oes na nes,
      transfer = atomic_file_transfer_stat stat_error \/
      transfer = fallback_transfer_stat stat_error ->
      answered ->
      good_name filename = true ->
      fs_status cur fs = Some (Dir oa oes) -> map_find filename oes = Some (File r x) ->
      fs_status destination_dir fs = Some (Dir na nes) ->
      d_write oa = None -> d_write na = None -> d_dev oa = d_dev na ->
      (transfer = fallback_transfer_stat stat_error -> r = None) ->
      exists fs',
        transfer (path_append cur filename) destination_dir fs
        = Ok file_move_status.successful_transfer fs').
Proof.
  intros candidate answered. split; [|split].
  - intros (H0 & Hse & Hb).
    rewrite (get_unique_path_stat_complete stat_error _ _ _ H0 Hse Hb).
    exact (get_unique_path_spec destination_dir filename fs).
  - intros transfer s r x r0 x0 st fs' Htr Hname Hs Ht Hne E.
    destruct Htr as [-> | ->].
    + exact (transfer_stat_collision stat_error _ atomic_file_transfer
               destination_dir filename fs s r x r0 x0 st fs'
               (atomic_file_transfer_stat_cases stat_error s destination_dir fs)
               (or_introl eq_refl) Hname Hs Ht Hne E).
    + exact (transfer_stat_collision stat_error _ fallback_transfer
               destination_dir filename fs s r x r0 x0 st fs'
               (fallback_transfer_stat_cases stat_error s destination_dir fs)
               (or_intror eq_refl) Hname Hs Ht Hne E).
  - intros transfer cur r x oa oes na nes Htr (H0 & Hse & Hb) Hg Hod Hon Hnd
           Hwo Hwn Hdev Hr.
    pose proof (path_filename_append_good cur filename Hg) as Hname.
    pose proof (get_unique_path_stat_complete stat_error _ _ _ H0 Hse Hb) as Hsame.
    destruct Htr as [-> | ->].
    + destruct (transfer_succeeds transfer_mode.atomic_transfer_mode cur filename
                  destination_dir fs oa oes na nes r x Hg Hod Hon Hnd Hwo Hwn Hdev)
        as [fs' E]; [intros H; discriminate H |].
      exists fs'. unfold atomic_file_transfer_stat, try_catch, bind. rewrite Hname, Hsame.
      unfold atomic_file_transfer, try_catch, bind in E. rewrite Hname in E. exact E.
    + destruct (transfer_succeeds transfer_mode.fallback_transfer_mode cur filename
                  destination_dir fs oa oes na nes r x Hg Hod Hon Hnd Hwo Hwn Hdev)
        as [fs' E]; [intros _; exact (Hr eq_refl) |].
      exists fs'. unfold fallback_transfer_stat, try_catch, bind. rewrite Hname, Hsame.
      unfold fallback_transfer, try_catch, bind in E. rewrite Hname in E. exact E.
Qed.

Lemma get_unique_path_within_limits_witness :
  exists fs',
    atomic_file_transfer_stat name_limit "root/a.png" "root/Image Files" fs_collision
    = Ok file_move_status.successful_transfer fs' /\
    fs_status "root/Image Files/a.png" fs' = Some (File None "old") /\
    fs_status "root/Image Files/a(1).png" fs' = Some (File None "older") /\
    fs_status "root/Image Files/a(2).png" fs' = Some (File None "new") /\
    fs_status "root/a.png" fs' = None.
Proof.
  destruct (get_unique_path_within_limits name_limit "root/Image Files" "a.png"
              fs_collision) as (_ & _ & Hlands).
  destruct (Hlands (atomic_file_transfer_stat name_limit) "root" None "new" plain
              [("a.png", File None "new");
               ("Image Files",
                Dir plain [("a.png", File None "old"); ("a(1).png", File None "older")])]
              plain [("a.png", File None "old"); ("a(1).png", File None "older")])
    as [fs' E].
  - left. reflexivity.
  - split; [vm_compute; reflexivity |]. split.
    + intros [|[|[|n]]] Hn Hk.
      * lia.
      * vm_compute. reflexivity.
      * vm_compute. reflexivity.
      * assert (H2 : 1 <= 2 < S (S (S n))) by lia.
        specialize (Hk 2 H2). vm_compute in Hk. discriminate Hk.
    + apply N.leb_le. vm_compute. reflexivity.
  - reflexivity.
  - reflexivity.
  - reflexivity.
  - reflexivity.
  - reflexivity.
  - reflexivity.
  - reflexivity.
  - intros _. reflexivity.
  - exists fs'. vm_compute in E. injection E as <-.
    split; [vm_compute; reflexivity |].
    split; [vm_compute; reflexivity |].
    split; [vm_compute; reflexivity |].
    split; vm_compute; reflexivity.
Defined.

(* ================================================================== *)
(** ** What throws, and what does not *)
(* ================================================================== *)

Lemma create_directory_stat_answered stat_error p fs :
  stat_error p = None -> create_directory_stat stat_error p fs = create_directory p fs.
Proof.
  intros H. unfold create_directory_stat, create_directory, bind, fs_exists_stat.
  rewrite H. destruct (fs_exists p fs); reflexivity.
Qed.

Lemma create_directory_stat_throws stat_error p fs e :
  stat_error p = Some e -> create_directory_stat stat_error p fs = Throw e fs.
Proof.
  intros H. unfold create_directory_stat, bind, fs_exists_stat. rewrite H. reflexivity.
Qed.

Lemma create_directory_entry_count p fs st fs1 :
  create_directory p fs = Ok st fs1 -> entry_count p fs1 = entry_count p fs.
Proof.
  intros E.
  destruct (create_directory_cases p fs)
    as [[_ R] | [[_ (st' & R & _)] | [He (d & n & a & es & Ep & Hd & Hn & R)]]];
    rewrite R in E; injection E as _ <-; try reflexivity.
  unfold entry_count, fs_status. rewrite Ep.
  rewrite (walk_put_entry _ _ _ _ _ _ Hd), (walk_child _ _ _ _ _ _ Hd Hn). reflexivity.
Qed.

Lemma probe_free_stat_bounded stat_error fuel d stem ext fs :
  forall c,
    probe_free fuel fs d stem ext c <> None ->
    (N.of_nat (c + fuel) <= INT_MAX)%N ->
    probe_free_stat stat_error fuel d stem ext c fs <> OutOfFuel.
Proof.
  induction fuel as [|fuel IH]; intros c Hp Hb; cbn [probe_free_stat probe_free] in *;
    [exact (False_ind _ (Hp eq_refl)) |].
  assert (Hc : N.leb INT_MAX (N.of_nat c) = false) by (apply N.leb_gt; lia).
  rewrite Hc. unfold bind, fs_exists_stat.
  destruct (stat_error (path_append d (new_filename stem ext c)));
    [intros H; discriminate H |].
  destruct (fs_exists (path_append d (new_filename stem ext c)) fs).
  - apply (IH (S c) Hp). lia.
  - intros H. discriminate H.
Qed.

Lemma get_unique_path_stat_returns stat_error d filename fs :
  (N.of_nat (entry_count d fs) + 2 <= INT_MAX)%N ->
  get_unique_path_stat stat_error d filename fs <> OutOfFuel.
Proof.
  intros Hb. unfold get_unique_path_stat, bind, fs_exists_stat.
  destruct (stat_error (path_append d filename)); [intros H; discriminate H |].
  destruct (fs_exists (path_append d filename) fs); cbn [negb];
    [|intros H; discriminate H].
  apply probe_free_stat_bounded; [apply probe_free_enough | lia].
Qed.

(** The transfers catch what their queries throw. *)
Lemma atomic_file_transfer_stat_returns stat_error s d fs :
  (forall e fs', atomic_file_transfer_stat stat_error s d fs <> Throw e fs') /\
  ((N.of_nat (entry_count d fs) + 2 <= INT_MAX)%N ->
   exists st fs', atomic_file_transfer_stat stat_error s d fs = Ok st fs').
Proof.
  destruct (atomic_file_transfer_returns s d fs) as (st0 & fs0 & E0).
  destruct (atomic_file_transfer_stat_cases stat_error s d fs)
    as [(p & _ & H) | [(st & H & _) | [Hg H]]]; rewrite H.
  - rewrite E0. split; [intros e fs' H'; discriminate H' | intros _; eauto].
  - split; [intros e fs' H'; discriminate H' | intros _; eauto].
  - split; [intros e fs' H'; discriminate H' |].
    intros Hb. exact (False_ind _ (get_unique_path_stat_returns _ _ _ _ Hb Hg)).
Qed.

Lemma fallback_transfer_stat_returns stat_error s d fs :
  (forall e fs', fallback_transfer_stat stat_error s d fs <> Throw e fs') /\
  ((N.of_nat (entry_count d fs) + 2 <= INT_MAX)%N ->
   exists st fs', fallback_transfer_stat stat_error s d fs = Ok st fs').
Proof.
  destruct (fallback_transfer_returns s d fs) as (st0 & fs0 & E0).
  destruct (fallback_transfer_stat_cases stat_error s d fs)
    as [(p & _ & H) | [(st & H & _) | [Hg H]]]; rewrite H.
  - rewrite E0. split; [intros e fs' H'; discriminate H' | intros _; eauto].
  - split; [intros e fs' H'; discriminate H' | intros _; eauto].
  - split; [intros e fs' H'; discriminate H' |].
    intros Hb. exact (False_ind _ (get_unique_path_stat_returns _ _ _ _ Hb Hg)).
Qed.

(** X4: [create_directory] throws exactly when its [exists] query fails,
    and has changed nothing then.  The query answered, it returns a status:
    [already_exists] exactly when something, a directory or a regular file,
    is at the path; unless it answers [successful_creation] it changes
    nothing; after [successful_creation] the path is an empty directory,
    every path that is not an ancestor of it is as before, and a second call
    answers [already_exists] and changes nothing. *)
Theorem create_directory_stat_outcomes
        (stat_error : string -> option errc.t) (target_directory_path : string)
        (fs : node) :
  (forall e, stat_error target_directory_path = Some e ->
             create_directory_stat stat_error target_directory_path fs = Throw e fs) /\
  (stat_error target_directory_path = None ->
   exists st fs',
     create_directory_stat stat_error target_directory_path fs = Ok st fs' /\
     (fs_exists target_directory_path fs = true <->
      st = create_directory_status.already_exists) /\
     (st <> create_directory_status.successful_creation -> fs' = fs) /\
     (st = create_directory_status.successful_creation ->
      (exists a, fs_status target_directory_path fs' = Some (Dir a [])) /\
      (forall q, ~ q `prefix_of` resolve target_directory_path ->
                 walk q fs' = walk q fs) /\
      create_directory_stat stat_error target_directory_path fs'
      = Ok create_directory_status.already_exists fs')).
Proof.
  split; [intros e He; exact (create_directory_stat_throws _ _ _ _ He) |].
  intros Hs.
  destruct (create_directory_outcomes target_directory_path fs)
    as (st & fs' & E & H1 & H2 & H3).
  exists st, fs'. rewrite (create_directory_stat_answered _ _ _ Hs).
  split; [exact E |]. split; [exact H1 |]. split; [exact H2 |].
  intros Hst. destruct (H3 Hst) as (A & B & C).
  split; [exact A |]. split; [exact B |].
  rewrite (create_directory_stat_answered _ _ _ Hs). exact C.
Qed.

Lemma create_directory_stat_outcomes_witness :
  create_directory_stat name_limit (path_append "root" (long_name +:+ "xx")) fs_long_name
  = Throw errc.filename_too_long fs_long_name /\
  exists fs',
    create_directory_stat name_limit "root/Word Files" fs_misplaced
    = Ok create_directory_status.successful_creation fs' /\
    fs_status "root/Word Files" fs' = Some (Dir plain []) /\
    create_directory_stat name_limit "root/Word Files" fs'
    = Ok create_directory_status.already_exists fs'.
Proof.
  split.
  - apply (proj1 (create_directory_stat_outcomes name_limit _ fs_long_name)).
    vm_compute. reflexivity.
  - destruct (proj2 (create_directory_stat_outcomes name_limit "root/Word Files"
                       fs_misplaced) eq_refl) as (st & fs' & E & _ & _ & H).
    vm_compute in E. injection E as <- <-.
    eexists. split; [vm_compute; reflexivity |].
    split; [vm_compute; reflexivity |].
    exact (proj2 (proj2 (H eq_refl))).
Defined.

(** X8: the one exception that leaves [handle_file] is that of the
    [exists] query of [create_directory] on the category folder: when the
    file is in place no query is made and nothing changes; otherwise, when
    that query fails, [handle_file] throws and has changed nothing; and when
    it is answered, [handle_file] does not throw, whatever the transfers meet
    (their own failed queries included), and returns a status, the
    destination having fewer than [INT_MAX] - 1 entries.  A returned status
    is never one of the two path-validation statuses, a mode never reports
    the failure of the other mode, and with [already_in_correct_location]
    nothing has changed. *)
Theorem handle_file_stat_throws_only_from_exists
        (stat_error : string -> option errc.t)
        (current_directory_level_path entry_path : string)
        (t_mode : transfer_mode.t) (fs : node) :
  let category := classify_file_by_extension entry_path in
  let parent_folder_name := get_parent_folder_name current_directory_level_path in
  let dest := path_append (base_location current_directory_level_path category) category in
  let in_place :=
    String.eqb category parent_folder_name
    || alias_of_category parent_folder_name category in
  let run := handle_file_stat stat_error current_directory_level_path entry_path t_mode fs in
  (in_place = true -> run = Ok organize_status.already_in_correct_location fs) /\
  (in_place = false -> forall e, stat_error dest = Some e -> run = Throw e fs) /\
  (in_place = false -> stat_error dest = None ->
   (forall e fs', run <> Throw e fs') /\
   ((N.of_nat (entry_count dest fs) + 2 <= INT_MAX)%N -> exists st fs', run = Ok st fs')) /\
  (forall st fs',
      run = Ok st fs' ->
      (st = organize_status.already_in_correct_location -> fs' = fs) /\
      st <> organize_status.path_not_found /\
      st <> organize_status.not_a_directory /\
      (t_mode = transfer_mode.fallback_transfer_mode ->
       st <> organize_status.atomic_transfer_failed) /\
      (t_mode = transfer_mode.atomic_transfer_mode ->
       st <> organize_status.fallback_transfer_failed)).
Proof.
  intros category parent_folder_name dest in_place run.
  unfold run, handle_file_stat. fold category parent_folder_name dest.
  unfold in_place.
  destruct (String.eqb category parent_folder_name); cbn [orb].
  { split; [reflexivity |]. split; [intros H; discriminate H |].
    split; [intros H; discriminate H |].
    intros st fs' H. injection H as <- <-. split; [reflexivity |].
    repeat split; try (intros H; discriminate H); intros _ H; discriminate H. }
  destruct (alias_of_category parent_folder_name category).
  { split; [reflexivity |]. split; [intros H; discriminate H |].
    split; [intros H; discriminate H |].
    intros st fs' H. injection H as <- <-. split; [reflexivity |].
    repeat split; try (intros H; discriminate H); intros _ H; discriminate H. }
  split; [intros H; discriminate H |].
  unfold bind.
  split; [|split].
  - intros _ e He. rewrite (create_directory_stat_throws _ _ _ _ He). reflexivity.
  - intros _ Hs. rewrite (create_directory_stat_answered _ _ _ Hs).
    destruct (create_directory_result dest fs) as (cr & fs1 & Ec & _). rewrite Ec.
    pose proof (create_directory_entry_count _ _ _ _ Ec) as Hcount.
    destruct t_mode.
    + destruct (atomic_file_transfer_stat_returns stat_error entry_path dest fs1)
        as [Hnt Hret].
      split.
      * intros e fs' H.
        destruct (atomic_file_transfer_stat stat_error entry_path dest fs1)
          as [st fs2|e2 fs2|] eqn:Et; [discriminate H | | discriminate H].
        exact (Hnt e2 fs2 eq_refl).
      * intros Hb. rewrite <- Hcount in Hb. destruct (Hret Hb) as (st & fs' & ->).
        eexists; eexists; reflexivity.
    + destruct (fallback_transfer_stat_returns stat_error entry_path dest fs1)
        as [Hnt Hret].
      split.
      * intros e fs' H.
        destruct (fallback_transfer_stat stat_error entry_path dest fs1)
          as [st fs2|e2 fs2|] eqn:Et; [discriminate H | | discriminate H].
        exact (Hnt e2 fs2 eq_refl).
      * intros Hb. rewrite <- Hcount in Hb. destruct (Hret Hb) as (st & fs' & ->).
        eexists; eexists; reflexivity.
  - intros st fs' H.
    destruct (create_directory_stat stat_error dest fs) as [cr fs1|e fs1|];
      [|discriminate H | discriminate H].
    destruct t_mode.
    + destruct (atomic_file_transfer_stat stat_error entry_path dest fs1)
        as [st2 fs2|e2 fs2|]; [|discriminate H | discriminate H].
      injection H as <- <-.
      split; [intros H; exact (False_ind _ (combine_atomic_not_skipped _ _ H)) |].
      split; [destruct cr, st2; intros H; discriminate H |].
      split; [destruct cr, st2; intros H; discriminate H |].
      split; intros Hm;
        first [discriminate Hm | destruct cr, st2; intros H; discriminate H].
    + destruct (fallback_transfer_stat stat_error entry_path dest fs1)
        as [st2 fs2|e2 fs2|]; [|discriminate H | discriminate H].
      injection H as <- <-.
      split; [intros H; exact (False_ind _ (combine_fallback_not_skipped _ _ H)) |].
      split; [destruct cr, st2; intros H; discriminate H |].
      split; [destruct cr, st2; intros H; discriminate H |].
      split; intros Hm;
        first [discriminate Hm | destruct cr, st2; intros H; discriminate H].
Qed.

Lemma handle_file_stat_throws_only_from_exists_witness :
  (exists fs',
      handle_file_stat name_limit "root/Image Files" "root/Image Files/report.docx"
                       transfer_mode.atomic_transfer_mode fs_misplaced
      = Ok organize_status.success fs' /\
      fs_status "root/Word Files/report.docx" fs' = Some (File None "r")) /\
  handle_file_stat name_limit (path_append "root" (long_name +:+ "xx"))
                   (path_append (path_append "root" (long_name +:+ "xx")) "a.png")
                   transfer_mode.atomic_transfer_mode fs_long_name
  = Throw errc.filename_too_long fs_long_name.
Proof.
  split.
  - destruct (handle_file_stat_throws_only_from_exists
                name_limit "root/Image Files" "root/Image Files/report.docx"
                transfer_mode.atomic_transfer_mode fs_misplaced)
      as (_ & _ & H & _).
    destruct (H ltac:(vm_compute; reflexivity) ltac:(vm_compute; reflexivity))
      as [_ Hret].
    destruct (Hret ltac:(apply N.leb_le; vm_compute; reflexivity)) as (st & fs' & E).
    exists fs'. vm_compute in E. injection E as <- <-.
    split; vm_compute; reflexivity.
  - apply (proj1 (proj2 (handle_file_stat_throws_only_from_exists
                           name_limit (path_append "root" (long_name +:+ "xx"))
                           (path_append (path_append "root" (long_name +:+ "xx")) "a.png")
                           transfer_mode.atomic_transfer_mode fs_long_name)));
      vm_compute; reflexivity.
Defined.

(** X11: whenever [get_unique_path] returns, it has changed nothing, and
    the name it chose for a file name of one component is that name or
    stem(n)extension with n between 1 and one more than the number of
    entries of the destination; candidates with different n are different
    names; and the chosen name is one component with the category of the
    original, so that a file renamed to avoid a collision is still
    classified the same. *)
Theorem get_unique_path_stat_names
        (stat_error : string -> option errc.t) (destination_dir filename : string)
        (fs : node) (p : string) (fs' : node) :
  good_name filename = true ->
  get_unique_path_stat stat_error destination_dir filename fs = Ok p fs' ->
  fs' = fs /\
  exists leaf,
    p = path_append destination_dir leaf /\
    (leaf = filename \/
     exists n, 1 <= n <= S (entry_count destination_dir fs) /\
               leaf = new_filename (path_stem filename) (path_extension filename) n) /\
    (forall n m,
        new_filename (path_stem filename) (path_extension filename) n
        = new_filename (path_stem filename) (path_extension filename) m -> n = m) /\
    resolve (path_append destination_dir leaf) = resolve destination_dir ++ [leaf] /\
    classify_file_by_extension (path_append destination_dir leaf)
    = classify_file_by_extension filename.
Proof.
  intros Hg E. destruct (get_unique_path_stat_ok _ _ _ _ _ _ E) as [-> Hi].
  split; [reflexivity |].
  destruct (get_unique_path_names destination_dir filename fs Hg)
    as (leaf & El & H1 & H2 & H3 & H4).
  rewrite Hi in El. injection El as ->.
  exists leaf. split; [reflexivity |]. split; [exact H1 |]. split; [exact H2 |].
  split; [exact H3 | exact H4].
Qed.

Lemma get_unique_path_stat_names_witness :
  get_unique_path_stat name_limit "root/Image Files" "a.png" fs_collision
  = Ok "root/Image Files/a(2).png" fs_collision /\
  classify_file_by_extension "root/Image Files/a(2).png"
  = classify_file_by_extension "a.png".
Proof.
  assert (E : get_unique_path_stat name_limit "root/Image Files" "a.png" fs_collision
              = Ok "root/Image Files/a(2).png" fs_collision)
    by (vm_compute; reflexivity).
  split; [exact E |].
  destruct (get_unique_path_stat_names name_limit "root/Image Files" "a.png"
              fs_collision _ _ eq_refl E) as (_ & leaf & Ep & _ & _ & _ & H).
  rewrite Ep. exact H.
Defined.
(* ================================================================== *)
(** ** A second run finds every file in place *)
(* ================================================================== *)

Lemma for_entries_live_eq reported rounds cur t_mode names st fs :
  for_entries_live reported rounds cur t_mode names st fs
  = match for_entries cur t_mode names st fs with
    | Ok (None, st') fs' =>
        match List.filter
                (fun n => reported (path_append cur n)
                          && appeared (path_append cur n) fs fs')
                (level_names cur fs') with
        | [] => Ok (None, st') fs'
        | added =>
            match rounds with
            | O => OutOfFuel
            | S rounds' => for_entries_live reported rounds' cur t_mode added st' fs'
            end
        end
    | r => r
    end.
Proof. destruct rounds; reflexivity. Qed.

(** The walk whose iterators report no addition is the walk over the
    entries each level had. *)
Lemma organize_loop_live_none fuel t_mode :
  forall st fs,
    organize_loop_live (fun _ => false) fuel t_mode st fs = organize_loop fuel t_mode st fs.
Proof.
  induction fuel as [|fuel IH]; intros st fs; [reflexivity |].
  simpl. destruct (directories st) as [|cur rest]; [reflexivity |].
  unfold bind. destruct (normalize_category_folder cur fs) as [[] fs1| |]; try reflexivity.
  destruct (fs_list cur fs1) as [names fs2| |]; try reflexivity.
  rewrite for_entries_live_eq.
  destruct (for_entries cur t_mode names _ fs2) as [[[s|] st'] fs3| |]; try reflexivity.
  cbn [andb]. 
  assert (E : forall l : list string, List.filter (fun _ => false) l = []).
  { induction l as [|x l IHl]; [reflexivity | exact IHl]. }
  rewrite E. apply IH.
Qed.

(** One reading of a level whose calls all succeed or skip. *)
Lemma for_entries_refines root ns cur t_mode names :
  at_path root ns cur ->
  forall st fs st' fs',
    (forall n, In n names -> good_name n = true) ->
    wf fs ->
    for_entries cur t_mode names st fs = Ok (None, st') fs' ->
    wf fs' /\ refines root fs fs' /\
    (forall f, look (resolve root ++ ns ++ [f]) fs' = Some KFile ->
               look (resolve root ++ ns ++ [f]) fs = Some KFile /\
               (In f names -> placed (path_filename cur) f = true)) /\
    (forall s, In s (directories st') ->
               In s (directories st) \/
               exists n, In n names /\ s = path_append cur n /\ visible n = true) /\
    (forall s, In s (directories st) -> In s (directories st')) /\
    (forall n a, In n names -> look (resolve root ++ ns ++ [n]) fs = Some (KDir a) ->
                 visible n = true -> In (path_append cur n) (directories st')).
Proof.
  intros Hat. pose proof (at_path_resolve _ _ _ Hat) as Hcur.
  induction names as [|n names IH]; intros st fs st' fs' Hgood Hwf E.
  { simpl in E. injection E as <- <-. split; [exact Hwf |].
    split; [apply refines_refl |]. split; [|split; [|split]].
    - intros f Hf. split; [exact Hf | intros []].
    - intros s Hs. left. exact Hs.
    - intros s Hs. exact Hs.
    - intros n a []. }
  pose proof (Hgood n (or_introl eq_refl)) as Hg.
  assert (Hgood' : forall k, In k names -> good_name k = true)
    by (intros k Hk; apply Hgood; right; exact Hk).
  pose proof (resolve_append_good cur n Hg) as Es. rewrite Hcur, <- app_assoc in Es.
  destruct (fs_is_regular_file (path_append cur n) fs) eqn:Hf.
  - assert (Hfile : look (resolve root ++ ns ++ [n]) fs = Some KFile).
    { unfold fs_is_regular_file, fs_status in Hf. rewrite Es in Hf. unfold look.
      destruct (walk (resolve root ++ ns ++ [n]) fs) as [[? ?|? ?]|];
        [reflexivity | discriminate Hf | discriminate Hf]. }
    destruct (placed (path_filename cur) n) eqn:Hp.
    + rewrite (for_entries_file cur t_mode n names st fs _ fs Hf
                 (handle_file_placed cur n t_mode fs Hg Hp) (or_introl eq_refl)) in E.
      destruct (IH _ _ _ _ Hgood' Hwf E) as (Hwf' & Hr & Hfiles & Hnew & Hold & Hdirs).
      split; [exact Hwf' |]. split; [exact Hr |]. split; [|split; [|split]].
      * intros f Hl. destruct (Hfiles f Hl) as [H1 H2]. split; [exact H1 |].
        intros [<- | Hin]; [exact Hp | exact (H2 Hin)].
      * intros s Hs. destruct (Hnew s Hs) as [H | (k & Hk & -> & Hv)]; [left; exact H |].
        right. exists k. split; [right; exact Hk | split; [reflexivity | exact Hv]].
      * exact Hold.
      * intros k a [<- | Hk] Hd Hv; [rewrite Hfile in Hd; discriminate Hd |].
        exact (Hdirs k a Hk Hd Hv).
    + destruct (handle_file_status cur (path_append cur n) t_mode fs)
        as (st1 & fs1 & Eh & Hna).
      destruct (placed_false _ _ Hp) as [Hne Hal].
      unfold get_parent_folder_name in Hna. rewrite (classify_append cur n Hg) in Hna.
      specialize (Hna Hne Hal).
      destruct (organize_status_cases st1) as [[-> | ->] | [H1 H2]].
      * rewrite (for_entries_file cur t_mode n names st fs _ fs1 Hf Eh
                   (or_intror eq_refl)) in E.
        destruct (handle_file_refines root ns cur n t_mode fs fs1 Hat Hg Hwf Hfile Hp Eh)
          as (Hwf1 & Hr1 & Hfiles1).
        destruct (IH _ _ _ _ Hgood' Hwf1 E) as (Hwf' & Hr & Hfiles & Hnew & Hold & Hdirs).
        split; [exact Hwf' |]. split; [exact (refines_trans _ _ _ _ Hr1 Hr) |].
        split; [|split; [|split]].
        -- intros f Hl. destruct (Hfiles f Hl) as [Ha Hb].
           destruct (Hfiles1 f Ha) as [Hfn Hc]. split; [exact Hc |].
           intros [E' | Hin]; [exact (False_ind _ (Hfn (eq_sym E'))) | exact (Hb Hin)].
        -- intros s Hs. destruct (Hnew s Hs) as [H | (k & Hk & -> & Hv)]; [left; exact H |].
           right. exists k. split; [right; exact Hk | split; [reflexivity | exact Hv]].
        -- exact Hold.
        -- intros k a [<- | Hk] Hd Hv; [rewrite Hfile in Hd; discriminate Hd |].
           exact (Hdirs k a Hk (proj1 Hr1 _ _ Hd) Hv).
      * exact (False_ind _ (Hna eq_refl)).
      * rewrite (for_entries_file_fails cur t_mode n names st fs _ fs1 Hf Eh H2 H1) in E.
        discriminate E.
  - destruct (fs_is_directory (path_append cur n) fs) eqn:Hd.
    + rewrite (for_entries_directory cur t_mode n names st fs Hf Hd) in E.
      rewrite (path_filename_append_good cur n Hg) in E.
      destruct (IH _ _ _ _ Hgood' Hwf E) as (Hwf' & Hr & Hfiles & Hnew & Hold & Hdirs).
      split; [exact Hwf' |]. split; [exact Hr |]. split; [|split; [|split]].
      * intros f Hl. destruct (Hfiles f Hl) as [H1 H2]. split; [exact H1 |].
        intros [<- | Hin]; [|exact (H2 Hin)].
        exfalso. unfold fs_is_regular_file, fs_status in Hf. rewrite Es in Hf.
        unfold look in H1.
        destruct (walk (resolve root ++ ns ++ [n]) fs) as [[? ?|? ?]|];
          [discriminate Hf | discriminate H1 | discriminate H1].
      * intros s Hs. destruct (Hnew s Hs) as [H | (k & Hk & -> & Hv)].
        -- destruct (visible n) eqn:Hvn; [|left; exact H].
           cbn [directories] in H. destruct H as [<- | H]; [|left; exact H].
           right. exists n. split; [left; reflexivity | split; [reflexivity | exact Hvn]].
        -- right. exists k. split; [right; exact Hk | split; [reflexivity | exact Hv]].
      * intros s Hs. apply Hold. destruct (visible n); [right; exact Hs | exact Hs].
      * intros k a [<- | Hk] Hdk Hv; [|exact (Hdirs k a Hk Hdk Hv)].
        apply Hold. rewrite Hv. left. reflexivity.
    + rewrite (for_entries_other cur t_mode n names st fs Hf Hd) in E.
      destruct (IH _ _ _ _ Hgood' Hwf E) as (Hwf' & Hr & Hfiles & Hnew & Hold & Hdirs).
      split; [exact Hwf' |]. split; [exact Hr |]. split; [|split; [|split]].
      * intros f Hl. destruct (Hfiles f Hl) as [H1 H2]. split; [exact H1 |].
        intros [<- | Hin]; [|exact (H2 Hin)].
        exfalso. unfold fs_is_regular_file, fs_status in Hf. rewrite Es in Hf.
        unfold look in H1.
        destruct (walk (resolve root ++ ns ++ [n]) fs) as [[? ?|? ?]|];
          [discriminate Hf | discriminate H1 | discriminate H1].
      * intros s Hs. destruct (Hnew s Hs) as [H | (k & Hk & -> & Hv)]; [left; exact H |].
        right. exists k. split; [right; exact Hk | split; [reflexivity | exact Hv]].
      * exact Hold.
      * intros k a [<- | Hk] Hdk Hv; [|exact (Hdirs k a Hk Hdk Hv)].
        exfalso. unfold fs_is_directory, fs_status in Hd. rewrite Es in Hd.
        unfold look in Hdk.
        destruct (walk (resolve root ++ ns ++ [n]) fs) as [[? ?|? ?]|];
          [discriminate Hdk | discriminate Hd | discriminate Hdk].
Qed.

Lemma level_names_good cur fs n :
  wf fs -> In n (level_names cur fs) -> good_name n = true.
Proof.
  intros Hwf. unfold level_names, fs_status.
  destruct (walk (resolve cur) fs) as [[? ?|a es]|] eqn:Hw; try (intros []).
  intros Hin. exact (proj2 (Hwf _ _ _ Hw) n Hin).
Qed.

(** The same for the whole reading of a level by a live iterator. *)
Lemma for_entries_live_refines reported root ns cur t_mode rounds :
  at_path root ns cur ->
  forall names st fs st' fs',
    (forall n, In n names -> good_name n = true) ->
    wf fs ->
    for_entries_live reported rounds cur t_mode names st fs = Ok (None, st') fs' ->
    wf fs' /\ refines root fs fs' /\
    (forall f, look (resolve root ++ ns ++ [f]) fs' = Some KFile ->
               look (resolve root ++ ns ++ [f]) fs = Some KFile /\
               (In f names -> placed (path_filename cur) f = true)) /\
    (forall s, In s (directories st') ->
               In s (directories st) \/
               exists n, good_name n = true /\ s = path_append cur n /\ visible n = true) /\
    (forall s, In s (directories st) -> In s (directories st')) /\
    (forall n a, In n names -> look (resolve root ++ ns ++ [n]) fs = Some (KDir a) ->
                 visible n = true -> In (path_append cur n) (directories st')).
Proof.
  intros Hat.
  induction rounds as [|rounds IH]; intros names st fs st' fs' Hgood Hwf E;
    rewrite for_entries_live_eq in E;
    destruct (for_entries cur t_mode names st fs) as [[[s|] st1] fs1| |] eqn:E1;
    try discriminate E;
    destruct (for_entries_refines root ns cur t_mode names Hat _ _ _ _ Hgood Hwf E1)
      as (Hwf1 & Hr1 & Hfiles1 & Hnew1 & Hold1 & Hdirs1);
    assert (Hnew1' : forall s, In s (directories st1) ->
               In s (directories st) \/
               exists n, good_name n = true /\ s = path_append cur n /\ visible n = true)
      by (intros s0 Hs0; destruct (Hnew1 s0 Hs0) as [H | (k & Hk & -> & Hv)];
          [left; exact H | right; exists k; split; [exact (Hgood k Hk) | split; [reflexivity | exact Hv]]]);
    remember (List.filter _ (level_names cur fs1)) as added eqn:Ea;
    destruct added as [|n0 added].
  - injection E as <- <-. auto 10.
  - discriminate E.
  - injection E as <- <-. auto 10.
  - assert (Hgood2 : forall n, In n (n0 :: added) -> good_name n = true).
    { intros n Hn. rewrite Ea in Hn. apply List.filter_In in Hn as [Hn _].
      exact (level_names_good cur fs1 n Hwf1 Hn). }
    destruct (IH _ _ _ _ _ Hgood2 Hwf1 E) as (Hwf' & Hr & Hfiles & Hnew & Hold & Hdirs).
    split; [exact Hwf' |]. split; [exact (refines_trans _ _ _ _ Hr1 Hr) |].
    split; [|split; [|split]].
    + intros f Hl. destruct (Hfiles f Hl) as [Ha _]. exact (Hfiles1 f Ha).
    + intros s Hs. destruct (Hnew s Hs) as [H | H]; [exact (Hnew1' s H) | right; exact H].
    + intros s Hs. exact (Hold s (Hold1 s Hs)).
    + intros n a Hn Hd Hv. exact (Hold _ (Hdirs1 n a Hn Hd Hv)).
Qed.

(** The alias renames of a level change nothing of what is not below one
    of its entries. *)
Lemma normalize_look_outside cur fs fs1 :
  wf fs -> normalize_category_folder cur fs = Ok tt fs1 ->
  forall q, (forall k, ~ (resolve cur ++ [k]) `prefix_of` q) -> look q fs1 = look q fs.
Proof.
  intros Hwf E. unfold normalize_category_folder, bind in E.
  destruct (fs_list cur fs) as [names fs0| |] eqn:Hl; try discriminate E.
  destruct (fs_list_names _ _ _ _ Hwf Hl) as [-> Hgood].
  set (m := fold_left (scan_entry fs cur) names []) in *.
  refine (for_each_rename_invariant
            (fun fs1 => forall q, (forall k, ~ (resolve cur ++ [k]) `prefix_of` q) ->
                                  look q fs1 = look q fs)
            m fs fs1 _ _ E).
  { intros q _. reflexivity. }
  intros [c v] fa fb Hin Ha Er q Hq.
  destruct (scan_firsts_are_directories _ _ _ _ _ Hgood Hin)
    as (n0 & -> & Hn0 & Hc & _).
  rewrite <- (Ha q Hq).
  destruct (rename_to_canonical_cases _ _ _ _ _ Hn0 Hc Er)
    as [-> | (a & es & src & _ & _ & _ & _ & ->)]; [reflexivity |].
  rewrite (look_update_other _ c _ q _ (touches_only_put c src) (Hq c)).
  exact (look_update_other _ n0 _ q _ (touches_only_del n0) (Hq n0)).
Qed.

Lemma for_entries_live_some reported rounds cur t_mode :
  forall names st fs s st' fs',
    for_entries_live reported rounds cur t_mode names st fs = Ok (Some s, st') fs' ->
    s <> organize_status.success.
Proof.
  induction rounds as [|rounds IH]; intros names st fs s st' fs' E;
    rewrite for_entries_live_eq in E;
    destruct (for_entries cur t_mode names st fs) as [[[s1|] st1] fs1| |] eqn:E1;
    try discriminate E.
  - injection E as <- <- <-.
    destruct (for_entries_handled _ _ _ _ _ _ _ _ E1) as (l & _ & l0 & _ & _ & H & _).
    exact H.
  - destruct (List.filter _ _); discriminate E.
  - injection E as <- <- <-.
    destruct (for_entries_handled _ _ _ _ _ _ _ _ E1) as (l & _ & l0 & _ & _ & H & _).
    exact H.
  - destruct (List.filter _ _) as [|n0 added]; [discriminate E |].
    exact (IH _ _ _ _ _ _ E).
Qed.

Lemma fs_list_open cur fs names fs' :
  fs_list cur fs = Ok names fs' ->
  fs' = fs /\
  exists a es, walk (resolve cur) fs = Some (Dir a es) /\ names = List.map fst es /\
               d_open a = None.
Proof.
  unfold fs_list, fs_status.
  destruct (walk (resolve cur) fs) as [[? ?|a es]|]; try (intros H; discriminate H).
  destruct (d_open a) eqn:Ho; intros H; [discriminate H |].
  injection H as <- <-. split; [reflexivity |]. exists a, es. auto.
Qed.

(** A run that returns [success] leaves every level it could reach in
    order. *)
Lemma organize_loop_live_settles reported root t_mode fuel :
  forall st fs log fs',
    wf fs ->
    (forall s, In s (directories st) -> exists ns, at_path root ns s) ->
    settled_but root (directories st) fs ->
    (exists a, look (resolve root) fs = Some (KDir a)) ->
    organize_loop_live reported fuel t_mode st fs = Ok (organize_status.success, log) fs' ->
    wf fs' /\ Settled root fs' /\ exists a, look (resolve root) fs' = Some (KDir a).
Proof.
  induction fuel as [|fuel IH]; intros st fs log fs' Hwf Hat Hset Hroot E;
    [discriminate E |].
  simpl in E. destruct (directories st) as [|cur rest] eqn:Hst.
  { injection E as _ <-. split; [exact Hwf |]. split; [|exact Hroot].
    intros ms Hms. apply Hset; [exact Hms |]. intros s []. }
  unfold bind in E.
  destruct (normalize_category_folder cur fs) as [[] fsN| |] eqn:En; try discriminate E.
  destruct (normalize_measure cur fs fsN Hwf En) as (HwfN & _ & _ & _).
  pose proof (normalize_look_outside cur fs fsN Hwf En) as Hout.
  destruct (fs_list cur fsN) as [names fs0| |] eqn:El; try discriminate E.
  destruct (fs_list_open _ _ _ _ El) as (-> & aN & esN & HwN & Hnames & HoN).
  destruct (fs_list_names _ _ _ _ HwfN El) as [_ Hgood].
  destruct (for_entries_live reported fuel cur t_mode names _ fsN)
    as [[[s|] st'] fsE| |] eqn:Ee; try discriminate E.
  { injection E as -> _ _.
    exact (False_ind _ (for_entries_live_some _ _ _ _ _ _ _ _ _ _ Ee eq_refl)). }
  destruct (Hat cur (or_introl eq_refl)) as [ns Hcur].
  pose proof (at_path_resolve _ _ _ Hcur) as Ec.
  destruct (for_entries_live_refines reported root ns cur t_mode fuel Hcur _ _ _ _ _
              Hgood HwfN Ee) as (HwfE & Hr & Hfiles & Hnew & Hold & Hdirs).
  cbn [directories] in Hnew, Hold.
  apply (IH st' fsE log fs' HwfE); [| | |exact E].
  3:{ destruct Hroot as [a Ha]. exists a. apply (proj1 Hr).
      rewrite Hout; [exact Ha |].
      intros k Hk. apply prefix_length in Hk. rewrite Ec, !length_app in Hk.
      simpl in Hk. lia. }
  - intros s Hs. destruct (Hnew s Hs) as [H | (n & Hn & -> & Hv)].
    + apply Hat. right. exact H.
    + exists (ns ++ [n]). exact (at_child root ns cur n Hcur Hn Hv).
  - intros ms Hms Hcut.
    destruct (decide (resolve cur `prefix_of` (resolve root ++ ms))) as [Hp | Hnp].
    + rewrite Ec in Hp. destruct Hp as [t Ht]. rewrite <- app_assoc in Ht.
      apply app_inv_head in Ht. subst ms.
      destruct t as [|k t].
      * rewrite app_nil_r in *. intros a Ha.
        assert (HlN : look (resolve root ++ ns) fsN = Some (KDir aN))
          by (unfold look; rewrite <- Ec, HwN; reflexivity).
        rewrite (proj1 Hr _ _ HlN) in Ha. injection Ha as <-.
        split; [exact HoN |]. intros f Hf.
        destruct (Hfiles f Hf) as [HfN Hpl].
        rewrite <- (at_path_folder _ _ _ Hcur). apply Hpl.
        rewrite Hnames. rewrite app_assoc, <- Ec in HfN.
        destruct (look_file_inv _ _ HfN) as (r & x & Hw).
        destruct (walk_child_inv _ _ _ _ Hw) as (a1 & es1 & Hd1 & Hm1).
        rewrite HwN in Hd1. injection Hd1 as <- <-.
        exact (map_find_some_in _ _ _ Hm1).
      * apply walkable_app in Hms as [_ Hkt].
        apply (proj1 (List.Forall_cons_iff _ _ _)) in Hkt as [[Hkg Hkv] _].
        apply (level_ok_refines root fsN fsE _ Hr). right. intros a Ha.
        assert (Hk : exists a', look (resolve root ++ ns ++ [k]) fsN = Some (KDir a')).
        { destruct t as [|c t]; [exists a; exact Ha |].
          apply (look_above (resolve root ++ ns ++ [k]) c t fsN (KDir a)).
          rewrite <- !app_assoc. exact Ha. }
        destruct Hk as [a' Hk].
        assert (Hin : In k names).
        { rewrite Hnames. rewrite app_assoc, <- Ec in Hk.
          destruct (look_dir_inv _ _ _ Hk) as (es' & Hw).
          destruct (walk_child_inv _ _ _ _ Hw) as (a1 & es1 & Hd1 & Hm1).
          rewrite HwN in Hd1. injection Hd1 as <- <-.
          exact (map_find_some_in _ _ _ Hm1). }
        apply (Hcut _ (Hdirs k a' Hin Hk Hkv)).
        rewrite (resolve_append_good cur k Hkg), Ec.
        exists t. rewrite <- !app_assoc. reflexivity.
    + assert (Hq : forall q, q = resolve root ++ ms \/ (exists f, q = resolve root ++ ms ++ [f]) ->
                             forall k, ~ (resolve cur ++ [k]) `prefix_of` q).
      { intros q [-> | [f ->]] k Hk.
        - apply Hnp. exact (prefix_app_l _ _ _ Hk).
        - rewrite app_assoc in Hk. apply prefix_snoc_cases in Hk as [Hk | Hk].
          + apply app_inj_tail in Hk as [Hk _]. apply Hnp. rewrite Hk. reflexivity.
          + apply Hnp. exact (prefix_app_l _ _ _ Hk). }
      apply (level_ok_refines root fsN fsE _ Hr). left.
      assert (H0 : level_ok fs root ms).
      { apply Hset; [exact Hms |]. intros s [<- | Hs]; [exact Hnp |].
        apply Hcut. apply Hold. exact Hs. }
      intros a Ha. rewrite (Hout _ (Hq _ (or_introl eq_refl))) in Ha.
      destruct (H0 a Ha) as [Ho Hf]. split; [exact Ho |].
      intros f Hl. apply Hf.
      rewrite <- (Hout _ (Hq _ (or_intror (ex_intro _ f eq_refl)))). exact Hl.
Qed.

(* ------------------------------------------------------------------ *)
(** *** The alias renames keep the levels in order *)

(** A file that is in place in an alias folder is in place under the
    canonical name of the folder. *)
Lemma placed_rename n0 c f :
  n0 ∉ CANONICAL_NAMES ->
  ALIAS_LOOKUP !! to_lower n0 = Some c ->
  placed n0 f = true -> placed c f = true.
Proof.
  intros Hn Ha Hp. unfold placed in *. apply orb_true_iff in Hp as [Hp | Hp].
  - apply String.eqb_eq in Hp. exfalso.
    destruct (classify_range f) as [Ho | Hc].
    + rewrite Ho in Hp. subst n0. rewrite others_not_alias in Ha. discriminate Ha.
    + rewrite Hp in Hc. exact (Hn Hc).
  - unfold alias_of_category in Hp.
    destruct (ALIAS_LOOKUP !! n0) as [c'|] eqn:E; [|discriminate Hp].
    apply String.eqb_eq in Hp.
    destruct (alias_lookup_range _ _ E) as (_ & _ & _ & Hl).
    rewrite Hl, E in Ha. injection Ha as <-.
    apply orb_true_iff. left. apply String.eqb_eq. symmetry. exact Hp.
Qed.

Lemma last_app_cons {A : Type} (l1 l2 : list A) (x d : A) :
  List.last (l1 ++ x :: l2) d = List.last (x :: l2) d.
Proof.
  induction l1 as [|y l1 IH]; [reflexivity |].
  cbn [app]. change (List.last (y :: l1 ++ x :: l2) d)
    with (match l1 ++ x :: l2 with [] => y | _ :: _ => List.last (l1 ++ x :: l2) d end).
  destruct (l1 ++ x :: l2) eqn:E; [destruct l1; discriminate E | exact IH].
Qed.

Lemma folder_of_below root ns k k' c t :
  folder_of root (ns ++ k :: c :: t) = folder_of root (ns ++ k' :: c :: t).
Proof. unfold folder_of. rewrite !last_app_cons. reflexivity. Qed.

Lemma folder_of_snoc root ns k : folder_of root (ns ++ [k]) = k.
Proof. unfold folder_of. apply List.last_last. Qed.

(** What a rename of the entry n0 of the level C to the name c does. *)
Lemma rename_walk C c n0 fa a es src :
  walk C fa = Some (Dir a es) -> map_find n0 es = Some src -> n0 <> c ->
  let fb := update_dir C (assoc_put c src) (update_dir C (assoc_del n0) fa) in
  (forall t, walk (C ++ c :: t) fb = walk (C ++ n0 :: t) fa) /\
  (forall t, walk (C ++ n0 :: t) fb = None) /\
  (forall q, ~ q `prefix_of` C -> ~ (C ++ [c]) `prefix_of` q ->
             ~ (C ++ [n0]) `prefix_of` q -> walk q fb = walk q fa) /\
  (forall q, ~ (C ++ [c]) `prefix_of` q -> ~ (C ++ [n0]) `prefix_of` q ->
             look q fb = look q fa).
Proof.
  intros Hd Hsrc Hne fb. unfold fb.
  set (mid := update_dir C (assoc_del n0) fa).
  assert (Hmid : walk C mid = Some (Dir a (assoc_del n0 es)))
    by exact (level_after_update _ _ _ _ _ Hd).
  split; [|split; [|split]].
  - intros t. rewrite (walk_put_under C c src t mid _ _ Hmid).
    rewrite walk_app, Hd. simpl. rewrite Hsrc. reflexivity.
  - intros t.
    rewrite (frame_entry (assoc_put c src) c C (C ++ n0 :: t) mid (touches_only_put c src)).
    + apply walk_del_under.
    + apply not_prefix_below.
    + apply not_prefix_sibling. intros E. exact (Hne (eq_sym E)).
  - intros q H0 H1 H2.
    rewrite (frame_entry (assoc_put c src) c C q mid (touches_only_put c src) H0 H1).
    exact (frame_entry (assoc_del n0) n0 C q fa (touches_only_del n0) H0 H2).
  - intros q H1 H2.
    rewrite (look_update_other _ c _ q _ (touches_only_put c src) H1).
    exact (look_update_other _ n0 _ q _ (touches_only_del n0) H2).
Qed.

Lemma alias_folder_alias fs cur c n0 :
  good_name n0 = true -> alias_folder fs cur c n0 = true ->
  ALIAS_LOOKUP !! to_lower n0 = Some c.
Proof.
  intros Hg H. unfold alias_folder in H. rewrite (path_filename_append_good cur n0 Hg) in H.
  apply andb_true_iff in H as [_ H].
  destruct (ALIAS_LOOKUP !! to_lower n0) as [c'|]; [|discriminate H].
  apply String.eqb_eq in H. rewrite H. reflexivity.
Qed.

(** The alias renames of a level keep every level in order. *)
Lemma normalize_settled root ns cur fs fs1 :
  at_path root ns cur -> wf fs -> Settled root fs ->
  normalize_category_folder cur fs = Ok tt fs1 -> Settled root fs1.
Proof.
  intros Hat Hwf Hset E. pose proof (at_path_resolve _ _ _ Hat) as Ec.
  unfold normalize_category_folder, bind in E.
  destruct (fs_list cur fs) as [names fs0| |] eqn:Hl; try discriminate E.
  destruct (fs_list_names _ _ _ _ Hwf Hl) as [-> Hgood].
  set (m := fold_left (scan_entry fs cur) names []) in *.
  refine (proj1 (for_each_rename_invariant
            (fun fa => Settled root fa /\
                       forall k, k ∉ CANONICAL_NAMES ->
                                 walk (resolve cur ++ [k]) fa = walk (resolve cur ++ [k]) fs \/
                                 walk (resolve cur ++ [k]) fa = None)
            m fs fs1 _ _ E)).
  { split; [exact Hset |]. intros k _. left. reflexivity. }
  intros [c v] fa fb Hin [Hsa Hka] Er.
  destruct (scan_firsts_are_directories _ _ _ _ _ Hgood Hin)
    as (n0 & -> & Hn0 & Hc & Hcan & Hncan & Hal & Hnf).
  pose proof (alias_folder_alias _ _ _ _ Hn0 Hal) as Halias.
  destruct (rename_to_canonical_cases _ _ _ _ _ Hn0 Hc Er)
    as [-> | (a & es & src & Hne & Hd & Hsrc & _ & ->)]; [split; assumption |].
  destruct (rename_walk _ c n0 fa a es src Hd Hsrc Hne) as (W1 & W2 & W3 & W4).
  assert (Hsrc_dir : forall r x, src <> File r x).
  { intros r x ->. pose proof (walk_child _ _ _ _ _ _ Hd Hsrc) as Hw.
    destruct (Hka n0 Hncan) as [H | H]; rewrite H in Hw; [|discriminate Hw].
    exact (Hnf r x Hw). }
  assert (Hvis : visible n0 = true).
  { rewrite <- visible_to_lower. exact (proj2 (alias_key_good _ _ Halias)). }
  split.
  - intros ms Hms a0 Ha.
    destruct (decide ((resolve cur ++ [c]) `prefix_of` (resolve root ++ ms))) as [Hp | Hnp].
    + apply prefix_snoc_inv in Hp as [t Ht]. rewrite Ec, <- app_assoc in Ht.
      apply app_inv_head in Ht. subst ms.
      assert (Hms0 : walkable (ns ++ n0 :: t)).
      { apply walkable_app in Hms as [H1 H2]. apply walkable_app. split; [exact H1 |].
        apply List.Forall_cons_iff in H2 as [_ H2].
        apply List.Forall_cons; [split; [exact Hn0 | exact Hvis] | exact H2]. }
      assert (Ha0 : look (resolve root ++ ns ++ n0 :: t) fa = Some (KDir a0)).
      { rewrite app_assoc, <- Ec. rewrite app_assoc, <- Ec in Ha.
        unfold look in *. rewrite <- W1. exact Ha. }
      destruct (Hsa _ Hms0 a0 Ha0) as [Ho Hf]. split; [exact Ho |].
      intros f Hlf.
      assert (Hlf0 : look (resolve root ++ (ns ++ n0 :: t) ++ [f]) fa = Some KFile).
      { rewrite <- app_assoc, app_assoc, <- Ec. rewrite <- app_assoc, app_assoc, <- Ec in Hlf.
        cbn [app] in *. unfold look in *. rewrite <- W1. exact Hlf. }
      specialize (Hf f Hlf0).
      destruct t as [|c1 t].
      * rewrite folder_of_snoc in *. exact (placed_rename n0 c f Hncan Halias Hf).
      * rewrite (folder_of_below root ns c n0 c1 t). exact Hf.
    + destruct (decide ((resolve cur ++ [n0]) `prefix_of` (resolve root ++ ms)))
        as [Hp0 | Hnp0].
      { apply prefix_snoc_inv in Hp0 as [t Ht]. rewrite Ht in Ha.
        unfold look in Ha. rewrite W2 in Ha. discriminate Ha. }
      rewrite (W4 _ Hnp Hnp0) in Ha.
      destruct (Hsa _ Hms a0 Ha) as [Ho Hf]. split; [exact Ho |].
      intros f Hlf. apply Hf. rewrite <- Hlf. symmetry.
      rewrite app_assoc in Hlf |- *. apply W4.
      * intros Hp. apply prefix_snoc_cases in Hp as [Hp | Hp]; [|exact (Hnp Hp)].
        rewrite <- Hp in Hlf. unfold look in Hlf.
        rewrite (W1 []), (walk_child _ _ _ _ _ _ Hd Hsrc) in Hlf.
        destruct src as [r x|? ?]; [exact (Hsrc_dir r x eq_refl) | discriminate Hlf].
      * intros Hp. apply prefix_snoc_cases in Hp as [Hp | Hp]; [|exact (Hnp0 Hp)].
        rewrite <- Hp in Hlf. unfold look in Hlf. rewrite (W2 []) in Hlf.
        discriminate Hlf.
  - intros k Hk. destruct (String.eqb_spec k n0) as [-> | Hkn].
    + right. exact (W2 []).
    + assert (Hkc : k <> c) by (intros ->; exact (Hk Hcan)).
      rewrite W3.
      * exact (Hka k Hk).
      * apply not_prefix_below.
      * apply not_prefix_sibling. intros E'. exact (Hkc (eq_sym E')).
      * apply not_prefix_sibling. intros E'. exact (Hkn (eq_sym E')).
Qed.

(* ------------------------------------------------------------------ *)
(** *** The walk of a tree whose levels are in order *)

Lemma appeared_same p fs : appeared p fs fs = false.
Proof. unfold appeared. destruct (fs_status p fs) as [[? ?|? ?]|]; reflexivity. Qed.

Lemma filter_appeared_same (reported : string -> bool) cur fs l :
  List.filter (fun n => reported (path_append cur n) && appeared (path_append cur n) fs fs) l
  = [].
Proof.
  induction l as [|n l IH]; [reflexivity |].
  cbn [List.filter]. rewrite appeared_same, andb_false_r. exact IH.
Qed.

(** Reading a level whose regular files are all in place changes
    nothing. *)
Lemma for_entries_in_place cur t_mode names :
  forall st fs,
    (forall n, In n names -> good_name n = true) ->
    (forall f, In f names -> fs_is_regular_file (path_append cur f) fs = true ->
               placed (path_filename cur) f = true) ->
    exists st',
      for_entries cur t_mode names st fs = Ok (None, st') fs /\
      exists l, handled st' = handled st ++ l /\
                Forall (fun s => s = organize_status.already_in_correct_location) l.
Proof.
  induction names as [|n names IH]; intros st fs Hgood Hpl.
  { exists st. split; [reflexivity |]. exists []. split; [now rewrite app_nil_r | constructor]. }
  pose proof (Hgood n (or_introl eq_refl)) as Hg.
  assert (Hgood' : forall k, In k names -> good_name k = true)
    by (intros k Hk; apply Hgood; right; exact Hk).
  assert (Hpl' : forall f, In f names -> fs_is_regular_file (path_append cur f) fs = true ->
                           placed (path_filename cur) f = true)
    by (intros f Hf; apply Hpl; right; exact Hf).
  destruct (fs_is_regular_file (path_append cur n) fs) eqn:Hf.
  - rewrite (for_entries_file cur t_mode n names st fs _ fs Hf
               (handle_file_placed cur n t_mode fs Hg (Hpl n (or_introl eq_refl) Hf))
               (or_introl eq_refl)).
    destruct (IH {| directories := directories st;
                    handled := handled st ++ [organize_status.already_in_correct_location] |}
                 fs Hgood' Hpl') as (st' & E & l & Hl & Hall).
    exists st'. split; [exact E |].
    exists (organize_status.already_in_correct_location :: l).
    split; [|constructor; [reflexivity | exact Hall]].
    rewrite Hl. cbn [handled]. rewrite <- app_assoc. reflexivity.
  - destruct (fs_is_directory (path_append cur n) fs) eqn:Hd.
    + rewrite (for_entries_directory cur t_mode n names st fs Hf Hd).
      destruct (visible (path_filename (path_append cur n))).
      * destruct (IH {| directories := path_append cur n :: directories st;
                        handled := handled st |} fs Hgood' Hpl') as (st' & E & l & Hl & Hall).
        exists st'. split; [exact E |]. exists l. split; [exact Hl | exact Hall].
      * exact (IH st fs Hgood' Hpl').
    + rewrite (for_entries_other cur t_mode n names st fs Hf Hd).
      exact (IH st fs Hgood' Hpl').
Qed.

(** On a tree whose levels are in order the walk returns [success], and
    every call of [handle_file] has answered
    [already_in_correct_location]. *)
Lemma organize_loop_live_in_place reported root t_mode fuel :
  forall st fs,
    wf fs -> Settled root fs ->
    (forall s, In s (directories st) -> exists ns, at_path root ns s) ->
    stack_ok fs (List.map resolve (directories st)) ->
    stack_size fs (List.map resolve (directories st)) < fuel ->
    Forall (fun s => s = organize_status.already_in_correct_location) (handled st) ->
    exists log fs',
      organize_loop_live reported fuel t_mode st fs = Ok (organize_status.success, log) fs' /\
      Forall (fun s => s = organize_status.already_in_correct_location) log /\
      wf fs' /\ Settled root fs'.
Proof.
  induction fuel as [|fuel IH]; intros st fs Hwf Hset Hat [Hap Hdirs] Hm Hlog; [lia |].
  cbn [organize_loop_live]. destruct (directories st) as [|cur rest] eqn:Hst.
  { exists (handled st), fs. auto. }
  cbn [List.map] in Hap, Hdirs, Hm. destruct Hap as [Hap1 Hap].
  apply List.Forall_cons_iff in Hdirs as [(a0 & Hcur) Hdirs]. simpl in Hm.
  destruct (look_dir_inv _ _ _ Hcur) as (es0 & Hcur').
  destruct (Hat cur (or_introl eq_refl)) as [ns Hatc].
  pose proof (at_path_resolve _ _ _ Hatc) as Ec.
  assert (Ho : d_open a0 = None).
  { rewrite Ec in Hcur. exact (proj1 (Hset ns (at_path_walkable _ _ _ Hatc) a0 Hcur)). }
  assert (El0 : fs_list cur fs = Ok (List.map fst es0) fs).
  { unfold fs_list, fs_status. rewrite Hcur', Ho. reflexivity. }
  destruct (normalize_returns_when_listed cur fs _ El0) as [fs1 En].
  unfold bind. rewrite En.
  destruct (normalize_measure cur fs fs1 Hwf En) as (Hwf1 & Ht1 & Hlook & Hout).
  pose proof (normalize_settled root ns cur fs fs1 Hatc Hwf Hset En) as Hset1.
  rewrite Hcur in Hlook. destruct (look_dir_inv _ _ _ Hlook) as (es1 & Hd).
  assert (El : fs_list cur fs1 = Ok (List.map fst es1) fs1).
  { unfold fs_list, fs_status. rewrite Hd, Ho. reflexivity. }
  rewrite El.
  destruct (fs_list_names _ _ _ _ Hwf1 El) as [_ Hgood].
  assert (Hrest : Forall (fun q => walk q fs1 = walk q fs) (List.map resolve rest)).
  { apply List.Forall_forall. intros q Hq. apply Hout.
    exact (proj1 (List.Forall_forall _ _) Hap1 q Hq). }
  assert (Hpl : forall f, In f (List.map fst es1) ->
                          fs_is_regular_file (path_append cur f) fs1 = true ->
                          placed (path_filename cur) f = true).
  { intros f Hf Hreg. rewrite (at_path_folder _ _ _ Hatc).
    rewrite Ec in Hlook.
    apply (proj2 (Hset1 ns (at_path_walkable _ _ _ Hatc) a0 Hlook) f).
    unfold fs_is_regular_file, fs_status in Hreg.
    rewrite (resolve_append_good cur f (Hgood f Hf)), Ec, <- app_assoc in Hreg.
    unfold look.
    destruct (walk (resolve root ++ ns ++ [f]) fs1) as [[? ?|? ?]|];
      [reflexivity | discriminate Hreg | discriminate Hreg]. }
  destruct (for_entries_in_place cur t_mode (List.map fst es1)
              {| directories := rest; handled := handled st |} fs1 Hgood Hpl)
    as (st' & Ef & l & Hl & Hall).
  destruct (for_entries_measure cur t_mode
              (esum es1 + stack_size fs1 (List.map resolve rest)) (List.map fst es1)
              {| directories := rest; handled := handled st |} fs1 Hgood
              (proj1 (Hwf1 _ _ _ Hd)) Hwf1)
    as (r & st'' & fs'' & Ef' & Hr).
  - exact Hap.
  - cbn [directories]. apply List.Forall_forall. intros q Hq.
    destruct (proj1 (List.Forall_forall _ _) Hdirs q Hq) as (aq & Haq).
    split.
    + exists aq. unfold look. rewrite (proj1 (List.Forall_forall _ _) Hrest q Hq).
      exact Haq.
    + right. exact (proj1 (List.Forall_forall _ _) Hap1 q Hq).
  - apply List.Forall_forall. intros q Hq.
    apply List.in_map_iff in Hq as (n & <- & Hn).
    apply List.in_map_iff in Hn as ([k v] & <- & Hkv).
    unfold look. cbn [fst].
    rewrite (walk_child _ _ _ _ _ _ Hd (map_find_in k v es1 (proj1 (Hwf1 _ _ _ Hd)) Hkv)).
    intros H; discriminate H.
  - cbn [directories].
    rewrite (esum_names _ _ _ _ Hd (proj1 (Hwf1 _ _ _ Hd))). lia.
  - rewrite Ef in Ef'. injection Ef' as <- <- <-.
    destruct (Hr eq_refl) as (_ & Hok' & Hm').
    destruct (for_entries_refines root ns cur t_mode _ Hatc _ _ _ _ Hgood Hwf1 Ef)
      as (_ & _ & _ & Hnew & _ & _).
    rewrite for_entries_live_eq, Ef, filter_appeared_same.
    assert (Hlt : stack_size fs1 (List.map resolve (directories st')) < fuel).
    { rewrite (stack_size_walk _ _ _ Hrest) in Hm'.
      assert (Hc : tsize_at (resolve cur) fs1 = S (esum es1))
        by (unfold tsize_at; rewrite Hd; reflexivity).
      lia. }
    apply (IH st' fs1 Hwf1 Hset1); [|exact Hok' | exact Hlt |].
    + intros s Hs. destruct (Hnew s Hs) as [H | (n & Hn & -> & Hv)].
      * apply Hat. right. exact H.
      * exists (ns ++ [n]). exact (at_child root ns cur n Hatc (Hgood n Hn) Hv).
    + rewrite Hl. apply List.Forall_app. split; [exact Hlog | exact Hall].
Qed.

(** A root that is a directory which can be enumerated passes
    [process_path_validation]. *)
Lemma process_path_validation_open root_path fs a :
  look (resolve root_path) fs = Some (KDir a) -> d_open a = None ->
  process_path_validation root_path fs = organize_status.success.
Proof.
  intros Hl Ho. destruct (look_dir_inv _ _ _ Hl) as (es & Hw).
  unfold process_path_validation, validate_path, probe_accessible, fs_exists,
    fs_is_directory, fs_list, fs_status.
  rewrite Hw, Ho. reflexivity.
Qed.

Lemma organize_directory_live_none fuel root_path t_mode fs :
  organize_directory_live (fun _ => false) fuel root_path t_mode fs
  = organize_directory fuel root_path t_mode fs.
Proof.
  unfold organize_directory_live, organize_directory.
  destruct (negb _); [reflexivity | apply organize_loop_live_none].
Qed.

(** C2. When a run of [organize_directory] returns [success], the next run
    on the tree it leaves, in the same mode, returns [success] as well, and
    every call of [handle_file] it makes answers
    [already_in_correct_location]: no file is moved.  This holds whatever
    the directory iterators of the two runs report of the folders created
    under them (for iterators that report none, the runs are those of
    [organize_directory]), for trees of regular files and directories whose
    directories list each name once; any number of rounds above the number
    of directories at and below the root is enough for the second run. *)
Theorem organize_directory_idempotent
        (reported reported' : string -> bool) (fuel fuel' : nat)
        (root_path : string) (t_mode : transfer_mode.t) (fs fs1 : node)
        (log : list organize_status.t) :
  wf fs ->
  root_path <> "" ->
  organize_directory_live reported fuel root_path t_mode fs
  = Ok (organize_status.success, log) fs1 ->
  tsize_at (resolve root_path) fs1 < fuel' ->
  exists log' fs2,
    organize_directory_live reported' fuel' root_path t_mode fs1
    = Ok (organize_status.success, log') fs2 /\
    Forall (fun s => s = organize_status.already_in_correct_location) log'.
Proof.
  intros Hwf _ E Hm. unfold organize_directory_live in E.
  destruct (negb _) eqn:Hv.
  { injection E as E _ _. rewrite E in Hv. discriminate Hv. }
  destruct (validated_root_ok root_path fs Hv) as [_ Hroot].
  apply List.Forall_cons_iff in Hroot as [Hroot _].
  assert (Hat0 : forall s, In s [root_path] -> exists ns, at_path root_path ns s)
    by (intros s [<- | []]; exists []; constructor).
  assert (Hcut0 : settled_but root_path [root_path] fs).
  { intros ms _ Hcut. exfalso.
    apply (Hcut root_path (or_introl eq_refl)). exists ms. reflexivity. }
  destruct (organize_loop_live_settles reported root_path t_mode fuel
              {| directories := [root_path]; handled := [] |} fs log fs1 Hwf
              Hat0 Hcut0 Hroot E) as (Hwf1 & Hset1 & a1 & Hroot1).
  pose proof (Hset1 [] (List.Forall_nil _) a1) as H1. rewrite app_nil_r in H1.
  destruct (H1 Hroot1) as [Ho _].
  unfold organize_directory_live.
  rewrite (process_path_validation_open root_path fs1 a1 Hroot1 Ho).
  cbn [organize_status.eqb negb].
  destruct (organize_loop_live_in_place reported' root_path t_mode fuel'
              {| directories := [root_path]; handled := [] |} fs1 Hwf1 Hset1)
    as (log' & fs2 & E2 & Hall & _).
  - exact Hat0.
  - cbn [directories List.map]. split; [split; [constructor | exact I] |].
    constructor; [exists a1; exact Hroot1 | constructor].
  - cbn [directories List.map stack_size]. lia.
  - constructor.
  - exists log', fs2. split; [exact E2 | exact Hall].
Qed.

Lemma organize_directory_idempotent_witness :
  exists log fs1 log' fs2,
    organize_directory_live (fun _ => true) 6 "root" transfer_mode.atomic_transfer_mode
                            fs_capital_misplaced
    = Ok (organize_status.success, log) fs1 /\
    organize_directory_live (fun _ => true) 6 "root" transfer_mode.atomic_transfer_mode fs1
    = Ok (organize_status.success, log') fs2 /\
    Forall (fun s => s = organize_status.already_in_correct_location) log' /\
    length log' = 2.
Proof.
  destruct (organize_directory_live (fun _ => true) 6 "root"
              transfer_mode.atomic_transfer_mode fs_capital_misplaced)
    as [[s log] fs1| |] eqn:E; [|vm_compute in E; discriminate E..].
  assert (Hs : s = organize_status.success)
    by (vm_compute in E; injection E as <- _ _; reflexivity).
  subst s.
  assert (Hwf : wf fs_capital_misplaced) by (apply wfb_sound; vm_compute; reflexivity).
  assert (Hne : "root" <> "") by (intros H; discriminate H).
  assert (Hm : tsize_at (resolve "root") fs1 < 6)
    by (vm_compute in E; injection E as _ <-; vm_compute; lia).
  destruct (organize_directory_idempotent (fun _ => true) (fun _ => true) 6 6 "root"
              transfer_mode.atomic_transfer_mode fs_capital_misplaced fs1 log
              Hwf Hne E Hm) as (log' & fs2 & E2 & Hall).
  exists log, fs1, log', fs2. split; [reflexivity |]. split; [exact E2 |].
  split; [exact Hall |].
  vm_compute in E. injection E as _ <-. vm_compute in E2. injection E2 as <- _.
  reflexivity.
Defined.
